(* ===== verification/_CoqProject ===== *)
-Q . S2P
Prelude.v
GoStrings.v
GoTime.v
GoNet.v
GoHttp.v
Config.v
Domain.v
RdapModels.v
GoJson.v
GoJsonFuel.v
GoJsonEncode.v
RdapJson.v
Rdap.v
GoRegexp.v
Store.v
MemoryStore.v
Service.v
RdapTypes.v
Mapping.v
Sql.v
SqlStore.v
Postgres.v
Mysql.v
Handlers.v
Wire.v
Client.v
ClientIP.v
Auth.v
AuthShared.v
Middleware.v
Server.v
ServerShared.v
Whois.v
WhoisServer.v
Metrics.v
Rdapd.v
System.v
