(* ===== verification/Prelude.v ===== *)
(** * Verification of go-rdap-server

    A model of the RDAP server of this repository (all paths below are under
    src/) with the theorems that make it correct.  The definitions are executable
    translations of the Go code and are named after it; the claim ids C1, C2, ...
    in the doc comments number the properties in order of importance.

    ** The program and how its parts interact

    The process (cmd/rdapd/main.go) loads the configuration (internal/config),
    opens one of three stores through the storage boundary (internal/store), starts
    the metrics server (internal/metrics), the WHOIS gateway (internal/whois) and
    the RDAP server (internal/server), waits for a signal and shuts them down.

    A request enters the middleware chain of the server: the client address is
    resolved, response headers are set, the bearer token is checked when
    authentication is on, and the router calls a handler (internal/handlers).  A
    handler validates its path parameter (internal/rdap), asks the query service
    (internal/service), which reads the store and maps the canonical registry
    objects (internal/domain) to RDAP wire objects (internal/rdap/models.go); the
    handler encodes the object or an error as JSON.  The WHOIS gateway renders the
    same store's aggregates as text.  The configuration fixes the mode, the
    extensions and the limits.

    ** Files

    Shared ground:
    - Prelude: errors with [errors.Is], the result monad, iteration over Go maps
      ([MapRange]: an unspecified order, so every theorem that mentions it holds
      for all orders), the search loop shared by the stores, tactics, hints.
    - GoStrings: bytes, UTF-8, strings, strconv.  GoTime: instants, the civil
      calendar, RFC 3339, durations.  GoNet: net/netip and net addresses, CIDR
      masks, host and port.  GoHttp: URLs, queries, requests, responses.
      GoRegexp: the regular expressions the program builds.  GoJson: the parser of
      JSON texts and the decoder into Go types.  GoJsonFuel: the parser has fuel
      enough.  GoJsonEncode: the encoder, and that the parser reads back what it
      writes.  These model the part of the Go standard library the program uses;
      each definition follows the library's documented algorithm.
    - Sql: what the adapters use of a database server: tables, statements,
      transactions with their isolation level, a [world] that other clients change
      between two statements.

    The program:
    - Config (Module config): config.go; records, defaults, validation, [Load].
    - Domain (Module domain): domain/models.go, domain/vcard.go.
    - RdapModels (Module rdap): rdap/models.go.  RdapJson (Module rdapjson): the
      JSON of these records.  Rdap: rdap/rdap.go; names, conformance, notices, help.
    - Store (Module store): store/store.go; the record of operations [Interface],
      the contract [StoreSpec] its clients are verified against, the dispatch
      [New].
    - MemoryStore (Module memory): store/memory.go; the maps as a record, every
      operation, and the instance of [StoreSpec].
    - Service (Module service): service/service.go, service/extensions.go.
      RdapTypes (Module rdaptypes): a specification, the object classes and members
      of RFC 9083, RFC 7095 and the extensions as a type system for JSON trees, and
      that what the service builds is typed.
    - Mapping (Module mapping): store/mapping.go, on the text of the columns.
    - SqlStore (Module sqlstore): what the two SQL adapters share; Postgres (Module
      postgres): store/postgres.go; Mysql (Module mysql): store/mysql.go; each
      operation as a computation of a session, and the instance of [StoreSpec].
    - Handlers (Module handlers): handlers/handlers.go, handlers/response.go; a
      handler is a function from the router's path parameters and the request to
      what it writes, a body being the value given to the JSON encoder.  Wire
      (Module wire): the bytes of the bodies.  Client (Module client): a
      specification, a reader of RDAP documents that looks members up in the text.
    - ClientIP (Module clientip): middleware/clientip.go.
    - Auth (Module auth): auth/auth.go; the key cache is a state passed through
      each call, a panic is an outcome.  AuthShared (Module shared): the calls of
      concurrent requests on one cache, as interleaved atomic steps.
    - Middleware (Module middleware): middleware/middleware.go, middleware/auth.go.
    - Server (Module server): server/server.go, the assembly.  ServerShared (Module
      concurrent): requests in flight together, on the machine of AuthShared.
    - Whois (Module whois): whois/whois.go, whois/render.go, whois/store.go.
      WhoisServer (Module gateway): the listener, the accept loop and the closing
      goroutine of whois/whois.go as a machine.
    - Metrics (Module metrics): metrics/metrics.go.
    - Rdapd (Module rdapd): cmd/rdapd/main.go; the process as the trace of its
      effects.  System (Module system): the process, the server and the bytes
      together.

    ** What the theorems show

    - Names and configuration (Rdap, Config): accepted names are exactly the LDH
      names up to case, blanks and the final dot; a configuration loads exactly when
      its file reads, decodes and, completed by the defaults, is valid;
      conformance arrays grow without duplicates; the mandatory notices are always
      there; formatted times read back.
    - Memory store: lookups by spelling, the aggregate is exactly the resolved
      references of the domain, searches and reverse search return matching objects,
      each once, bounded by the limit and all of them when it is not reached; the
      glob compiler means globs, the seeded store satisfies its invariant.
    - SQL stores: an aggregate is read from one snapshot whatever other sessions
      commit in between, a search returns the rows its pattern selects, with the
      LIKE characters the program leaves unescaped, the numeric range of a prefix is
      the set of its addresses, a network lookup finds a covering row, and both
      adapters meet [StoreSpec] like the memory store.
    - Service: over any store that meets [StoreSpec], a domain answer carries the
      stored identity, registrar and registrant, never a placeholder for a
      resolved contact; jCards are well formed and lose nothing; extensions appear
      exactly when enabled.
    - Handlers, Wire and Server: every route answers every request with one
      consistent body, whose bytes are one JSON document whatever the request or
      the store contributed, typed by the object class its route promises; which
      status for which input; limits are respected end to end; without accepted
      credentials no route is reached.
    - Client: from the bytes of a domain answer an independent reader gets exactly
      the stored identity, nameservers, entities, flags and instants; from those of a
      search or a reverse search exactly the objects the store found, in order; from
      those of an error its code and texts.
    - ClientIP and Auth: headers of untrusted peers have no influence, a trusted
      proxy's first forwarded address is believed; IPv4 entries are matched on their
      leading bits; accepted tokens are signed, unexpired, for the configured issuer
      and audience, and every field returned is the verified one; in every
      interleaving of concurrent validations the cache holds published, well-formed
      keys only, an accepted token is checked at the clock of the step that accepts
      it, and every call ends ([shared.alone_ValidateToken] relates the machine of a
      call alone to the sequential function).  ServerShared: every request ends,
      answered as the sequential server answers on the key cache of a moment of its
      flight.
    - Whois and Mapping: queries parse to known kinds, a domain query shows the
      stored domain line by line, private contacts influence nothing but the
      top-level registrant line, the vCard column reads back what the service
      writes.  WhoisServer: every accepted connection is waiting, with a handler or
      dropped with its listener; the accept loop ends once the context is cancelled,
      under a fair schedule.
    - Rdapd: a store opens exactly when its driver's constructor succeeds; every
      server that is started is stopped, the store is closed on every path, the
      gateway is cancelled before it is shut down.
    - System: every server the process starts answers with typed documents.

    Some theorems state what the code does where it departs from a comment or a
    document (wildcards in domain searches, IPv4-mapped CIDRs, telephone types, the
    WHOIS registrant line, the accept loop after a shutdown without a cancelled
    context).

    ** Parameters

    Third-party code is an argument: the YAML decoder and the file read of
    [config.Load], the IDNA package ([Idna]), the Unicode tables beyond ASCII
    ([UnicodeTables]), the regular-expression engine ([RegexpEngine], with
    [RegexpSpec] its documented meaning on the expressions built here and
    [glob_engine] an implementation), the JWT library ([JwtLibrary], [JwtSpec]) and
    the key server, the router and the go-chi, CORS and rate-limit wrappers
    ([server.library]), the database servers ([sql.world], [Dialect]) and their drivers ([Driver] and the constructors in
    [rdapd.databases]), the Prometheus registry ([metrics.Registry]), the sockets.
    Every witness instantiates them with concrete functions.

    ** Bounds and fuel

    Integers the program keeps in [int] are unbounded [Z]: no computation of the
    modelled code leaves 63 bits except through parsing, whose bounds are in the
    parsers ([Atoi], [ParseUint], [dtoi], the JWK exponent); the connection limits
    that are cast to 32 bits wrap ([postgres.int32]).  Recursion on bytes with
    multi-byte steps ([Utf8.segs], [parse_items]) takes the length of the text as
    fuel; every step consumes at least one byte, so it is enough
    ([segs_fuel_concat], [parse_render]).  The IPv6 loop has nine turns, each of
    which writes two of sixteen bytes ([v6_loop_enough]).
    The JSON parser takes twice the length of the text and two more: two levels of
    its recursion consume a byte, and more fuel changes no result
    ([parse_enough] in GoJsonFuel); its nesting limit is the one of encoding/json.
    The judgement of RdapTypes counts the nesting of a document; no answer exceeds
    [wire.max_depth], far below that limit.

    ** Not modelled

    The logger (the request log of the middleware is), durations and deadlines of
    connections, the signal channel, and locks other than as the atomicity of the
    steps in AuthShared and WhoisServer: the memory store has no writer after its
    construction.  ServerShared stands inside the third-party wrappers and the
    request log.  The text of errors of third-party code is whatever that code
    says. *)

From stdpp Require Import base tactics option list gmap strings pretty.
From Stdlib Require Import ZArith Lia.
#[local] Open Scope Z_scope.

(** ** Errors and fallible computations

    A Go [error] is an opaque value with a message.  [ErrSentinel] is a
    package-level [errors.New] value, compared by identity in [errors.Is]
    (the sentinels of this program have pairwise distinct messages, so the
    message is the identity); [ErrText] is the result of [fmt.Errorf] without
    [%w], and [ErrWrap] the result of [fmt.Errorf "pre: %w"]. *)
Inductive error : Type :=
  | ErrText (msg : string)
  | ErrSentinel (msg : string)
  | ErrWrap (pre : string) (e : error).

(** [err.Error()] *)
Fixpoint error_message (e : error) : string :=
  match e with
  | ErrText m | ErrSentinel m => m
  | ErrWrap pre e => String.append pre (error_message e)
  end.

(** [errors.Is(err, target)] for a sentinel target. *)
Fixpoint errors_Is (e : error) (target : string) : bool :=
  match e with
  | ErrText _ => false
  | ErrSentinel m => String.eqb m target
  | ErrWrap _ e => errors_Is e target
  end.

(** A Go function with results [(A, error)]. *)
Inductive result (A : Type) : Type :=
  | Ok (a : A)
  | Err (e : error).
Arguments Ok {_} _.
Arguments Err {_} _.

#[export] Instance result_ret : MRet result := @Ok.
#[export] Instance result_bind : MBind result := fun A B f r =>
  match r with Ok a => f a | Err e => Err e end.
#[export] Instance result_fmap : FMap result := fun A B f r =>
  match r with Ok a => Ok (f a) | Err e => Err e end.

(** [is_ok r]: the error result is nil. *)
Definition is_ok {A} (r : result A) : bool :=
  match r with Ok _ => true | Err _ => false end.

#[export] Instance error_eq_dec : EqDecision error.
Proof. solve_decision. Defined.
#[export] Instance result_eq_dec {A} `{EqDecision A} : EqDecision (result A).
Proof. solve_decision. Defined.

(** ** Ranging over a Go map

    The order in which [for k, v := range m] visits a map is unspecified.
    [MapRange] is one such choice; every theorem quantifies over it. *)
Class MapRange := {
  map_range : forall {A}, gmap string A -> list (string * A);
  map_range_perm : forall {A} (m : gmap string A), map_range m ≡ₚ map_to_list m
}.

(** Two concrete iteration orders, used by the witnesses. *)
#[refine] Definition range_forward : MapRange := {| map_range A m := map_to_list m |}.
Proof. done. Defined.

#[refine] Definition range_backward : MapRange :=
  {| map_range A m := reverse (map_to_list m) |}.
Proof. intros A m. apply reverse_Permutation. Defined.

(** ** The search loop shared by every store search

    [for _, x := range xs { if p(x) { results = append(results, x);
     if limit > 0 && len(results) >= limit { break } } }] *)
Fixpoint search_loop {A} (p : A -> bool) (limit : Z) (acc xs : list A) : list A :=
  match xs with
  | [] => acc
  | x :: xs' =>
      if p x then
        let acc' := acc ++ [x] in
        if (0 <? limit) && (limit <=? Z.of_nat (length acc')) then acc'
        else search_loop p limit acc' xs'
      else search_loop p limit acc xs'
  end.

(** ** Proof automation *)

(** Split the conditionals and matches of the goal or a hypothesis. *)
Ltac go_split :=
  repeat match goal with
  | H : Ok _ = Ok _ |- _ => injection H as H; subst
  | H : Some _ = Some _ |- _ => injection H as H; subst
  | H : Err _ = Ok _ |- _ => discriminate H
  | H : Ok _ = Err _ |- _ => discriminate H
  | H : None = Some _ |- _ => discriminate H
  | H : context [match ?x with _ => _ end] |- _ => destruct x eqn:?; try discriminate H
  | |- context [match ?x with _ => _ end] => destruct x eqn:?
  end.

(** Turn boolean connectives and comparisons into propositions. *)
Ltac to_prop :=
  repeat match goal with
  | H : (_ && _)%bool = true |- _ => apply andb_true_iff in H as [? ?]
  | H : (_ || _)%bool = false |- _ => apply orb_false_iff in H as [? ?]
  | H : (_ && _)%bool = false |- _ => apply andb_false_iff in H
  | H : (_ || _)%bool = true |- _ => apply orb_true_iff in H
  | H : negb _ = true |- _ => apply negb_true_iff in H
  | H : negb _ = false |- _ => apply negb_false_iff in H
  | H : (_ <? _)%Z = true |- _ => apply Z.ltb_lt in H
  | H : (_ <? _)%Z = false |- _ => apply Z.ltb_ge in H
  | H : (_ <=? _)%Z = true |- _ => apply Z.leb_le in H
  | H : (_ <=? _)%Z = false |- _ => apply Z.leb_gt in H
  | H : (_ =? _)%Z = true |- _ => apply Z.eqb_eq in H
  | H : (_ =? _)%Z = false |- _ => apply Z.eqb_neq in H
  | H : String.eqb _ _ = true |- _ => apply String.eqb_eq in H
  | H : String.eqb _ _ = false |- _ => apply String.eqb_neq in H
  end.

Create HintDb go.
Create Rewrite HintDb go_rw.

(** ** Lemmas *)

Lemma map_range_elem `{MapRange} {A} (m : gmap string A) k v :
  (k, v) ∈ map_range m <-> m !! k = Some v.
Proof. rewrite map_range_perm. apply elem_of_map_to_list. Qed.

Lemma map_range_NoDup_fst `{MapRange} {A} (m : gmap string A) :
  NoDup (map_range m).*1.
Proof. rewrite map_range_perm. apply NoDup_fst_map_to_list. Qed.

(** The loop computes the first [limit] matching elements (all of them when
    [limit] is not positive). *)
Lemma search_loop_acc {A} (p : A -> bool) limit (xs acc : list A) :
  (0 < limit -> Z.of_nat (length acc) < limit) ->
  search_loop p limit acc xs =
    acc ++ (if 0 <? limit then take (Z.to_nat limit - length acc) (List.filter p xs)
            else List.filter p xs).
Proof.
  revert acc. induction xs as [|x xs IH]; intros acc Hacc; simpl.
  { destruct (0 <? limit); by rewrite ?take_nil, app_nil_r. }
  destruct (p x); [|by rewrite IH].
  rewrite length_app; simpl.
  destruct (0 <? limit) eqn:Hl; simpl; to_prop.
  - specialize (Hacc Hl).
    destruct (limit <=? Z.of_nat (length acc + 1)) eqn:Hle; to_prop.
    + replace (Z.to_nat limit - length acc)%nat with 1%nat by lia.
      simpl. by rewrite take_0.
    + rewrite IH by (rewrite length_app; simpl; lia).
      rewrite <-app_assoc; simpl. f_equal.
      replace (0 <? limit) with true by (symmetry; apply Z.ltb_lt; lia).
      rewrite length_app; simpl.
      replace (Z.to_nat limit - length acc)%nat
        with (S (Z.to_nat limit - (length acc + 1))) by lia.
      done.
  - rewrite IH by lia.
    replace (0 <? limit) with false by (symmetry; apply Z.ltb_ge; lia).
    by rewrite <-app_assoc.
Qed.

Lemma search_loop_spec {A} (p : A -> bool) limit (xs : list A) :
  search_loop p limit [] xs =
    if 0 <? limit then take (Z.to_nat limit) (List.filter p xs) else List.filter p xs.
Proof.
  rewrite search_loop_acc by (simpl; lia). simpl. by rewrite Nat.sub_0_r.
Qed.

Lemma search_loop_bound {A} (p : A -> bool) limit (xs : list A) :
  0 < limit -> Z.of_nat (length (search_loop p limit [] xs)) <= limit.
Proof.
  intros H. rewrite search_loop_spec.
  replace (0 <? limit) with true by (symmetry; apply Z.ltb_lt; lia).
  rewrite length_take. lia.
Qed.

Lemma search_loop_sublist {A} (p : A -> bool) limit (xs : list A) :
  sublist (search_loop p limit [] xs) xs.
Proof.
  rewrite search_loop_spec.
  assert (Hf : sublist (List.filter p xs) xs).
  { induction xs as [|x xs IH]; simpl; [constructor|]. destruct (p x); by constructor. }
  destruct (0 <? limit); [|done]. etrans; [|exact Hf]. apply sublist_take.
Qed.

Lemma search_loop_elem {A} (p : A -> bool) limit (xs : list A) x :
  x ∈ search_loop p limit [] xs -> x ∈ xs /\ p x = true.
Proof.
  rewrite search_loop_spec. intros Hx.
  assert (Hin : x ∈ List.filter p xs).
  { destruct (0 <? limit); [|done]. by eapply elem_of_take in Hx as (i & ? & ?);
      apply list_elem_of_lookup_2 in H. }
  by rewrite list_elem_of_In, List.filter_In, <-list_elem_of_In in Hin.
Qed.

Lemma search_loop_complete {A} (p : A -> bool) limit (xs : list A) x :
  limit <= 0 -> x ∈ xs -> p x = true -> x ∈ search_loop p limit [] xs.
Proof.
  intros Hl Hx Hp. rewrite search_loop_spec.
  replace (0 <? limit) with false by (symmetry; apply Z.ltb_ge; lia).
  by rewrite list_elem_of_In, List.filter_In, <-list_elem_of_In.
Qed.

#[export] Hint Resolve search_loop_bound search_loop_sublist : go.
