(* ===== verification/GoStrings.v ===== *)
(** * Go strings

    The parts of Go's [unicode/utf8], [strings] and [strconv] packages the
    program uses, as executable functions.  A Go string is a byte sequence and
    is modelled by Rocq's [string], whose [ascii] characters are bytes; the
    functions are written over [list ascii].  Unicode's case tables are the
    only parameter ([UnicodeTables]): the ASCII range is computed. *)

From stdpp Require Import base tactics option list gmap strings pretty.
From Stdlib Require Import ZArith Lia Ascii.
From S2P Require Import Prelude.
#[local] Open Scope Z_scope.

(** ** Bytes *)

Definition bs (s : string) : list ascii := String.list_ascii_of_string s.
Definition sb (l : list ascii) : string := String.string_of_list_ascii l.

(** A byte as a number in [0, 256). *)
Definition byte (c : ascii) : Z := Z.of_N (Ascii.N_of_ascii c).
Definition of_byte (z : Z) : ascii := Ascii.ascii_of_N (Z.to_N z).

(** [len(s)] *)
Definition len (s : string) : Z := Z.of_nat (length (bs s)).

(** The double quote, which string literals cannot hold conveniently, and CRLF. *)
Definition dquote : ascii := Ascii.ascii_of_nat 34.
Definition crlf : string :=
  String (Ascii.ascii_of_nat 13) (String (Ascii.ascii_of_nat 10) EmptyString).
(** [quoted s] is [s] with every grave accent replaced by a double quote; it
    keeps JSON literals of the source readable. *)
Definition quoted (s : string) : string :=
  sb ((fun c => if decide (c = "`"%char) then dquote else c) <$> bs s).

Definition in_range (lo hi : Z) (z : Z) : bool := (lo <=? z) && (z <=? hi).
Definition is_digit (c : ascii) : bool := in_range 48 57 (byte c).
Definition is_upper (c : ascii) : bool := in_range 65 90 (byte c).
Definition is_lower (c : ascii) : bool := in_range 97 122 (byte c).
Definition is_ascii_byte (c : ascii) : bool := byte c <? 128.
Definition lower_byte (c : ascii) : ascii :=
  if is_upper c then of_byte (byte c + 32) else c.
Definition all_ascii (l : list ascii) : bool := forallb is_ascii_byte l.

(** ** unicode/utf8 *)

Module Utf8.

Definition RuneError : Z := 65533.

Definition cont (l : list ascii) (i : nat) : Z := from_option byte 0 (l !! i).
Definition cont_ok (l : list ascii) (i : nat) : bool := in_range 128 191 (cont l i).

(** [utf8.DecodeRuneInString]: the first rune and its width in bytes; an
    invalid encoding gives [RuneError] and width 1. *)
Definition decode_rune (l : list ascii) : Z * nat :=
  match l with
  | [] => (RuneError, 0%nat)
  | c :: _ =>
      let x := byte c in
      let c1 := cont l 1 in
      let r2 := (x - 192) * 64 + (c1 - 128) in
      let r3 := (x - 224) * 4096 + (c1 - 128) * 64 + (cont l 2 - 128) in
      let r4 := (x - 240) * 262144 + (c1 - 128) * 4096
                + (cont l 2 - 128) * 64 + (cont l 3 - 128) in
      let lo := if x =? 224 then 160 else if x =? 240 then 144 else 128 in
      let hi := if x =? 237 then 159 else if x =? 244 then 143 else 191 in
      if x <? 128 then (x, 1%nat)
      else if in_range 194 223 x && cont_ok l 1 then (r2, 2%nat)
      else if in_range 224 239 x && in_range lo hi c1 && cont_ok l 2 then (r3, 3%nat)
      else if in_range 240 244 x && in_range lo hi c1 && cont_ok l 2 && cont_ok l 3
      then (r4, 4%nat)
      else (RuneError, 1%nat)
  end.

(** The runes of a string with the bytes each was decoded from, as
    [for _, r := range s] visits them. *)
Fixpoint segs_fuel (n : nat) (l : list ascii) : list (Z * list ascii) :=
  match n, l with
  | S n, _ :: _ =>
      let '(r, w) := decode_rune l in (r, take w l) :: segs_fuel n (drop w l)
  | _, _ => []
  end.
Definition segs (l : list ascii) : list (Z * list ascii) := segs_fuel (length l) l.
Definition runes (l : list ascii) : list Z := (segs l).*1.

(** [for i, r := range s]: byte offsets and runes. *)
Fixpoint offsets (i : Z) (ss : list (Z * list ascii)) : list (Z * Z) :=
  match ss with
  | [] => []
  | (r, w) :: ss => (i, r) :: offsets (i + Z.of_nat (length w)) ss
  end.
Definition range_string (s : string) : list (Z * Z) := offsets 0 (segs (bs s)).

(** [utf8.EncodeRune]; surrogates and out-of-range runes encode [RuneError]. *)
Definition encode_rune (r : Z) : list ascii :=
  let r := if (r <? 0) || (1114111 <? r) || in_range 55296 57343 r
           then RuneError else r in
  if r <? 128 then [of_byte r]
  else if r <? 2048 then [of_byte (192 + r / 64); of_byte (128 + r mod 64)]
  else if r <? 65536 then
    [of_byte (224 + r / 4096); of_byte (128 + r / 64 mod 64); of_byte (128 + r mod 64)]
  else
    [of_byte (240 + r / 262144); of_byte (128 + r / 4096 mod 64);
     of_byte (128 + r / 64 mod 64); of_byte (128 + r mod 64)].

End Utf8.

(** ** unicode

    The simple case mapping, the simple case-folding classes and the printable
    class of runes at or above U+0080 come from Unicode's tables. *)
Class UnicodeTables := {
  table_to_lower : Z -> Z;
  table_same_fold : Z -> Z -> bool;
  table_is_print : Z -> bool
}.

(** Tables without any letter outside ASCII, for the witnesses. *)
Definition ascii_tables : UnicodeTables := {|
  table_to_lower r := r;
  table_same_fold r1 r2 := r1 =? r2;
  table_is_print r := false
|}.

(** [unicode.IsSpace] *)
Definition is_space (r : Z) : bool :=
  in_range 9 13 r || (r =? 32) || (r =? 133) || (r =? 160) || (r =? 5760)
  || in_range 8192 8202 r || (r =? 8232) || (r =? 8233) || (r =? 8239)
  || (r =? 8287) || (r =? 12288).

Definition rune_to_lower `{UnicodeTables} (r : Z) : Z :=
  if r <? 128 then (if in_range 65 90 r then r + 32 else r) else table_to_lower r.

(** One step of [strings.EqualFold] on two runes. *)
Definition rune_equal_fold `{UnicodeTables} (a b : Z) : bool :=
  if a =? b then true
  else
    let lo := Z.min a b in
    let hi := Z.max a b in
    if hi <? 128 then in_range 65 90 lo && (hi =? lo + 32)
    else table_same_fold lo hi.

(** ** strings *)

(** [strings.Split] with a one-byte separator, on bytes. *)
Fixpoint split_bytes (c : ascii) (l : list ascii) : list (list ascii) :=
  match l with
  | [] => [[]]
  | x :: l' =>
      if decide (x = c) then [] :: split_bytes c l'
      else match split_bytes c l' with
           | [] => [[x]]
           | y :: ys => (x :: y) :: ys
           end
  end.

Fixpoint index_byte (c : ascii) (l : list ascii) : option nat :=
  match l with
  | [] => None
  | x :: l' => if decide (x = c) then Some 0%nat else S <$> index_byte c l'
  end.

Fixpoint last_index_byte (c : ascii) (l : list ascii) : option nat :=
  match l with
  | [] => None
  | x :: l' =>
      match last_index_byte c l' with
      | Some i => Some (S i)
      | None => if decide (x = c) then Some 0%nat else None
      end
  end.

Fixpoint has_prefix (p l : list ascii) : bool :=
  match p, l with
  | [], _ => true
  | _ :: _, [] => false
  | x :: p', y :: l' => bool_decide (x = y) && has_prefix p' l'
  end.

(** [strings.Index] *)
Fixpoint index_of (sub l : list ascii) : option nat :=
  if has_prefix sub l then Some 0%nat
  else match l with
       | [] => None
       | _ :: l' => S <$> index_of sub l'
       end.

Fixpoint drop_while {A} (p : A -> bool) (l : list A) : list A :=
  match l with
  | [] => []
  | x :: l' => if p x then drop_while p l' else l
  end.

Definition drop_while_end {A} (p : A -> bool) (l : list A) : list A :=
  reverse (drop_while p (reverse l)).

(** Maximal runs of elements that do not satisfy [p] ([strings.FieldsFunc]). *)
Fixpoint fields_go (p : (Z * list ascii) -> bool) (cur : list ascii)
    (l : list (Z * list ascii)) : list (list ascii) :=
  match l with
  | [] => if decide (cur = []) then [] else [cur]
  | x :: l' =>
      if p x then (if decide (cur = []) then [] else [cur]) ++ fields_go p [] l'
      else fields_go p (cur ++ x.2) l'
  end.

Module Strings.

Definition HasPrefix (s p : string) : bool := has_prefix (bs p) (bs s).
Definition HasSuffix (s p : string) : bool :=
  has_prefix (reverse (bs p)) (reverse (bs s)).
Definition TrimPrefix (s p : string) : string :=
  if HasPrefix s p then sb (drop (length (bs p)) (bs s)) else s.
Definition TrimSuffix (s p : string) : string :=
  if HasSuffix s p then sb (take (length (bs s) - length (bs p)) (bs s)) else s.
(** [strings.TrimRight] with a one-byte cutset *)
Definition TrimRight (s : string) (c : ascii) : string :=
  sb (drop_while_end (fun x => bool_decide (x = c)) (bs s)).
Definition Contains (s : string) (c : ascii) : bool :=
  bool_decide (c ∈ bs s).
Definition Split (s : string) (c : ascii) : list string := sb <$> split_bytes c (bs s).
Definition Join (l : list string) (sep : string) : string := String.concat sep l.
(** [strings.ReplaceAll] of a one-byte string *)
Definition ReplaceAll (s : string) (old : ascii) (new : string) : string :=
  sb (concat ((fun c => if decide (c = old) then bs new else [c]) <$> bs s)).
Definition space_seg (x : Z * list ascii) : bool := is_space x.1.
Definition TrimSpace (s : string) : string :=
  sb (concat (drop_while_end space_seg (drop_while space_seg (Utf8.segs (bs s)))).*2).
Definition Fields (s : string) : list string :=
  sb <$> fields_go space_seg [] (Utf8.segs (bs s)).
(** ASCII strings are lowered byte by byte; others rune by rune
    ([strings.Map] drops the runes the mapping makes negative). *)
Definition ToLower `{UnicodeTables} (s : string) : string :=
  if all_ascii (bs s) then sb (lower_byte <$> bs s)
  else sb (concat ((fun r => let r' := rune_to_lower r in
                             if r' <? 0 then [] else Utf8.encode_rune r')
                   <$> Utf8.runes (bs s))).
Fixpoint fold_runes `{UnicodeTables} (a b : list Z) : bool :=
  match a, b with
  | [], [] => true
  | x :: a, y :: b => rune_equal_fold x y && fold_runes a b
  | _, _ => false
  end.
Definition EqualFold `{UnicodeTables} (s t : string) : bool :=
  fold_runes (Utf8.runes (bs s)) (Utf8.runes (bs t)).

End Strings.

(** ** strconv *)

(** The decimal value of a digit string; [None] when it is empty or holds
    another byte. *)
Fixpoint digits_go (acc : Z) (l : list ascii) : option Z :=
  match l with
  | [] => Some acc
  | c :: l' => if is_digit c then digits_go (acc * 10 + (byte c - 48)) l' else None
  end.
Definition digits (l : list ascii) : option Z :=
  match l with [] => None | _ => digits_go 0 l end.

Module Strconv.

(** [strconv.ParseUint(s, 10, bits)] *)
Definition ParseUint (s : string) (bits : Z) : option Z :=
  n ← digits (bs s); if n <? 2 ^ bits then Some n else None.
(** [strconv.Atoi], with a 64-bit [int] *)
Definition Atoi (s : string) : option Z :=
  match bs s with
  | c :: l' =>
      if decide (c = "-"%char) then
        n ← digits l'; if n <=? 2 ^ 63 then Some (- n) else None
      else if decide (c = "+"%char) then
        n ← digits l'; if n <? 2 ^ 63 then Some n else None
      else n ← digits (c :: l'); if n <? 2 ^ 63 then Some n else None
  | [] => None
  end.
(** [strconv.Itoa], and the [%d] verb *)
Definition Itoa (z : Z) : string := pretty z.

(** [strconv.Quote], and the [%q] verb *)
Definition hex_lower (d : Z) : ascii := of_byte (if d <? 10 then 48 + d else 87 + d).
Fixpoint hex_pad (n : nat) (z : Z) : list ascii :=
  match n with
  | O => []
  | S n => hex_pad n (z / 16) ++ [hex_lower (z mod 16)]
  end.
Definition backslash : ascii := Ascii.ascii_of_nat 92.
Definition quote_rune `{UnicodeTables} (x : Z * list ascii) : list ascii :=
  let '(r, w) := x in
  let esc (c : ascii) := [backslash; c] in
  if (r =? Utf8.RuneError) && (length w =? 1)%nat
  then esc "x"%char ++ hex_pad 2 (from_option byte 0 (head w))
  else if (r =? 34) || (r =? 92) then backslash :: w
  else if (if r <? 128 then in_range 32 126 r else table_is_print r) then w
  else if r =? 7 then esc "a"%char else if r =? 8 then esc "b"%char
  else if r =? 12 then esc "f"%char else if r =? 10 then esc "n"%char
  else if r =? 13 then esc "r"%char else if r =? 9 then esc "t"%char
  else if r =? 11 then esc "v"%char
  else if (r <? 32) || (r =? 127) then esc "x"%char ++ hex_pad 2 r
  else if r <? 65536 then esc "u"%char ++ hex_pad 4 r
  else esc "U"%char ++ hex_pad 8 r.
Definition Quote `{UnicodeTables} (s : string) : string :=
  sb (dquote :: concat (quote_rune <$> Utf8.segs (bs s)) ++ [dquote]).

(** The [%v] verb on a string slice *)
Definition Show_strings (l : list string) : string :=
  "[" +:+ String.concat " " l +:+ "]".

End Strconv.

(** ** Lemmas: bytes *)

Lemma sb_bs s : sb (bs s) = s.
Proof. apply String.string_of_list_ascii_of_string. Qed.
Lemma bs_sb l : bs (sb l) = l.
Proof. apply String.list_ascii_of_string_of_list_ascii. Qed.
#[export] Instance bs_inj : Inj (=) (=) bs.
Proof. intros s t H. by rewrite <-(sb_bs s), <-(sb_bs t), H. Qed.
#[export] Instance sb_inj : Inj (=) (=) sb.
Proof. intros l k H. by rewrite <-(bs_sb l), <-(bs_sb k), H. Qed.
Lemma bs_app s t : bs (String.append s t) = bs s ++ bs t.
Proof.
  induction s as [|c s IH]; [done|].
  change (String.append (String c s) t) with (String c (String.append s t)).
  unfold bs in *. simpl. by rewrite IH.
Qed.
Lemma sb_app l k : sb (l ++ k) = String.append (sb l) (sb k).
Proof. apply (inj bs). by rewrite bs_app, !bs_sb. Qed.
Lemma bs_nil s : bs s = [] <-> s = "".
Proof. split; [|by intros ->]. intros H. by rewrite <-(sb_bs s), H. Qed.
#[export] Hint Rewrite sb_bs bs_sb bs_app sb_app : go_rw.

Lemma byte_bounds c : 0 <= byte c < 256.
Proof.
  unfold byte. pose proof (Ascii.N_ascii_bounded c) as H. lia.
Qed.
Lemma of_byte_byte c : of_byte (byte c) = c.
Proof. unfold of_byte, byte. rewrite N2Z.id. apply Ascii.ascii_N_embedding. Qed.
Lemma byte_of_byte z : 0 <= z < 256 -> byte (of_byte z) = z.
Proof.
  intros H. unfold of_byte, byte. rewrite Ascii.N_ascii_embedding by lia. lia.
Qed.
#[export] Instance byte_inj : Inj (=) (=) byte.
Proof. intros c d H. by rewrite <-(of_byte_byte c), <-(of_byte_byte d), H. Qed.

Lemma in_range_iff lo hi z : in_range lo hi z = true <-> lo <= z <= hi.
Proof. unfold in_range. rewrite andb_true_iff, !Z.leb_le. lia. Qed.
Lemma in_range_false lo hi z : in_range lo hi z = false <-> z < lo \/ hi < z.
Proof.
  unfold in_range. rewrite andb_false_iff, !Z.leb_gt. lia.
Qed.

(** [lower_byte] maps A-Z to a-z and fixes every other byte. *)
Lemma lower_byte_byte c :
  byte (lower_byte c) = if is_upper c then byte c + 32 else byte c.
Proof.
  unfold lower_byte. destruct (is_upper c) eqn:H; [|done].
  unfold is_upper in H. apply in_range_iff in H. rewrite byte_of_byte; lia.
Qed.
Lemma lower_byte_not_upper c : is_upper (lower_byte c) = false.
Proof.
  unfold is_upper at 1. rewrite lower_byte_byte.
  destruct (is_upper c) eqn:H; [|exact H].
  unfold is_upper in H. apply in_range_iff in H. apply in_range_false. lia.
Qed.
Lemma lower_byte_id c : is_upper c = false -> lower_byte c = c.
Proof. unfold lower_byte. by intros ->. Qed.
Lemma lower_byte_idemp c : lower_byte (lower_byte c) = lower_byte c.
Proof. apply lower_byte_id, lower_byte_not_upper. Qed.
Lemma lower_byte_ascii c : is_ascii_byte c = true -> is_ascii_byte (lower_byte c) = true.
Proof.
  unfold is_ascii_byte. rewrite lower_byte_byte, !Z.ltb_lt.
  destruct (is_upper c) eqn:H; [|done].
  unfold is_upper in H. apply in_range_iff in H. lia.
Qed.
Lemma all_ascii_Forall l : all_ascii l = true <-> Forall (fun c => byte c < 128) l.
Proof.
  unfold all_ascii. rewrite forallb_forall, Forall_forall.
  split; intros H x Hx.
  - apply list_elem_of_In in Hx. apply H in Hx. by apply Z.ltb_lt in Hx.
  - apply Z.ltb_lt, H. by apply list_elem_of_In.
Qed.
Lemma all_ascii_lower l : all_ascii l = true -> all_ascii (lower_byte <$> l) = true.
Proof.
  rewrite !all_ascii_Forall, Forall_fmap. intros H. eapply Forall_impl; [exact H|].
  intros c Hc. simpl. apply Z.ltb_lt, lower_byte_ascii, Z.ltb_lt, Hc.
Qed.

(** ** Lemmas: splitting and joining *)

Fixpoint join_bytes (c : ascii) (ls : list (list ascii)) : list ascii :=
  match ls with
  | [] => []
  | [l] => l
  | l :: ls' => l ++ c :: join_bytes c ls'
  end.

Lemma split_bytes_nonnil c l : split_bytes c l <> [].
Proof.
  destruct l as [|x l]; [done|]. simpl.
  destruct (decide (x = c)); [done|]. by destruct (split_bytes c l).
Qed.
Lemma split_bytes_no_sep c l : Forall (fun w => c ∉ w) (split_bytes c l).
Proof.
  induction l as [|x l IH]; simpl; [by repeat constructor; apply not_elem_of_nil|].
  destruct (decide (x = c)); [by constructor; [apply not_elem_of_nil|]|].
  destruct (split_bytes c l) as [|y ys].
  { constructor; [|done]. by rewrite list_elem_of_singleton. }
  apply Forall_cons in IH as [Hy Hys]. constructor; [|done].
  by rewrite not_elem_of_cons.
Qed.
Lemma join_bytes_cons c l ls :
  ls <> [] -> join_bytes c (l :: ls) = l ++ c :: join_bytes c ls.
Proof. by destruct ls. Qed.
Lemma join_split_bytes c l : join_bytes c (split_bytes c l) = l.
Proof.
  induction l as [|x l IH]; [done|]. simpl.
  destruct (decide (x = c)) as [->|].
  - rewrite join_bytes_cons by apply split_bytes_nonnil. by rewrite IH.
  - destruct (split_bytes c l) as [|y ys] eqn:E; [by destruct (split_bytes_nonnil c l)|].
    destruct ys as [|z zs]; simpl in *; by rewrite IH.
Qed.
Lemma split_bytes_app c w l :
  c ∉ w -> split_bytes c (w ++ c :: l) = w :: split_bytes c l.
Proof.
  induction w as [|x w IH]; intros Hw; simpl.
  { by rewrite decide_True. }
  apply not_elem_of_cons in Hw as [Hx Hw].
  rewrite decide_False by congruence. by rewrite IH.
Qed.
Lemma split_bytes_single c w : c ∉ w -> split_bytes c w = [w].
Proof.
  induction w as [|x w IH]; intros Hw; simpl; [done|].
  apply not_elem_of_cons in Hw as [Hx Hw].
  rewrite decide_False by congruence. by rewrite IH.
Qed.
Lemma split_join_bytes c ls :
  ls <> [] -> Forall (fun w => c ∉ w) ls -> split_bytes c (join_bytes c ls) = ls.
Proof.
  induction ls as [|w ls IH]; [done|]. intros _ [Hw Hls]%Forall_cons.
  destruct ls as [|w' ls]; [by apply split_bytes_single|].
  rewrite join_bytes_cons by done. rewrite split_bytes_app by done. by rewrite IH.
Qed.

(** ** Lemmas: UTF-8 *)

Lemma decode_rune_ascii c l : byte c < 128 -> Utf8.decode_rune (c :: l) = (byte c, 1%nat).
Proof.
  intros H. cbn -[Z.mul Z.sub Z.ltb byte].
  by replace (byte c <? 128) with true by (symmetry; apply Z.ltb_lt; lia).
Qed.
Lemma decode_rune_width c l :
  (1 <= (Utf8.decode_rune (c :: l)).2)%nat.
Proof. cbn -[Z.mul Z.sub Z.ltb byte in_range Utf8.cont Utf8.cont_ok]. go_split; simpl; lia. Qed.
Lemma segs_fuel_concat n l :
  (length l <= n)%nat -> concat (Utf8.segs_fuel n l).*2 = l.
Proof.
  revert l. induction n as [|n IH]; intros [|c l] Hn; try done; [simpl in Hn; lia|].
  cbn [Utf8.segs_fuel]. destruct (Utf8.decode_rune (c :: l)) as [r w] eqn:E.
  pose proof (decode_rune_width c l) as Hw. rewrite E in Hw. simpl in Hw.
  rewrite fmap_cons. cbn [concat snd].
  rewrite IH by (rewrite length_drop; simpl in *; lia).
  apply take_drop.
Qed.
Lemma segs_concat l : concat (Utf8.segs l).*2 = l.
Proof. by apply segs_fuel_concat. Qed.
Lemma segs_fuel_ascii n l :
  (length l <= n)%nat -> Forall (fun c => byte c < 128) l ->
  Utf8.segs_fuel n l = (fun c => (byte c, [c])) <$> l.
Proof.
  revert l. induction n as [|n IH]; intros [|c l] Hn Hl; try done; [simpl in Hn; lia|].
  apply Forall_cons in Hl as [Hc Hl]. cbn [Utf8.segs_fuel].
  rewrite decode_rune_ascii by done. simpl in *. rewrite drop_0, take_0.
  by rewrite IH by (done || lia).
Qed.
Lemma segs_ascii l :
  all_ascii l = true -> Utf8.segs l = (fun c => (byte c, [c])) <$> l.
Proof. intros H%all_ascii_Forall. by apply segs_fuel_ascii. Qed.
Lemma runes_ascii l : all_ascii l = true -> Utf8.runes l = byte <$> l.
Proof.
  intros H. unfold Utf8.runes. rewrite segs_ascii by done. by rewrite <-list_fmap_compose.
Qed.

(** ** Lemmas: strings *)

(** White space among ASCII bytes. *)
Definition space_byte (c : ascii) : bool := is_space (byte c).

Lemma drop_while_fmap {A B} (f : A -> B) (p : B -> bool) l :
  drop_while p (f <$> l) = f <$> drop_while (fun x => p (f x)) l.
Proof. induction l as [|x l IH]; [done|]. simpl. by destruct (p (f x)). Qed.
Lemma drop_while_end_fmap {A B} (f : A -> B) (p : B -> bool) l :
  drop_while_end p (f <$> l) = f <$> drop_while_end (fun x => p (f x)) l.
Proof.
  unfold drop_while_end. by rewrite <-fmap_reverse, drop_while_fmap, fmap_reverse.
Qed.
Lemma drop_while_all {A} (p : A -> bool) l :
  Forall (fun x => p x = false) l -> drop_while p l = l.
Proof. destruct 1 as [|x l Hx]; [done|]. simpl. by rewrite Hx. Qed.
Lemma drop_while_end_all {A} (p : A -> bool) l :
  Forall (fun x => p x = false) l -> drop_while_end p l = l.
Proof.
  intros H. unfold drop_while_end. rewrite drop_while_all.
  - apply reverse_involutive.
  - by apply Forall_reverse.
Qed.
Lemma drop_while_suffix {A} (p : A -> bool) l : exists k, l = k ++ drop_while p l.
Proof.
  induction l as [|x l [k IH]]; [by exists []|]. simpl.
  destruct (p x); [exists (x :: k); simpl; by rewrite <-IH|by exists []].
Qed.
Lemma drop_while_end_prefix {A} (p : A -> bool) l : exists k, l = drop_while_end p l ++ k.
Proof.
  destruct (drop_while_suffix p (reverse l)) as [k Hk]. exists (reverse k).
  unfold drop_while_end. by rewrite <-reverse_app, <-Hk, reverse_involutive.
Qed.
Lemma drop_while_head {A} (p : A -> bool) l x k :
  drop_while p l = x :: k -> p x = false.
Proof.
  induction l as [|y l IH]; [done|]. simpl. destruct (p y) eqn:E; [done|].
  by intros [= <- _].
Qed.
Lemma drop_while_end_last {A} (p : A -> bool) l x :
  last (drop_while_end p l) = Some x -> p x = false.
Proof.
  unfold drop_while_end. rewrite last_reverse.
  destruct (drop_while p (reverse l)) as [|y k] eqn:E; [done|].
  intros [= <-]. by apply drop_while_head in E.
Qed.
Lemma drop_while_end_head {A} (p : A -> bool) l x :
  head (drop_while_end p l) = Some x -> head l = Some x.
Proof.
  destruct (drop_while_end_prefix p l) as [k Hk]. rewrite Hk at 2.
  by destruct (drop_while_end p l).
Qed.

(** On ASCII strings [strings.TrimSpace] works byte by byte. *)
Lemma TrimSpace_ascii s :
  all_ascii (bs s) = true ->
  Strings.TrimSpace s = sb (drop_while_end space_byte (drop_while space_byte (bs s))).
Proof.
  intros H. unfold Strings.TrimSpace. rewrite segs_ascii by done.
  rewrite drop_while_fmap, drop_while_end_fmap, <-list_fmap_compose.
  f_equal. change (fun x => Strings.space_seg (byte x, [x])) with space_byte.
  induction (drop_while_end space_byte (drop_while space_byte (bs s))) as [|c l IH];
    [done|]. rewrite fmap_cons. simpl. by rewrite IH.
Qed.
Lemma TrimSpace_id s :
  all_ascii (bs s) = true -> Forall (fun c => space_byte c = false) (bs s) ->
  Strings.TrimSpace s = s.
Proof.
  intros Ha Hs. rewrite TrimSpace_ascii by done.
  rewrite drop_while_all, drop_while_end_all by done. apply sb_bs.
Qed.

Section Lowering.
Context `{UnicodeTables}.

Lemma ToLower_ascii s : all_ascii (bs s) = true -> Strings.ToLower s = sb (lower_byte <$> bs s).
Proof. intros Ha. unfold Strings.ToLower. by rewrite Ha. Qed.
Lemma ToLower_id s :
  all_ascii (bs s) = true -> Forall (fun c => is_upper c = false) (bs s) ->
  Strings.ToLower s = s.
Proof.
  intros Ha Hu. rewrite ToLower_ascii by done.
  rewrite <-(sb_bs s) at 2. f_equal.
  induction Hu as [|c l Hc Hu IH]; [done|]. rewrite fmap_cons, lower_byte_id by done.
  f_equal. apply IH. unfold all_ascii in *. simpl in Ha. to_prop. done.
Qed.
Lemma ToLower_idemp s :
  all_ascii (bs s) = true -> Strings.ToLower (Strings.ToLower s) = Strings.ToLower s.
Proof.
  intros Ha. rewrite (ToLower_ascii s) by done. apply ToLower_id.
  - rewrite bs_sb. by apply all_ascii_lower.
  - rewrite bs_sb, Forall_fmap. apply Forall_true. intros c. apply lower_byte_not_upper.
Qed.

Lemma rune_equal_fold_ascii c d :
  byte c < 128 -> byte d < 128 ->
  rune_equal_fold (byte c) (byte d) = bool_decide (lower_byte c = lower_byte d).
Proof.
  intros Hc Hd. pose proof (byte_bounds c) as Bc. pose proof (byte_bounds d) as Bd.
  apply eq_bool_prop_intro.
  rewrite bool_decide_spec, Is_true_true. rewrite <-(inj_iff byte), !lower_byte_byte.
  unfold rune_equal_fold, is_upper.
  destruct (byte c =? byte d) eqn:E; to_prop.
  { split; [|done]. intros _. by rewrite E. }
  replace (Z.max (byte c) (byte d) <? 128) with true by (symmetry; apply Z.ltb_lt; lia).
  rewrite andb_true_iff, in_range_iff, Z.eqb_eq.
  destruct (in_range 65 90 (byte c)) eqn:Uc; destruct (in_range 65 90 (byte d)) eqn:Ud;
    rewrite ?in_range_iff, ?in_range_false in *; lia.
Qed.
(** Case-insensitive equality of ASCII strings is equality of their lower forms. *)
Lemma EqualFold_ascii s t :
  all_ascii (bs s) = true -> all_ascii (bs t) = true ->
  Strings.EqualFold s t = bool_decide (Strings.ToLower s = Strings.ToLower t).
Proof.
  intros Hs Ht. rewrite !ToLower_ascii by done. unfold Strings.EqualFold.
  rewrite !runes_ascii by done. rewrite all_ascii_Forall in Hs, Ht.
  apply eq_bool_prop_intro. rewrite bool_decide_spec, (inj_iff sb), Is_true_true.
  revert Ht. generalize (bs t) as k. induction Hs as [|c l Hc Hs IH]; intros k Ht.
  { destruct Ht; [done|]. rewrite fmap_cons. done. }
  destruct Ht as [|d k Hd Ht]; [done|]. rewrite !fmap_cons. simpl.
  rewrite andb_true_iff, IH, rune_equal_fold_ascii, bool_decide_eq_true by done.
  split; [by intros [-> ->]|by intros [= -> ->]].
Qed.
End Lowering.

(** [strings.TrimSuffix] with a one-byte suffix. *)
Lemma TrimSuffix_snoc l c : Strings.TrimSuffix (sb (l ++ [c])) (sb [c]) = sb l.
Proof.
  unfold Strings.TrimSuffix, Strings.HasSuffix. rewrite !bs_sb, reverse_snoc. simpl.
  rewrite bool_decide_eq_true_2 by done. simpl. f_equal.
  rewrite length_app. simpl. rewrite take_app_le by lia. apply take_ge. lia.
Qed.
Lemma TrimSuffix_no l c : last l <> Some c -> Strings.TrimSuffix (sb l) (sb [c]) = sb l.
Proof.
  intros Hl. unfold Strings.TrimSuffix, Strings.HasSuffix. rewrite !bs_sb.
  destruct l as [|x l _] using rev_ind; [done|].
  rewrite last_snoc in Hl. rewrite reverse_snoc. simpl.
  by rewrite bool_decide_eq_false_2 by congruence.
Qed.

(** ** Lemmas: numbers *)

Lemma digits_go_app a l k :
  digits_go a (l ++ k) = n ← digits_go a l; digits_go n k.
Proof.
  revert a. induction l as [|c l IH]; intros a; [done|]. simpl.
  by destruct (is_digit c).
Qed.

Lemma pretty_N_char_digit d :
  (d < 10)%N ->
  is_digit (pretty_N_char d) = true /\ byte (pretty_N_char d) - 48 = Z.of_N d.
Proof.
  intros Hd.
  assert (d = 0 \/ d = 1 \/ d = 2 \/ d = 3 \/ d = 4 \/ d = 5 \/ d = 6 \/ d = 7
          \/ d = 8 \/ d = 9)%N as Hcase by lia.
  by destruct_or! Hcase; subst.
Qed.
Lemma digits_go_pretty x s :
  digits_go 0 (bs (pretty_N_go x s)) = digits_go (Z.of_N x) (bs s).
Proof.
  revert s. induction (N.lt_wf_0 x) as [x _ IH]; intros s.
  assert (x = 0 \/ 0 < x)%N as [->|Hx] by lia; [done|].
  rewrite pretty_N_go_step by done. rewrite IH by (apply N.div_lt; lia).
  destruct (pretty_N_char_digit (x `mod` 10)) as [Hd Hv].
  { apply N.mod_lt. lia. }
  change (bs (String ?c s)) with (c :: bs s). simpl digits_go.
  rewrite Hd. f_equal. rewrite Hv. rewrite N2Z.inj_div, N2Z.inj_mod.
  change (Z.of_N 10) with 10. rewrite Z.mul_comm. symmetry. by apply Z.div_mod.
Qed.
Lemma pretty_N_go_nonempty x s : (0 < x)%N -> pretty_N_go x s <> "".
Proof.
  revert s. induction (N.lt_wf_0 x) as [x _ IH]; intros s Hx.
  rewrite pretty_N_go_step by done.
  destruct (N.eq_0_gt_0_cases (N.div x 10)) as [->|?]; [done|].
  apply IH; [apply N.div_lt; lia|done].
Qed.
(** Decimal rendering followed by decimal parsing is the identity. *)
Lemma digits_Itoa n : 0 <= n -> digits (bs (Strconv.Itoa n)) = Some n.
Proof.
  intros Hn. unfold Strconv.Itoa. destruct n as [|p|p]; [done| |lia].
  unfold pretty, pretty_Z, pretty, pretty_positive, pretty, pretty_N.
  rewrite decide_False by done.
  pose proof (digits_go_pretty (N.pos p) "") as H. simpl Z.of_N in H.
  unfold digits. destruct (bs (pretty_N_go (N.pos p) "")) eqn:E; [|exact H].
  apply bs_nil in E. by apply pretty_N_go_nonempty in E.
Qed.
Lemma ParseUint_Itoa n bits :
  0 <= n < 2 ^ bits -> Strconv.ParseUint (Strconv.Itoa n) bits = Some n.
Proof.
  intros [Hn Hb]. unfold Strconv.ParseUint. rewrite digits_Itoa by done. simpl.
  by replace (n <? 2 ^ bits) with true by (symmetry; apply Z.ltb_lt; lia).
Qed.
Lemma digits_go_bound a l n :
  0 <= a -> digits_go a l = Some n -> a <= n.
Proof.
  revert a. induction l as [|c l IH]; simpl; intros a Ha H; [by simplify_eq|].
  destruct (is_digit c) eqn:Hc; [|done].
  unfold is_digit in Hc. apply in_range_iff in Hc.
  apply IH in H; lia.
Qed.
Lemma digits_nonneg l n : digits l = Some n -> 0 <= n.
Proof. destruct l; [done|]. intros H. by apply digits_go_bound in H. Qed.
Lemma ParseUint_bound s bits n :
  Strconv.ParseUint s bits = Some n -> 0 <= n < 2 ^ bits.
Proof.
  unfold Strconv.ParseUint. intros H.
  destruct (digits (bs s)) as [m|] eqn:E; [|done]. simpl in H.
  destruct (m <? 2 ^ bits) eqn:Hm; [|done]. simplify_eq. to_prop.
  split; [by eapply digits_nonneg|done].
Qed.

Lemma index_byte_elem c l i : index_byte c l = Some i -> c ∈ l.
Proof.
  revert i. induction l as [|x l IH]; intros i; simpl; [done|]. case_decide; [subst; by left|].
  destruct (index_byte c l); [|done]. intros _. right. by eapply IH.
Qed.

(** *** Fields of ASCII strings *)

(** A field: a non-empty run of non-blank bytes of the text. *)
Record field_of (l w : list ascii) : Prop := {
  field_nonempty : w <> [];
  field_nonblank : Forall (fun c => space_byte c = false) w;
  field_infix : exists a b, l = a ++ w ++ b
}.
Lemma fields_go_ascii cur l w :
  Forall (fun c => space_byte c = false) cur ->
  w ∈ fields_go Strings.space_seg cur ((fun c => (byte c, [c])) <$> l) -> field_of (cur ++ l) w.
Proof.
  revert cur. induction l as [|c l IH]; intros cur Hc Hw.
  - simpl in Hw. case_decide; [by apply not_elem_of_nil in Hw|].
    apply list_elem_of_singleton in Hw as ->. split; [done|done|]. by exists [], [].
  - rewrite fmap_cons in Hw. cbn [fields_go] in Hw.
    change (Strings.space_seg (byte c, [c])) with (space_byte c) in Hw.
    destruct (space_byte c) eqn:E.
    + apply elem_of_app in Hw as [Hw|Hw].
      * case_decide; [by apply not_elem_of_nil in Hw|].
        apply list_elem_of_singleton in Hw as ->. split; [done|done|]. by exists [], (c :: l).
      * apply IH in Hw as [H1 H2 (a & b & H3)]; [|done]. split; [done|done|].
        simpl in H3. exists (cur ++ c :: a), b. rewrite H3. by rewrite <-!app_assoc.
    + cbn [snd] in Hw. apply IH in Hw; [by rewrite <-app_assoc in Hw|].
      apply Forall_app. split; [done|by rewrite Forall_singleton].
Qed.
Lemma Fields_ascii s w :
  all_ascii (bs s) = true -> w ∈ Strings.Fields s -> field_of (bs s) (bs w).
Proof.
  intros Ha. unfold Strings.Fields. rewrite segs_ascii by done.
  intros (k & -> & Hk)%list_elem_of_fmap. rewrite bs_sb.
  by apply (fields_go_ascii []) in Hk.
Qed.
Lemma fields_go_nonnil p cur l :
  cur <> [] \/ (exists x, x ∈ l /\ p x = false /\ x.2 <> []) -> fields_go p cur l <> [].
Proof.
  revert cur. induction l as [|x l IH]; intros cur Hx; simpl.
  - destruct Hx as [Hx|(x & Hx & _)]; [by case_decide|by apply not_elem_of_nil in Hx].
  - destruct (p x) eqn:E.
    + destruct Hx as [Hx|(y & [->|Hy]%elem_of_cons & Hp & Hn)].
      * by case_decide.
      * congruence.
      * intros [_ Hf]%app_nil. revert Hf. apply IH. right. eauto.
    + apply IH. destruct Hx as [Hx|(y & [->|Hy]%elem_of_cons & Hp & Hn)].
      * left. by intros [? _]%app_nil.
      * left. by intros [_ ?]%app_nil.
      * right. eauto.
Qed.
(** A trimmed text that is not empty has a field. *)
Lemma Fields_TrimSpace s :
  all_ascii (bs s) = true -> Strings.TrimSpace s <> "" ->
  all_ascii (bs (Strings.TrimSpace s)) = true /\ Strings.Fields (Strings.TrimSpace s) <> [].
Proof.
  intros Ha. rewrite TrimSpace_ascii by done. rewrite bs_sb. intros Hn.
  set (t := drop_while_end space_byte (drop_while space_byte (bs s))) in *.
  assert (Hin : forall c, c ∈ t -> c ∈ bs s).
  { intros c Hc. destruct (drop_while_suffix space_byte (bs s)) as [k1 ->].
    destruct (drop_while_end_prefix space_byte (drop_while space_byte (bs s))) as [k2 ->].
    fold t. rewrite !elem_of_app. auto. }
  assert (At : all_ascii t = true).
  { apply all_ascii_Forall. apply all_ascii_Forall in Ha. rewrite Forall_forall in *. auto. }
  split; [done|]. unfold Strings.Fields. rewrite bs_sb, segs_ascii by done. intros Hf.
  apply fmap_nil_inv in Hf. revert Hf. apply fields_go_nonnil. right.
  destruct t as [|c l] eqn:Et; [done|]. exists (byte c, [c]). split; [left|]. split; [|done].
  change (space_byte c = false). destruct (drop_while space_byte (bs s)) as [|d k] eqn:Ed; [done|].
  pose proof (drop_while_end_head space_byte (d :: k) c) as Hh.
  fold t in Hh. rewrite Et in Hh. injection (Hh eq_refl) as <-. by apply drop_while_head in Ed.
Qed.

(** ** Lemmas: positions of a byte *)

Lemma not_elem_of_drop_le {A} (c : A) l j k :
  (j <= k)%nat -> (c ∉ drop j l) -> c ∉ drop k l.
Proof.
  intros Hj Hc Hin. apply Hc. replace k with (j + (k - j))%nat in Hin by lia.
  rewrite <-drop_drop in Hin. rewrite <-(take_drop (k - j) (drop j l)).
  apply elem_of_app. by right.
Qed.
Lemma last_index_byte_None c l : c ∉ l -> last_index_byte c l = None.
Proof.
  induction l as [|y l IH]; [done|]. intros [Hn Hc]%not_elem_of_cons. simpl.
  rewrite IH by done. by rewrite decide_False by congruence.
Qed.
Lemma last_index_byte_app c l1 l2 :
  c ∉ l2 -> last_index_byte c (l1 ++ c :: l2) = Some (length l1).
Proof.
  intros Hc. induction l1 as [|x l1 IH]; simpl; [|by rewrite IH].
  rewrite last_index_byte_None by done. by rewrite decide_True.
Qed.
Lemma last_index_byte_Some c l i : last_index_byte c l = Some i -> c ∉ drop (S i) l.
Proof.
  revert i. induction l as [|x l IH]; intros i; simpl; [done|].
  destruct (last_index_byte c l) as [k|] eqn:E; [intros [= <-]; by apply IH|].
  destruct (decide (x = c)); [|done]. intros [= <-]. rewrite drop_0. clear IH.
  induction l as [|y l IH]; simpl in *; [by intros ?%elem_of_nil|].
  destruct (last_index_byte c l) eqn:E'; [done|]. destruct (decide (y = c)); [done|].
  apply not_elem_of_cons. split; [congruence|auto].
Qed.
Lemma index_byte_app c l1 l2 : c ∉ l1 -> index_byte c (l1 ++ c :: l2) = Some (length l1).
Proof.
  induction l1 as [|x l1 IH]; simpl; [by rewrite decide_True|].
  intros [Hn Hc]%not_elem_of_cons. rewrite decide_False by congruence. by rewrite IH.
Qed.
