(* ===== verification/GoTime.v ===== *)
(** * Go times and durations

    [time.Time] as the number of seconds since 0001-01-01T00:00:00Z with the
    nanoseconds of the second (every use of a time in the program goes through
    [UTC()], so the location is not kept), the RFC 3339 rendering, and
    [time.Duration] as a number of nanoseconds with its [String] method. *)

From stdpp Require Import base tactics option list strings pretty.
From Stdlib Require Import ZArith Lia Ascii.
From S2P Require Import Prelude GoStrings.
#[local] Open Scope Z_scope.

Record Time := mkTime { t_sec : Z; t_nsec : Z }.

#[export] Instance Time_eq_dec : EqDecision Time.
Proof. solve_decision. Defined.

Definition zero_time : Time := mkTime 0 0.
(** [t.IsZero()] *)
Definition IsZero (t : Time) : bool := (t_sec t =? 0) && (t_nsec t =? 0).
(** [t.Add(d)], the duration in nanoseconds *)
Definition time_Add (t : Time) (d : Z) : Time :=
  mkTime (t_sec t + (t_nsec t + d) / 1000000000) ((t_nsec t + d) mod 1000000000).

(** ** Calendar

    Days are counted from 0001-01-01 in the proleptic Gregorian calendar.  The
    computation works in the 146097-day cycle that starts on 0000-03-01. *)

Record civil := mkCivil { c_year : Z; c_month : Z; c_day : Z }.

(** Year of the cycle, month and day of a day of the cycle. *)
Definition cycle_civil (doe : Z) : Z * Z * Z :=
  let yoe := (doe - doe / 1460 + doe / 36524 - doe / 146096) / 365 in
  let doy := doe - (365 * yoe + yoe / 4 - yoe / 100) in
  let mp := (5 * doy + 2) / 153 in
  (yoe, if mp <? 10 then mp + 3 else mp - 9, doy - (153 * mp + 2) / 5 + 1).

Definition civil_of_days (days : Z) : civil :=
  let z := days + 306 in
  let '(yoe, m, d) := cycle_civil (z mod 146097) in
  mkCivil (yoe + z / 146097 * 400 + (if m <=? 2 then 1 else 0)) m d.

(** The inverse: the day of the cycle of a year of the cycle, month and day. *)
Definition cycle_day (yoe m d : Z) : Z :=
  let mp := if 2 <? m then m - 3 else m + 9 in
  365 * yoe + yoe / 4 - yoe / 100 + ((153 * mp + 2) / 5 + d - 1).

Definition days_of_civil (c : civil) : Z :=
  let y := if c_month c <=? 2 then c_year c - 1 else c_year c in
  y / 400 * 146097 + cycle_day (y mod 400) (c_month c) (c_day c) - 306.

(** ** RFC 3339 *)

Definition digit_char (n : Z) : ascii := of_byte (48 + n).
Definition pad2 (n : Z) : list ascii := [digit_char (n / 10); digit_char (n mod 10)].
(** Years are padded to four digits; a negative year keeps its sign in front. *)
Definition pad4 (n : Z) : list ascii :=
  if n <? 0 then "-"%char :: (if - n <? 10000 then
      [digit_char (- n / 1000); digit_char (- n / 100 mod 10);
       digit_char (- n / 10 mod 10); digit_char (- n mod 10)] else bs (pretty (- n)))
  else if n <? 10000 then
    [digit_char (n / 1000); digit_char (n / 100 mod 10);
     digit_char (n / 10 mod 10); digit_char (n mod 10)]
  else bs (pretty n).

(** [t.UTC().Format(time.RFC3339)], which for UTC is the layout
    ["2006-01-02T15:04:05Z"] *)
Definition format_rfc3339 (t : Time) : string :=
  let c := civil_of_days (t_sec t / 86400) in
  let s := t_sec t mod 86400 in
  sb (pad4 (c_year c) ++ "-"%char :: pad2 (c_month c) ++ "-"%char :: pad2 (c_day c)
      ++ "T"%char :: pad2 (s / 3600) ++ ":"%char :: pad2 (s / 60 mod 60)
      ++ ":"%char :: pad2 (s mod 60) ++ ["Z"%char]).

(** A reader of that layout for four-digit years, used to state that nothing of
    an instant is lost up to the second. *)
Definition num2 (a b : ascii) : Z := (byte a - 48) * 10 + (byte b - 48).
Definition parse_rfc3339 (s : string) : option Z :=
  match bs s with
  | [y1; y2; y3; y4; _; m1; m2; _; d1; d2; _; h1; h2; _; i1; i2; _; s1; s2; _] =>
      let days := days_of_civil
        (mkCivil (num2 y1 y2 * 100 + num2 y3 y4) (num2 m1 m2) (num2 d1 d2)) in
      Some (days * 86400 + num2 h1 h2 * 3600 + num2 i1 i2 * 60 + num2 s1 s2)
  | _ => None
  end.

(** ** Durations *)

Definition nanosecond : Z := 1.
Definition microsecond : Z := 1000.
Definition millisecond : Z := 1000000.
Definition second : Z := 1000000000.
Definition minute : Z := 60 * second.
Definition hour : Z := 60 * minute.

(** The fraction [v / 10^prec] without trailing zeros (empty when zero). *)
Fixpoint frac_digits (prec : nat) (v : Z) (acc : list ascii) : list ascii :=
  match prec with
  | O => acc
  | S prec =>
      let d := v mod 10 in
      frac_digits prec (v / 10)
        (if (d =? 0) && bool_decide (acc = []) then [] else digit_char d :: acc)
  end.
Definition fmt_frac (prec : nat) (v : Z) : string :=
  match frac_digits prec v [] with
  | [] => ""
  | ds => String "."%char (sb ds)
  end.

(** [d.String()] *)
Definition duration_string (d : Z) : string :=
  let u := Z.abs d in
  let micro := sb [of_byte 194; of_byte 181] in
  let body :=
    if u <? second then
      if u =? 0 then "0s"
      else if u <? microsecond then pretty u +:+ "ns"
      else if u <? millisecond then
        pretty (u / 1000) +:+ fmt_frac 3 u +:+ micro +:+ "s"
      else pretty (u / 1000000) +:+ fmt_frac 6 u +:+ "ms"
    else
      let s := u / second in
      let secs := pretty (s mod 60) +:+ fmt_frac 9 u +:+ "s" in
      let m := s / 60 in
      if m =? 0 then secs
      else
        let mins := pretty (m mod 60) +:+ "m" +:+ secs in
        let h := m / 60 in
        if h =? 0 then mins else pretty h +:+ "h" +:+ mins in
  if d <? 0 then String "-"%char body else body.

Example duration_minute : duration_string minute = "1m0s".
Proof. reflexivity. Qed.
Example duration_mixed : duration_string (hour + 1500 * millisecond) = "1h0m1.5s".
Proof. reflexivity. Qed.

(** ** Lemmas *)

#[local] Ltac Zify.zify_post_hook ::= Z.to_euclidean_division_equations.

(** The calendar computation on one cycle. *)
Lemma cycle_civil_spec doe :
  0 <= doe < 146097 ->
  let '(yoe, m, d) := cycle_civil doe in
  0 <= yoe <= 399 /\ 1 <= m <= 12 /\ 1 <= d <= 31 /\ cycle_day yoe m d = doe.
Proof.
  intros H. unfold cycle_civil, cycle_day.
  set (y := (doe - doe / 1460 + doe / 36524 - doe / 146096) / 365).
  assert (Hy : 0 <= y <= 399 /\ 0 <= doe - (365 * y + y / 4 - y / 100) <= 365)
    by (unfold y; lia).
  clearbody y. set (yd := y / 4) in *. set (yc := y / 100) in *.
  set (doy := doe - (365 * y + yd - yc)) in *.
  assert (Hdoe : doe = 365 * y + yd - yc + doy) by (unfold doy; lia).
  clearbody yd yc doy. set (mp := (5 * doy + 2) / 153).
  assert (Hmp : 0 <= mp <= 11 /\ 1 <= doy - (153 * mp + 2) / 5 + 1 <= 31)
    by (unfold mp; lia).
  clearbody mp. destruct (mp <? 10) eqn:E; to_prop.
  - replace (2 <? mp + 3) with true by (symmetry; apply Z.ltb_lt; lia).
    replace (mp + 3 - 3) with mp by lia. lia.
  - replace (2 <? mp - 9) with false by (symmetry; apply Z.ltb_ge; lia).
    replace (mp - 9 + 9) with mp by lia. lia.
Qed.

Lemma civil_bounds days :
  let c := civil_of_days days in 1 <= c_month c <= 12 /\ 1 <= c_day c <= 31.
Proof.
  unfold civil_of_days.
  pose proof (cycle_civil_spec ((days + 306) mod 146097) ltac:(lia)) as H.
  destruct (cycle_civil _) as [[yoe m] d]. cbn [c_month c_day]. lia.
Qed.
(** [civil_of_days] and [days_of_civil] are inverse. *)
Lemma days_of_civil_of_days days : days_of_civil (civil_of_days days) = days.
Proof.
  unfold civil_of_days.
  pose proof (cycle_civil_spec ((days + 306) mod 146097) ltac:(lia)) as H.
  destruct (cycle_civil _) as [[yoe m] d]. destruct H as (Hy & Hm & Hd & Hc).
  unfold days_of_civil. cbn [c_year c_month c_day].
  set (q := (days + 306) / 146097) in *.
  assert (E : (if m <=? 2 then yoe + q * 400 + (if m <=? 2 then 1 else 0) - 1
               else yoe + q * 400 + (if m <=? 2 then 1 else 0)) = yoe + q * 400).
  { destruct (m <=? 2); lia. }
  rewrite E, Z.div_add, Z.mod_add, Z.div_small, Z.mod_small by lia.
  rewrite Hc. pose proof (Z.div_mod (days + 306) 146097 ltac:(lia)). fold q in H. lia.
Qed.

Lemma byte_digit_char n : 0 <= n < 10 -> byte (digit_char n) = 48 + n.
Proof. intros H. unfold digit_char. apply byte_of_byte. lia. Qed.
Lemma num2_digits n : 0 <= n < 100 -> num2 (digit_char (n / 10)) (digit_char (n mod 10)) = n.
Proof. intros H. unfold num2. rewrite !byte_digit_char by lia. lia. Qed.
Lemma num2_pad4 n :
  0 <= n < 10000 ->
  num2 (digit_char (n / 1000)) (digit_char (n / 100 mod 10)) * 100
  + num2 (digit_char (n / 10 mod 10)) (digit_char (n mod 10)) = n.
Proof. intros H. unfold num2. rewrite !byte_digit_char by lia. lia. Qed.

(** The RFC 3339 rendering of an instant of the years 0 to 9999 determines it up
    to the second. *)
Lemma parse_format_rfc3339 t :
  0 <= c_year (civil_of_days (t_sec t / 86400)) < 10000 ->
  parse_rfc3339 (format_rfc3339 t) = Some (t_sec t).
Proof.
  intros Hy. unfold format_rfc3339.
  pose proof (civil_bounds (t_sec t / 86400)) as [Hm Hd].
  pose proof (days_of_civil_of_days (t_sec t / 86400)) as Hc.
  destruct (civil_of_days (t_sec t / 86400)) as [y m d]. cbn [c_year c_month c_day] in *.
  set (s := t_sec t mod 86400).
  assert (Hs : 0 <= s < 86400) by (unfold s; lia).
  unfold parse_rfc3339. rewrite bs_sb. unfold pad4.
  replace (y <? 0) with false by (symmetry; apply Z.ltb_ge; lia).
  replace (y <? 10000) with true by (symmetry; apply Z.ltb_lt; lia).
  cbn [app pad2]. rewrite num2_pad4, !num2_digits by lia. rewrite Hc. f_equal.
  assert (E : s / 3600 * 3600 + s / 60 mod 60 * 60 + s mod 60 = s) by lia.
  assert (F : t_sec t = t_sec t / 86400 * 86400 + s) by (unfold s; lia). lia.
Qed.
