(* ===== verification/GoNet.v ===== *)
(** * Go network addresses

    The parts of Go's [net/netip] and [net] packages the program uses: parsing
    and rendering of IPv4 and IPv6 addresses, prefixes and CIDR blocks, masks
    and containment, and host:port strings.  An address is a list of 4 or 16
    byte values; the parsers follow the package's loops character by character. *)

From stdpp Require Import base tactics option list strings pretty.
From Stdlib Require Import ZArith Lia Ascii.
From S2P Require Import Prelude GoStrings.
#[local] Open Scope Z_scope.

(** ** net/netip *)

(** [netip.Addr]: an IPv4 address (4 bytes), or an IPv6 one (16 bytes, possibly
    an IPv4-mapped one) with its zone. *)
Inductive Addr : Type :=
  | Addr4 (b : list Z)
  | Addr6 (b : list Z) (zone : string).

#[export] Instance Addr_eq_dec : EqDecision Addr.
Proof. solve_decision. Defined.

Definition v4in6_prefix : list Z := replicate 10 0 ++ [255; 255].

Module Netip.

Definition Is4 (a : Addr) : bool := match a with Addr4 _ => true | _ => false end.
Definition Is6 (a : Addr) : bool := match a with Addr6 _ _ => true | _ => false end.
Definition Is4In6 (a : Addr) : bool :=
  match a with
  | Addr6 b _ => bool_decide (take 12 b = v4in6_prefix)
  | _ => false
  end.
Definition Zone (a : Addr) : string := match a with Addr6 _ z => z | _ => "" end.
Definition BitLen (a : Addr) : Z := match a with Addr4 _ => 32 | _ => 128 end.
Definition As16 (a : Addr) : list Z :=
  match a with Addr4 b => v4in6_prefix ++ b | Addr6 b _ => b end.

(** The loop of [parseIPv4Fields]; [start] holds at the first byte and after a
    dot. *)
Fixpoint v4_fields (start : bool) (val pos dig : Z) (acc : list Z) (l : list ascii)
    : option (list Z) :=
  match l with
  | [] => if pos <? 3 then None else Some (acc ++ [val])
  | c :: l' =>
      if is_digit c then
        if (dig =? 1) && (val =? 0) then None
        else
          let val' := val * 10 + (byte c - 48) in
          if 255 <? val' then None
          else v4_fields false val' pos (dig + 1) acc l'
      else if bool_decide (c = "."%char) then
        if start || bool_decide (l' = []) then None
        else if pos =? 3 then None
        else v4_fields true 0 (pos + 1) 0 (acc ++ [val]) l'
      else None
  end.
Definition parse_v4_fields (l : list ascii) : option (list Z) :=
  v4_fields true 0 0 0 [] l.

Definition hex_value (c : ascii) : option Z :=
  if is_digit c then Some (byte c - 48)
  else if in_range 97 102 (byte c) then Some (byte c - 87)
  else if in_range 65 70 (byte c) then Some (byte c - 55)
  else None.

(** One hexadecimal group: its value, its number of digits and the rest. *)
Fixpoint hex_group (off : nat) (acc : Z) (l : list ascii) : option (Z * nat * list ascii) :=
  match l with
  | c :: l' =>
      match hex_value c with
      | Some d =>
          let acc' := acc * 16 + d in
          if (3 <? off)%nat then None
          else if 65535 <? acc' then None
          else hex_group (S off) acc' l'
      | None => Some (acc, off, l)
      end
  | [] => Some (acc, off, [])
  end.

(** The group loop of [parseIPv6]: the rest of the input, the bytes written and
    the position of the ellipsis.  Every turn writes at least two of the
    sixteen bytes, so nine turns are enough. *)
Fixpoint v6_loop (fuel : nat) (l : list ascii) (ip : list Z) (ell : option nat)
    : option (list ascii * list Z * option nat) :=
  match fuel with
  | O => None
  | S fuel =>
      if (16 <=? length ip)%nat then Some (l, ip, ell)
      else
        match hex_group 0 0 l with
        | None | Some (_, O, _) => None
        | Some (v, _, rest) =>
            if bool_decide (head rest = Some "."%char) then
              if bool_decide (ell = None) && negb (Nat.eqb (length ip) 12) then None
              else if (16 <? length ip + 4)%nat then None
              else f ← parse_v4_fields l; Some ([], ip ++ f, ell)
            else
              let ip' := ip ++ [v / 256; v mod 256] in
              match rest with
              | [] => Some ([], ip', ell)
              | c :: rest' =>
                  if bool_decide (c <> ":"%char) then None
                  else match rest' with
                       | [] => None
                       | d :: rest'' =>
                           if bool_decide (d = ":"%char) then
                             match ell with
                             | Some _ => None
                             | None =>
                                 let ell' := Some (length ip') in
                                 match rest'' with
                                 | [] => Some ([], ip', ell')
                                 | _ => v6_loop fuel rest'' ip' ell'
                                 end
                             end
                           else v6_loop fuel rest' ip' ell
                       end
              end
        end
  end.

Definition v6_finish (r : list ascii * list Z * option nat) : option (list Z) :=
  let '(l, ip, ell) := r in
  if bool_decide (l <> []) then None
  else if (length ip <? 16)%nat then
    match ell with
    | None => None
    | Some e => Some (take e ip ++ replicate (16 - length ip) 0 ++ drop e ip)
    end
  else match ell with None => Some ip | Some _ => None end.

Definition parse_v6 (s : list ascii) : option Addr :=
  let '(l, zone, bad) :=
    match index_byte "%"%char s with
    | None => (s, [], false)
    | Some i => (take i s, drop (S i) s, bool_decide (drop (S i) s = []))
    end in
  if bad then None
  else
    let lead := has_prefix [":"%char; ":"%char] l in
    let l' := if lead then drop 2 l else l in
    if lead && bool_decide (l' = []) then Some (Addr6 (replicate 16 0) (sb zone))
    else
      r ← v6_loop 9 l' [] (if lead then Some 0%nat else None);
      b ← v6_finish r;
      Some (Addr6 b (sb zone)).

(** [netip.ParseAddr] decides on the first of the bytes [. : %]. *)
Fixpoint addr_kind (l : list ascii) : option ascii :=
  match l with
  | [] => None
  | c :: l' =>
      if bool_decide (c = "."%char) || bool_decide (c = ":"%char)
         || bool_decide (c = "%"%char) then Some c
      else addr_kind l'
  end.
Definition ParseAddr (s : string) : option Addr :=
  match addr_kind (bs s) with
  | Some c =>
      if bool_decide (c = "."%char) then Addr4 <$> parse_v4_fields (bs s)
      else if bool_decide (c = ":"%char) then parse_v6 (bs s)
      else None
  | None => None
  end.

(** [netip.ParsePrefix]: the address and the prefix length. *)
Definition ParsePrefix (s : string) : option (Addr * Z) :=
  i ← last_index_byte "/"%char (bs s);
  ip ← ParseAddr (sb (take i (bs s)));
  if Is6 ip && negb (String.eqb (Zone ip) "") then None
  else
    let bits := drop (S i) (bs s) in
    match bits with
    | c :: _ :: _ => if in_range 49 57 (byte c) then
        n ← Strconv.Atoi (sb bits);
        if (n <? 0) || (BitLen ip <? n) then None else Some (ip, n)
        else None
    | _ =>
        n ← Strconv.Atoi (sb bits);
        if (n <? 0) || (BitLen ip <? n) then None else Some (ip, n)
    end.

(** Rendering: dotted decimal, and RFC 5952 for IPv6. *)
Definition string4 (b : list Z) : string := String.concat "." (Strconv.Itoa <$> b).

Definition hex_char (d : Z) : ascii := of_byte (if d <? 10 then 48 + d else 87 + d).
Definition hex16 (v : Z) : list ascii :=
  let ds := [v / 4096; v / 256 mod 16; v / 16 mod 16; v mod 16] in
  match drop_while (fun d => d =? 0) ds with
  | [] => ["0"%char]
  | ds' => hex_char <$> ds'
  end.
Fixpoint words (b : list Z) : list Z :=
  match b with
  | hi :: lo :: b' => (hi * 256 + lo) :: words b'
  | _ => []
  end.
(** Length of the run of zero words at the head. *)
Fixpoint zero_run (w : list Z) : nat :=
  match w with 0 :: w' => S (zero_run w') | _ => O end.
(** The first longest run of at least two zero words, as (start, end). *)
Fixpoint best_run (i : nat) (w : list Z) (best : nat * nat) : nat * nat :=
  match w with
  | [] => best
  | _ :: w' =>
      let l := zero_run w in
      best_run (S i) w'
        (if (2 <=? l)%nat && (best.2 - best.1 <? l)%nat then (i, i + l)%nat else best)
  end.
Definition string6 (b : list Z) : string :=
  let w := words b in
  let hex ws := String.concat ":" ((fun v => sb (hex16 v)) <$> ws) in
  let '(i, j) := best_run 0 w (0, 0)%nat in
  if (j =? 0)%nat then hex w
  else hex (take i w) +:+ "::" +:+ hex (drop j w).

End Netip.

(** ** net *)

Module Net.

(** [net.IP.To4] *)
Definition To4 (ip : list Z) : option (list Z) :=
  if (length ip =? 4)%nat then Some ip
  else if (length ip =? 16)%nat && bool_decide (take 12 ip = v4in6_prefix)
  then Some (drop 12 ip)
  else None.

(** [net.ParseIP]: 16 bytes, or nil. *)
Definition ParseIP (s : string) : option (list Z) :=
  match Netip.ParseAddr s with
  | Some a => if String.eqb (Netip.Zone a) "" then Some (Netip.As16 a) else None
  | None => None
  end.

(** [net.CIDRMask] for [0 <= ones <= bits] *)
Fixpoint mask_bytes (n : nat) (ones : Z) : list Z :=
  match n with
  | O => []
  | S n =>
      if 8 <=? ones then 255 :: mask_bytes n (ones - 8)
      else (255 - (2 ^ (8 - ones) - 1)) :: mask_bytes n 0
  end.
Definition CIDRMask (ones bits : Z) : list Z := mask_bytes (Z.to_nat (bits / 8)) ones.

(** [net.IPNet] *)
Record IPNet := mkIPNet { net_ip : list Z; net_mask : list Z }.

Definition and_bytes (a m : list Z) : list Z := zip_with Z.land a m.

(** [netip.Prefix.Masked]: the bits after the prefix cleared, no zone. *)
Definition prefix_masked (p : Addr * Z) : Addr * Z :=
  (match p.1 with
   | Addr4 b => Addr4 (and_bytes b (mask_bytes 4 p.2))
   | Addr6 b _ => Addr6 (and_bytes b (mask_bytes 16 p.2)) ""
   end, p.2).

(** [IP.Mask]: a 4-byte mask applied to an IPv4-mapped address keeps 4 bytes. *)
Definition Mask (ip mask : list Z) : list Z :=
  let ip :=
    if (length mask =? 4)%nat && (length ip =? 16)%nat
       && bool_decide (take 12 ip = v4in6_prefix)
    then drop 12 ip else ip in
  if (length ip =? length mask)%nat then and_bytes ip mask else [].

(** [dtoi]: decimal digits up to 0xFFFFFF. *)
Definition dtoi (l : list ascii) : option Z :=
  n ← digits l; if n <? 16777215 then Some n else None.

(** [net.ParseCIDR]: the address (16 bytes) and the network. *)
Definition ParseCIDR (s : string) : option (list Z * IPNet) :=
  i ← index_byte "/"%char (bs s);
  a ← Netip.ParseAddr (sb (take i (bs s)));
  if negb (String.eqb (Netip.Zone a) "") then None
  else
    n ← dtoi (drop (S i) (bs s));
    if Netip.BitLen a <? n then None
    else
      let m := CIDRMask n (Netip.BitLen a) in
      let addr16 := Netip.As16 a in
      Some (addr16, mkIPNet (Mask addr16 m) m).

(** [IPNet.Contains] *)
Definition network_number (n : IPNet) : option (list Z * list Z) :=
  let ip := match To4 (net_ip n) with Some i => i | None => net_ip n end in
  if bool_decide (To4 (net_ip n) = None) && negb (length ip =? 16)%nat then None
  else
    let m := net_mask n in
    if (length m =? 4)%nat then
      if (length ip =? 4)%nat then Some (ip, m) else None
    else if (length m =? 16)%nat then
      Some (ip, if (length ip =? 4)%nat then drop 12 m else m)
    else None.
Definition Contains (n : IPNet) (ip : list Z) : bool :=
  let x := match To4 ip with Some x => x | None => ip end in
  match network_number n with
  | None => Nat.eqb (length x) 0
  | Some (nn, m) =>
      (length x =? length nn)%nat && bool_decide (and_bytes nn m = and_bytes x m)
  end.

(** [IPMask.Size]: the number of leading one bits of a canonical mask. *)
Definition mask_ones (m : list Z) : Z :=
  Z.of_nat (length (List.filter (fun b => b) (concat ((fun x =>
    (fun i => Z.testbit x i) <$> [7; 6; 5; 4; 3; 2; 1; 0]) <$> m)))).

(** [IP.String] for a 4- or 16-byte address *)
Definition ip_string (ip : list Z) : string :=
  match To4 ip with
  | Some b => Netip.string4 b
  | None => Netip.string6 ip
  end.

(** [net.SplitHostPort] *)
Definition SplitHostPort (hostport : string) : option (string * string) :=
  let l := bs hostport in
  match last_index_byte ":"%char l with
  | None => None
  | Some i =>
      let finish (host : list ascii) (j k : nat) :=
        if bool_decide ("["%char ∈ drop j l) then None
        else if bool_decide ("]"%char ∈ drop k l) then None
        else Some (sb host, sb (drop (S i) l)) in
      if bool_decide (head l = Some "["%char) then
        match index_byte "]"%char l with
        | None => None
        | Some e =>
            if (S e =? length l)%nat then None
            else if (S e =? i)%nat then finish (drop 1 (take e l)) 1%nat (S e)
            else None
        end
      else
        let host := take i l in
        if bool_decide (":"%char ∈ host) then None
        else finish host 0%nat 0%nat
  end.

(** [net.JoinHostPort] *)
Definition JoinHostPort (host port : string) : string :=
  if Strings.Contains host ":"%char then "[" +:+ host +:+ "]:" +:+ port
  else host +:+ ":" +:+ port.

End Net.

Example parse_v6_ex :
  Netip.ParseAddr "2001:db8::8a2e:370:7334"
  = Some (Addr6 [32; 1; 13; 184; 0; 0; 0; 0; 0; 0; 138; 46; 3; 112; 115; 52] "").
Proof. vm_compute. reflexivity. Qed.
Example parse_v4in6_ex :
  Netip.ParseAddr "::ffff:1.2.3.4" = Some (Addr6 (v4in6_prefix ++ [1; 2; 3; 4]) "").
Proof. vm_compute. reflexivity. Qed.
Example parse_prefix_ex :
  Netip.ParsePrefix "10.0.0.0/8" = Some (Addr4 [10; 0; 0; 0], 8).
Proof. vm_compute. reflexivity. Qed.
Example parse_prefix_zero_ex : Netip.ParsePrefix "10.0.0.0/08" = None.
Proof. vm_compute. reflexivity. Qed.
Example string6_ex :
  Netip.string6 [32; 1; 13; 184; 0; 0; 0; 0; 0; 0; 0; 0; 0; 0; 0; 1] = "2001:db8::1".
Proof. vm_compute. reflexivity. Qed.
Example split_ex : Net.SplitHostPort "[::1]:80" = Some ("::1", "80").
Proof. vm_compute. reflexivity. Qed.
Example split_bare_ex : Net.SplitHostPort "[::1]" = None.
Proof. vm_compute. reflexivity. Qed.

(** ** Lemmas *)

Lemma mask_ones_cons x m :
  Net.mask_ones (x :: m)
  = Z.of_nat (length (List.filter (fun b => b)
      ((fun i => Z.testbit x i) <$> [7; 6; 5; 4; 3; 2; 1; 0]))) + Net.mask_ones m.
Proof.
  unfold Net.mask_ones. rewrite fmap_cons. cbn [concat].
  rewrite List.filter_app, length_app. lia.
Qed.
Lemma mask_ones_bytes k n :
  0 <= n <= 8 * Z.of_nat k -> Net.mask_ones (Net.mask_bytes k n) = n.
Proof.
  revert n. induction k as [|k IH]; intros n Hn; [assert (n = 0) as -> by lia; done|].
  cbn [Net.mask_bytes]. destruct (8 <=? n) eqn:E; to_prop; rewrite mask_ones_cons, IH by lia.
  - change (Z.of_nat (length _)) with 8. lia.
  - assert (H : n = 0 \/ n = 1 \/ n = 2 \/ n = 3 \/ n = 4 \/ n = 5 \/ n = 6 \/ n = 7) by lia.
    destruct H as [->|[->|[->|[->|[->|[->|[->| ->]]]]]]]; reflexivity.
Qed.
(** [Size] of a mask is the prefix length it was made from. *)
Lemma mask_ones_CIDRMask n a :
  0 <= n <= Netip.BitLen a -> Net.mask_ones (Net.CIDRMask n (Netip.BitLen a)) = n.
Proof. intros Hn. unfold Net.CIDRMask. apply mask_ones_bytes. by destruct a. Qed.
#[export] Hint Rewrite mask_ones_CIDRMask using lia : go_rw.

(** *** IPv4 texts and masks *)

(** The bytes of an address. *)
Definition octets (k : nat) (b : list Z) : Prop :=
  length b = k /\ Forall (fun x => 0 <= x < 256) b.
(** An address as a number, most significant byte first. *)
Fixpoint ip_value (b : list Z) : Z :=
  match b with
  | [] => 0
  | x :: b => x * 2 ^ (8 * Z.of_nat (length b)) + ip_value b
  end.

Lemma v4_fields_octets start val pos dig acc l b :
  Netip.v4_fields start val pos dig acc l = Some b ->
  0 <= val < 256 -> Z.of_nat (length acc) = pos -> pos <= 3 ->
  Forall (fun x => 0 <= x < 256) acc -> octets 4 b.
Proof.
  revert start val pos dig acc. induction l as [|c l IH]; intros start val pos dig acc; simpl.
  - destruct (pos <? 3) eqn:E; [done|]. to_prop. intros [= <-] Hv Hl Hp Ha. split.
    + rewrite length_app. simpl. lia.
    + apply Forall_app. split; [done|]. rewrite Forall_singleton. lia.
  - destruct (is_digit c) eqn:Ed.
    + destruct (_ && _); [done|]. destruct (255 <? _) eqn:E; [done|]. to_prop.
      intros Hr Hv Hl Hp Ha. eapply IH; try done. apply in_range_iff in Ed. lia.
    + case_bool_decide; [|done]. destruct (_ || _); [done|].
      destruct (pos =? 3) eqn:E; [done|]. to_prop. intros Hr Hv Hl Hp Ha.
      eapply IH; [exact Hr|lia|rewrite length_app; simpl; lia|lia|].
      apply Forall_app. split; [done|]. rewrite Forall_singleton. lia.
Qed.
Lemma parse_v4_octets l b : Netip.parse_v4_fields l = Some b -> octets 4 b.
Proof. intros Hb. eapply v4_fields_octets; [exact Hb|lia|done|lia|by apply Forall_nil]. Qed.
Lemma parse_v6_Addr6 l a : Netip.parse_v6 l = Some a -> exists b z, a = Addr6 b z.
Proof.
  unfold Netip.parse_v6. destruct (match index_byte _ _ with None => _ | Some _ => _ end)
    as [[k zone] []]; [done|].
  destruct (_ && _); [intros [= <-]; eauto|].
  destruct (Netip.v6_loop _ _ _ _) as [r|]; [|done]. cbn [mbind option_bind].
  destruct (Netip.v6_finish r); [|done]. intros [= <-]. eauto.
Qed.
Lemma ParseAddr_octets s b : Netip.ParseAddr s = Some (Addr4 b) -> octets 4 b.
Proof.
  unfold Netip.ParseAddr. destruct (Netip.addr_kind _) as [c|]; [|done].
  case_bool_decide.
  - destruct (Netip.parse_v4_fields _) eqn:E; [|done]. intros [= ->]. by eapply parse_v4_octets.
  - case_bool_decide; [|done]. by intros (? & ? & ?)%parse_v6_Addr6.
Qed.

Lemma v4_fields_stop start val pos dig acc l c :
  c ∈ l -> is_digit c = false -> c <> "."%char ->
  Netip.v4_fields start val pos dig acc l = None.
Proof.
  intros Hc Hd Hp. revert start val pos dig acc.
  induction Hc as [c l|c x l Hc IH]; intros start val pos dig acc; simpl.
  - rewrite Hd. by rewrite bool_decide_eq_false_2.
  - repeat case_match; try done; by apply IH.
Qed.
Lemma addr_kind_app l k c : Netip.addr_kind l = Some c -> Netip.addr_kind (l ++ k) = Some c.
Proof.
  induction l as [|x l IH]; simpl; [done|]. destruct (_ || _); [done|]. apply IH.
Qed.
(** An IPv4 address followed by a slash is not an address. *)
Lemma ParseAddr_slash s i a :
  index_byte "/"%char (bs s) = Some i ->
  Netip.ParseAddr (sb (take i (bs s))) = Some (Addr4 a) -> Netip.ParseAddr s = None.
Proof.
  intros Hi Ha. assert (Hin : "/"%char ∈ bs s) by by eapply index_byte_elem.
  unfold Netip.ParseAddr in *. rewrite bs_sb in Ha.
  destruct (Netip.addr_kind (take i (bs s))) as [c|] eqn:E; [|done].
  rewrite <-(take_drop i (bs s)). erewrite addr_kind_app by done. rewrite take_drop.
  case_bool_decide as Hc.
  - unfold Netip.parse_v4_fields. by rewrite (v4_fields_stop _ _ _ _ _ _ "/"%char).
  - exfalso. revert Ha. case_bool_decide; [|done]. by intros (? & ? & ?)%parse_v6_Addr6.
Qed.

Lemma ip_value_bound k b : octets k b -> 0 <= ip_value b < 2 ^ (8 * Z.of_nat k).
Proof.
  intros [<- Hb]. induction Hb as [|x b Hx Hb IH]; simpl ip_value; simpl length; [done|].
  replace (8 * Z.of_nat (S (length b))) with (8 + 8 * Z.of_nat (length b)) by lia.
  rewrite Z.pow_add_r by lia. change (2 ^ 8) with 256. nia.
Qed.
Lemma octets_cons k x b : octets (S k) (x :: b) <-> 0 <= x < 256 /\ octets k b.
Proof. unfold octets. rewrite Forall_cons. simpl. split; naive_solver. Qed.

Lemma and_bytes_cons x b y m :
  Net.and_bytes (x :: b) (y :: m) = Z.land x y :: Net.and_bytes b m.
Proof. done. Qed.
Lemma land_255 x : 0 <= x < 256 -> Z.land x 255 = x.
Proof. intros Hx. change 255 with (Z.ones 8). rewrite Z.land_ones by lia. by apply Z.mod_small. Qed.
Lemma land_mask x m : 0 <= x < 256 -> 0 <= m <= 8 ->
  Z.land x (255 - (2 ^ m - 1)) = x / 2 ^ m * 2 ^ m.
Proof.
  intros Hx Hm. replace (255 - (2 ^ m - 1)) with (Z.shiftl (Z.ones (8 - m)) m).
  2: { rewrite Z.shiftl_mul_pow2, Z.ones_equiv by lia.
       replace (Z.pred (2 ^ (8 - m)) * 2 ^ m) with (2 ^ (8 - m) * 2 ^ m - 2 ^ m) by lia.
       rewrite <-Z.pow_add_r by lia. replace (8 - m + m) with 8 by lia. lia. }
  rewrite <-Z.shiftl_mul_pow2, <-Z.shiftr_div_pow2 by lia.
  assert (Hs : 0 <= Z.shiftr x m < 2 ^ (8 - m)).
  { rewrite Z.shiftr_div_pow2 by lia. split; [apply Z.div_pos; lia|].
    apply Z.div_lt_upper_bound; [lia|]. rewrite <-Z.pow_add_r by lia.
    replace (m + (8 - m)) with 8 by lia. lia. }
  rewrite <-(Z.mod_small _ _ Hs), <-Z.land_ones by lia.
  apply Z.bits_inj'. intros i Hi. rewrite Z.land_spec, !Z.shiftl_spec by lia.
  destruct (decide (m <= i)) as [Hmi|Hmi].
  - rewrite Z.land_spec, Z.shiftr_spec by lia. by replace (i - m + m) with i by lia.
  - rewrite !(Z.testbit_neg_r _ (i - m)) by lia. by rewrite andb_false_r.
Qed.

Lemma div_split a v p q :
  0 <= q <= p -> 0 <= v < 2 ^ p -> (a * 2 ^ p + v) / 2 ^ q = a * 2 ^ (p - q) + v / 2 ^ q.
Proof.
  intros Hq Hv. replace (a * 2 ^ p) with (a * 2 ^ (p - q) * 2 ^ q).
  - by rewrite Z.div_add_l by lia.
  - rewrite <-Z.mul_assoc, <-Z.pow_add_r by lia. by replace (p - q + q) with p by lia.
Qed.
Lemma div_small_bound v p q : 0 <= q <= p -> 0 <= v < 2 ^ p -> 0 <= v / 2 ^ q < 2 ^ (p - q).
Proof.
  intros Hq Hv. split; [apply Z.div_pos; lia|]. apply Z.div_lt_upper_bound; [lia|].
  rewrite <-Z.pow_add_r by lia. replace (q + (p - q)) with p by lia; lia.
Qed.

(** Masking two addresses with a prefix mask gives the same bytes exactly when
    their leading bits agree. *)
Lemma and_mask_value k n b x :
  octets k b -> octets k x -> 0 <= n <= 8 * Z.of_nat k ->
  Net.and_bytes b (Net.mask_bytes k n) = Net.and_bytes x (Net.mask_bytes k n)
  <-> ip_value b / 2 ^ (8 * Z.of_nat k - n) = ip_value x / 2 ^ (8 * Z.of_nat k - n).
Proof.
  revert n b x. induction k as [|k IH]; intros n b x Hb Hx Hn.
  { destruct Hb as [?%nil_length_inv _], Hx as [?%nil_length_inv _]; by subst. }
  destruct b as [|b0 b]; [by destruct Hb|]. destruct x as [|x0 x]; [by destruct Hx|].
  apply octets_cons in Hb as [Hb0 Hb], Hx as [Hx0 Hx].
  pose proof (ip_value_bound k b Hb) as Vb. pose proof (ip_value_bound k x Hx) as Vx.
  cbn [ip_value Net.mask_bytes]. destruct Hb as [Lb Fb], Hx as [Lx Fx]. rewrite Lb, Lx.
  set (K := 8 * Z.of_nat k) in *. replace (8 * Z.of_nat (S k)) with (K + 8) in * by lia.
  assert (IH' := fun m => IH m b x (conj Lb Fb) (conj Lx Fx)).
  destruct (8 <=? n) eqn:E; to_prop; rewrite !and_bytes_cons.
  - rewrite !land_255 by done. replace (K + 8 - n) with (K - (n - 8)) by lia.
    rewrite !div_split by lia.
    pose proof (div_small_bound (ip_value b) K (K - (n - 8)) ltac:(lia) Vb).
    pose proof (div_small_bound (ip_value x) K (K - (n - 8)) ltac:(lia) Vx).
    specialize (IH' (n - 8) ltac:(lia)). split.
    + intros [= -> Hr]. apply IH' in Hr. lia.
    + intros Hr. assert (b0 = x0) as -> by nia. f_equal. apply IH'. lia.
  - rewrite !land_mask by lia. replace (K + 8 - n) with (K + (8 - n)) by lia.
    assert (Hd : forall a v, 0 <= v < 2 ^ K -> (a * 2 ^ K + v) / 2 ^ K = a).
    { intros a v Hv. rewrite Z.div_add_l, Z.div_small by lia. lia. }
    rewrite Z.pow_add_r, <-!Z.div_div, !Hd by lia.
    assert (Hz : Net.and_bytes b (Net.mask_bytes k 0) = Net.and_bytes x (Net.mask_bytes k 0)).
    { apply IH'; [lia|]. rewrite Z.sub_0_r. by rewrite !Z.div_small by lia. }
    rewrite Hz. split; [intros [= Hr]; nia|by intros ->].
Qed.

(** *** Containment of IPv4 addresses *)

Lemma mask_bytes_length k n : length (Net.mask_bytes k n) = k.
Proof. revert n. induction k as [|k IH]; intros n; simpl; [done|]. case_match; simpl; by rewrite IH. Qed.
Lemma and_bytes_length a m : length a = length m -> length (Net.and_bytes a m) = length m.
Proof. intros E. unfold Net.and_bytes. rewrite length_zip_with. lia. Qed.
Lemma and_bytes_idemp a m : Net.and_bytes (Net.and_bytes a m) m = Net.and_bytes a m.
Proof.
  revert m. induction a as [|x a IH]; intros [|y m]; simpl; try done. unfold Net.and_bytes in *.
  simpl. by rewrite <-Z.land_assoc, Z.land_diag, IH.
Qed.
Lemma To4_mapped b : length b = 4%nat -> Net.To4 (v4in6_prefix ++ b) = Some b.
Proof. destruct b as [|? [|? [|? [|? [|]]]]]; done. Qed.
Lemma To4_four b : length b = 4%nat -> Net.To4 b = Some b.
Proof. intros E. unfold Net.To4. by rewrite E. Qed.
Lemma Mask_mapped a m :
  length a = 4%nat -> length m = 4%nat ->
  Net.Mask (v4in6_prefix ++ a) m = Net.and_bytes a m.
Proof. intros Ea Em. unfold Net.Mask. rewrite Em. destruct a as [|? [|? [|? [|? [|]]]]]; by rewrite ?Em. Qed.

Lemma Contains_v4 ip a n x :
  octets 4 a -> octets 4 x -> 0 <= n <= 32 ->
  Net.To4 ip = Some (Net.and_bytes a (Net.CIDRMask n 32)) \/ Net.To4 ip = Some a ->
  Net.Contains (Net.mkIPNet ip (Net.CIDRMask n 32)) (v4in6_prefix ++ x) = true
  <-> ip_value a / 2 ^ (32 - n) = ip_value x / 2 ^ (32 - n).
Proof.
  intros Ha Hx Hn Hip. pose proof (and_mask_value 4 n a x Ha Hx Hn) as V.
  change (8 * Z.of_nat 4) with 32 in V. rewrite <-V. clear V.
  change (Net.mask_bytes 4 n) with (Net.CIDRMask n 32).
  assert (Lm : length (Net.CIDRMask n 32) = 4%nat) by apply mask_bytes_length.
  destruct Ha as [La _], Hx as [Lx _]. unfold Net.Contains, Net.network_number.
  rewrite To4_mapped by done. cbn [Net.net_ip Net.net_mask].
  destruct Hip as [->| ->]; simpl; rewrite Lm, ?and_bytes_length, ?La, ?Lm, Lx by congruence;
    simpl; rewrite ?and_bytes_length, ?La, ?Lm by congruence; simpl;
    rewrite bool_decide_eq_true, ?and_bytes_idemp; done.
Qed.

(** *** The bytes of an IPv6 address *)

Definition is_octet (x : Z) : Prop := 0 <= x < 256.
Lemma hex_value_bound c d : Netip.hex_value c = Some d -> 0 <= d < 16.
Proof.
  unfold Netip.hex_value, is_digit. pose proof (byte_bounds c).
  repeat case_match; intros [= <-];
    repeat match goal with H : in_range _ _ _ = true |- _ => apply in_range_iff in H end; lia.
Qed.
Lemma hex_group_bound off acc l v n r :
  Netip.hex_group off acc l = Some (v, n, r) -> 0 <= acc <= 65535 -> 0 <= v <= 65535.
Proof.
  revert off acc. induction l as [|c l IH]; intros off acc; simpl; [by intros [= <- <- <-]|].
  destruct (Netip.hex_value c) as [d|] eqn:Hd; [|by intros [= <- <- <-]].
  apply hex_value_bound in Hd. destruct (3 <? off)%nat; [done|].
  destruct (65535 <? _) eqn:E; [done|]. to_prop. intros Hg Ha. eapply IH; [exact Hg|lia].
Qed.

(** What the loop keeps: an even number of bytes, at most sixteen, and an
    ellipsis among them. *)
Record v6_state (ip : list Z) (ell : option nat) : Prop := {
  v6_octets : Forall is_octet ip;
  v6_even : Nat.Even (length ip);
  v6_short : (length ip <= 16)%nat;
  v6_ellipsis : forall e, ell = Some e -> (e <= length ip)%nat
}.
Lemma v6_state_app ip ell x y :
  v6_state ip ell -> (length ip < 16)%nat -> is_octet x -> is_octet y -> v6_state (ip ++ [x; y]) ell.
Proof.
  intros [Ho [k He] Hs Hl] Hlt Hx Hy. split.
  - apply Forall_app. split; [done|]. by apply Forall_cons; split; [|apply Forall_singleton].
  - exists (S k). rewrite length_app. simpl. lia.
  - rewrite length_app. simpl. lia.
  - intros e Hell%Hl. rewrite length_app. lia.
Qed.
(** Nine turns are enough: more fuel changes no result. *)
Lemma v6_loop_enough n m l ip ell :
  (16 <= length ip + 2 * n)%nat -> (16 <= length ip + 2 * m)%nat ->
  Netip.v6_loop (S n) l ip ell = Netip.v6_loop (S m) l ip ell.
Proof.
  revert m l ip ell. induction n as [|n IH]; intros m l ip ell Hn Hm; cbn [Netip.v6_loop].
  { by rewrite (proj2 (Nat.leb_le 16 (length ip))) by lia. }
  destruct (16 <=? length ip)%nat eqn:E16; [done|]. apply Nat.leb_gt in E16.
  destruct m as [|m]; [lia|].
  assert (IH' : forall l x y ell, Netip.v6_loop (S n) l (ip ++ [x; y]) ell
                                  = Netip.v6_loop (S m) l (ip ++ [x; y]) ell).
  { intros l' x y ell'. apply IH; rewrite length_app; simpl; lia. }
  destruct (Netip.hex_group 0 0 l) as [[[v [|k]] rest]|]; [done| |done].
  case_bool_decide; [done|]. destruct rest as [|c [|d rest]]; [done..|].
  case_bool_decide; [done|]. case_bool_decide; [|apply IH'].
  destruct ell; [done|]. destruct rest; [done|apply IH'].
Qed.
Lemma v6_loop_state fuel l ip ell l' ip' ell' :
  Netip.v6_loop fuel l ip ell = Some (l', ip', ell') -> v6_state ip ell -> v6_state ip' ell'.
Proof.
  revert l ip ell. induction fuel as [|fuel IH]; intros l ip ell; [done|]. cbn [Netip.v6_loop].
  destruct (16 <=? length ip)%nat eqn:E16; [by intros [= <- <- <-]|]. apply Nat.leb_gt in E16.
  destruct (Netip.hex_group 0 0 l) as [[[v n] rest]|] eqn:Eg; [|done].
  destruct n as [|n]; [done|]. apply hex_group_bound in Eg; [|lia].
  intros Hr Hs. assert (Hs' : v6_state (ip ++ [v / 256; v mod 256]) ell).
  { apply v6_state_app; [done|done|..]; unfold is_octet; Z.div_mod_to_equations; lia. }
  case_bool_decide.
  - destruct (_ && _); [done|]. destruct (16 <? _)%nat eqn:E4; [done|]. apply Nat.ltb_ge in E4.
    destruct (Netip.parse_v4_fields l) as [f|] eqn:Ef; [|done]. injection Hr as <- <- <-.
    apply parse_v4_octets in Ef as [Hlf Hf]. destruct Hs as [Ho [k He] Hsh Hl]. split.
    + by apply Forall_app.
    + exists (S (S k)). rewrite length_app. lia.
    + rewrite length_app. lia.
    + intros e Hell%Hl. rewrite length_app. lia.
  - destruct rest as [|c rest]; [by injection Hr as <- <- <-|].
    destruct (bool_decide (c <> ":"%char)); [done|]. destruct rest as [|d rest]; [done|].
    destruct (bool_decide (d = ":"%char)); [|by eapply IH].
    destruct ell as [e|]; [done|].
    assert (Hs2 : v6_state (ip ++ [v / 256; v mod 256]) (Some (length (ip ++ [v / 256; v mod 256])))).
    { destruct Hs'. split; try done. intros e [= <-]. lia. }
    destruct rest; [by injection Hr as <- <- <-|]. by eapply IH.
Qed.
Lemma v6_finish_octets l ip ell b :
  Netip.v6_finish (l, ip, ell) = Some b -> v6_state ip ell -> octets 16 b.
Proof.
  unfold Netip.v6_finish. destruct (bool_decide _); [done|]. intros Hb [Ho _ Hs Hl].
  destruct (length ip <? 16)%nat eqn:E.
  - destruct ell as [e|]; [|done]. injection Hb as <-. apply Nat.ltb_lt in E.
    specialize (Hl e eq_refl). split.
    + rewrite !length_app, length_take, length_drop, length_replicate. lia.
    + apply Forall_app. split; [by apply Forall_take|]. apply Forall_app.
      split; [|by apply Forall_drop]. apply Forall_replicate. lia.
  - apply Nat.ltb_ge in E. destruct ell; [done|]. injection Hb as <-. split; [lia|done].
Qed.
Lemma ParseAddr_octets6 s b z : Netip.ParseAddr s = Some (Addr6 b z) -> octets 16 b.
Proof.
  unfold Netip.ParseAddr. destruct (Netip.addr_kind _) as [c|]; [|done].
  case_bool_decide; [by destruct (Netip.parse_v4_fields _)|]. case_bool_decide; [|done].
  unfold Netip.parse_v6. destruct (match index_byte _ _ with None => _ | Some _ => _ end)
    as [[l zone] []]; [done|].
  destruct (_ && _).
  { intros [= <- _]. split; [done|]. by repeat (apply Forall_cons; split). }
  destruct (Netip.v6_loop _ _ _ _) as [[[l' ip] ell]|] eqn:E; [|done]. cbn [mbind option_bind].
  destruct (Netip.v6_finish _) as [b'|] eqn:Eb; [|done]. intros [= <- _].
  eapply v6_finish_octets; [exact Eb|]. eapply v6_loop_state; [exact E|].
  split; [constructor|by exists 0%nat|simpl; lia|]. intros e. destruct (has_prefix _ _); [|done].
  by intros [= <-].
Qed.
Lemma ParsePrefix_spec s a n :
  Netip.ParsePrefix s = Some (a, n) ->
  match a with Addr4 b => octets 4 b | Addr6 b _ => octets 16 b end /\ 0 <= n <= Netip.BitLen a.
Proof.
  unfold Netip.ParsePrefix. destruct (last_index_byte _ _) as [i|]; [|done]. cbn [mbind option_bind].
  destruct (Netip.ParseAddr _) as [ip|] eqn:Ea; [|done]. cbn [mbind option_bind].
  destruct (_ && _); [done|].
  assert (Hip : match ip with Addr4 b => octets 4 b | Addr6 b _ => octets 16 b end).
  { destruct ip; [by eapply ParseAddr_octets|by eapply ParseAddr_octets6]. }
  assert (Hn : forall o : option Z, (n0 ← o; if (n0 <? 0) || (Netip.BitLen ip <? n0) then None
    else Some (ip, n0)) = Some (a, n) -> a = ip /\ 0 <= n <= Netip.BitLen ip).
  { intros [m|]; [|done]. cbn [mbind option_bind]. destruct (_ || _) eqn:E; [done|].
    to_prop. intros [= -> ->]. split; [done|lia]. }
  intros Hr. assert (Ha : a = ip /\ 0 <= n <= Netip.BitLen ip).
  { destruct (drop (S i) (bs s)) as [|c [|c' l]]; [by eapply Hn|by eapply Hn|].
    destruct (in_range _ _ _); [by eapply Hn|done]. }
  by destruct Ha as [-> ?].
Qed.

(** *** Masked prefixes as numbers *)

(** Masking clears the bits after the prefix. *)
Lemma masked_value k n b :
  octets k b -> 0 <= n <= 8 * Z.of_nat k ->
  ip_value (Net.and_bytes b (Net.mask_bytes k n))
  = ip_value b / 2 ^ (8 * Z.of_nat k - n) * 2 ^ (8 * Z.of_nat k - n).
Proof.
  revert n b. induction k as [|k IH]; intros n b Hb Hn.
  { destruct Hb as [?%nil_length_inv _]; subst. simpl. by replace (0 - n) with 0 by lia. }
  destruct b as [|x b]; [by destruct Hb|]. apply octets_cons in Hb as [Hx Hb].
  pose proof (ip_value_bound k b Hb) as Vb. cbn [Net.mask_bytes].
  set (K := 8 * Z.of_nat k) in *. replace (8 * Z.of_nat (S k)) with (K + 8) in * by lia.
  assert (Lm : forall m, length (Net.and_bytes b (Net.mask_bytes k m)) = k).
  { intros m. rewrite and_bytes_length, mask_bytes_length; [done|].
    rewrite mask_bytes_length. by destruct Hb. }
  assert (Lb : length b = k) by by destruct Hb.
  destruct (8 <=? n) eqn:E; to_prop; rewrite and_bytes_cons; cbn [ip_value]; rewrite Lm, Lb; fold K.
  - rewrite land_255, IH by (done || lia). replace (K + 8 - n) with (K - (n - 8)) by lia.
    rewrite div_split, Z.mul_add_distr_r by lia. f_equal.
    rewrite <-Z.mul_assoc, <-Z.pow_add_r by lia. f_equal. f_equal. lia.
  - rewrite land_mask, IH by (done || lia). rewrite Z.sub_0_r, (Z.div_small (ip_value b)) by lia.
    replace (K + 8 - n) with (K + (8 - n)) by lia.
    rewrite Z.pow_add_r, <-Z.div_div, Z.div_add_l, (Z.div_small (ip_value b)) by lia.
    rewrite (Z.add_0_r x), Z.mul_0_l, Z.add_0_r. ring.
Qed.
Lemma and_bytes_octets k n b :
  octets k b -> 0 <= n -> octets k (Net.and_bytes b (Net.mask_bytes k n)).
Proof.
  revert n b. induction k as [|k IH]; intros n b Hb Hn.
  { destruct Hb as [?%nil_length_inv _]; by subst. }
  destruct b as [|x b]; [by destruct Hb|]. apply octets_cons in Hb as [Hx Hb].
  cbn [Net.mask_bytes].
  destruct (8 <=? n) eqn:E; to_prop; rewrite and_bytes_cons; apply octets_cons;
    (split; [|apply IH; [done|lia]]).
  - by rewrite land_255.
  - rewrite land_mask by lia. assert (Hp : 0 < 2 ^ (8 - n)) by (apply Z.pow_pos_nonneg; lia).
    pose proof (Z.mul_div_le x _ Hp). pose proof (Z.div_pos x _ ltac:(lia) Hp). nia.
Qed.

(** Setting a bit of a byte sets a bit of the number. *)
Lemma mul_add_lor x v K :
  0 <= v < 2 ^ K -> 0 <= K -> x * 2 ^ K + v = Z.lor (Z.shiftl x K) v.
Proof.
  intros Hv HK. rewrite <-Z.add_lor_land, Z.shiftl_mul_pow2 by lia.
  assert (Hl : Z.land (x * 2 ^ K) v = 0); [|lia].
  rewrite <-Z.shiftl_mul_pow2 by lia. apply Z.bits_inj'. intros i Hi.
  rewrite Z.land_spec, Z.bits_0, Z.shiftl_spec by lia. destruct (decide (i < K)).
  - by rewrite Z.testbit_neg_r by lia.
  - rewrite <-(Z.mod_small v (2 ^ K)), Z.mod_pow2_bits_high by lia. apply andb_false_r.
Qed.
Lemma lor_byte x v K p :
  0 <= v < 2 ^ K -> 0 <= p -> 0 <= K ->
  Z.lor (x * 2 ^ K + v) (2 ^ (K + p)) = Z.lor x (2 ^ p) * 2 ^ K + v.
Proof.
  intros Hv Hp HK. rewrite !mul_add_lor by done.
  rewrite Z.shiftl_lor, <-!Z.lor_assoc. f_equal. rewrite (Z.lor_comm _ v). f_equal.
  rewrite Z.shiftl_mul_pow2, <-Z.pow_add_r by lia. f_equal. lia.
Qed.
Lemma lor_high x v K i :
  0 <= v < 2 ^ K -> 0 <= i < K ->
  Z.lor (x * 2 ^ K + v) (2 ^ i) = x * 2 ^ K + Z.lor v (2 ^ i).
Proof.
  intros Hv Hi.
  assert (Hs : 0 <= Z.lor v (2 ^ i) < 2 ^ K).
  { split; [apply Z.lor_nonneg; split; [lia|apply Z.pow_nonneg; lia]|].
    assert (Hm : Z.lor v (2 ^ i) = Z.lor v (2 ^ i) mod 2 ^ K).
    { apply Z.bits_inj'. intros j Hj. destruct (decide (j < K)).
      - by rewrite Z.mod_pow2_bits_low by lia.
      - rewrite Z.mod_pow2_bits_high, Z.lor_spec, Z.pow2_bits_false by lia.
        by rewrite <-(Z.mod_small v (2 ^ K)), Z.mod_pow2_bits_high by lia. }
    rewrite Hm. apply Z.mod_pos_bound. lia. }
  rewrite !mul_add_lor by (done || lia). by rewrite Z.lor_assoc.
Qed.
Lemma ip_value_set_bit k b i :
  octets k b -> (i < 8 * k)%nat ->
  ip_value (<[(k - 1 - i / 8)%nat :=
              Z.lor (default 0 (b !! (k - 1 - i / 8)%nat)) (2 ^ Z.of_nat (i mod 8))]> b)
  = Z.lor (ip_value b) (2 ^ Z.of_nat i).
Proof.
  intros Hb Hi. revert b Hb. induction k as [|k IH]; intros b Hb; [lia|].
  destruct b as [|x b]; [by destruct Hb|]. apply octets_cons in Hb as [Hx Hb].
  pose proof (ip_value_bound k b Hb) as Vb. assert (Lb : length b = k) by by destruct Hb.
  pose proof (Nat.div_mod_eq i 8) as Hdm. pose proof (Nat.mod_upper_bound i 8 ltac:(lia)) as Hmod.
  destruct (decide (i < 8 * k)%nat) as [Hlt|Hge].
  - assert (Hd : (i / 8 < k)%nat) by lia.
    replace (S k - 1 - i / 8)%nat with (S (k - 1 - i / 8)) by lia. cbn [lookup list_lookup].
    change (<[S ?n := ?y]> (x :: b)) with (x :: <[n := y]> b). cbn [ip_value].
    rewrite length_insert, Lb, IH by done. by rewrite lor_high by lia.
  - replace (S k - 1 - i / 8)%nat with 0%nat by lia.
    change (<[0%nat := ?y]> (x :: b)) with (y :: b). cbn [ip_value].
    change ((x :: b) !! 0%nat) with (Some x). cbn [default from_option id]. rewrite Lb.
    rewrite <-lor_byte by lia. f_equal. f_equal. lia.
Qed.
Lemma set_bit_octets k b j p :
  octets k b -> 0 <= p < 8 -> octets k (<[j := Z.lor (default 0 (b !! j)) (2 ^ p)]> b).
Proof.
  intros [Hl Hb] Hp. split; [by rewrite length_insert|].
  destruct (decide (j < length b)%nat) as [Hj|Hj].
  2: { by rewrite list_insert_ge by lia. }
  apply Forall_insert; [done|]. destruct (lookup_lt_is_Some_2 b j Hj) as [x Hx].
  rewrite Hx. simpl. rewrite Forall_lookup in Hb. specialize (Hb _ _ Hx). simpl in Hb.
  split; [apply Z.lor_nonneg; split; [lia|apply Z.pow_nonneg; lia]|].
  apply Z.log2_lt_cancel. rewrite Z.log2_lor by (lia || (apply Z.pow_nonneg; lia)).
  rewrite Z.log2_pow2 by lia. change (Z.log2 256) with 8. apply Z.max_lub_lt; [|lia].
  destruct (decide (x = 0)) as [->|]; [done|]. apply Z.log2_lt_pow2; lia.
Qed.

(** ** Lemmas: host:port strings *)

(** Text without brackets. *)
Definition unbracketed (s : string) : Prop := ("["%char ∉ bs s) /\ ("]"%char ∉ bs s).

Lemma SplitHostPort_port s h p :
  Net.SplitHostPort s = Some (h, p) -> unbracketed p /\ (":"%char ∉ bs p).
Proof.
  unfold Net.SplitHostPort. destruct (last_index_byte _ _) as [i|] eqn:Ei; [|done].
  apply last_index_byte_Some in Ei. unfold unbracketed. case_bool_decide.
  - destruct (index_byte _ _) as [e|]; [|done]. destruct (_ =? _)%nat; [done|].
    destruct (Nat.eqb_spec (S e) i) as [<-|]; [|done]. do 2 (case_bool_decide; [done|]).
    intros [= _ <-]. rewrite bs_sb. repeat split; [..|done];
      (eapply not_elem_of_drop_le; [|done]); lia.
  - case_bool_decide; [done|]. do 2 (case_bool_decide; [done|]). intros [= _ <-].
    rewrite bs_sb. repeat split; [..|done]; (eapply (not_elem_of_drop_le _ _ 0%nat); [|done]); lia.
Qed.

Lemma SplitHostPort_JoinHostPort h p :
  unbracketed h -> unbracketed p -> (":"%char ∉ bs p) ->
  Net.SplitHostPort (Net.JoinHostPort h p) = Some (h, p).
Proof.
  intros [Ho Hc] [Po Pc] Hp. unfold Net.JoinHostPort, Strings.Contains.
  destruct (bool_decide (":"%char ∈ bs h)) eqn:Eh; unfold Net.SplitHostPort; rewrite !bs_app.
  - set (l := bs "[" ++ bs h ++ bs "]:" ++ bs p).
    assert (El : l = ("["%char :: bs h ++ ["]"%char]) ++ ":"%char :: bs p)
      by (unfold l; cbn [bs String.list_ascii_of_string app]; by rewrite <-app_assoc).
    assert (Ee : l = ("["%char :: bs h) ++ "]"%char :: ":"%char :: bs p) by done.
    assert (Lh : length ("["%char :: bs h ++ ["]"%char]) = S (length ("["%char :: bs h)))
      by (cbn [length]; rewrite length_app; cbn [length]; lia).
    rewrite El at 1. rewrite last_index_byte_app by done.
    rewrite bool_decide_true by done. rewrite Ee at 1.
    rewrite index_byte_app by (apply not_elem_of_cons; by split).
    rewrite Lh, Nat.eqb_refl.
    replace (S _ =? length l)%nat with false
      by (symmetry; apply Nat.eqb_neq; rewrite Ee, length_app; cbn [length]; lia).
    assert (D1 : drop 1 l = bs h ++ "]"%char :: ":"%char :: bs p) by done.
    assert (D2 : drop (S (length ("["%char :: bs h))) l = ":"%char :: bs p)
      by (rewrite <-Lh, El; apply drop_app_length).
    rewrite D1, D2, bool_decide_false
      by (rewrite elem_of_app, !elem_of_cons; intros [|[|[|]]]; done).
    rewrite bool_decide_false by (rewrite elem_of_cons; intros [|]; done).
    rewrite Ee, take_app_length, <-Ee.
    replace (S (S (length ("["%char :: bs h)))) with (S (length ("["%char :: bs h)) + 1)%nat by lia.
    rewrite <-drop_drop, D2. rewrite !skipn_cons, !drop_0, !sb_bs. done.
  - apply bool_decide_eq_false in Eh. cbn [bs String.list_ascii_of_string app].
    change (String.list_ascii_of_string h) with (bs h).
    change (String.list_ascii_of_string p) with (bs p).
    rewrite last_index_byte_app by done.
    assert (Hb : ("["%char ∉ bs h ++ ":"%char :: bs p) /\ ("]"%char ∉ bs h ++ ":"%char :: bs p)).
    { rewrite !elem_of_app, !elem_of_cons. split; intros [|[|]]; done. }
    rewrite bool_decide_false.
    2: { intros Hh. apply (proj1 Hb). destruct (bs h); simpl in *; injection Hh as ->; left. }
    rewrite take_app_length, bool_decide_false by done.
    rewrite !drop_0, !bool_decide_false by apply Hb.
    replace (S (length (bs h))) with (length (bs h) + 1)%nat by lia.
    rewrite <-drop_drop, drop_app_length, skipn_cons, drop_0. by rewrite !sb_bs.
Qed.
