(* ===== verification/GoHttp.v ===== *)
(** * Go URLs, HTTP headers, requests and responses

    The parts of [net/url] and [net/http] the handlers and the middleware use:
    [URL.String], [URL.Query], header maps, the request fields the program
    reads and a recorder of what a handler writes. *)

From stdpp Require Import base tactics option list gmap strings pretty.
From Stdlib Require Import ZArith Lia Ascii.
From S2P Require Import Prelude GoStrings.
#[local] Open Scope Z_scope.

Module Url.

Definition is_alnum (c : ascii) : bool := is_digit c || is_upper c || is_lower c.
(** Membership of a byte in a set written as a string. *)
Definition one_of (set : string) (c : ascii) : bool := bool_decide (c ∈ bs set).

Definition should_escape_path (c : ascii) : bool :=
  negb (is_alnum c || one_of "-_.~$&+,/:;=@" c).
Definition should_escape_host (c : ascii) : bool :=
  negb (is_alnum c || one_of "-_.~!$&'()*+,;=:[]<>" c || bool_decide (c = dquote)).

Definition hex_upper (d : Z) : ascii := of_byte (if d <? 10 then 48 + d else 55 + d).
Definition escape (should : ascii -> bool) (s : string) : string :=
  sb (concat ((fun c => if should c
                        then ["%"%char; hex_upper (byte c / 16); hex_upper (byte c mod 16)]
                        else [c]) <$> bs s)).

(** [url.URL{Scheme, Host, Path, RawQuery}.String()] with a non-empty scheme. *)
Definition url_string (scheme host path rawquery : string) : string :=
  let escaped := if String.eqb path "*" then "*" else escape should_escape_path path in
  let slash :=
    if negb (String.eqb escaped "") && negb (Strings.HasPrefix escaped "/")
       && negb (String.eqb host "") then "/" else "" in
  scheme +:+ ":" +:+
  (if negb (String.eqb host "") || negb (String.eqb path "") then "//" else "") +:+
  escape should_escape_host host +:+ slash +:+ escaped +:+
  (if String.eqb rawquery "" then "" else "?" +:+ rawquery).

(** [strings.Cut] at the first occurrence of a byte; without one the second part
    is empty. *)
Definition cut (c : ascii) (l : list ascii) : list ascii * list ascii :=
  match index_byte c l with
  | Some i => (take i l, drop (S i) l)
  | None => (l, [])
  end.

Definition hex_digit (c : ascii) : option Z :=
  if is_digit c then Some (byte c - 48)
  else if in_range 97 102 (byte c) then Some (byte c - 87)
  else if in_range 65 70 (byte c) then Some (byte c - 55)
  else None.

(** [url.QueryUnescape] *)
Fixpoint query_unescape (l : list ascii) : option (list ascii) :=
  match l with
  | [] => Some []
  | c :: l' =>
      if bool_decide (c = "%"%char) then
        match l' with
        | a :: b :: l'' =>
            x ← hex_digit a; y ← hex_digit b;
            k ← query_unescape l''; Some (of_byte (x * 16 + y) :: k)
        | _ => None
        end
      else
        k ← query_unescape l';
        Some ((if bool_decide (c = "+"%char) then " "%char else c) :: k)
  end.

(** [url.ParseQuery]: the pairs in order; malformed ones are skipped. *)
Definition parse_pair (p : list ascii) : option (string * string) :=
  if bool_decide (";"%char ∈ p) || bool_decide (p = []) then None
  else
    let '(k, v) := cut "="%char p in
    k' ← query_unescape k; v' ← query_unescape v; Some (sb k', sb v').
Definition parse_query (rawquery : string) : list (string * string) :=
  omap parse_pair (split_bytes "&"%char (bs rawquery)).
(** [Values.Get]: the first value of a key, or the empty string. *)
Fixpoint query_get (q : list (string * string)) (k : string) : string :=
  match q with
  | [] => ""
  | (k', v) :: q' => if String.eqb k' k then v else query_get q' k
  end.

End Url.

(** ** Requests *)

(** The fields of [http.Request] the program reads.  Headers are stored under
    their canonical names, each with its values in order. *)
Record Request := mkRequest {
  rq_method : string;
  rq_host : string;
  rq_path : string;
  rq_rawquery : string;
  rq_tls : bool;
  rq_header : gmap string (list string);
  rq_remote_addr : string
}.

(** [r.Header.Get(k)] for a canonical key *)
Definition header_get (h : gmap string (list string)) (k : string) : string :=
  match h !! k with Some (v :: _) => v | _ => "" end.
(** [w.Header().Set(k, v)] *)
Definition header_set (k v : string) (h : gmap string (list string))
    : gmap string (list string) := <[k := [v]]> h.

(** ** Responses

    What a handler has written: the header map, the status of the first
    [WriteHeader] (nothing when none), and the body. *)
Record Response (B : Type) := mkResponse {
  rs_header : gmap string (list string);
  rs_status : option Z;
  rs_body : list B
}.
Arguments mkResponse {_} _ _ _.
Arguments rs_header {_} _.
Arguments rs_status {_} _.
Arguments rs_body {_} _.

Definition empty_response {B} : Response B := mkResponse ∅ None [].

(** [w.Header().Set] on a response *)
Definition set_header {B} (k v : string) (w : Response B) : Response B :=
  mkResponse (header_set k v (rs_header w)) (rs_status w) (rs_body w).
(** [w.WriteHeader(code)]: only the first call sets the status. *)
Definition write_header {B} (code : Z) (w : Response B) : Response B :=
  mkResponse (rs_header w) (Some (default code (rs_status w))) (rs_body w).
(** A body write; it sends status 200 when no status was written. *)
Definition write_body {B} (b : B) (w : Response B) : Response B :=
  mkResponse (rs_header w) (Some (default 200 (rs_status w))) (rs_body w ++ [b]).

Example url_ex :
  Url.url_string "https" "rdap.example.com:8443" "/ip/8.8.8.0/24" "a=b"
  = "https://rdap.example.com:8443/ip/8.8.8.0/24?a=b".
Proof. vm_compute. reflexivity. Qed.
Example query_ex :
  Url.parse_query "name=exam%2Aple&limit=5&bad=%zz" = [("name", "exam*ple"); ("limit", "5")].
Proof. vm_compute. reflexivity. Qed.
