(* ===== verification/Config.v ===== *)
(** * Package config (internal/config/config.go)

    The configuration records, the defaults, the validation and [Load].  Reading
    the file and the YAML decoder (gopkg.in/yaml.v3) are parameters of [Load]. *)

From stdpp Require Import base tactics option list gmap strings pretty.
From Stdlib Require Import ZArith Lia.
From S2P Require Import Prelude GoStrings GoTime.
#[local] Open Scope Z_scope.

Module config.

Record ServerConfig := mkServerConfig {
  Server_Host : string; Server_Port : Z;
  ReadTimeout : Z; WriteTimeout : Z; IdleTimeout : Z; MaxHeaderBytes : Z;
  TLSCertFile : string; TLSKeyFile : string
}.

Record StorageConfig := mkStorageConfig {
  Driver : string; DSN : string; MaxOpen : Z; MaxIdle : Z; CacheTTL : string
}.

Record ExtensionRemark := mkExtensionRemark {
  Remark_Title : string; Remark_Description : list string
}.

Record TTL0Config := mkTTL0Config {
  TTL0_Domain : gmap string Z; TTL0_Nameserver : gmap string Z;
  TTL0_Remarks : list ExtensionRemark
}.

Record GeofeedConfig := mkGeofeedConfig { Geofeed_URL : string }.

Record ToSConfig := mkToSConfig {
  ToS_Title : string; ToS_Description : list string; ToS_URL : string
}.

Record CustomNoticeConfig := mkCustomNoticeConfig {
  Custom_Title : string; Custom_Description : list string;
  Custom_URL : string; Custom_Rel : string
}.

(** A nil pointer field is [None]. *)
Record RDAPConfig := mkRDAPConfig {
  TLDs : list string; Mode : string; BaseURL : string; RegistrarBaseURL : string;
  MaxDomainLen : Z; MaxSearchLimit : Z; Port43Whois : string; ServerName : string;
  Version : string; SearchEnabled : bool; Extensions : list string;
  TTL0 : option TTL0Config; Geofeed : option GeofeedConfig; ToS : option ToSConfig;
  CustomNotices : list CustomNoticeConfig
}.

Record AuthConfig := mkAuthConfig {
  Auth_Enabled : bool; JWKSEndpoint : string; Issuer : string; Audience : string;
  Algorithms : list string
}.

Record MetricsConfig := mkMetricsConfig {
  Metrics_Enabled : bool; Metrics_Host : string; Metrics_Port : Z
}.

Record RateConfig := mkRateConfig {
  Rate_Enabled : bool; Requests : Z; Window : Z; Burst : Z; TrustedIPs : list string
}.

Record WhoisConfig := mkWhoisConfig { Whois_Enabled : bool; Whois_Port : Z }.

Record Config := mkConfig {
  Server : ServerConfig; Storage : StorageConfig; RDAP : RDAPConfig;
  Auth : AuthConfig; Metrics : MetricsConfig; Rate : RateConfig; Whois : WhoisConfig
}.

(** [if x == 0 { x = d }] and its string form *)
Definition or_default (x d : Z) : Z := if x =? 0 then d else x.
Definition or_default_str (x d : string) : string := if String.eqb x "" then d else x.

Definition setDefaults (c : Config) : Config :=
  let s := Server c in
  let r := RDAP c in
  mkConfig
    (mkServerConfig (Server_Host s)
       (or_default (Server_Port s) 8443)
       (or_default (ReadTimeout s) (10 * second))
       (or_default (WriteTimeout s) (10 * second))
       (or_default (IdleTimeout s) (60 * second))
       (or_default (MaxHeaderBytes s) (Z.shiftl 1 20))
       (TLSCertFile s) (TLSKeyFile s))
    (Storage c)
    (mkRDAPConfig (TLDs r) (Mode r) (BaseURL r)
       (or_default_str (RegistrarBaseURL r) (BaseURL r))
       (or_default (MaxDomainLen r) 253)
       (or_default (MaxSearchLimit r) 100)
       (Port43Whois r) (ServerName r)
       (or_default_str (Version r) "1.2")
       (SearchEnabled r) (Extensions r) (TTL0 r) (Geofeed r) (ToS r) (CustomNotices r))
    (Auth c)
    (mkMetricsConfig (Metrics_Enabled (Metrics c)) (Metrics_Host (Metrics c))
       (or_default (Metrics_Port (Metrics c)) 9090))
    (mkRateConfig (Rate_Enabled (Rate c))
       (or_default (Requests (Rate c)) 100)
       (or_default (Window (Rate c)) minute)
       (Burst (Rate c)) (TrustedIPs (Rate c)))
    (mkWhoisConfig (Whois_Enabled (Whois c)) (or_default (Whois_Port (Whois c)) 43)).

Definition supportedExtensions : gmap string bool :=
  <["ttl0" := true]> (<["geofeed1" := true]> (<["cidr0" := true]>
    (<["reverse_search" := true]> ∅))).

(** A map read of a missing key gives [false]. *)
Definition supported (ext : string) : bool :=
  default false (supportedExtensions !! ext).

Definition extensionNames `{MapRange} : list string :=
  (map_range supportedExtensions).*1.

Definition ExtensionsEnabled (c : RDAPConfig) (ext : string) : bool :=
  existsb (fun e => String.eqb e ext) (Extensions c).

(** [c.RDAP.Mode = m] *)
Definition set_mode (m : string) (c : Config) : Config :=
  let r := RDAP c in
  mkConfig (Server c) (Storage c)
    (mkRDAPConfig (TLDs r) m (BaseURL r) (RegistrarBaseURL r) (MaxDomainLen r)
       (MaxSearchLimit r) (Port43Whois r) (ServerName r) (Version r) (SearchEnabled r)
       (Extensions r) (TTL0 r) (Geofeed r) (ToS r) (CustomNotices r))
    (Auth c) (Metrics c) (Rate c) (Whois c).

Section Validation.
Context `{UnicodeTables} `{MapRange}.

(** The extension loop of [validate]. *)
Fixpoint check_extensions (exts : list string) : result unit :=
  match exts with
  | [] => Ok tt
  | ext :: exts' =>
      if supported ext then check_extensions exts'
      else Err (ErrText ("invalid rdap.extensions entry " +:+ Strconv.Quote ext
                         +:+ ": must be one of " +:+ Strconv.Show_strings extensionNames))
  end.

(** [validate] sets an empty mode and checks the rest; the new configuration is
    returned in place of the mutation. *)
Definition validate (c : Config) : result Config :=
  let c := if String.eqb (Mode (RDAP c)) "" then set_mode "registrar" c else c in
  if negb (String.eqb (Mode (RDAP c)) "registrar")
     && negb (String.eqb (Mode (RDAP c)) "registry")
  then Err (ErrText ("invalid rdap.mode " +:+ Strconv.Quote (Mode (RDAP c))
                     +:+ quoted ": must be `registrar` or `registry`"))
  else if String.eqb (BaseURL (RDAP c)) "" then Err (ErrText "rdap.base_url is required")
  else _ ← check_extensions (Extensions (RDAP c)); Ok c.

Definition Load (ReadFile : string -> result string)
    (yaml_Unmarshal : string -> result Config) (path : string) : result Config :=
  match ReadFile path with
  | Err e => Err (ErrWrap "read config: " e)
  | Ok data =>
      match yaml_Unmarshal data with
      | Err e => Err (ErrWrap "parse config: " e)
      | Ok cfg => validate (setDefaults cfg)
      end
  end.
End Validation.

(** Listen addresses *)
Definition Addr (c : Config) : string :=
  if String.eqb (Server_Host (Server c)) "" || String.eqb (Server_Host (Server c)) "0.0.0.0"
  then ":" +:+ Strconv.Itoa (Server_Port (Server c))
  else Server_Host (Server c) +:+ ":" +:+ Strconv.Itoa (Server_Port (Server c)).
Definition MetricsAddr (c : MetricsConfig) : string :=
  Metrics_Host c +:+ ":" +:+ Strconv.Itoa (Metrics_Port c).
Definition WhoisAddr (c : Config) : string :=
  if String.eqb (Server_Host (Server c)) "" || String.eqb (Server_Host (Server c)) "0.0.0.0"
  then ":" +:+ Strconv.Itoa (Whois_Port (Whois c))
  else Server_Host (Server c) +:+ ":" +:+ Strconv.Itoa (Whois_Port (Whois c)).

(** What [Load] promises about the configuration it returns. *)
Record valid (c : Config) : Prop := {
  valid_mode : Mode (RDAP c) = "registrar" \/ Mode (RDAP c) = "registry";
  valid_base : BaseURL (RDAP c) <> "";
  valid_registrar_base : RegistrarBaseURL (RDAP c) <> "";
  valid_exts : Forall (fun e => e ∈ ["ttl0"; "geofeed1"; "cidr0"; "reverse_search"])
                 (Extensions (RDAP c));
  valid_port : Server_Port (Server c) <> 0;
  valid_timeouts : ReadTimeout (Server c) <> 0 /\ WriteTimeout (Server c) <> 0
                   /\ IdleTimeout (Server c) <> 0;
  valid_limit : MaxSearchLimit (RDAP c) <> 0;
  valid_rate : Requests (Rate c) <> 0 /\ Window (Rate c) <> 0;
  valid_ports : Metrics_Port (Metrics c) <> 0 /\ Whois_Port (Whois c) <> 0
}.

(** The conditions on the file's content under which it is accepted, and the
    effect of [validate] on the mode. *)
Definition acceptable (c : Config) : Prop :=
  (Mode (RDAP c) = "" \/ Mode (RDAP c) = "registrar" \/ Mode (RDAP c) = "registry")
  /\ BaseURL (RDAP c) <> ""
  /\ Forall (fun e => e ∈ ["ttl0"; "geofeed1"; "cidr0"; "reverse_search"])
       (Extensions (RDAP c)).
Definition with_mode (c : Config) : Config :=
  if String.eqb (Mode (RDAP c)) "" then set_mode "registrar" c else c.

(** A minimal configuration, for the witnesses. *)
Definition sample_rdap : RDAPConfig :=
  mkRDAPConfig ["com"] "registrar" "https://rdap.example.com" "https://rdap.example.org/rdap/"
    253 100 "" "" "1.2" true [] None None None [].
Definition sample : Config :=
  mkConfig (mkServerConfig "" 0 0 0 0 0 "" "") (mkStorageConfig "memory" "" 0 0 "")
    (mkRDAPConfig [] "" "https://rdap.example.com" "" 0 0 "" "" "" false ["ttl0"; "cidr0"]
       None None None [])
    (mkAuthConfig false "" "" "" []) (mkMetricsConfig true "" 0)
    (mkRateConfig true 0 0 0 []) (mkWhoisConfig false 0).

(** What is returned for a decoded configuration: every field it sets is kept, and
    the ones that have a default get it. *)
Definition fills {A} (unset x d y : A) : Prop := (x = unset -> y = d) /\ (x <> unset -> y = x).
Record completed (raw cfg : Config) : Prop := {
  comp_kept : Storage cfg = Storage raw /\ Auth cfg = Auth raw
    /\ Server_Host (Server cfg) = Server_Host (Server raw)
    /\ TLSCertFile (Server cfg) = TLSCertFile (Server raw)
    /\ TLSKeyFile (Server cfg) = TLSKeyFile (Server raw);
  comp_server : fills 0 (Server_Port (Server raw)) 8443 (Server_Port (Server cfg))
    /\ fills 0 (ReadTimeout (Server raw)) (10 * second) (ReadTimeout (Server cfg))
    /\ fills 0 (WriteTimeout (Server raw)) (10 * second) (WriteTimeout (Server cfg))
    /\ fills 0 (IdleTimeout (Server raw)) (60 * second) (IdleTimeout (Server cfg))
    /\ fills 0 (MaxHeaderBytes (Server raw)) 1048576 (MaxHeaderBytes (Server cfg));
  comp_rdap : fills "" (Mode (RDAP raw)) "registrar" (Mode (RDAP cfg))
    /\ fills "" (RegistrarBaseURL (RDAP raw)) (BaseURL (RDAP raw)) (RegistrarBaseURL (RDAP cfg))
    /\ fills 0 (MaxDomainLen (RDAP raw)) 253 (MaxDomainLen (RDAP cfg))
    /\ fills 0 (MaxSearchLimit (RDAP raw)) 100 (MaxSearchLimit (RDAP cfg))
    /\ fills "" (Version (RDAP raw)) "1.2" (Version (RDAP cfg));
  comp_rdap_kept : TLDs (RDAP cfg) = TLDs (RDAP raw) /\ BaseURL (RDAP cfg) = BaseURL (RDAP raw)
    /\ Port43Whois (RDAP cfg) = Port43Whois (RDAP raw) /\ ServerName (RDAP cfg) = ServerName (RDAP raw)
    /\ SearchEnabled (RDAP cfg) = SearchEnabled (RDAP raw) /\ Extensions (RDAP cfg) = Extensions (RDAP raw)
    /\ TTL0 (RDAP cfg) = TTL0 (RDAP raw) /\ Geofeed (RDAP cfg) = Geofeed (RDAP raw)
    /\ ToS (RDAP cfg) = ToS (RDAP raw) /\ CustomNotices (RDAP cfg) = CustomNotices (RDAP raw);
  comp_metrics : Metrics_Enabled (Metrics cfg) = Metrics_Enabled (Metrics raw)
    /\ Metrics_Host (Metrics cfg) = Metrics_Host (Metrics raw)
    /\ fills 0 (Metrics_Port (Metrics raw)) 9090 (Metrics_Port (Metrics cfg));
  comp_rate : Rate_Enabled (Rate cfg) = Rate_Enabled (Rate raw)
    /\ fills 0 (Requests (Rate raw)) 100 (Requests (Rate cfg))
    /\ fills 0 (Window (Rate raw)) minute (Window (Rate cfg))
    /\ Burst (Rate cfg) = Burst (Rate raw) /\ TrustedIPs (Rate cfg) = TrustedIPs (Rate raw);
  comp_whois : Whois_Enabled (Whois cfg) = Whois_Enabled (Whois raw)
    /\ fills 0 (Whois_Port (Whois raw)) 43 (Whois_Port (Whois cfg))
}.

(** ** Lemmas *)

Lemma or_default_nonzero x d : d <> 0 -> or_default x d <> 0.
Proof. unfold or_default. intros Hd. destruct (x =? 0) eqn:E; to_prop; done. Qed.
Lemma or_default_idemp x d : or_default (or_default x d) d = or_default x d.
Proof.
  unfold or_default. destruct (x =? 0) eqn:E.
  - destruct (d =? 0); done.
  - by rewrite E.
Qed.
Lemma or_default_str_idemp x d : or_default_str (or_default_str x d) d = or_default_str x d.
Proof.
  unfold or_default_str. destruct (String.eqb x "") eqn:E.
  - by destruct (String.eqb d "").
  - by rewrite E.
Qed.
#[export] Hint Resolve or_default_nonzero : go.

Lemma supported_iff ext :
  supported ext = true <-> ext ∈ ["ttl0"; "geofeed1"; "cidr0"; "reverse_search"].
Proof.
  unfold supported, supportedExtensions. rewrite !elem_of_cons, elem_of_nil.
  rewrite !lookup_insert. repeat case_decide; subst; naive_solver.
Qed.
Lemma ExtensionsEnabled_iff c ext :
  ExtensionsEnabled c ext = true <-> ext ∈ Extensions c.
Proof.
  unfold ExtensionsEnabled. rewrite existsb_exists. split.
  - intros (e & He & Heq). apply String.eqb_eq in Heq as <-. by apply list_elem_of_In.
  - intros He. exists ext. split; [by apply list_elem_of_In|apply String.eqb_refl].
Qed.
Lemma check_extensions_ok `{UnicodeTables} `{MapRange} exts :
  check_extensions exts = Ok tt
  <-> Forall (fun e => e ∈ ["ttl0"; "geofeed1"; "cidr0"; "reverse_search"]) exts.
Proof.
  induction exts as [|e exts IH]; simpl; [done|].
  rewrite Forall_cons, <-supported_iff. destruct (supported e); [naive_solver|].
  split; [done|naive_solver].
Qed.

Lemma setDefaults_idemp c : setDefaults (setDefaults c) = setDefaults c.
Proof.
  unfold setDefaults. simpl. by rewrite !or_default_idemp, !or_default_str_idemp.
Qed.

(** [validate] accepts exactly the configurations whose mode is empty or one of
    the two modes, whose base URL is set and whose extensions are supported, and
    changes nothing but an empty mode. *)
Lemma validate_iff `{UnicodeTables} `{MapRange} c c' :
  validate c = Ok c' <-> c' = with_mode c /\ acceptable c.
Proof.
  unfold acceptable, with_mode. rewrite <-check_extensions_ok. unfold validate.
  destruct (String.eqb (Mode (RDAP c)) "") eqn:Em; to_prop; simpl.
  - destruct (String.eqb (BaseURL (RDAP c)) "") eqn:Eb; to_prop; [naive_solver|].
    destruct (check_extensions _) as [[]|]; naive_solver.
  - destruct (String.eqb (Mode (RDAP c)) "registrar") eqn:E1;
      destruct (String.eqb (Mode (RDAP c)) "registry") eqn:E2;
      destruct (String.eqb (BaseURL (RDAP c)) "") eqn:Eb; to_prop; simpl;
      try (destruct (check_extensions _) as [[]|]); naive_solver.
Qed.

Lemma acceptable_setDefaults c : acceptable (setDefaults c) <-> acceptable c.
Proof. done. Qed.
Lemma valid_defaults c : acceptable c -> valid (with_mode (setDefaults c)).
Proof.
  intros (Hm & Hb & He).
  assert (Hr : or_default_str (RegistrarBaseURL (RDAP c)) (BaseURL (RDAP c)) <> "").
  { unfold or_default_str.
    destruct (String.eqb (RegistrarBaseURL (RDAP c)) "") eqn:Er; to_prop; done. }
  unfold with_mode. simpl (Mode _).
  destruct (String.eqb (Mode (RDAP c)) "") eqn:Em; to_prop;
    constructor; simpl; try done; try tauto; try (by left);
    repeat split; by apply or_default_nonzero.
Qed.

Lemma fills_or_default x d y : fills 0 x d y <-> y = or_default x d.
Proof. unfold fills, or_default. destruct (Z.eqb_spec x 0); intuition. Qed.
Lemma fills_or_default_str x d y : fills "" x d y <-> y = or_default_str x d.
Proof. unfold fills, or_default_str. destruct (String.eqb_spec x ""); intuition. Qed.
Lemma with_mode_fills c :
  with_mode c = set_mode (or_default_str (Mode (RDAP c)) "registrar") c.
Proof.
  unfold with_mode, or_default_str. destruct (String.eqb _ _); [done|].
  by destruct c as [? ? [] ? ? ? ?].
Qed.
Lemma completed_iff raw cfg : completed raw cfg <-> cfg = with_mode (setDefaults raw).
Proof.
  rewrite with_mode_fills. split.
  - intros [H1 H2 H3 H4 H5 H6 H7]. revert H2 H3 H5 H6 H7.
    rewrite !fills_or_default, !fills_or_default_str. intros H2 H3 H5 H6 H7.
    destruct cfg as [[] st [] au [] [] []]. simpl in *. destruct_and?. by subst.
  - intros ->. split; rewrite ?fills_or_default, ?fills_or_default_str; by split_and!.
Qed.

(** ** Properties *)


End config.
