(* ===== verification/Domain.v ===== *)
(** * Package domain (internal/domain)

    The canonical registry data model.  Go's string-based enumerations are
    strings, as the code never restricts their values; a nil pointer is [None],
    a Go map is a [gmap], a slice a list. *)

From stdpp Require Import base tactics option list gmap strings.
From Stdlib Require Import ZArith.
From S2P Require Import Prelude GoTime.
#[local] Set Warnings "-register-all".

Module domain.

Definition ObjectKind : Type := string.
Definition KindDomain : ObjectKind := "domain".
Definition KindContact : ObjectKind := "entity".
Definition KindNameserver : ObjectKind := "nameserver".
Definition KindIPNetwork : ObjectKind := "ip_network".
Definition KindAutnum : ObjectKind := "autnum".

Record HistoryEntry := mkHistoryEntry {
  hist_Version : Z; hist_ChangedAt : Time; hist_Action : string;
  hist_Actor : string; hist_Snapshot : string
}.

Record AuditEntry := mkAuditEntry {
  audit_Timestamp : Time; audit_Actor : string; audit_Action : string;
  audit_Detail : string
}.

Record Metadata := mkMetadata {
  meta_Version : Z; CreatedAt : Time; UpdatedAt : Time; UpdatedBy : string;
  Source : string; History : list HistoryEntry; Audit : list AuditEntry
}.

Record Status := mkStatus {
  status_Value : string; status_Reason : string; status_Actor : string
}.

Record Event := mkEvent { event_Action : string; event_Date : Time; event_Actor : string }.

Definition PrivacyState : Type := string.
Definition PrivacyPublic : PrivacyState := "public".
Definition PrivacyRedacted : PrivacyState := "redacted".
Definition PrivacyPrivate : PrivacyState := "private".
Definition PrivacyProxy : PrivacyState := "proxy".

Definition ContactRole : Type := string.
Definition RoleRegistrant : ContactRole := "registrant".
Definition RoleAdministrative : ContactRole := "administrative".
Definition RoleTechnical : ContactRole := "technical".
Definition RoleBilling : ContactRole := "billing".
Definition RoleRegistrar : ContactRole := "registrar".
Definition RoleAbuse : ContactRole := "abuse".
Definition RoleReseller : ContactRole := "reseller".

Record PublicID := mkPublicID { pid_Type : string; pid_Identifier : string }.

Record VCardAddress := mkVCardAddress {
  CountryCode : string; POBox : string; Extended : string; Street : string;
  Locality : string; Region : string; PostalCode : string; CountryName : string
}.

Record VCard := mkVCard {
  vc_Version : string; FullName : string; Kind : string; Organization : string;
  Address : option VCardAddress; VoiceTel : string; FaxTel : string; Email : string;
  ContactURI : string
}.

Record Redaction := mkRedaction {
  NameType : string; NameDescription : string; Method : string; PrePath : string;
  PostPath : string; ReplacementPath : string; PathLang : string; Reason : string
}.

(** [Contact] is recursive through its nested entities. *)
Inductive Contact := mkContact {
  ct_Handle : string;
  Roles : list ContactRole;
  ct_Status : list Status;
  ct_VCard : option VCard;
  PublicIDs : list PublicID;
  Privacy : PrivacyState;
  RegistrarID : string;
  RegistrarBaseURL : string;
  Entities : list Contact;
  ct_Metadata : Metadata
}.

Record NameServer := mkNameServer {
  ns_Handle : string; ns_LDHName : string; ns_UnicodeName : string;
  IPV4 : list string; IPV6 : list string; ns_Status : list Status;
  ns_Metadata : Metadata
}.

Record DSRecord := mkDSRecord {
  ds_KeyTag : Z; ds_Algorithm : Z; ds_DigestType : Z; ds_Digest : string
}.

Record KeyRecord := mkKeyRecord {
  key_Flags : Z; key_Protocol : Z; key_Algorithm : Z; key_PublicKey : string
}.

Record SecureDNS := mkSecureDNS {
  ZoneSigned : bool; DelegationSigned : bool; MaxSigLife : option Z;
  DSRecords : list DSRecord; KeyRecords : list KeyRecord
}.

Record Domain := mkDomain {
  d_Handle : string; LDHName : string; UnicodeName : string; TLD : string;
  d_Status : list Status; ExpiresAt : Time;
  Contacts : gmap ContactRole (list string);
  Nameservers : list NameServer;
  d_SecureDNS : option SecureDNS;
  Registrar : string;
  d_Metadata : Metadata
}.

Record DomainAggregate := mkDomainAggregate {
  agg_Domain : Domain;
  agg_Registrar : option Contact;
  agg_Contacts : gmap string Contact;
  agg_Nameservers : gmap string NameServer
}.

Record IPNetwork := mkIPNetwork {
  net_Handle : string; StartAddress : string; EndAddress : string; IPVersion : string;
  CIDR : list string; net_Name : string; net_Type : string; net_Country : string;
  net_Status : list Status; ParentHandle : string; net_Metadata : Metadata
}.

(** The ASNs are 32-bit unsigned. *)
Record Autnum := mkAutnum {
  as_Handle : string; StartASN : Z; EndASN : Z; as_Name : string; as_Type : string;
  as_Country : string; as_Status : list Status; as_Metadata : Metadata
}.

(** [domain.Status{Value: v}] *)
Definition status_of (v : string) : Status := mkStatus v "" "".

End domain.
