(* ===== verification/RdapModels.v ===== *)
(** * Package rdap, wire types (internal/rdap/models.go)

    The RFC 9083 response records.  Embedded structs are fields; [jany] is the
    [interface{}] tree a jCard is built from. *)

From stdpp Require Import base tactics option list gmap strings.
From Stdlib Require Import ZArith.
From S2P Require Import Prelude.
#[local] Set Warnings "-register-all".

(** A value of type [interface{}] built from strings, slices and string-keyed
    maps (what [encoding/json] decodes, and what the jCard builder emits). *)
Inductive jany : Type :=
  | JNull
  | JBool (b : bool)
  | JNum (lit : string)
  | JStr (s : string)
  | JArr (l : list jany)
  | JObj (m : list (string * jany)).

Module rdap.

Record Conformance := mkConformance { conf_ids : list string }.

Record Link := mkLink {
  l_Value : string; l_Rel : string; l_Href : string; l_Type : string; l_Title : string
}.

Record Event := mkEvent {
  EventAction : string; EventDate : string; EventActor : string
}.

Record Notice := mkNotice {
  n_Title : string; n_Type : string; n_Description : list string; n_Links : list Link
}.

Record Remark := mkRemark {
  r_Title : string; r_Type : string; r_Description : list string; r_Links : list Link
}.

Record PublicID := mkPublicID { pid_Type : string; pid_Identifier : string }.

Record CIDR0 := mkCIDR0 { V4Prefix : string; V6Prefix : string; cidr0_Length : Z }.

(** [Common] and [Entity] are mutually recursive (an entity embeds [Common],
    which lists entities); [E] is the entity type. *)
Record CommonOf (E : Type) := mkCommon {
  ObjectClassName : string; Handle : string; Links : list Link; Events : list Event;
  c_Notices : list Notice; c_Remarks : list Remark; Port43 : string;
  c_Entities : list E; Status : list string
}.
Arguments mkCommon {_} _ _ _ _ _ _ _ _ _.
Arguments ObjectClassName {_} _.
Arguments Handle {_} _.
Arguments Links {_} _.
Arguments Events {_} _.
Arguments c_Notices {_} _.
Arguments c_Remarks {_} _.
Arguments Port43 {_} _.
Arguments c_Entities {_} _.
Arguments Status {_} _.

Record IPNetworkOf (E : Type) := mkIPNetwork {
  net_Common : CommonOf E;
  StartAddress : string; EndAddress : string; IPVersion : string; CIDR : list string;
  net_Name : string; net_Type : string; net_Country : string; ParentHandle : string;
  CIDR0CIDRs : list CIDR0
}.
Arguments mkIPNetwork {_} _ _ _ _ _ _ _ _ _ _.
Arguments net_Common {_} _.
Arguments StartAddress {_} _.
Arguments EndAddress {_} _.
Arguments IPVersion {_} _.
Arguments CIDR {_} _.
Arguments net_Name {_} _.
Arguments net_Type {_} _.
Arguments net_Country {_} _.
Arguments ParentHandle {_} _.
Arguments CIDR0CIDRs {_} _.

Inductive Entity := mkEntity {
  ent_Common : CommonOf Entity;
  VCardArray : list jany;
  Roles : list string;
  ent_PublicIDs : list PublicID;
  Networks : list (IPNetworkOf Entity);
  AsEventActor : bool
}.

Abbreviation Common := (CommonOf Entity).
Definition IPNetwork : Type := IPNetworkOf Entity.

Record TTL0Data := mkTTL0Data { ttl0_Values : gmap string Z; ttl0_Remarks : list Remark }.

Record IPAddrSet := mkIPAddrSet { V4 : list string; V6 : list string }.

Record Nameserver := mkNameserver {
  ns_Common : Common; ns_LDHName : string; ns_UnicodeName : string;
  IPAddresses : option IPAddrSet; ns_TTL0Data : option TTL0Data
}.

Record VariantName := mkVariantName { vn_LDHName : string; vn_UnicodeName : string }.
Record Variant := mkVariant {
  Relation : list string; IDNTable : string; VariantNames : list VariantName
}.

Record DSData := mkDSData {
  ds_KeyTag : Z; ds_Algorithm : Z; ds_DigestType : Z; ds_Digest : string;
  ds_Events : list Event; ds_Links : list Link
}.
Record KeyData := mkKeyData {
  key_Flags : Z; key_Protocol : Z; key_Algorithm : Z; key_PublicKey : string;
  key_Events : list Event; key_Links : list Link
}.
Record SecureDNS := mkSecureDNS {
  ZoneSigned : bool; DelegationSigned : bool; MaxSigLife : option Z;
  sd_DSData : list DSData; sd_KeyData : list KeyData
}.

Record Domain := mkDomain {
  d_Common : Common; d_Conformance : Conformance; LDHName : string; UnicodeName : string;
  Variants : list Variant; Nameservers : list Nameserver; d_SecureDNS : option SecureDNS;
  d_Network : option IPNetwork; d_Notices : list Notice; d_PublicIDs : list PublicID;
  d_TTL0Data : option TTL0Data
}.

Record ReverseSearchPropertiesMapping := mkRSMapping {
  rsm_Property : string; PropertyPath : string
}.
Record ReverseSearchProperty := mkRSProperty {
  SearchableResourceType : string; RelatedResourceType : string; rsp_Property : string
}.

Record DomainSearchResult := mkDomainSearchResult {
  ds_Conformance : Conformance; DomainSearchResults : list Domain;
  ds_Notices : list Notice; ds_Mapping : list ReverseSearchPropertiesMapping
}.
Record EntitySearchResult := mkEntitySearchResult {
  es_Conformance : Conformance; EntitySearchResults : list Entity;
  es_Notices : list Notice; es_Mapping : list ReverseSearchPropertiesMapping
}.
Record NameserverSearchResult := mkNameserverSearchResult {
  nss_Conformance : Conformance; NameserverSearchResults : list Nameserver;
  nss_Notices : list Notice; nss_Mapping : list ReverseSearchPropertiesMapping
}.

Record FARV1Provider := mkFARV1Provider { Iss : string; Name : string; Default : bool }.
Record FARV1OpenIDCConfiguration := mkFARV1 {
  SessionClientSupported : bool; TokenClientSupported : bool; DntSupported : bool;
  ProviderDiscoverySupported : bool; IssuerIdentifierSupported : bool;
  ImplicitTokenRefreshSupported : bool; OpenIDCProviders : list FARV1Provider
}.

Record Help := mkHelp {
  help_Conformance : Conformance; help_Notices : list Notice;
  ReverseSearchProperties : list ReverseSearchProperty;
  FARV1 : option FARV1OpenIDCConfiguration
}.

Record EntityResponse := mkEntityResponse {
  er_Entity : Entity; er_Conformance : Conformance; er_Notices : list Notice
}.
Record NameserverResponse := mkNameserverResponse {
  nr_Nameserver : Nameserver; nr_Conformance : Conformance; nr_Notices : list Notice
}.
Record IPNetworkResponse := mkIPNetworkResponse {
  ir_IPNetwork : IPNetwork; ir_Conformance : Conformance; ir_Notices : list Notice
}.

(** The ASNs are 32-bit unsigned. *)
Record Autnum := mkAutnum {
  as_Common : Common; StartAutnum : Z; EndAutnum : Z; as_Name : string;
  as_Type : string; as_Country : string
}.
Record AutnumResponse := mkAutnumResponse {
  ar_Autnum : Autnum; ar_Conformance : Conformance; ar_Notices : list Notice
}.

Record ErrorResponse := mkErrorResponse {
  err_Conformance : Conformance; ErrorCode : Z; err_Title : string;
  err_Description : list string; err_Notices : list Notice
}.

(** Structure literals that leave the other fields at their zero value. *)
Definition common (class handle : string) (links : list Link) (events : list Event)
    (entities : list Entity) (status : list string) : Common :=
  mkCommon class handle links events [] [] "" entities status.
Definition entity (c : Common) (vcard : list jany) (roles : list string)
    (pids : list PublicID) : Entity :=
  mkEntity c vcard roles pids [] false.
Definition link (value rel href type : string) : Link := mkLink value rel href type "".
Definition event (action date : string) : Event := mkEvent action date "".
Definition notice (title : string) (desc : list string) (links : list Link) : Notice :=
  mkNotice title "" desc links.

End rdap.
