(* ===== verification/GoJson.v ===== *)
(** * encoding/json

    The part of the Go package the program's SQL columns go through: the parser
    of JSON texts, [json.Unmarshal] into the Go types of the columns, and
    [json.Marshal] of a list of strings.  [jany] is the parsed tree; a number
    keeps its literal. *)

From stdpp Require Import base tactics option list strings.
From Stdlib Require Import ZArith Lia Ascii.
From S2P Require Import Prelude GoStrings GoNet RdapModels.
#[local] Open Scope Z_scope.

Module json.

(** ** Parsing *)

Definition is_json_space (c : ascii) : bool :=
  (byte c =? 32) || (byte c =? 9) || (byte c =? 10) || (byte c =? 13).
Definition skip (l : list ascii) : list ascii := drop_while is_json_space l.

(** The run of digits a text begins with, and the rest. *)
Fixpoint span_digits (l : list ascii) : list ascii * list ascii :=
  match l with
  | c :: l' => if is_digit c then let '(d, r) := span_digits l' in (c :: d, r) else ([], l)
  | [] => ([], [])
  end.
(** [0 | [1-9][0-9]*] *)
Definition int_part (l : list ascii) : option (list ascii * list ascii) :=
  match span_digits l with
  | ([], _) => None
  | (c :: d, r) =>
      if (byte c =? 48) && negb (Nat.eqb (length d) 0) then Some ([c], d ++ r)
      else Some (c :: d, r)
  end.
(** [. digits], or nothing *)
Definition frac_part (l : list ascii) : option (list ascii * list ascii) :=
  match l with
  | c :: l' =>
      if byte c =? 46 then
        match span_digits l' with ([], _) => None | (d, r) => Some (c :: d, r) end
      else Some ([], l)
  | [] => Some ([], [])
  end.
(** [(e|E) [+-] digits], or nothing *)
Definition exp_part (l : list ascii) : option (list ascii * list ascii) :=
  match l with
  | c :: l' =>
      if (byte c =? 101) || (byte c =? 69) then
        let '(s, l'') := match l' with
                         | k :: m => if (byte k =? 43) || (byte k =? 45) then ([k], m) else ([], l')
                         | [] => ([], [])
                         end in
        match span_digits l'' with ([], _) => None | (d, r) => Some (c :: s ++ d, r) end
      else Some ([], l)
  | [] => Some ([], [])
  end.
Definition number (l : list ascii) : option (list ascii * list ascii) :=
  let '(s, l) := match l with
                 | c :: l' => if byte c =? 45 then ([c], l') else ([], l)
                 | [] => ([], [])
                 end in
  '(i, l) ← int_part l; '(f, l) ← frac_part l; '(e, l) ← exp_part l;
  Some (s ++ i ++ f ++ e, l).

(** Four hexadecimal digits. *)
Definition hex4 (l : list ascii) : option (Z * list ascii) :=
  match l with
  | a :: b :: c :: d :: r =>
      a ← Netip.hex_value a; b ← Netip.hex_value b; c ← Netip.hex_value c;
      d ← Netip.hex_value d;
      Some (a * 4096 + b * 256 + c * 16 + d, r)
  | _ => None
  end.
(** The low half of a surrogate pair, when one follows. *)
Definition low_surrogate (l : list ascii) : option (Z * list ascii) :=
  match l with
  | a :: b :: r =>
      if (byte a =? 92) && (byte b =? 117) then
        '(v, r) ← hex4 r; if in_range 56320 57343 v then Some (v, r) else None
      else None
  | _ => None
  end.
(** The bytes of an escape [\c] other than [\u]. *)
Definition simple_escape (c : ascii) : option (list ascii) :=
  let x := byte c in
  if (x =? 34) || (x =? 92) || (x =? 47) then Some [c]
  else if x =? 98 then Some [of_byte 8] else if x =? 102 then Some [of_byte 12]
  else if x =? 110 then Some [of_byte 10] else if x =? 114 then Some [of_byte 13]
  else if x =? 116 then Some [of_byte 9] else None.

(** The rest of a string after its opening quote, unquoted: invalid UTF-8 and
    unpaired surrogates become U+FFFD. *)
Fixpoint string_body (n : nat) (l : list ascii) : option (list ascii * list ascii) :=
  match n, l with
  | S n, c :: l' =>
      let x := byte c in
      let emit bytes rest := '(s, r) ← string_body n rest; Some (bytes ++ s, r) in
      if x =? 34 then Some ([], l')
      else if x <? 32 then None
      else if x =? 92 then
        match l' with
        | e :: l'' =>
            if byte e =? 117 then
              '(v, l3) ← hex4 l'';
              if in_range 55296 56319 v then
                match low_surrogate l3 with
                | Some (w, l4) =>
                    emit (Utf8.encode_rune (65536 + (v - 55296) * 1024 + (w - 56320))) l4
                | None => emit (Utf8.encode_rune Utf8.RuneError) l3
                end
              else emit (Utf8.encode_rune v) l3
            else bytes ← simple_escape e; emit bytes l''
        | [] => None
        end
      else
        let '(v, w) := Utf8.decode_rune l in emit (Utf8.encode_rune v) (drop w l)
  | _, _ => None
  end.
Definition string_lit (l : list ascii) : option (string * list ascii) :=
  '(s, r) ← string_body (length l) l; Some (sb s, r).

(** The deepest nesting the scanner accepts. *)
Definition maxNestingDepth : Z := 10000.

(** Values, the items of an array and the members of an object; at each level
    [depth] brackets are open. *)
Fixpoint value (n : nat) (depth : Z) (l : list ascii) : option (jany * list ascii) :=
  match n with
  | O => None
  | S n =>
      match skip l with
      | [] => None
      | c :: r =>
          let x := byte c in
          if x =? 34 then '(s, r) ← string_lit r; Some (JStr s, r)
          else if x =? 91 then
            if maxNestingDepth <=? depth then None
            else match skip r with
                 | k :: r' => if byte k =? 93 then Some (JArr [], r')
                              else '(xs, r) ← items n (depth + 1) r; Some (JArr xs, r)
                 | [] => None
                 end
          else if x =? 123 then
            if maxNestingDepth <=? depth then None
            else match skip r with
                 | k :: r' => if byte k =? 125 then Some (JObj [], r')
                              else '(ms, r) ← members n (depth + 1) r; Some (JObj ms, r)
                 | [] => None
                 end
          else if has_prefix (bs "true") (c :: r) then Some (JBool true, drop 4 (c :: r))
          else if has_prefix (bs "false") (c :: r) then Some (JBool false, drop 5 (c :: r))
          else if has_prefix (bs "null") (c :: r) then Some (JNull, drop 4 (c :: r))
          else '(d, r) ← number (c :: r); Some (JNum (sb d), r)
      end
  end
with items (n : nat) (depth : Z) (l : list ascii) : option (list jany * list ascii) :=
  match n with
  | O => None
  | S n =>
      '(v, r) ← value n depth l;
      match skip r with
      | k :: r => if byte k =? 44 then '(vs, r) ← items n depth r; Some (v :: vs, r)
                  else if byte k =? 93 then Some ([v], r) else None
      | [] => None
      end
  end
with members (n : nat) (depth : Z) (l : list ascii) : option (list (string * jany) * list ascii) :=
  match n with
  | O => None
  | S n =>
      match skip l with
      | q :: r =>
          if byte q =? 34 then
            '(name, r) ← string_lit r;
            match skip r with
            | k :: r =>
                if byte k =? 58 then
                  '(v, r) ← value n depth r;
                  match skip r with
                  | k :: r => if byte k =? 44
                              then '(ms, r) ← members n depth r; Some ((name, v) :: ms, r)
                              else if byte k =? 125 then Some ([(name, v)], r) else None
                  | [] => None
                  end
                else None
            | [] => None
            end
          else None
      | [] => None
      end
  end.

(** A whole text.  Two levels of recursion consume a byte, so the fuel is
    enough: GoJsonFuel.v. *)
Definition parse (s : string) : option jany :=
  let l := bs s in
  '(v, r) ← value (2 * length l + 2) 0 l;
  match skip r with [] => Some v | _ => None end.

(** The first value of a stream, which is all [json.Decoder.Decode] reads. *)
Definition first_value (s : string) : option jany :=
  let l := bs s in fst <$> value (2 * length l + 2) 0 l.

(** ** Decoding

    A decoder stores a tree into a variable and reports whether every part had
    the right type; a part of the wrong type is skipped and the rest is stored. *)
Definition decoder (A : Type) : Type := jany -> A -> A * bool.

Definition dec_string : decoder string := fun v old =>
  match v with JStr s => (s, true) | JNull => (old, true) | _ => (old, false) end.
Definition dec_bool : decoder bool := fun v old =>
  match v with JBool b => (b, true) | JNull => (old, true) | _ => (old, false) end.
Definition dec_int : decoder Z := fun v old =>
  match v with
  | JNum lit => match Strconv.Atoi lit with Some n => (n, true) | None => (old, false) end
  | JNull => (old, true)
  | _ => (old, false)
  end.
(** A pointer is allocated before its target is stored. *)
Definition dec_ptr {A} (zero : A) (d : decoder A) : decoder (option A) := fun v old =>
  match v with
  | JNull => (None, true)
  | _ => let '(x, ok) := d v (default zero old) in (Some x, ok)
  end.
(** The elements of a slice are stored over the old ones. *)
Fixpoint dec_elems {A} (zero : A) (d : decoder A) (vs : list jany) (old : list A)
    : list A * bool :=
  match vs with
  | [] => ([], true)
  | v :: vs =>
      let '(x, ok) := d v (default zero (head old)) in
      let '(xs, oks) := dec_elems zero d vs (tail old) in
      (x :: xs, ok && oks)
  end.
Definition dec_slice {A} (zero : A) (d : decoder A) : decoder (list A) := fun v old =>
  match v with
  | JArr vs => dec_elems zero d vs old
  | JNull => ([], true)
  | _ => (old, false)
  end.

(** [foldName]: letters are compared without case; U+017F and U+212A are the
    only runes above ASCII that fold to a letter. *)
Definition fold_rune (r : Z) : Z :=
  if in_range 97 122 r then r - 32 else if r =? 383 then 83 else if r =? 8490 then 75 else r.
Definition names_field (key field : string) : bool :=
  bool_decide (fold_rune <$> Utf8.runes (bs key) = fold_rune <$> Utf8.runes (bs field)).

(** A struct: [set] stores one member, or ignores it. *)
Fixpoint dec_members {A} (set : string -> decoder A) (ms : list (string * jany)) (old : A)
    : A * bool :=
  match ms with
  | [] => (old, true)
  | (k, v) :: ms =>
      let '(x, ok) := set k v old in
      let '(y, oks) := dec_members set ms x in (y, ok && oks)
  end.
Definition dec_struct {A} (set : string -> decoder A) : decoder A := fun v old =>
  match v with
  | JObj ms => dec_members set ms old
  | JNull => (old, true)
  | _ => (old, false)
  end.

(** Into [interface{}]: a number must be within the range of a float64. *)
Definition float_overflows (lit : string) : bool :=
  let l := bs lit in
  let l := match l with c :: l' => if byte c =? 45 then l' else l | [] => l end in
  let '(i, l) := span_digits l in
  let '(f, l) := match l with
                 | c :: l' => if byte c =? 46 then span_digits l' else ([], l)
                 | [] => ([], [])
                 end in
  let e := match l with
           | _ :: l' => default 0 (digits (List.filter is_digit l'))
                        * (if existsb (fun c => byte c =? 45) l' then -1 else 1)
           | [] => 0
           end in
  let m := default 0 (digits (i ++ f)) in
  let e := e - Z.of_nat (length f) in
  let top := 2 ^ 1024 - 2 ^ 970 in
  if 0 <=? e then (0 <? m) && (top <=? m * 10 ^ e) else top * 10 ^ (- e) <=? m.
Fixpoint numbers_ok (v : jany) : bool :=
  match v with
  | JNum lit => negb (float_overflows lit)
  | JArr vs => forallb numbers_ok vs
  | JObj ms => forallb (fun m => numbers_ok m.2) ms
  | _ => true
  end.

(** Into [map[string]interface{}], as the list of the members stored, the last
    member of a name being the entry of the map. *)
Definition dec_map : decoder (list (string * jany)) := fun v old =>
  match v with
  | JObj ms => (old ++ ms, forallb (fun m => numbers_ok m.2) ms)
  | JNull => ([], true)
  | _ => (old, false)
  end.

(** [json.Unmarshal(raw, &x)]: the new value of [x], and whether the error is
    nil.  A text that does not parse stores nothing. *)
Definition Unmarshal {A} (d : decoder A) (raw : string) (old : A) : A * bool :=
  match parse raw with
  | Some v => d v old
  | None => (old, false)
  end.

(** [json.NewDecoder(r).Decode(&x)] on what [r] reads: the new value, unless the
    error is not nil. *)
Definition Decode {A} (d : decoder A) (stream : string) (old : A) : option A :=
  v ← first_value stream;
  match d v old with (x, true) => Some x | (_, false) => None end.

(** ** Encoding a list of strings *)

(** [appendString] with HTML escaping, one rune with the bytes it came from. *)
Definition encode_char (x : Z * list ascii) : list ascii :=
  let '(r, w) := x in
  let esc (c : ascii) := [Strconv.backslash; c] in
  if (r =? Utf8.RuneError) && (length w =? 1)%nat then bs "\ufffd"
  else if r =? 8 then esc "b"%char else if r =? 12 then esc "f"%char
  else if r =? 10 then esc "n"%char else if r =? 13 then esc "r"%char
  else if r =? 9 then esc "t"%char
  else if (r =? 34) || (r =? 92) then Strconv.backslash :: w
  else if (r <? 32) || (r =? 60) || (r =? 62) || (r =? 38) || (r =? 8232) || (r =? 8233)
  then esc "u"%char ++ Strconv.hex_pad 4 r
  else w.
Definition encode_string (s : string) : list ascii :=
  dquote :: concat (encode_char <$> Utf8.segs (bs s)) ++ [dquote].
Fixpoint encode_items (ss : list string) : list ascii :=
  match ss with
  | [] => []
  | [s] => encode_string s
  | s :: ss => encode_string s ++ ","%char :: encode_items ss
  end.
(** [json.Marshal] of a [[]string] that is not nil *)
Definition Marshal_strings (ss : list string) : string :=
  sb ("["%char :: encode_items ss ++ ["]"%char]).

(** ** Lemmas *)

(** Every invalid byte of a text decodes to [RuneError] with width 1. *)
Definition valid_utf8 (s : string) : Prop :=
  Forall (fun x : Z * list ascii => ((x.1 =? Utf8.RuneError) && (length x.2 =? 1)%nat) = false)
    (Utf8.segs (bs s)).

Lemma cont_ok_cons c l i :
  Utf8.cont_ok (c :: l) (S i) = true ->
  exists b k, l !! i = Some b /\ 128 <= byte b <= 191 /\ Utf8.cont (c :: l) (S i) = byte b
    /\ drop i l = b :: k.
Proof.
  unfold Utf8.cont_ok, Utf8.cont. simpl. destruct (l !! i) as [b|] eqn:E; simpl; [|done].
  intros Hb%in_range_iff. exists b, (drop (S i) l). repeat split; try lia; try done.
  by apply drop_S.
Qed.

Lemma of_byte_eq z c : z = byte c -> of_byte z = c.
Proof. intros ->. apply of_byte_byte. Qed.

(** A valid encoding is the one [encode_rune] writes, and what follows it has
    no influence on its decoding. *)
Lemma in_range_true lo hi z : lo <= z <= hi -> in_range lo hi z = true.
Proof. apply in_range_iff. Qed.
Lemma in_range_out lo hi z : z < lo \/ hi < z -> in_range lo hi z = false.
Proof. apply in_range_false. Qed.

Lemma decode_rune_2 b c k :
  194 <= byte b <= 223 -> 128 <= byte c <= 191 ->
  Utf8.decode_rune (b :: c :: k) = ((byte b - 192) * 64 + (byte c - 128), 2%nat).
Proof.
  intros Hb Hc. unfold Utf8.decode_rune, Utf8.cont_ok, Utf8.cont. simpl.
  replace (byte b <? 128) with false by lia. by rewrite !in_range_true by lia.
Qed.
Lemma decode_rune_3 b c d k :
  224 <= byte b <= 239 -> (byte b = 224 -> 160 <= byte c) -> (byte b = 237 -> byte c <= 159) ->
  128 <= byte c <= 191 -> 128 <= byte d <= 191 ->
  Utf8.decode_rune (b :: c :: d :: k)
  = ((byte b - 224) * 4096 + (byte c - 128) * 64 + (byte d - 128), 3%nat).
Proof.
  intros Hb H1 H2 Hc Hd. unfold Utf8.decode_rune, Utf8.cont_ok, Utf8.cont. simpl.
  replace (byte b <? 128) with false by lia. rewrite (in_range_out 194 223) by lia. simpl.
  rewrite (in_range_true 224 239), (in_range_true 128 191 (byte d)) by lia.
  destruct (Z.eqb_spec (byte b) 224), (Z.eqb_spec (byte b) 240), (Z.eqb_spec (byte b) 237),
    (Z.eqb_spec (byte b) 244); try lia; by rewrite in_range_true by lia.
Qed.
Lemma decode_rune_4 b c d e k :
  240 <= byte b <= 244 -> (byte b = 240 -> 144 <= byte c) -> (byte b = 244 -> byte c <= 143) ->
  128 <= byte c <= 191 -> 128 <= byte d <= 191 -> 128 <= byte e <= 191 ->
  Utf8.decode_rune (b :: c :: d :: e :: k)
  = ((byte b - 240) * 262144 + (byte c - 128) * 4096 + (byte d - 128) * 64 + (byte e - 128), 4%nat).
Proof.
  intros Hb H1 H2 Hc Hd He. unfold Utf8.decode_rune, Utf8.cont_ok, Utf8.cont. simpl.
  replace (byte b <? 128) with false by lia. rewrite (in_range_out 194 223) by lia. simpl.
  rewrite (in_range_out 224 239), (in_range_true 240 244) by lia.
  rewrite (in_range_true 128 191 (byte d)), (in_range_true 128 191 (byte e)) by lia. simpl.
  destruct (Z.eqb_spec (byte b) 224), (Z.eqb_spec (byte b) 240), (Z.eqb_spec (byte b) 237),
    (Z.eqb_spec (byte b) 244); try lia; by rewrite in_range_true by lia.
Qed.

Lemma encode_rune_2 b c :
  194 <= byte b <= 223 -> 128 <= byte c <= 191 ->
  Utf8.encode_rune ((byte b - 192) * 64 + (byte c - 128)) = [b; c].
Proof.
  intros Hb Hc. set (r := (byte b - 192) * 64 + (byte c - 128)).
  assert (Hr : 128 <= r < 2048) by (subst r; lia). unfold Utf8.encode_rune, in_range.
  replace (r <? 0) with false by lia. replace (1114111 <? r) with false by lia.
  replace (55296 <=? r) with false by lia. simpl.
  replace (r <? 128) with false by lia. replace (r <? 2048) with true by lia.
  repeat f_equal; apply of_byte_eq; subst r; Z.div_mod_to_equations; lia.
Qed.
Lemma encode_rune_3 b c d :
  224 <= byte b <= 239 -> (byte b = 224 -> 160 <= byte c) -> (byte b = 237 -> byte c <= 159) ->
  128 <= byte c <= 191 -> 128 <= byte d <= 191 ->
  Utf8.encode_rune ((byte b - 224) * 4096 + (byte c - 128) * 64 + (byte d - 128)) = [b; c; d].
Proof.
  intros Hb H1 H2 Hc Hd. set (r := _ + (byte d - 128)).
  assert (Hr : 2048 <= r < 65536 /\ (r < 55296 \/ 57343 < r)) by (subst r; lia).
  unfold Utf8.encode_rune.
  replace (in_range 55296 57343 r) with false by (symmetry; apply in_range_false; lia).
  replace (r <? 0) with false by lia. replace (1114111 <? r) with false by lia. simpl.
  replace (r <? 128) with false by lia. replace (r <? 2048) with false by lia.
  replace (r <? 65536) with true by lia.
  repeat f_equal; apply of_byte_eq; subst r; clear -Hb Hc Hd; Z.div_mod_to_equations; lia.
Qed.
Lemma encode_rune_4 b c d e :
  240 <= byte b <= 244 -> (byte b = 240 -> 144 <= byte c) -> (byte b = 244 -> byte c <= 143) ->
  128 <= byte c <= 191 -> 128 <= byte d <= 191 -> 128 <= byte e <= 191 ->
  Utf8.encode_rune ((byte b - 240) * 262144 + (byte c - 128) * 4096 + (byte d - 128) * 64
                    + (byte e - 128)) = [b; c; d; e].
Proof.
  intros Hb H1 H2 Hc Hd He. set (r := _ + (byte e - 128)).
  assert (Hr : 65536 <= r <= 1114111) by (subst r; lia).
  unfold Utf8.encode_rune.
  replace (in_range 55296 57343 r) with false by (symmetry; apply in_range_false; lia).
  replace (r <? 0) with false by lia. replace (1114111 <? r) with false by lia. simpl.
  replace (r <? 128) with false by lia. replace (r <? 2048) with false by lia.
  replace (r <? 65536) with false by lia.
  repeat f_equal; apply of_byte_eq; subst r; clear -Hb Hc Hd He; Z.div_mod_to_equations; lia.
Qed.

(** The encodings [decode_rune] accepts, by width. *)
Inductive well_encoded : Z -> list ascii -> Prop :=
  | enc1 c : byte c < 128 -> well_encoded (byte c) [c]
  | enc_n r w : Utf8.encode_rune r = w -> (forall k, Utf8.decode_rune (w ++ k) = (r, length w)) ->
      128 <= r -> (forall c, c ∈ w -> 128 <= byte c) -> w <> [] -> well_encoded r w.

Lemma well_encoded_2 b c :
  194 <= byte b <= 223 -> 128 <= byte c <= 191 ->
  well_encoded ((byte b - 192) * 64 + (byte c - 128)) [b; c].
Proof.
  intros Hb Hc. apply enc_n; [by apply encode_rune_2|intros k; by apply decode_rune_2|lia| |done].
  intros x. rewrite !elem_of_cons, elem_of_nil. intros [->|[->|[]]]; lia.
Qed.
Lemma well_encoded_3 b c d :
  224 <= byte b <= 239 -> (byte b = 224 -> 160 <= byte c) -> (byte b = 237 -> byte c <= 159) ->
  128 <= byte c <= 191 -> 128 <= byte d <= 191 ->
  well_encoded ((byte b - 224) * 4096 + (byte c - 128) * 64 + (byte d - 128)) [b; c; d].
Proof.
  intros. apply enc_n; [by apply encode_rune_3|intros k; by apply decode_rune_3|lia| |done].
  intros x. rewrite !elem_of_cons, elem_of_nil. intros [->|[->|[->|[]]]]; lia.
Qed.
Lemma well_encoded_4 b c d e :
  240 <= byte b <= 244 -> (byte b = 240 -> 144 <= byte c) -> (byte b = 244 -> byte c <= 143) ->
  128 <= byte c <= 191 -> 128 <= byte d <= 191 -> 128 <= byte e <= 191 ->
  well_encoded ((byte b - 240) * 262144 + (byte c - 128) * 4096 + (byte d - 128) * 64
                + (byte e - 128)) [b; c; d; e].
Proof.
  intros. apply enc_n; [by apply encode_rune_4|intros k; by apply decode_rune_4|lia| |done].
  intros x. rewrite !elem_of_cons, elem_of_nil. intros [->|[->|[->|[->|[]]]]]; lia.
Qed.

Lemma cont_cases l i :
  (exists b, l !! i = Some b /\ Utf8.cont l i = byte b)
  \/ (l !! i = None /\ Utf8.cont l i = 0 /\ Utf8.cont_ok l i = false).
Proof.
  unfold Utf8.cont_ok, Utf8.cont. destruct (l !! i) as [b|]; [left; eauto|by right].
Qed.

Lemma decode_well_encoded l r w :
  l <> [] -> Utf8.decode_rune l = (r, w) -> (r =? Utf8.RuneError) && (w =? 1)%nat = false ->
  well_encoded r (take w l) /\ length (take w l) = w.
Proof.
  destruct l as [|b l]; [done|]. intros _ Hd Hv. unfold Utf8.decode_rune in Hd.
  repeat lazymatch type of Hd with
  | (if ?c then _ else _) = _ => destruct c eqn:?
  end; injection Hd as <- <-; [..|done].
  { split; [apply enc1; lia|done]. }
  all: to_prop; unfold Utf8.cont_ok, Utf8.cont in *; simpl in *.
  all: destruct l as [|c l]; simpl in *; [by repeat case_match|].
  - split; [|done]. apply well_encoded_2; by apply in_range_iff.
  - destruct l as [|d l]; [done|]. simpl in *. split; [|done].
    repeat match goal with H : in_range _ _ _ = true |- _ => apply in_range_iff in H end.
    apply well_encoded_3; repeat case_match; to_prop; lia.
  - destruct l as [|d [|e l]]; [done..|]. simpl in *. split; [|done].
    repeat match goal with H : in_range _ _ _ = true |- _ => apply in_range_iff in H end.
    apply well_encoded_4; repeat case_match; to_prop; lia.
Qed.

(** Reading one encoded rune gives its bytes back. *)
Definition read_back (w : list ascii) (x : option (list ascii * list ascii))
    : option (list ascii * list ascii) := '(s, r) ← x; Some (w ++ s, r).
Lemma read_ascii c n k :
  byte c < 128 ->
  string_body (S n) (encode_char (byte c, [c]) ++ k) = read_back [c] (string_body n k).
Proof. destruct c as [[] [] [] [] [] [] [] []]; intros H; try (by vm_compute in H); reflexivity. Qed.
Lemma read_raw r w n k :
  Utf8.encode_rune r = w -> (forall k, Utf8.decode_rune (w ++ k) = (r, length w)) ->
  (forall c, c ∈ w -> 128 <= byte c) -> w <> [] ->
  string_body (S n) (w ++ k) = read_back w (string_body n k).
Proof.
  intros He Hd Hw Hn. destruct w as [|c w]; [done|].
  assert (Hc : 128 <= byte c) by (apply Hw; left).
  specialize (Hd k). simpl in *.
  replace (byte c =? 34) with false by lia. replace (byte c <? 32) with false by lia.
  replace (byte c =? 92) with false by lia.
  rewrite Hd, He. simpl. rewrite drop_app_length. reflexivity.
Qed.
Lemma read_encoded r w n k :
  well_encoded r w -> (r =? Utf8.RuneError) && (length w =? 1)%nat = false ->
  string_body (S n) (encode_char (r, w) ++ k) = read_back w (string_body n k).
Proof.
  intros [c Hc|r' w' He Hd Hr Hw Hn] Hv; [by apply read_ascii|].
  unfold encode_char. rewrite Hv.
  replace (r' =? 8) with false by lia. replace (r' =? 12) with false by lia.
  replace (r' =? 10) with false by lia. replace (r' =? 13) with false by lia.
  replace (r' =? 9) with false by lia. replace (r' =? 34) with false by lia.
  replace (r' =? 92) with false by lia. replace (r' <? 32) with false by lia.
  replace (r' =? 60) with false by lia. replace (r' =? 62) with false by lia.
  replace (r' =? 38) with false by lia. simpl.
  destruct (Z.eqb_spec r' 8232) as [->|]; [rewrite <-He; reflexivity|].
  destruct (Z.eqb_spec r' 8233) as [->|]; [rewrite <-He; reflexivity|].
  by apply (read_raw r').
Qed.

(** More fuel changes nothing. *)
Lemma string_body_mono n m l x :
  string_body n l = Some x -> (n <= m)%nat -> string_body m l = Some x.
Proof.
  revert m l x. induction n as [|n IH]; intros [|m] l x Hx Hm; try done; [lia|].
  destruct l as [|c l]; [done|]. cbn [string_body] in *.
  assert (E : forall b k, (('(s, r) ← string_body n k; Some (b ++ s, r)) = Some x) ->
                          ('(s, r) ← string_body m k; Some (b ++ s, r)) = Some x).
  { intros b k Hk. apply bind_Some in Hk as ([s r] & Hs & Hk).
    by rewrite (IH m k (s, r) Hs) by lia. }
  destruct (byte c =? 34); [done|]. destruct (byte c <? 32); [done|].
  destruct (byte c =? 92).
  - destruct l as [|e l]; [done|]. destruct (byte e =? 117).
    + destruct (hex4 l) as [[v k]|]; [|done]. cbn [mbind option_bind] in *.
      destruct (in_range _ _ v); [destruct (low_surrogate k) as [[w k']|]|]; by apply E.
    + destruct (simple_escape e); [by apply E|done].
  - destruct (Utf8.decode_rune (c :: l)). by apply E.
Qed.
Definition good_seg (x : Z * list ascii) : Prop :=
  well_encoded x.1 x.2 /\ (x.1 =? Utf8.RuneError) && (length x.2 =? 1)%nat = false.
Lemma segs_good n l :
  Forall (fun x : Z * list ascii => ((x.1 =? Utf8.RuneError) && (length x.2 =? 1)%nat) = false)
    (Utf8.segs_fuel n l) ->
  Forall good_seg (Utf8.segs_fuel n l).
Proof.
  revert l. induction n as [|n IH]; intros [|c l] H; try constructor.
  cbn [Utf8.segs_fuel] in *. destruct (Utf8.decode_rune (c :: l)) as [r w] eqn:E.
  apply Forall_cons in H as [Hv H]. apply Forall_cons. split; [|by apply IH].
  split; [|done]. simpl in Hv.
  apply decode_well_encoded in E; [by destruct E|done|].
  destruct (Nat.eqb_spec w 1) as [->|]; [exact Hv|by rewrite andb_false_r].
Qed.

Lemma encode_char_pos x : good_seg x -> (1 <= length (encode_char x))%nat.
Proof.
  destruct x as [r w]. intros [Hw Hv]. simpl in *.
  assert (w <> []) by (inversion Hw; subst; done).
  unfold encode_char. repeat case_match; simpl; try lia. destruct w; simpl; [done|lia].
Qed.
Lemma read_segs ss k :
  Forall good_seg ss ->
  string_body (S (length ss)) (concat (encode_char <$> ss) ++ dquote :: k) = Some (concat ss.*2, k).
Proof.
  induction 1 as [|[r w] ss [Hw Hv] Hs IH]; [reflexivity|].
  rewrite fmap_cons. cbn [concat]. rewrite <-app_assoc.
  cbn [length]. rewrite read_encoded, IH by done. reflexivity.
Qed.
Lemma string_lit_encode s k :
  valid_utf8 s -> string_lit (concat (encode_char <$> Utf8.segs (bs s)) ++ dquote :: k) = Some (s, k).
Proof.
  intros Hs%segs_good. change (Utf8.segs_fuel _ _) with (Utf8.segs (bs s)) in Hs.
  unfold string_lit.
  assert (Hl : (length (Utf8.segs (bs s)) <= length (concat (encode_char <$> Utf8.segs (bs s))))%nat).
  { induction Hs as [|x ss Hx _ IH]; [done|]. rewrite fmap_cons. cbn [concat length].
    rewrite length_app. apply encode_char_pos in Hx. lia. }
  rewrite (string_body_mono _ _ _ _ (read_segs _ k Hs)) by (rewrite length_app; simpl; lia).
  simpl. by rewrite segs_concat, sb_bs.
Qed.

(** An encoded string is read as a value. *)
Lemma value_encode_string s n depth k :
  valid_utf8 s -> value (S n) depth (encode_string s ++ k) = Some (JStr s, k).
Proof.
  intros Hs. unfold encode_string. cbn [app]. rewrite <-app_assoc. cbn [app].
  pose proof (string_lit_encode s k Hs) as E.
  cbn [value skip drop_while is_json_space]. 
  change (is_json_space dquote) with false. cbn [andb]. 
  change (byte dquote =? 34) with true. cbn iota. by rewrite E.
Qed.
Lemma items_cons n depth s k :
  valid_utf8 s ->
  items (S (S n)) depth (encode_string s ++ ","%char :: k)
  = '(vs, r) ← items (S n) depth k; Some (JStr s :: vs, r).
Proof.
  intros Hs. change (items (S (S n)) depth ?l) with
    ('(v, r) ← value (S n) depth l;
      match skip r with
      | k :: r => if byte k =? 44 then '(vs, r) ← items (S n) depth r; Some (v :: vs, r)
                  else if byte k =? 93 then Some ([v], r) else None
      | [] => None
      end).
  by rewrite value_encode_string.
Qed.
Lemma items_encode ss n depth k :
  ss <> [] -> Forall valid_utf8 ss -> (2 * length ss <= n)%nat ->
  items n depth (encode_items ss ++ "]"%char :: k) = Some (JStr <$> ss, k).
Proof.
  revert n. induction ss as [|s ss IH]; [done|]. intros n _ Hss Hn.
  apply Forall_cons in Hss as [Hs Hss]. destruct n as [|[|n]]; simpl in Hn; [lia..|].
  destruct ss as [|s' ss].
  - cbn [encode_items items]. rewrite value_encode_string by done. reflexivity.
  - change (encode_items (s :: s' :: ss)) with (encode_string s ++ ","%char :: encode_items (s' :: ss)).
    rewrite <-app_assoc, <-app_comm_cons, items_cons by done.
    by rewrite (IH (S n)) by (done || simpl in *; lia).
Qed.
Lemma length_encode_items ss : (length ss <= length (encode_items ss))%nat.
Proof.
  induction ss as [|s ss IH]; [done|]. destruct ss as [|s' ss]; [simpl; lia|].
  change (encode_items (s :: s' :: ss)) with (encode_string s ++ ","%char :: encode_items (s' :: ss)).
  rewrite length_app. simpl in *. lia.
Qed.

(** A marshalled list of strings parses to the list. *)
Lemma parse_Marshal_strings ss :
  Forall valid_utf8 ss -> parse (Marshal_strings ss) = Some (JArr (JStr <$> ss)).
Proof.
  intros Hss. unfold parse, Marshal_strings. rewrite bs_sb.
  destruct ss as [|s ss]; [reflexivity|].
  pose proof (length_encode_items (s :: ss)) as Hl.
  set (es := encode_items (s :: ss)) in *.
  assert (He : exists l, es = dquote :: l).
  { subst es. destruct ss; simpl; eauto. }
  destruct He as [l He].
  replace (2 * length ("["%char :: es ++ ["]"%char]) + 2)%nat
    with (S (2 * length es + 5)) by (rewrite length_cons, length_app; simpl; lia).
  cbn [value]. change (skip ("["%char :: ?l)) with ("["%char :: l). cbn iota.
  change (byte "[" =? 34) with false. change (byte "[" =? 91) with true.
  change (maxNestingDepth <=? 0) with false. cbn iota.
  rewrite He at 1. cbn [app]. change (skip (dquote :: ?l)) with (dquote :: l). cbn iota.
  change (byte dquote =? 93) with false. cbn iota.
  subst es. rewrite items_encode by (done || lia). reflexivity.
Qed.

Lemma dec_strings_ok ss old :
  dec_elems "" dec_string (JStr <$> ss) old = (ss, true).
Proof. revert old. induction ss as [|s ss IH]; intros old; simpl; [done|by rewrite IH]. Qed.

(** [json.Unmarshal] of a marshalled list of strings. *)
Lemma Unmarshal_Marshal_strings ss old :
  Forall valid_utf8 ss ->
  Unmarshal (dec_slice "" dec_string) (Marshal_strings ss) old = (ss, true).
Proof.
  intros Hss. unfold Unmarshal. rewrite parse_Marshal_strings by done. apply dec_strings_ok.
Qed.

(** ASCII texts are valid. *)
Lemma valid_utf8_ascii s : all_ascii (bs s) = true -> valid_utf8 s.
Proof.
  intros Hs. unfold valid_utf8. rewrite segs_ascii by done.
  apply Forall_fmap, Forall_forall. intros c Hc. apply all_ascii_Forall in Hs.
  rewrite Forall_forall in Hs. specialize (Hs c Hc). simpl.
  replace (byte c =? Utf8.RuneError) with false; [done|]. unfold Utf8.RuneError. lia.
Qed.

End json.
