(* ===== verification/GoJsonFuel.v ===== *)
(** * The JSON parser has fuel enough

    [json.parse] recurses with fuel.  Every step of a string consumes a byte and
    every two levels of a value consume one, so more fuel than the length asks for
    changes no result: [None] is a syntax error, never the end of the fuel. *)

From stdpp Require Import base tactics option list strings.
From Stdlib Require Import ZArith Lia Ascii.
From S2P Require Import Prelude GoStrings GoNet RdapModels GoJson.
#[local] Open Scope Z_scope.

Module jsonfuel.
Import json.

(** ** What each part consumes *)

#[local] Abbreviation len := (@length ascii).
Lemma skip_length l : (len (skip l) <= len l)%nat.
Proof. unfold skip. induction l as [|c l IH]; simpl; [lia|]. destruct (is_json_space c); simpl; lia. Qed.
Lemma skip_cons l c r : skip l = c :: r -> (len r < len l)%nat.
Proof. intros E. pose proof (skip_length l) as H. rewrite E in H. simpl in H. lia. Qed.

Lemma span_digits_length l : (len (span_digits l).1 + len (span_digits l).2 = len l)%nat.
Proof.
  induction l as [|c l IH]; simpl; [lia|]. destruct (is_digit c); [|simpl; lia].
  destruct (span_digits l) as [d r]. simpl in *. lia.
Qed.
Lemma int_part_length l d r : int_part l = Some (d, r) -> (len r < len l)%nat.
Proof.
  unfold int_part. pose proof (span_digits_length l) as H.
  destruct (span_digits l) as [[|c ds] k]; [done|]. simpl in H.
  destruct (_ && _); intros [= <- <-]; [rewrite length_app; lia|lia].
Qed.
Lemma frac_part_length l d r : frac_part l = Some (d, r) -> (len r <= len l)%nat.
Proof.
  unfold frac_part. destruct l as [|c l]; [by intros [= <- <-]|].
  destruct (byte c =? 46); [|by intros [= <- <-]]. pose proof (span_digits_length l) as H.
  destruct (span_digits l) as [[|x ds] k]; [done|]. simpl in *. intros [= <- <-]. lia.
Qed.
Lemma exp_part_length l d r : exp_part l = Some (d, r) -> (len r <= len l)%nat.
Proof.
  unfold exp_part. destruct l as [|c l]; [by intros [= <- <-]|].
  destruct (_ || _); [|by intros [= <- <-]].
  assert (Hs : exists s k, match l with
    | k :: m => if (byte k =? 43) || (byte k =? 45) then ([k], m) else ([], l)
    | [] => ([], []) end = (s, k) /\ (len k <= len l)%nat).
  { destruct l as [|k m]; [by exists [], []|]. destruct (_ || _); eexists _, _; (split; [done|simpl; lia]). }
  destruct Hs as (s & k & -> & Hk). pose proof (span_digits_length k) as H.
  destruct (span_digits k) as [[|x ds] k']; [done|]. simpl in *. intros [= <- <-]. lia.
Qed.
Lemma number_length l d r : number l = Some (d, r) -> (len r < len l)%nat.
Proof.
  unfold number.
  assert (Hs : exists s k, match l with
    | c :: l' => if byte c =? 45 then ([c], l') else ([], l)
    | [] => ([], []) end = (s, k) /\ (len k <= len l)%nat).
  { destruct l as [|c m]; [by exists [], []|]. destruct (byte c =? 45); eexists _, _; (split; [done|simpl; lia]). }
  destruct Hs as (s & k & -> & Hk). intros H.
  apply bind_Some in H as ([i k1] & H1%int_part_length & H).
  apply bind_Some in H as ([f k2] & H2%frac_part_length & H).
  apply bind_Some in H as ([e k3] & H3%exp_part_length & [= _ <-]). lia.
Qed.

Lemma hex4_length l v r : hex4 l = Some (v, r) -> (len r < len l)%nat.
Proof.
  unfold hex4. destruct l as [|a [|b [|c [|d l]]]]; try done.
  intros (? & _ & (? & _ & (? & _ & (? & _ & [= _ <-])%bind_Some)%bind_Some)%bind_Some)%bind_Some.
  simpl. lia.
Qed.
Lemma low_surrogate_length l v r : low_surrogate l = Some (v, r) -> (len r < len l)%nat.
Proof.
  unfold low_surrogate. destruct l as [|a [|b l]]; try done. destruct (_ && _); [|done].
  intros ([w k] & Hk%hex4_length & H)%bind_Some. destruct (in_range _ _ w); [|done].
  injection H as _ <-. simpl. lia.
Qed.

(** ** Strings *)

(** The step of a string: it fails, it ends, or some bytes are stored and the rest,
    which is shorter, is read. *)
Lemma string_step c l :
  (forall n, string_body (S n) (c :: l) = None)
  \/ (forall n, string_body (S n) (c :: l) = Some ([], l))
  \/ exists w k, (len k <= len l)%nat
     /\ forall n, string_body (S n) (c :: l) = '(s, r) ← string_body n k; Some (w ++ s, r).
Proof.
  cbn [string_body].
  destruct (byte c =? 34); [by right; left|]. destruct (byte c <? 32); [by left|].
  destruct (byte c =? 92).
  - destruct l as [|e l]; [by left|]. destruct (byte e =? 117).
    + destruct (hex4 l) as [[v k]|] eqn:E; [|by left].
      apply hex4_length in E. cbn [mbind option_bind]. right. right.
      destruct (in_range _ _ v); [destruct (low_surrogate k) as [[w k']|] eqn:El|];
        [apply low_surrogate_length in El|..]; eexists _, _; (split; [|by intros n]); simpl; lia.
    + destruct (simple_escape e); [|by left].
      right. right. eexists _, l. split; [simpl; lia|by intros n].
  - pose proof (decode_rune_width c l) as Hw.
    destruct (Utf8.decode_rune (c :: l)) as [v w]. right. right. eexists _, (drop w (c :: l)).
    split; [|by intros n]. rewrite length_drop. simpl in *. lia.
Qed.
Lemma string_body_length n l s r : string_body n l = Some (s, r) -> (len r < len l)%nat.
Proof.
  revert l s r. induction n as [|n IH]; [done|]. intros [|c l] s r; [done|].
  destruct (string_step c l) as [H|[H|(w & k & Hk & H)]]; rewrite H; [done|intros [= _ <-]; simpl; lia|].
  intros ([s' r'] & E%IH & [= _ <-])%bind_Some. simpl. lia.
Qed.
Lemma string_body_enough n m l :
  (len l <= n)%nat -> (len l <= m)%nat -> string_body n l = string_body m l.
Proof.
  revert m l. induction n as [|n IH]; intros m [|c l] Hn Hm; simpl in Hn, Hm.
  1, 3: by destruct m. 1: lia. destruct m as [|m]; [lia|].
  destruct (string_step c l) as [H|[H|(w & k & Hk & H)]]; rewrite !H; [done..|].
  by rewrite (IH m k) by lia.
Qed.
Lemma string_lit_length l s r : string_lit l = Some (s, r) -> (len r < len l)%nat.
Proof. unfold string_lit. by intros ([s' r'] & E%string_body_length & [= _ <-])%bind_Some. Qed.

(** ** Values *)

Definition value_shrinks (n : nat) : Prop :=
  forall depth l v r, value n depth l = Some (v, r) -> (len r < len l)%nat.
Definition items_shrink (n : nat) : Prop :=
  forall depth l v r, items n depth l = Some (v, r) -> (len r < len l)%nat.
Definition members_shrink (n : nat) : Prop :=
  forall depth l v r, members n depth l = Some (v, r) -> (len r < len l)%nat.

(** The steps of the three, their recursive calls named. *)
Lemma value_S n depth l :
  value (S n) depth l
  = match skip l with
    | [] => None
    | c :: r =>
        let x := byte c in
        if x =? 34 then '(s, r) ← string_lit r; Some (JStr s, r)
        else if x =? 91 then
          if maxNestingDepth <=? depth then None
          else match skip r with
               | k :: r' => if byte k =? 93 then Some (JArr [], r')
                            else '(xs, r) ← items n (depth + 1) r; Some (JArr xs, r)
               | [] => None
               end
        else if x =? 123 then
          if maxNestingDepth <=? depth then None
          else match skip r with
               | k :: r' => if byte k =? 125 then Some (JObj [], r')
                            else '(ms, r) ← members n (depth + 1) r; Some (JObj ms, r)
               | [] => None
               end
        else if has_prefix (bs "true") (c :: r) then Some (JBool true, drop 4 (c :: r))
        else if has_prefix (bs "false") (c :: r) then Some (JBool false, drop 5 (c :: r))
        else if has_prefix (bs "null") (c :: r) then Some (JNull, drop 4 (c :: r))
        else '(d, r) ← number (c :: r); Some (JNum (sb d), r)
    end.
Proof. done. Qed.

Lemma value_shrinks_S n : items_shrink n -> members_shrink n -> value_shrinks (S n).
Proof.
  intros Hi Hm depth l v r'. rewrite value_S. destruct (skip l) as [|c r] eqn:E; [done|].
  apply skip_cons in E as Hl. cbv zeta.
  destruct (byte c =? 34).
  { intros ([s k] & Hk%string_lit_length & [= _ <-])%bind_Some. lia. }
  destruct (byte c =? 91).
  { destruct (maxNestingDepth <=? depth); [done|]. destruct (skip r) as [|k r1] eqn:Er; [done|].
    apply skip_cons in Er. destruct (byte k =? 93); [intros [= _ <-]; lia|].
    intros ([xs r2] & Hx%Hi & [= _ <-])%bind_Some. lia. }
  destruct (byte c =? 123).
  { destruct (maxNestingDepth <=? depth); [done|]. destruct (skip r) as [|k r1] eqn:Er; [done|].
    apply skip_cons in Er. destruct (byte k =? 125); [intros [= _ <-]; lia|].
    intros ([xs r2] & Hx%Hm & [= _ <-])%bind_Some. lia. }
  pose proof (skip_length l) as Hs. rewrite E in Hs. simpl in Hs.
  destruct (has_prefix _ _); [intros [= _ <-]; rewrite length_drop; simpl; lia|].
  destruct (has_prefix _ _); [intros [= _ <-]; rewrite length_drop; simpl; lia|].
  destruct (has_prefix _ _); [intros [= _ <-]; rewrite length_drop; simpl; lia|].
  intros ([d k] & Hd%number_length & [= _ <-])%bind_Some. simpl in Hd. lia.
Qed.

Lemma items_shrink_S n : value_shrinks n -> items_shrink n -> items_shrink (S n).
Proof.
  intros Hv Hi depth l vs r'. cbn [items].
  intros ([v r] & Hr%Hv & H)%bind_Some. destruct (skip r) as [|k r1] eqn:E; [done|].
  apply skip_cons in E. destruct (byte k =? 44).
  - apply bind_Some in H as ([ws r2] & Hw%Hi & [= _ <-]). lia.
  - destruct (byte k =? 93); [|done]. injection H as _ <-. lia.
Qed.
Lemma members_shrink_S n : value_shrinks n -> members_shrink n -> members_shrink (S n).
Proof.
  intros Hv Hm depth l vs r'. cbn [members]. destruct (skip l) as [|q r] eqn:E; [done|].
  apply skip_cons in E. destruct (byte q =? 34); [|done].
  intros ([name r0] & Hs%string_lit_length & H)%bind_Some.
  destruct (skip r0) as [|k r1] eqn:E1; [done|]. apply skip_cons in E1.
  destruct (byte k =? 58); [|done]. apply bind_Some in H as ([v r2] & Hr%Hv & H).
  destruct (skip r2) as [|k2 r3] eqn:E2; [done|]. apply skip_cons in E2.
  destruct (byte k2 =? 44).
  - apply bind_Some in H as ([ws r4] & Hw%Hm & [= _ <-]). lia.
  - destruct (byte k2 =? 125); [|done]. injection H as _ <-. lia.
Qed.
Lemma all_shrink n : value_shrinks n /\ items_shrink n /\ members_shrink n.
Proof.
  induction n as [|n (Hv & Hi & Hm)]; [done|].
  split_and!; [by apply value_shrinks_S|by apply items_shrink_S|by apply members_shrink_S].
Qed.

(** Equal continuations of equal results. *)
Lemma bind_cong {A B} (o o' : option A) (f g : A -> option B) :
  o = o' -> (forall a, o = Some a -> f a = g a) -> (o ≫= f) = (o' ≫= g).
Proof. intros <- H. destruct o as [a|]; [by apply H|done]. Qed.

(** Enough fuel for a value takes two units for each byte and one more. *)
Definition agree (n m : nat) : Prop :=
  (forall depth l, (2 * len l + 1 <= n)%nat -> (2 * len l + 1 <= m)%nat ->
     value n depth l = value m depth l)
  /\ (forall depth l, (2 * len l + 2 <= n)%nat -> (2 * len l + 2 <= m)%nat ->
     items n depth l = items m depth l)
  /\ (forall depth l, (2 * len l + 2 <= n)%nat -> (2 * len l + 2 <= m)%nat ->
     members n depth l = members m depth l).
Lemma value_agree n m depth l :
  agree n m -> (2 * len l <= n)%nat -> (2 * len l <= m)%nat ->
  value (S n) depth l = value (S m) depth l.
Proof.
  intros (_ & Hi & Hm) Hn Hm'. rewrite !value_S. destruct (skip l) as [|c r] eqn:E; [done|].
  apply skip_cons in E. cbv zeta. destruct (byte c =? 34); [done|].
  destruct (byte c =? 91).
  { destruct (maxNestingDepth <=? depth); [done|]. destruct (skip r); [done|].
    destruct (byte a =? 93); [done|]. by rewrite (Hi (depth + 1) r) by lia. }
  destruct (byte c =? 123); [|done].
  destruct (maxNestingDepth <=? depth); [done|]. destruct (skip r); [done|].
  destruct (byte a =? 125); [done|]. by rewrite (Hm (depth + 1) r) by lia.
Qed.
Lemma items_agree n m depth l :
  agree n m -> (2 * len l + 1 <= n)%nat -> (2 * len l + 1 <= m)%nat ->
  items (S n) depth l = items (S m) depth l.
Proof.
  intros (Hv & Hi & _) Hn Hm. cbn [items]. apply bind_cong; [apply Hv; lia|].
  intros [v r] Hr%all_shrink. destruct (skip r) as [|k r1] eqn:E; [done|].
  apply skip_cons in E. destruct (byte k =? 44); [|done]. by rewrite (Hi depth r1) by lia.
Qed.
Lemma members_agree n m depth l :
  agree n m -> (2 * len l + 1 <= n)%nat -> (2 * len l + 1 <= m)%nat ->
  members (S n) depth l = members (S m) depth l.
Proof.
  intros (Hv & _ & Hi) Hn Hm. cbn [members]. destruct (skip l) as [|q r] eqn:E; [done|].
  apply skip_cons in E. destruct (byte q =? 34); [|done].
  apply bind_cong; [done|]. intros [name r0] Hs%string_lit_length.
  destruct (skip r0) as [|k r1] eqn:E1; [done|]. apply skip_cons in E1.
  destruct (byte k =? 58); [|done]. apply bind_cong; [apply Hv; lia|].
  intros [v r2] Hr%all_shrink. destruct (skip r2) as [|k2 r3] eqn:E2; [done|].
  apply skip_cons in E2. destruct (byte k2 =? 44); [|done]. by rewrite (Hi depth r3) by lia.
Qed.
Lemma all_agree n : forall m, agree n m.
Proof.
  induction n as [|n IH]; intros [|m]; split_and!; intros depth l Hn Hm; try lia.
  - by apply value_agree; [apply IH|lia..].
  - by apply items_agree; [apply IH|lia..].
  - by apply members_agree; [apply IH|lia..].
Qed.

(** [parse] and [first_value] with any larger fuel. *)
Theorem parse_enough n s :
  (2 * len (bs s) + 1 <= n)%nat ->
  parse s = ('(v, r) ← value n 0 (bs s); match skip r with [] => Some v | _ => None end)
  /\ first_value s = fst <$> value n 0 (bs s).
Proof.
  intros Hn. unfold parse, first_value.
  by rewrite (proj1 (all_agree _ n) 0 (bs s)) by lia.
Qed.

End jsonfuel.
