(* ===== verification/GoJsonEncode.v ===== *)
(** * encoding/json: the encoder

    [json.Marshal] of a tree, with the HTML escaping of [json.Encoder], and the
    round trip with the parser of GoJson: an encoded tree parses back to itself,
    up to the bytes that are not UTF-8, which the encoder replaces. *)

From stdpp Require Import base tactics option list strings.
From Stdlib Require Import ZArith Lia Ascii.
From stdpp Require Import pretty.
From S2P Require Import Prelude GoStrings GoNet RdapModels GoJson.
#[local] Open Scope Z_scope.

Module encoder.
Import json.

(** ** Encoding *)

(** The texts separated by commas. *)
Fixpoint commas (ts : list (list ascii)) : list ascii :=
  match ts with
  | [] => []
  | [t] => t
  | t :: ts => t ++ ","%char :: commas ts
  end.
Fixpoint encode (v : jany) : list ascii :=
  match v with
  | JNull => bs "null"
  | JBool b => if b then bs "true" else bs "false"
  | JNum lit => bs lit
  | JStr s => encode_string s
  | JArr vs => "["%char :: commas (List.map encode vs) ++ ["]"%char]
  | JObj ms =>
      "{"%char :: commas (List.map (fun m => encode_string m.1 ++ ":"%char :: encode m.2) ms)
        ++ ["}"%char]
  end.
(** [json.NewEncoder(w).Encode(v)]: the text and a line feed. *)
Definition Encode (v : jany) : string := sb (encode v ++ [Ascii.ascii_of_nat 10]).

(** ** What is read back *)

(** A string with every byte that is not UTF-8 replaced by U+FFFD. *)
Definition seg_text (x : Z * list ascii) : list ascii :=
  if (x.1 =? Utf8.RuneError) && (length x.2 =? 1)%nat then Utf8.encode_rune Utf8.RuneError else x.2.
Definition to_valid (s : string) : string := sb (concat (seg_text <$> Utf8.segs (bs s))).
Fixpoint scrub (v : jany) : jany :=
  match v with
  | JStr s => JStr (to_valid s)
  | JArr vs => JArr (List.map scrub vs)
  | JObj ms => JObj (List.map (fun m => (to_valid m.1, scrub m.2)) ms)
  | _ => v
  end.

(** The nesting of a tree. *)
Fixpoint depth (v : jany) : Z :=
  match v with
  | JArr vs => 1 + foldr (fun v n => Z.max (depth v) n) 0 vs
  | JObj ms => 1 + foldr (fun m n => Z.max (depth m.2) n) 0 ms
  | _ => 0
  end.
(** A number literal of JSON: it is read as a whole, and begins with a digit or
    a minus sign. *)
Definition terminator (k : list ascii) : Prop :=
  match k with
  | [] => True
  | c :: _ => byte c = 44 \/ byte c = 93 \/ byte c = 125 \/ byte c = 10
  end.
Definition literal (lit : string) : Prop :=
  (exists c l, bs lit = c :: l /\ (is_digit c = true \/ byte c = 45))
  /\ forall k, terminator k -> number (bs lit ++ k) = Some (bs lit, k).
Fixpoint literals (v : jany) : Prop :=
  match v with
  | JNum lit => literal lit
  | JArr vs => foldr (fun v p => literals v /\ p) True vs
  | JObj ms => foldr (fun m p => literals m.2 /\ p) True ms
  | _ => True
  end.

(** ** Induction on trees *)

Section induction.
Context (P : jany -> Prop).
Hypothesis Hnull : P JNull.
Hypothesis Hbool : forall b, P (JBool b).
Hypothesis Hnum : forall lit, P (JNum lit).
Hypothesis Hstr : forall s, P (JStr s).
Hypothesis Harr : forall vs, Forall P vs -> P (JArr vs).
Hypothesis Hobj : forall ms, Forall (fun m => P m.2) ms -> P (JObj ms).
Fixpoint jany_tree_ind (v : jany) : P v :=
  match v with
  | JNull => Hnull
  | JBool b => Hbool b
  | JNum lit => Hnum lit
  | JStr s => Hstr s
  | JArr vs =>
      Harr vs ((fix all l : Forall P l :=
                  match l with
                  | [] => Forall_nil_2 _
                  | v :: l => Forall_cons_2 _ _ _ (jany_tree_ind v) (all l)
                  end) vs)
  | JObj ms =>
      Hobj ms ((fix all l : Forall (fun m => P m.2) l :=
                  match l with
                  | [] => Forall_nil_2 _
                  | m :: l => Forall_cons_2 (fun m => P m.2) m l (jany_tree_ind m.2) (all l)
                  end) ms)
  end.
End induction.

(** ** Strings *)

Definition seg_ok (x : Z * list ascii) : Prop :=
  good_seg x \/ (x.1 =? Utf8.RuneError) && (length x.2 =? 1)%nat = true.
Lemma segs_ok n l : Forall seg_ok (Utf8.segs_fuel n l).
Proof.
  revert l. induction n as [|n IH]; intros [|c l]; try constructor.
  cbn [Utf8.segs_fuel]. destruct (Utf8.decode_rune (c :: l)) as [r w] eqn:E.
  apply Forall_cons. split; [|apply IH]. unfold seg_ok, good_seg. simpl.
  destruct ((r =? Utf8.RuneError) && (length (take w (c :: l)) =? 1)%nat) eqn:Hv; [by right|].
  left. split; [|done]. apply decode_well_encoded in E; [by destruct E|done|].
  destruct (Nat.eqb_spec w 1) as [->|]; [exact Hv|by rewrite andb_false_r].
Qed.
Lemma seg_pos x : seg_ok x -> (1 <= length (encode_char x))%nat.
Proof.
  intros [H|H]; [by apply encode_char_pos|]. destruct x as [r w]. unfold encode_char. simpl in H.
  rewrite H. simpl. lia.
Qed.
Lemma read_seg x n k :
  seg_ok x -> string_body (S n) (encode_char x ++ k) = read_back (seg_text x) (string_body n k).
Proof.
  destruct x as [r w]. unfold seg_ok, good_seg, seg_text. cbn [fst snd].
  intros [[Hw Hv]|Hv]; rewrite Hv.
  - by apply read_encoded.
  - unfold encode_char. rewrite Hv. reflexivity.
Qed.
Lemma string_lit_any s k :
  string_lit (concat (encode_char <$> Utf8.segs (bs s)) ++ dquote :: k) = Some (to_valid s, k).
Proof.
  pose proof (segs_ok (length (bs s)) (bs s)) as Hs.
  change (Utf8.segs_fuel _ _) with (Utf8.segs (bs s)) in Hs. unfold string_lit, to_valid.
  assert (Hr : string_body (S (length (Utf8.segs (bs s))))
                 (concat (encode_char <$> Utf8.segs (bs s)) ++ dquote :: k)
               = Some (concat (seg_text <$> Utf8.segs (bs s)), k)).
  { induction Hs as [|x ss Hx _ IH]; [reflexivity|]. rewrite !fmap_cons. cbn [concat length].
    rewrite <-app_assoc, read_seg, IH by done. reflexivity. }
  assert (Hl : (length (Utf8.segs (bs s)) <= length (concat (encode_char <$> Utf8.segs (bs s))))%nat).
  { clear Hr. induction Hs as [|x ss Hx _ IH]; [done|]. rewrite fmap_cons. cbn [concat length].
    rewrite length_app. apply seg_pos in Hx. lia. }
  rewrite (string_body_mono _ _ _ _ Hr) by (rewrite length_app; simpl; lia). reflexivity.
Qed.
(** Valid strings are unchanged. *)
Lemma to_valid_id s : valid_utf8 s -> to_valid s = s.
Proof.
  intros Hs. unfold to_valid. rewrite <-(sb_bs s) at 2. f_equal. rewrite <-(segs_concat (bs s)) at 2.
  unfold valid_utf8 in Hs. induction Hs as [|x ss Hx _ IH]; [done|]. rewrite !fmap_cons. cbn [concat].
  unfold seg_text at 1. by rewrite Hx, IH.
Qed.

(** ** Reading a tree back *)

(** The first byte of an encoded tree is not a space and closes nothing. *)
Lemma encode_head v :
  literals v -> exists c l, encode v = c :: l /\ is_json_space c = false
    /\ (byte c =? 93) = false /\ (byte c =? 125) = false.
Proof.
  destruct v as [|[]|lit|s|vs|ms]; simpl; intros Hl; try (by eexists _, _).
  destruct Hl as [(c & l & E & Hc) _]. exists c, l. split; [exact E|].
  unfold is_json_space, is_digit, in_range in *. split_and!; destruct Hc as [Hc|Hc]; lia.
Qed.
Lemma skip_encode v k : literals v -> skip (encode v ++ k) = encode v ++ k.
Proof. intros (c & l & -> & Hc & _)%encode_head. unfold skip. simpl. by rewrite Hc. Qed.
Lemma encode_pos v : literals v -> (1 <= length (encode v))%nat.
Proof. intros (c & l & -> & _)%encode_head. simpl. lia. Qed.

(** What the parser does with the text of one tree. *)
Definition reads (v : jany) : Prop :=
  forall n d k, literals v -> d + depth v <= maxNestingDepth -> terminator k ->
    (2 * length (encode v) <= n)%nat -> value n d (encode v ++ k) = Some (scrub v, k).

Lemma value_literal lit n d k :
  literal lit -> terminator k -> value (S n) d (bs lit ++ k) = Some (JNum lit, k).
Proof.
  intros [(c & l & E & Hc) Hl] Hk. specialize (Hl k Hk). rewrite E in *. cbn [app] in *.
  cbn [value]. unfold skip. cbn [drop_while].
  assert (Hs : is_json_space c = false) by (unfold is_json_space, is_digit, in_range in *; lia).
  rewrite Hs. unfold is_digit, in_range in Hc.
  replace (byte c =? 34) with false by lia. replace (byte c =? 91) with false by lia.
  replace (byte c =? 123) with false by lia.
  assert (Hp : forall a l', 97 <= byte a -> has_prefix (a :: l') (c :: l ++ k) = false).
  { intros a l' Ha. simpl. rewrite bool_decide_eq_false_2; [done|]. intros <-. lia. }
  change (bs "true") with ("t"%char :: bs "rue"). change (bs "false") with ("f"%char :: bs "alse").
  change (bs "null") with ("n"%char :: bs "ull").
  rewrite !Hp by (vm_compute; discriminate). rewrite Hl. cbn [mbind option_bind]. by rewrite <-E, sb_bs.
Qed.
Lemma value_string s n d k : value (S n) d (encode_string s ++ k) = Some (JStr (to_valid s), k).
Proof.
  unfold encode_string. cbn [app]. rewrite <-app_assoc. cbn [app].
  pose proof (string_lit_any s k) as E. cbn [value].
  change (skip (dquote :: ?l)) with (dquote :: l). cbn iota.
  change (byte dquote =? 34) with true. cbn iota. by rewrite E.
Qed.

(** The depth of the parts. *)
Lemma depth_max {A} (f : A -> Z) (l : list A) x : x ∈ l -> f x <= foldr (fun x n => Z.max (f x) n) 0 l.
Proof. induction 1 as [|? ? ? _ IH]; simpl; lia. Qed.
Lemma foldr_max_nonneg {A} (f : A -> Z) (l : list A) : 0 <= foldr (fun x n => Z.max (f x) n) 0 l.
Proof. induction l; simpl; lia. Qed.
Lemma literals_all {A} (f : A -> Prop) (l : list A) x : foldr (fun x p => f x /\ p) True l -> x ∈ l -> f x.
Proof. intros H Hx. induction Hx as [|? ? ? _ IH]; simpl in H; tauto. Qed.

Lemma items_read vs n d k :
  vs <> [] -> Forall reads vs -> Forall literals vs ->
  Forall (fun v => d + depth v <= maxNestingDepth) vs ->
  (2 * length (commas (List.map encode vs)) + 1 <= n)%nat ->
  items n d (commas (List.map encode vs) ++ "]"%char :: k) = Some (List.map scrub vs, k).
Proof.
  revert n. induction vs as [|v vs IH]; [done|]. intros n _ Hr Hl Hd Hn.
  apply Forall_cons in Hr as [Hv Hr]. apply Forall_cons in Hl as [Lv Hl].
  apply Forall_cons in Hd as [Dv Hd]. destruct n as [|n]; [lia|].
  destruct vs as [|v' vs].
  - cbn [List.map commas] in *. cbn [items]. rewrite Hv; [|done|done|right; left; reflexivity|lia].
    reflexivity.
  - cbn [List.map] in *. change (commas (encode v :: ?t :: ?ts)) with
      (encode v ++ ","%char :: commas (t :: ts)) in *.
    rewrite length_app in Hn. cbn [length] in Hn. rewrite <-app_assoc. cbn [app items].
    rewrite Hv; [|done|done|left; reflexivity|lia]. cbn [mbind option_bind].
    change (skip (","%char :: ?l)) with (","%char :: l). cbn iota.
    change (byte "," =? 44) with true. cbn iota. rewrite IH; [reflexivity|done..|lia].
Qed.
Lemma members_read ms n d k :
  ms <> [] -> Forall (fun m => reads m.2) ms -> Forall (fun m => literals m.2) ms ->
  Forall (fun m => d + depth m.2 <= maxNestingDepth) ms ->
  (2 * length (commas (List.map (fun m => encode_string m.1 ++ ":"%char :: encode m.2) ms)) + 1 <= n)%nat ->
  members n d (commas (List.map (fun m => encode_string m.1 ++ ":"%char :: encode m.2) ms) ++ "}"%char :: k)
  = Some (List.map (fun m => (to_valid m.1, scrub m.2)) ms, k).
Proof.
  revert n. induction ms as [|[name v] ms IH]; [done|]. intros n _ Hr Hl Hd Hn.
  apply Forall_cons in Hr as [Hv Hr]. apply Forall_cons in Hl as [Lv Hl].
  apply Forall_cons in Hd as [Dv Hd]. cbn [snd] in *. destruct n as [|n]; [lia|].
  assert (Hstep : forall k', terminator k' -> (2 * length (encode v) <= n)%nat ->
    members (S n) d (encode_string name ++ ":"%char :: encode v ++ k')
    = match skip k' with
      | c :: r => if byte c =? 44
                  then '(ms, r) ← members n d r; Some ((to_valid name, scrub v) :: ms, r)
                  else if byte c =? 125 then Some ([(to_valid name, scrub v)], r) else None
      | [] => None
      end).
  { intros k' Hk' Hn'. unfold encode_string. cbn [app]. rewrite <-app_assoc. cbn [app members].
    change (skip (dquote :: ?l)) with (dquote :: l). cbn iota.
    change (byte dquote =? 34) with true. cbn iota. rewrite string_lit_any. cbn [mbind option_bind].
    change (skip (":"%char :: ?l)) with (":"%char :: l). cbn iota.
    change (byte ":" =? 58) with true. cbn iota. by rewrite Hv. }
  destruct ms as [|m' ms].
  - cbn [List.map commas fst snd] in *. rewrite length_app in Hn. cbn [length] in Hn.
    rewrite <-app_assoc. cbn [app]. rewrite Hstep; [reflexivity|right; right; left; reflexivity|lia].
  - cbn [List.map fst snd] in *. change (commas (?h :: ?t :: ?ts)) with
      (h ++ ","%char :: commas (t :: ts)) in *.
    rewrite !length_app in Hn. cbn [length] in Hn. rewrite <-!app_assoc. cbn [app].
    rewrite Hstep; [|left; reflexivity|lia].
    change (skip (","%char :: ?l)) with (","%char :: l). cbn iota.
    change (byte "," =? 44) with true. cbn iota. rewrite IH; [reflexivity|done..|lia].
Qed.

Lemma array_reads vs : Forall reads vs -> reads (JArr vs).
Proof.
  intros IH n d k Hl Hd Hk Hn. pose proof (encode_pos _ Hl) as Hpos. destruct n as [|n]; [lia|].
  cbn [encode scrub depth] in *. cbn [length] in Hn. rewrite length_app in Hn. cbn [length] in Hn.
  assert (Hl' : Forall literals vs) by (apply Forall_forall; intros v; by apply literals_all).
  assert (Hd' : Forall (fun v => d + 1 + depth v <= maxNestingDepth) vs).
  { apply Forall_forall. intros v Hv. pose proof (depth_max depth vs v Hv). lia. }
  cbn [app value]. rewrite <-app_assoc. cbn [app].
  change (skip ("["%char :: ?l)) with ("["%char :: l). cbn iota.
  change (byte "[" =? 34) with false. change (byte "[" =? 91) with true. cbn iota.
  replace (maxNestingDepth <=? d) with false.
  2: { symmetry. apply Z.leb_gt. pose proof (foldr_max_nonneg depth vs). lia. }
  destruct vs as [|v vs]; [reflexivity|].
  pose proof (proj1 (proj1 (Forall_cons _ _ _) Hl')) as Lv.
  destruct (encode_head v Lv) as (c & l & E & Hs & Hc & _).
  assert (Hhead : exists l', commas (List.map encode (v :: vs)) = c :: l').
  { cbn [List.map]. destruct (List.map encode vs); simpl; rewrite E; by eexists. }
  destruct Hhead as [l' El]. rewrite El at 1. cbn [app].
  unfold skip at 1. cbn [drop_while]. rewrite Hs, Hc.
  rewrite items_read by (done || lia). reflexivity.
Qed.
Lemma object_reads ms : Forall (fun m => reads m.2) ms -> reads (JObj ms).
Proof.
  intros IH n d k Hl Hd Hk Hn. pose proof (encode_pos _ Hl) as Hpos. destruct n as [|n]; [lia|].
  cbn [encode scrub depth] in *. cbn [length] in Hn. rewrite length_app in Hn. cbn [length] in Hn.
  assert (Hl' : Forall (fun m => literals m.2) ms)
    by (apply Forall_forall; intros m; by apply (literals_all (fun m => literals m.2))).
  assert (Hd' : Forall (fun m => d + 1 + depth m.2 <= maxNestingDepth) ms).
  { apply Forall_forall. intros m Hm. pose proof (depth_max (fun m => depth m.2) ms m Hm). simpl in *. lia. }
  cbn [app value]. rewrite <-app_assoc. cbn [app].
  change (skip ("{"%char :: ?l)) with ("{"%char :: l). cbn iota.
  change (byte "{" =? 34) with false. change (byte "{" =? 91) with false.
  change (byte "{" =? 123) with true. cbn iota.
  replace (maxNestingDepth <=? d) with false.
  2: { symmetry. apply Z.leb_gt. pose proof (foldr_max_nonneg (fun m => depth m.2) ms). lia. }
  destruct ms as [|[name v] ms]; [reflexivity|].
  assert (Hhead : exists l', commas (List.map (fun m => encode_string m.1 ++ ":"%char :: encode m.2)
            ((name, v) :: ms)) = dquote :: l').
  { cbn [List.map]. destruct (List.map _ ms); simpl; by eexists. }
  destruct Hhead as [l' El]. rewrite El at 1. cbn [app].
  change (skip (dquote :: ?l)) with (dquote :: l). cbn iota.
  change (byte dquote =? 125) with false. cbn iota.
  rewrite members_read by (done || lia). reflexivity.
Qed.
Lemma encode_reads v : reads v.
Proof.
  induction v as [|b|lit|s|vs IH|ms IH] using jany_tree_ind; [..|by apply array_reads|by apply object_reads];
    intros n d k Hl Hd Hk Hn; pose proof (encode_pos _ Hl) as Hpos; (destruct n as [|n]; [lia|]).
  - reflexivity.
  - by destruct b.
  - by apply value_literal.
  - apply value_string.
Qed.

(** The text the encoder writes is one JSON document that reads back as the tree
    it was given, whatever bytes the strings hold. *)
Lemma parse_Encode v :
  literals v -> depth v <= maxNestingDepth -> parse (Encode v) = Some (scrub v).
Proof.
  intros Hl Hd. unfold parse, Encode. rewrite bs_sb.
  rewrite (encode_reads v _ 0 [Ascii.ascii_of_nat 10]); [reflexivity|done|lia|by right; right; right|].
  rewrite length_app. lia.
Qed.

(** ** Numbers *)

Lemma span_digits_all l k :
  Forall (fun c => is_digit c = true) l ->
  match k with c :: _ => is_digit c = false | [] => True end -> span_digits (l ++ k) = (l, k).
Proof.
  intros Hl Hk. induction Hl as [|c l Hc _ IH]; simpl.
  - destruct k as [|c k]; [done|]. simpl. by rewrite Hk.
  - by rewrite Hc, IH.
Qed.
Lemma terminator_digit k :
  terminator k -> match k with c :: _ => is_digit c = false | [] => True end.
Proof. destruct k as [|c k]; [done|]. unfold terminator, is_digit, in_range. lia. Qed.
(** A run of digits without a leading zero, perhaps after a minus sign. *)
Lemma literal_digits c l :
  Forall (fun c => is_digit c = true) (c :: l) -> (byte c =? 48) && negb (Nat.eqb (length l) 0) = false ->
  forall k, terminator k ->
    int_part (c :: l ++ k) = Some (c :: l, k) /\ frac_part k = Some ([], k) /\ exp_part k = Some ([], k).
Proof.
  intros Hd Hz k Hk. split.
  - unfold int_part. change (c :: l ++ k) with ((c :: l) ++ k).
    rewrite span_digits_all by (done || by apply terminator_digit). by rewrite Hz.
  - destruct k as [|x k]; [done|]. unfold terminator in Hk. unfold frac_part, exp_part.
    replace (byte x =? 46) with false by lia. replace (byte x =? 101) with false by lia.
    replace (byte x =? 69) with false by lia. done.
Qed.
Lemma literal_intro c l :
  Forall (fun c => is_digit c = true) (c :: l) -> (byte c =? 48) && negb (Nat.eqb (length l) 0) = false ->
  literal (sb (c :: l)) /\ literal (sb ("-"%char :: c :: l)).
Proof.
  intros Hd Hz. pose proof Hd as [Hc _]%Forall_cons. split; unfold literal; rewrite bs_sb; split;
    try (eexists _, _; split; [done|tauto]); intros k Hk;
    destruct (literal_digits c l Hd Hz k Hk) as (Hi & Hf & He); unfold number.
  - cbn [app]. replace (byte c =? 45) with false by (unfold is_digit, in_range in Hc; lia).
    cbn iota beta. rewrite Hi. cbn [mbind option_bind]. rewrite Hf. cbn [mbind option_bind]. rewrite He.
    cbn [mbind option_bind app]. by rewrite !app_nil_r.
  - cbn [app]. change (byte "-" =? 45) with true. cbn iota beta. rewrite Hi. cbn [mbind option_bind].
    rewrite Hf. cbn [mbind option_bind]. rewrite He. cbn [mbind option_bind app]. by rewrite !app_nil_r.
Qed.
Lemma pretty_digits x s :
  (0 < x)%N -> exists c l, bs (pretty_N_go x s) = c :: l ++ bs s
    /\ Forall (fun c => is_digit c = true) (c :: l) /\ byte c <> 48.
Proof.
  revert s. induction (N.lt_wf_0 x) as [x _ IH]; intros s Hx. rewrite pretty_N_go_step by done.
  destruct (pretty_N_char_digit (x `mod` 10)) as [Hd Hv]; [by apply N.mod_lt|].
  destruct (N.eq_0_gt_0_cases (N.div x 10)) as [E|Hq].
  - rewrite E. exists (pretty_N_char (x `mod` 10)), []. split; [done|]. split; [by repeat constructor|].
    pose proof (N.div_mod x 10 ltac:(done)). lia.
  - destruct (IH (N.div x 10)) with (s := String (pretty_N_char (x `mod` 10)) s) as (c & l & El & Hl & Hc);
      [by apply N.div_lt|done|].
    exists c, (l ++ [pretty_N_char (x `mod` 10)]). split; [|split; [|done]].
    + rewrite El. change (bs (String ?d s)) with (d :: bs s). by rewrite <-app_assoc.
    + rewrite app_comm_cons. apply Forall_app. split; [done|]. by apply Forall_singleton.
Qed.
Lemma literal_Itoa z : literal (Strconv.Itoa z).
Proof.
  unfold Strconv.Itoa, pretty, pretty_Z. destruct z as [|p|p].
  - change (literal (sb ["0"%char])). apply literal_intro; [by repeat constructor|done].
  - unfold pretty, pretty_positive, pretty, pretty_N. rewrite decide_False by done.
    destruct (pretty_digits (N.pos p) "") as (c & l & E & Hl & Hc); [done|].
    change (bs "") with (@nil ascii) in E. rewrite app_nil_r in E.
    rewrite <-(sb_bs (pretty_N_go _ _)), E. apply literal_intro; [done|]. lia.
  - unfold pretty, pretty_positive, pretty, pretty_N. rewrite decide_False by done.
    destruct (pretty_digits (N.pos p) "") as (c & l & E & Hl & Hc); [done|].
    change (bs "") with (@nil ascii) in E. rewrite app_nil_r in E.
    replace ("-" +:+ pretty_N_go (N.pos p) "") with (sb ("-"%char :: c :: l));
      [apply literal_intro; [done|lia]|].
    apply (inj bs). by rewrite bs_sb, bs_app, E.
Qed.

End encoder.
