(* ===== verification/RdapJson.v ===== *)
(** * The JSON of the wire types (internal/rdap/models.go)

    What [encoding/json] makes of the records of RdapModels: the members in the
    order of the fields, embedded structs in place, fields with [omitempty] left
    out when they are empty, and, of two fields with one name, the outer one. *)

From stdpp Require Import base tactics option list gmap strings sorting.
From Stdlib Require Import ZArith Lia.
From S2P Require Import Prelude GoStrings RdapModels GoJson GoJsonEncode.
#[local] Open Scope Z_scope.

Module rdapjson.
Import rdap encoder.

(** ** Fields *)

Definition fields : Type := list (string * jany).
(** Fields with [omitempty], by type. *)
Definition list_field {A} (name : string) (f : A -> jany) (l : list A) : fields :=
  match l with [] => [] | _ => [(name, JArr (List.map f l))] end.
Definition str_field (name v : string) : fields :=
  if String.eqb v "" then [] else [(name, JStr v)].
Definition strs_field (name : string) (l : list string) : fields := list_field name JStr l.
Definition bool_field (name : string) (b : bool) : fields :=
  if b then [(name, JBool true)] else [].
Definition int_json (n : Z) : jany := JNum (Strconv.Itoa n).
Definition int_field (name : string) (n : Z) : fields :=
  if n =? 0 then [] else [(name, int_json n)].
Definition ptr_field {A} (name : string) (f : A -> jany) (o : option A) : fields :=
  match o with Some a => [(name, f a)] | None => [] end.
(** The keys of a map are sorted. *)
Definition key_le {A} (a b : string * A) : Prop := String.le a.1 b.1.
#[export] Instance key_le_dec {A} : RelDecision (@key_le A).
Proof. intros a b. unfold key_le. apply _. Defined.
Definition int_map (m : gmap string Z) : jany :=
  JObj ((fun kv => (kv.1, int_json kv.2)) <$> merge_sort key_le (map_to_list m)).

(** ** Records *)

Definition link_json (l : Link) : jany :=
  JObj (str_field "value" (l_Value l) ++ str_field "rel" (l_Rel l) ++ str_field "href" (l_Href l)
        ++ str_field "type" (l_Type l) ++ str_field "title" (l_Title l)).
Definition event_json (e : Event) : jany :=
  JObj (str_field "eventAction" (EventAction e) ++ str_field "eventDate" (EventDate e)
        ++ str_field "eventActor" (EventActor e)).
Definition notice_json (n : Notice) : jany :=
  JObj (str_field "title" (n_Title n) ++ str_field "type" (n_Type n)
        ++ strs_field "description" (n_Description n) ++ list_field "links" link_json (n_Links n)).
Definition remark_json (r : Remark) : jany :=
  JObj (str_field "title" (r_Title r) ++ str_field "type" (r_Type r)
        ++ strs_field "description" (r_Description r) ++ list_field "links" link_json (r_Links r)).
Definition publicID_json (p : PublicID) : jany :=
  JObj (str_field "type" (pid_Type p) ++ str_field "identifier" (pid_Identifier p)).
Definition cidr0_json (c : CIDR0) : jany :=
  JObj (str_field "v4prefix" (V4Prefix c) ++ str_field "v6prefix" (V6Prefix c)
        ++ [("length", int_json (cidr0_Length c))]).
Definition conformance_fields (c : Conformance) : fields :=
  strs_field "rdapConformance" (conf_ids c).

(** [Common] inside a struct with a field "notices" of its own loses its own. *)
Definition common_fields {E} (ent : E -> jany) (own_notices : bool) (c : CommonOf E) : fields :=
  str_field "objectClassName" (ObjectClassName c) ++ str_field "handle" (Handle c)
  ++ list_field "links" link_json (Links c) ++ list_field "events" event_json (Events c)
  ++ (if own_notices then list_field "notices" notice_json (c_Notices c) else [])
  ++ list_field "remarks" remark_json (c_Remarks c) ++ str_field "port43" (Port43 c)
  ++ list_field "entities" ent (c_Entities c) ++ strs_field "status" (Status c).
Definition network_fields {E} (ent : E -> jany) (own_notices : bool) (n : IPNetworkOf E) : fields :=
  common_fields ent own_notices (net_Common n)
  ++ str_field "startAddress" (StartAddress n) ++ str_field "endAddress" (EndAddress n)
  ++ str_field "ipVersion" (IPVersion n) ++ strs_field "cidr" (CIDR n)
  ++ str_field "name" (net_Name n) ++ str_field "type" (net_Type n)
  ++ str_field "country" (net_Country n) ++ str_field "parentHandle" (ParentHandle n)
  ++ list_field "cidr0_cidrs" cidr0_json (CIDR0CIDRs n).
(** The fields of an entity after its [Common]. *)
Definition entity_rest (ent : Entity -> jany) (vcard : list jany) (roles : list string)
    (pids : list PublicID) (nets : list IPNetwork) (actor : bool) : fields :=
  list_field "vcardArray" (fun v => v) vcard ++ strs_field "roles" roles
  ++ list_field "publicIds" publicID_json pids
  ++ list_field "networks" (fun n => JObj (network_fields ent true n)) nets
  ++ bool_field "asEventActor" actor.
Fixpoint entity_json (e : Entity) : jany :=
  match e with
  | mkEntity c vcard roles pids nets actor =>
      JObj (common_fields entity_json true c ++ entity_rest entity_json vcard roles pids nets actor)
  end.
Definition entity_fields (own_notices : bool) (e : Entity) : fields :=
  common_fields entity_json own_notices (ent_Common e)
  ++ entity_rest entity_json (VCardArray e) (Roles e) (ent_PublicIDs e) (Networks e) (AsEventActor e).

Definition ttl0_json (t : TTL0Data) : jany :=
  JObj (("values", int_map (ttl0_Values t)) :: list_field "remarks" remark_json (ttl0_Remarks t)).
Definition ipaddrs_json (a : IPAddrSet) : jany :=
  JObj (strs_field "v4" (V4 a) ++ strs_field "v6" (V6 a)).
Definition nameserver_fields (own_notices : bool) (n : Nameserver) : fields :=
  common_fields entity_json own_notices (ns_Common n)
  ++ str_field "ldhName" (ns_LDHName n) ++ str_field "unicodeName" (ns_UnicodeName n)
  ++ ptr_field "ipAddresses" ipaddrs_json (IPAddresses n)
  ++ ptr_field "ttl0_data" ttl0_json (ns_TTL0Data n).
Definition nameserver_json (n : Nameserver) : jany := JObj (nameserver_fields true n).
Definition variantName_json (v : VariantName) : jany :=
  JObj (str_field "ldhName" (vn_LDHName v) ++ str_field "unicodeName" (vn_UnicodeName v)).
Definition variant_json (v : Variant) : jany :=
  JObj (strs_field "relation" (Relation v) ++ str_field "idnTable" (IDNTable v)
        ++ list_field "variantNames" variantName_json (VariantNames v)).
Definition ds_json (d : DSData) : jany :=
  JObj (int_field "keyTag" (ds_KeyTag d) ++ int_field "algorithm" (ds_Algorithm d)
        ++ int_field "digestType" (ds_DigestType d) ++ str_field "digest" (ds_Digest d)
        ++ list_field "events" event_json (ds_Events d) ++ list_field "links" link_json (ds_Links d)).
Definition key_json (k : KeyData) : jany :=
  JObj (int_field "flags" (key_Flags k) ++ int_field "protocol" (key_Protocol k)
        ++ int_field "algorithm" (key_Algorithm k) ++ str_field "publicKey" (key_PublicKey k)
        ++ list_field "events" event_json (key_Events k) ++ list_field "links" link_json (key_Links k)).
Definition secureDNS_json (s : SecureDNS) : jany :=
  JObj ([("zoneSigned", JBool (ZoneSigned s)); ("delegationSigned", JBool (DelegationSigned s))]
        ++ ptr_field "maxSigLife" int_json (MaxSigLife s)
        ++ list_field "dsData" ds_json (sd_DSData s) ++ list_field "keyData" key_json (sd_KeyData s)).
Definition domain_json (d : Domain) : jany :=
  JObj (common_fields entity_json false (d_Common d) ++ conformance_fields (d_Conformance d)
        ++ str_field "ldhName" (LDHName d) ++ str_field "unicodeName" (UnicodeName d)
        ++ list_field "variants" variant_json (Variants d)
        ++ list_field "nameservers" nameserver_json (Nameservers d)
        ++ ptr_field "secureDNS" secureDNS_json (d_SecureDNS d)
        ++ ptr_field "network" (fun n => JObj (network_fields entity_json true n)) (d_Network d)
        ++ list_field "notices" notice_json (d_Notices d)
        ++ list_field "publicIds" publicID_json (d_PublicIDs d)
        ++ ptr_field "ttl0_data" ttl0_json (d_TTL0Data d)).

(** ** Answers *)

Definition mapping_json (m : ReverseSearchPropertiesMapping) : jany :=
  JObj [("property", JStr (rsm_Property m)); ("propertyPath", JStr (PropertyPath m))].
Definition property_json (p : ReverseSearchProperty) : jany :=
  JObj [("searchableResourceType", JStr (SearchableResourceType p));
        ("relatedResourceType", JStr (RelatedResourceType p)); ("property", JStr (rsp_Property p))].
Definition search_json {A} (c : Conformance) (name : string) (f : A -> jany) (l : list A)
    (notices : list Notice) (mapping : list ReverseSearchPropertiesMapping) : jany :=
  JObj (conformance_fields c ++ list_field name f l ++ list_field "notices" notice_json notices
        ++ list_field "reverse_search_properties_mapping" mapping_json mapping).
Definition provider_json (p : FARV1Provider) : jany :=
  JObj ([("iss", JStr (Iss p)); ("name", JStr (Name p))] ++ bool_field "default" (Default p)).
Definition farv1_json (f : FARV1OpenIDCConfiguration) : jany :=
  JObj ([("sessionClientSupported", JBool (SessionClientSupported f));
         ("tokenClientSupported", JBool (TokenClientSupported f));
         ("dntSupported", JBool (DntSupported f))]
        ++ bool_field "providerDiscoverySupported" (ProviderDiscoverySupported f)
        ++ bool_field "issuerIdentifierSupported" (IssuerIdentifierSupported f)
        ++ bool_field "implicitTokenRefreshSupported" (ImplicitTokenRefreshSupported f)
        ++ list_field "openidcProviders" provider_json (OpenIDCProviders f)).
Definition help_json (h : Help) : jany :=
  JObj (conformance_fields (help_Conformance h) ++ list_field "notices" notice_json (help_Notices h)
        ++ list_field "reverse_search_properties" property_json (ReverseSearchProperties h)
        ++ ptr_field "farv1_openidcConfiguration" farv1_json (FARV1 h)).
(** An object with the top-level conformance and notices around it. *)
Definition response_json (object : fields) (c : Conformance) (notices : list Notice) : jany :=
  JObj (object ++ conformance_fields c ++ list_field "notices" notice_json notices).
Definition autnum_fields (a : Autnum) : fields :=
  common_fields entity_json false (as_Common a)
  ++ int_field "startAutnum" (StartAutnum a) ++ int_field "endAutnum" (EndAutnum a)
  ++ str_field "name" (as_Name a) ++ str_field "type" (as_Type a)
  ++ str_field "country" (as_Country a).
Definition error_json (e : ErrorResponse) : jany :=
  JObj (conformance_fields (err_Conformance e) ++ int_field "errorCode" (ErrorCode e)
        ++ str_field "title" (err_Title e) ++ strs_field "description" (err_Description e)
        ++ list_field "notices" notice_json (err_Notices e)).

End rdapjson.
