(* ===== verification/Rdap.v ===== *)
(** * Package rdap, functions (internal/rdap/rdap.go)

    Validation and normalisation of domain names, TLD helpers, IP and CIDR
    checks, time formatting, conformance arrays and the notices of responses
    and of the help page.  The IDNA conversion (golang.org/x/net/idna) is a
    parameter. *)

From stdpp Require Import base tactics option list gmap strings pretty.
From Stdlib Require Import ZArith Lia Ascii.
From S2P Require Import Prelude GoStrings GoTime GoNet RdapModels.
#[local] Open Scope Z_scope.

(** golang.org/x/net/idna *)
Class Idna := {
  idna_ToASCII : string -> result string;
  idna_ToUnicode : string -> result string
}.
(** An IDNA package that rejects every name, for witnesses on ASCII names. *)
Definition no_idna : Idna := {|
  idna_ToASCII _ := Err (ErrText "idna: disallowed rune");
  idna_ToUnicode _ := Err (ErrText "idna: disallowed rune")
|}.

(** ** Lookup and search kinds *)

Inductive LookupType :=
  | LookupDomain | LookupEntity | LookupNameserver | LookupIP | LookupAutnum | LookupHelp.
Inductive SearchType :=
  | SearchDomainByName | SearchDomainByNS | SearchEntityByName | SearchEntityByHandle
  | SearchNameserverByName | SearchNameserverByIP.

(** ** Domain names *)

(** [strings.Split(strings.TrimSuffix(name, "."), ".")] *)
Definition labels_of (name : string) : list string :=
  Strings.Split (Strings.TrimSuffix name ".") "."%char.

(** The label loop of [ValidateDomainName]. *)
Fixpoint check_labels (labels : list string) : result unit :=
  match labels with
  | [] => Ok tt
  | label :: labels' =>
      if len label =? 0 then Err (ErrText "empty label in domain name")
      else if 63 <? len label
      then Err (ErrText ("label exceeds 63 characters: " +:+ label))
      else check_labels labels'
  end.

Definition ValidateDomainName (name : string) : result unit :=
  if len name =? 0 then Err (ErrText "domain name is empty")
  else if 253 <? len name then Err (ErrText "domain name exceeds 253 characters")
  else
    let labels := labels_of name in
    if Z.of_nat (length labels) <? 2
    then Err (ErrText "domain name must have at least two labels")
    else check_labels labels.

(** The rune test of [ValidateLDHName]: 'a'-'z', '0'-'9' or '-'. *)
Definition ldh_rune (r : Z) : bool := in_range 97 122 r || in_range 48 57 r || (r =? 45).

(** The loop over the runes of a label, with their byte offsets. *)
Definition ldh_label (label : string) : bool :=
  negb ((len label =? 0) || (63 <? len label))
  && forallb (fun '(i, r) =>
       negb (((i =? 0) || (i =? len label - 1)) && (r =? 45)) && ldh_rune r)
     (Utf8.range_string label).

Definition ValidateLDHName (name : string) : bool :=
  if (len name =? 0) || (253 <? len name) then false
  else forallb ldh_label (labels_of name).

Definition isASCII (s : string) : bool := all_ascii (bs s).

(** [NormalizeDomainName] returns the LDH form and the Unicode form. *)
Definition NormalizeDomainName `{UnicodeTables} `{Idna} (name : string)
    : result (string * string) :=
  let name := Strings.TrimSpace name in
  let name := Strings.ToLower name in
  let name := Strings.TrimSuffix name "." in
  if isASCII name then
    if negb (ValidateLDHName name)
    then Err (ErrText ("invalid LDH domain name: " +:+ name))
    else Ok (name, name)
  else
    match idna_ToASCII name with
    | Err e => Err (ErrWrap "idna conversion failed: " e)
    | Ok ascii =>
        match idna_ToUnicode name with
        | Err e => Err (ErrWrap "idna to unicode failed: " e)
        | Ok unicode =>
            if negb (ValidateLDHName ascii)
            then Err (ErrText ("invalid domain after IDNA conversion: " +:+ ascii))
            else Ok (ascii, unicode)
        end
    end.

Definition ExtractTLD (name : string) : string :=
  let labels := labels_of name in
  if Z.of_nat (length labels) <? 2 then "" else default "" (last labels).

Definition IsTLDSupported `{UnicodeTables} (tld : string) (supportedTLDs : list string) : bool :=
  let tld := Strings.ToLower tld in
  existsb (fun supported => Strings.EqualFold supported tld) supportedTLDs.

(** ** Addresses *)

Definition ValidateIP (s : string) (version : Z) : bool :=
  match Netip.ParseAddr s with
  | None => false
  | Some addr =>
      if (version =? 4) && negb (Netip.Is4 addr) && negb (Netip.Is4In6 addr) then false
      else if (version =? 6) && negb (Netip.Is6 addr) then false
      else true
  end.

Definition ParseCIDR (s : string) : option Net.IPNet := snd <$> Net.ParseCIDR s.

(** ** Times *)

Definition FormatTime (t : Time) : string :=
  if IsZero t then "" else format_rfc3339 t.

(** ** Conformance *)

Definition NewConformance : rdap.Conformance := rdap.mkConformance ["rdap_level_0"].
Definition NewConformance2019 : rdap.Conformance :=
  rdap.mkConformance
    ["rdap_level_0"; "icann_rdap_technical_implementation_guide_0";
     "icann_rdap_response_profile_0"].
Definition NewConformance2024 : rdap.Conformance :=
  rdap.mkConformance
    ["rdap_level_0"; "icann_rdap_technical_implementation_guide_0";
     "icann_rdap_response_profile_0"; "icann_rdap_technical_implementation_guide_1";
     "icann_rdap_response_profile_1"].

(** The second loop of [WithExtensions]; [seen] is the map built so far. *)
Fixpoint add_extensions (seen : gset string) (conf extIDs : list string) : list string :=
  match extIDs with
  | [] => conf
  | id :: extIDs' =>
      if negb (String.eqb id "") && negb (bool_decide (id ∈ seen))
      then add_extensions ({[id]} ∪ seen) (conf ++ [id]) extIDs'
      else add_extensions seen conf extIDs'
  end.
Definition WithExtensions (c : rdap.Conformance) (extIDs : list string) : rdap.Conformance :=
  rdap.mkConformance
    (add_extensions (list_to_set (rdap.conf_ids c)) (rdap.conf_ids c) extIDs).

(** ** Notices *)

Record CustomNotice := mkCustomNotice {
  cn_Title : string; cn_Description : list string; cn_URL : string; cn_Rel : string
}.
Record NoticeOptions := mkNoticeOptions {
  ToSTitle : string; ToSDescription : list string; ToSURL : string;
  Custom : list CustomNotice
}.
Record RateLimitInfo := mkRateLimitInfo {
  rl_Enabled : bool; rl_Requests : Z; rl_Window : Z; rl_Burst : Z
}.
Record SearchInfo := mkSearchInfo { si_Enabled : bool }.

Definition json_type : string := "application/rdap+json".

(** [buildToSNotice]; nil options are [None]. *)
Definition buildToSNotice (requestURL baseURL : string) (opts : option NoticeOptions)
    : rdap.Notice :=
  let override {A} (f : NoticeOptions -> A) (unset : A -> bool) (d : A) :=
    match opts with
    | Some o => if unset (f o) then d else f o
    | None => d
    end in
  let unset_str s := String.eqb s "" in
  let unset_list (l : list string) := bool_decide (l = []) in
  let title := override ToSTitle unset_str "Terms of Service" in
  let desc := override ToSDescription unset_list
    ["Use of this RDAP server is subject to the registrar's terms of service."] in
  let href := override ToSURL unset_str (baseURL +:+ "/help") in
  rdap.notice title desc [rdap.link requestURL "terms-of-service" href "text/html"].

(** The notice a custom option gives, on a response ([value] is the request
    URL) and on the help page ([value] is the base URL). *)
Definition custom_notice (value baseURL : string) (c : CustomNotice) : rdap.Notice :=
  let url := if String.eqb (cn_URL c) "" then baseURL +:+ "/help" else cn_URL c in
  let rel := if String.eqb (cn_Rel c) "" then "terms-of-service" else cn_Rel c in
  rdap.notice (cn_Title c) (cn_Description c) [rdap.link value rel url "text/html"].

Definition custom_notices (value baseURL : string) (opts : option NoticeOptions)
    : list rdap.Notice :=
  match opts with
  | Some o => custom_notice value baseURL <$> Custom o
  | None => []
  end.

Definition rate_text : string :=
  "Access to this RDAP server is rate-limited. Excessive queries may be throttled.".

Definition NewNotices (baseURL : string) (opts : option NoticeOptions) : list rdap.Notice :=
  [buildToSNotice baseURL baseURL opts;
   rdap.notice "Rate Limiting" [rate_text]
     [rdap.link baseURL "rate-limit-policy" (baseURL +:+ "/help") json_type]].

Definition status_codes_notice (requestURL : string) : rdap.Notice :=
  rdap.notice "Status Codes"
    ["For more information on domain status codes, please visit https://icann.org/epp"]
    [rdap.link requestURL "glossary" "https://icann.org/epp" "text/html"].
Definition inaccuracy_notice (requestURL : string) : rdap.Notice :=
  rdap.notice "RDDS Inaccuracy Complaint Form"
    ["URL of the ICANN RDDS Inaccuracy Complaint Form: https://icann.org/wicf"]
    [rdap.link requestURL "help" "https://icann.org/wicf" "text/html"].

Definition NewNoticesWithICANN (requestURL baseURL : string) (opts : option NoticeOptions)
    : list rdap.Notice :=
  [buildToSNotice requestURL baseURL opts;
   rdap.notice "Rate Limiting" [rate_text]
     [rdap.link requestURL "service" (baseURL +:+ "/help") json_type];
   status_codes_notice requestURL;
   inaccuracy_notice requestURL] ++ custom_notices requestURL baseURL opts.

Definition burstSuffix (burst : Z) : string :=
  if burst <=? 0 then "" else ", with a burst allowance of " +:+ Strconv.Itoa burst.

Definition NewHelpNotices (baseURL : string) (opts : option NoticeOptions)
    (rate : RateLimitInfo) (search : SearchInfo) : list rdap.Notice :=
  let help := baseURL +:+ "/help" in
  let rateDesc :=
    if rl_Enabled rate then
      let perWindow := if rl_Window rate <=? 0 then minute else rl_Window rate in
      "Access to this RDAP server is rate-limited to " +:+ Strconv.Itoa (rl_Requests rate)
        +:+ " requests per " +:+ duration_string perWindow +:+ " per IP address"
        +:+ burstSuffix (rl_Burst rate) +:+ "."
    else rate_text in
  [rdap.notice "Terms of Service"
     ["Use of this RDAP server is subject to the registrar's terms of service."]
     [rdap.link baseURL "terms-of-service" help json_type];
   rdap.notice "Rate Limiting" [rateDesc]
     [rdap.link baseURL "rate-limit-policy" help json_type]]
  ++ (if negb (si_Enabled search) then
        [rdap.notice "Search Disabled"
           ["Search queries are not enabled on this RDAP server. Lookup queries (domains, entities, nameservers, IP networks, and autnums) are supported."]
           [rdap.link baseURL "service" help json_type]]
      else [])
  ++ custom_notices baseURL baseURL opts.

Definition NewHelp (baseURL : string) (opts : option NoticeOptions) (rate : RateLimitInfo)
    (search : SearchInfo) : rdap.Help :=
  rdap.mkHelp NewConformance (NewHelpNotices baseURL opts rate search) [] None.

Example normalize_ex :
  @NormalizeDomainName ascii_tables no_idna " EXAMPLE.com. " = Ok ("example.com", "example.com").
Proof. vm_compute. reflexivity. Qed.
Example normalize_hyphen_ex :
  @NormalizeDomainName ascii_tables no_idna "-a.com" = Err (ErrText "invalid LDH domain name: -a.com").
Proof. vm_compute. reflexivity. Qed.
Example help_ex :
  rdap.n_Description <$> (NewHelpNotices "B" None (mkRateLimitInfo true 100 minute 50)
                            (mkSearchInfo true)) !! 1%nat
  = Some ["Access to this RDAP server is rate-limited to 100 requests per 1m0s per IP address, with a burst allowance of 50."].
Proof. vm_compute. reflexivity. Qed.

(** ** Specification of LDH names *)

Definition ldh_byte (c : ascii) : Prop := ldh_rune (byte c) = true.

(** A label of 1 to 63 bytes among a-z, 0-9 and '-', without a hyphen at either
    end. *)
Record valid_label (w : list ascii) : Prop := {
  vl_length : (1 <= length w <= 63)%nat;
  vl_bytes : Forall ldh_byte w;
  vl_head : head w <> Some "-"%char;
  vl_last : last w <> Some "-"%char
}.

(** A name of 1 to 253 bytes made of valid labels, with an optional final dot. *)
Definition ldh_name (l : list ascii) : Prop :=
  (1 <= length l <= 253)%nat /\
  exists ws, ws <> [] /\ Forall valid_label ws
    /\ (l = join_bytes "."%char ws \/ l = join_bytes "."%char ws ++ ["."%char]).

(** ** Lemmas *)

Lemma ldh_rune_bounds r : ldh_rune r = true -> 45 <= r <= 122 /\ r <> 46.
Proof.
  unfold ldh_rune. rewrite !orb_true_iff, !in_range_iff, Z.eqb_eq. lia.
Qed.
Lemma ldh_byte_ascii c : ldh_byte c -> byte c < 128.
Proof. intros H%ldh_rune_bounds. lia. Qed.
Lemma ldh_byte_dot c : ldh_byte c -> c <> "."%char.
Proof. intros H%ldh_rune_bounds ->. by destruct H as [_ []]. Qed.
Lemma ldh_byte_upper c : ldh_byte c -> is_upper c = false.
Proof.
  unfold ldh_byte, ldh_rune, is_upper.
  rewrite !orb_true_iff, !in_range_iff, in_range_false, Z.eqb_eq. lia.
Qed.
Lemma ldh_byte_space c : ldh_byte c -> space_byte c = false.
Proof.
  intros H%ldh_rune_bounds. unfold space_byte, is_space, in_range.
  rewrite !orb_false_iff, !andb_false_iff, !Z.leb_gt, !Z.eqb_neq. lia.
Qed.
#[export] Hint Resolve ldh_byte_ascii ldh_byte_dot ldh_byte_upper ldh_byte_space : go.

(** Multi-byte and invalid encodings decode to runes at or above U+0080. *)
Lemma decode_rune_small c l : (Utf8.decode_rune (c :: l)).1 < 128 -> byte c < 128.
Proof.
  pose proof (byte_bounds c) as Bc. unfold Utf8.decode_rune, Utf8.cont_ok.
  assert (Hc : forall i, 0 <= Utf8.cont (c :: l) i < 256).
  { intros i. unfold Utf8.cont. destruct ((c :: l) !! i); simpl; [apply byte_bounds|lia]. }
  pose proof (Hc 1%nat) as H1. pose proof (Hc 2%nat) as H2. pose proof (Hc 3%nat) as H3.
  clear Hc. generalize dependent (Utf8.cont (c :: l) 1).
  generalize dependent (Utf8.cont (c :: l) 2). generalize dependent (Utf8.cont (c :: l) 3).
  intros c3 ? c2 ? c1 ?. unfold Utf8.RuneError.
  destruct (byte c <? 128) eqn:E; [by rewrite Z.ltb_lt in E|].
  destruct (in_range 194 223 (byte c) && in_range 128 191 c1) eqn:E2; simpl.
  { to_prop. rewrite !in_range_iff in *. lia. }
  destruct (in_range 224 239 (byte c) && in_range _ _ c1 && in_range 128 191 c2) eqn:E3; simpl.
  { to_prop. rewrite !in_range_iff in *.
    destruct (byte c =? 224) eqn:?; destruct (byte c =? 240) eqn:?; to_prop; lia. }
  destruct (in_range 240 244 (byte c) && in_range _ _ c1 && in_range 128 191 c2
            && in_range 128 191 c3) eqn:E4; simpl; [|lia].
  to_prop. rewrite !in_range_iff in *.
  destruct (byte c =? 224) eqn:?; destruct (byte c =? 240) eqn:?; to_prop; lia.
Qed.
Lemma segs_fuel_small n l :
  (length l <= n)%nat -> Forall (fun x => x.1 < 128) (Utf8.segs_fuel n l) ->
  Forall (fun c => byte c < 128) l.
Proof.
  revert l. induction n as [|n IH]; intros [|c l] Hn H; try done; [simpl in Hn; lia|].
  cbn [Utf8.segs_fuel] in H.
  destruct (Utf8.decode_rune (c :: l)) as [r w] eqn:E.
  apply Forall_cons in H as [Hr H]. simpl in Hr.
  assert (Hc : byte c < 128) by (apply (decode_rune_small c l); by rewrite E).
  rewrite decode_rune_ascii in E by done. simplify_eq. simpl in *.
  constructor; [done|]. apply IH; [lia|]. by rewrite drop_0 in H.
Qed.

Lemma offsets_fst_snd i ss : (Utf8.offsets i ss).*2 = ss.*1.
Proof.
  revert i. induction ss as [|[r w] ss IH]; intros i; [done|].
  simpl. by rewrite IH.
Qed.
Lemma offsets_ascii_lookup i l k :
  Utf8.offsets i ((fun c => (byte c, [c])) <$> l) !! k
  = (fun c => (i + Z.of_nat k, byte c)) <$> l !! k.
Proof.
  revert i k. induction l as [|c l IH]; intros i k; [by destruct k|].
  destruct k as [|k]; simpl.
  - by rewrite Z.add_0_r.
  - rewrite IH. destruct (l !! k); simpl; [|done]. do 2 f_equal. lia.
Qed.
Lemma range_string_all P s :
  all_ascii (bs s) = true ->
  forallb P (Utf8.range_string s) = true
  <-> (forall k c, bs s !! k = Some c -> P (Z.of_nat k, byte c) = true).
Proof.
  intros Ha. unfold Utf8.range_string. rewrite segs_ascii by done.
  rewrite forallb_forall. split.
  - intros H k c Hk. apply H, list_elem_of_In, list_elem_of_lookup. exists k.
    rewrite offsets_ascii_lookup, Hk. simpl. do 2 f_equal.
  - intros H x [k Hk]%list_elem_of_In%list_elem_of_lookup.
    rewrite offsets_ascii_lookup in Hk. destruct (bs s !! k) as [c|] eqn:E; [|done].
    simpl in Hk. simplify_eq. by apply H.
Qed.

Lemma ldh_label_ascii label : ldh_label label = true -> all_ascii (bs label) = true.
Proof.
  unfold ldh_label. intros [_ H]%andb_true_iff. apply all_ascii_Forall.
  apply (segs_fuel_small (length (bs label))); [done|].
  fold (Utf8.segs (bs label)).
  unfold Utf8.range_string in H. rewrite <-(Forall_fmap fst (fun r => r < 128)).
  rewrite <-(offsets_fst_snd 0), Forall_fmap, Forall_forall.
  intros [i r] Hx. rewrite forallb_forall in H. apply list_elem_of_In, H in Hx. simpl.
  to_prop. apply ldh_rune_bounds in H1. lia.
Qed.

Lemma ldh_label_iff label : ldh_label label = true <-> valid_label (bs label).
Proof.
  destruct (all_ascii (bs label)) eqn:Ha.
  2:{ split; [intros H%ldh_label_ascii; congruence|].
      intros [_ H _ _]. exfalso. assert (all_ascii (bs label) = true) as E; [|congruence].
      apply all_ascii_Forall. eapply Forall_impl; eauto with go. }
  unfold ldh_label, len. rewrite andb_true_iff, range_string_all by done.
  rewrite negb_true_iff, orb_false_iff, Z.eqb_neq, Z.ltb_ge.
  set (w := bs label). split.
  - intros [[Hn0 Hn] H]. split.
    + lia.
    + apply Forall_lookup. intros k c Hk. specialize (H k c Hk). by to_prop.
    + intros Hh. rewrite head_lookup in Hh. specialize (H _ _ Hh). to_prop.
      by destruct H.
    + intros Hh. rewrite last_lookup in Hh. specialize (H _ _ Hh). to_prop.
      replace (Z.of_nat (Init.Nat.pred (length w)) =? Z.of_nat (length w) - 1)
        with true in H by (symmetry; apply Z.eqb_eq; lia).
      rewrite orb_true_r in H. by destruct H.
  - intros [Hn Hb Hh Hl]. split; [lia|]. intros k c Hk.
    rewrite Forall_lookup in Hb. rewrite andb_true_iff. split; [|by apply (Hb k)].
    destruct (byte c =? 45) eqn:E; [|by rewrite andb_false_r].
    apply Z.eqb_eq in E. assert (c = "-"%char) as -> by (apply (inj byte); done).
    rewrite andb_true_r, negb_true_iff, orb_false_iff, !Z.eqb_neq.
    split; intros Hi.
    + apply Hh. rewrite head_lookup. by replace 0%nat with k by lia.
    + apply Hl. rewrite last_lookup. rewrite <-Hk. f_equal. lia.
Qed.

(** [labels_of] undoes joining with dots, with or without a final dot. *)
Lemma valid_label_no_dot w : valid_label w -> "."%char ∉ w.
Proof.
  intros [_ H _ _] Hin. rewrite Forall_forall in H. apply H, ldh_byte_dot in Hin. done.
Qed.
Lemma join_last ws :
  ws <> [] -> Forall valid_label ws ->
  exists c, last (join_bytes "."%char ws) = Some c /\ c <> "."%char /\ c <> "-"%char.
Proof.
  induction ws as [|w ws IH]; [done|]. intros _ [Hw Hws]%Forall_cons.
  destruct (decide (ws = [])) as [->|Hne].
  - simpl. destruct Hw as [Hn Hb _ Hl]. destruct (last w) as [c|] eqn:E.
    + exists c. split; [done|]. split; [|congruence].
      apply last_Some in E as [w' ->]. apply Forall_app in Hb as [_ Hb].
      apply Forall_cons in Hb as [Hb _]. by apply ldh_byte_dot.
    + apply last_None in E as ->. simpl in Hn. lia.
  - rewrite join_bytes_cons by done. destruct (IH Hne Hws) as (c & Hc & ?).
    exists c. split; [|done]. rewrite last_app, last_cons, Hc. done.
Qed.
Lemma labels_of_join ws :
  ws <> [] -> Forall valid_label ws ->
  labels_of (sb (join_bytes "."%char ws)) = sb <$> ws
  /\ labels_of (sb (join_bytes "."%char ws ++ ["."%char])) = sb <$> ws.
Proof.
  intros Hne Hws. pose proof (join_last ws Hne Hws) as (c & Hc & Hd & _).
  assert (Hsp : Strings.Split (sb (join_bytes "."%char ws)) "."%char = sb <$> ws).
  { unfold Strings.Split. rewrite bs_sb, split_join_bytes; [done|done|].
    eapply Forall_impl; eauto using valid_label_no_dot. }
  unfold labels_of. change "." with (sb ["."%char]).
  rewrite TrimSuffix_snoc, TrimSuffix_no by congruence. done.
Qed.

Lemma forallb_labels ws :
  forallb ldh_label (sb <$> ws) = true <-> Forall valid_label ws.
Proof.
  rewrite forallb_forall, Forall_forall. split.
  - intros H w Hw. rewrite <-(bs_sb w). apply ldh_label_iff, H, list_elem_of_In.
    by apply list_elem_of_fmap_2.
  - intros H x Hx%list_elem_of_In. apply list_elem_of_fmap in Hx as (w & -> & Hw).
    apply ldh_label_iff. rewrite bs_sb. by apply H.
Qed.
Lemma ValidateLDHName_ldh_name name : ValidateLDHName name = true <-> ldh_name (bs name).
Proof.
  unfold ValidateLDHName, ldh_name, len. split.
  - destruct (_ || _) eqn:E; [done|]. intros H. to_prop. split; [lia|].
    unfold labels_of, Strings.Split in H. apply forallb_labels in H.
    eexists. split; [apply split_bytes_nonnil|]. split; [exact H|].
    rewrite join_split_bytes. clear.
    destruct (decide (last (bs name) = Some "."%char)) as [Hl|Hl].
    + right. apply last_Some in Hl as [l Hl]. rewrite <-(sb_bs name), Hl.
      change "." with (sb ["."%char]). by rewrite TrimSuffix_snoc, !bs_sb.
    + left. rewrite <-(sb_bs name) at 2. change "." with (sb ["."%char]).
      by rewrite TrimSuffix_no, sb_bs.
  - intros [Hn (ws & Hne & Hws & Hl)].
    replace ((Z.of_nat (length (bs name)) =? 0) || (253 <? Z.of_nat (length (bs name))))
      with false by (symmetry; rewrite orb_false_iff, Z.eqb_neq, Z.ltb_ge; lia).
    pose proof (labels_of_join ws Hne Hws) as [H1 H2].
    rewrite <-(sb_bs name). destruct Hl as [-> | ->]; rewrite ?H1, ?H2;
      by apply forallb_labels.
Qed.

Lemma join_ldh ws :
  Forall valid_label ws -> Forall (fun c => ldh_byte c \/ c = "."%char) (join_bytes "."%char ws).
Proof.
  induction ws as [|w ws IH]; intros H; [constructor|].
  apply Forall_cons in H as [[_ Hw _ _] Hws].
  assert (Hw' : Forall (fun c => ldh_byte c \/ c = "."%char) w)
    by (eapply Forall_impl; [exact Hw|by left]).
  destruct (decide (ws = [])) as [->|Hne]; [done|].
  rewrite join_bytes_cons by done. apply Forall_app. split; [done|].
  constructor; [by right|by apply IH].
Qed.
(** What every byte of a valid name satisfies. *)
Lemma ldh_name_bytes l : ldh_name l -> Forall (fun c => ldh_byte c \/ c = "."%char) l.
Proof.
  intros (_ & ws & _ & Hws & [-> | ->]); [by apply join_ldh|].
  apply Forall_app. split; [by apply join_ldh|]. constructor; [by right|done].
Qed.
Lemma ldh_bytes_ascii l :
  Forall (fun c => ldh_byte c \/ c = "."%char) l -> all_ascii l = true.
Proof.
  intros H. apply all_ascii_Forall. eapply Forall_impl; [exact H|].
  intros c [Hc| ->]; [eauto with go|done].
Qed.
Lemma ldh_bytes_lower l :
  Forall (fun c => ldh_byte c \/ c = "."%char) l -> Forall (fun c => is_upper c = false) l.
Proof.
  intros H. eapply Forall_impl; [exact H|]. intros c [Hc| ->]; [eauto with go|done].
Qed.
Lemma ldh_bytes_nospace l :
  Forall (fun c => ldh_byte c \/ c = "."%char) l -> Forall (fun c => space_byte c = false) l.
Proof.
  intros H. eapply Forall_impl; [exact H|]. intros c [Hc| ->]; [eauto with go|done].
Qed.

(** A dot is not a label, so a valid name has at most one final dot. *)
Lemma ldh_name_join ws :
  ws <> [] -> Forall valid_label ws -> (length (join_bytes "."%char ws) <= 253)%nat ->
  ldh_name (join_bytes "."%char ws).
Proof.
  intros Hne Hws Hn. split; [|by eauto 6].
  destruct (join_last ws Hne Hws) as (c & Hc & _).
  destruct (join_bytes "."%char ws); [done|simpl in *; lia].
Qed.

Section Normalization.
Context `{UnicodeTables} `{Idna}.

(** The ASCII path of [NormalizeDomainName] on a name that is already trimmed
    and in lower case. *)
Lemma Normalize_step name core :
  Strings.TrimSuffix (Strings.ToLower (Strings.TrimSpace name)) "." = core ->
  ldh_name (bs core) -> NormalizeDomainName name = Ok (core, core).
Proof.
  intros <- Hl. unfold NormalizeDomainName, isASCII.
  rewrite (ldh_bytes_ascii _ (ldh_name_bytes _ Hl)).
  by rewrite (proj2 (ValidateLDHName_ldh_name _) Hl).
Qed.
Lemma Normalize_fixed l :
  ldh_name l -> Strings.ToLower (Strings.TrimSpace (sb l)) = sb l.
Proof.
  intros Hl. pose proof (ldh_name_bytes _ Hl) as Hb.
  rewrite TrimSpace_id, ToLower_id; rewrite ?bs_sb;
    auto using ldh_bytes_ascii, ldh_bytes_lower, ldh_bytes_nospace.
Qed.
Lemma Normalize_valid name ldh u :
  NormalizeDomainName name = Ok (ldh, u) -> ldh_name (bs ldh).
Proof.
  unfold NormalizeDomainName. intros Hn. apply ValidateLDHName_ldh_name.
  destruct (isASCII _).
  - destruct (ValidateLDHName _) eqn:E; simpl in Hn; [|done]. by simplify_eq.
  - destruct (idna_ToASCII _) as [a|]; [|done]. destruct (idna_ToUnicode _); [|done].
    destruct (ValidateLDHName a) eqn:E; simpl in Hn; [|done]. by simplify_eq.
Qed.
End Normalization.

Lemma trim_pad m sp1 sp2 :
  Forall (fun c => space_byte c = false) m ->
  Forall (fun c => space_byte c = true) sp1 -> Forall (fun c => space_byte c = true) sp2 ->
  drop_while_end space_byte (drop_while space_byte (sp1 ++ m ++ sp2)) = m.
Proof.
  intros Hm H1 H2.
  assert (E : drop_while space_byte (sp1 ++ m ++ sp2) = drop_while space_byte (m ++ sp2)).
  { clear Hm H2. induction H1 as [|c l Hc H1 IH]; [done|]. simpl. by rewrite Hc. }
  rewrite E. clear E H1. unfold drop_while_end.
  assert (F : forall l k, Forall (fun c => space_byte c = true) l ->
    drop_while space_byte (l ++ k) = drop_while space_byte k).
  { clear. induction 1 as [|c l Hc H IH]; [done|]. simpl. by rewrite Hc. }
  destruct Hm as [|c m Hc Hm].
  - simpl. assert (drop_while space_byte sp2 = []) as ->; [|done].
    rewrite <-(app_nil_r sp2), F by done. done.
  - simpl. rewrite Hc. rewrite app_comm_cons, reverse_app, F by by apply Forall_reverse.
    rewrite drop_while_all by (apply Forall_reverse; by constructor).
    apply reverse_involutive.
Qed.

Lemma lower_space c : space_byte (lower_byte c) = false -> space_byte c = false.
Proof.
  unfold lower_byte. destruct (is_upper c) eqn:E; [|done]. intros _.
  unfold is_upper in E. apply in_range_iff in E.
  unfold space_byte, is_space, in_range.
  rewrite !orb_false_iff, !andb_false_iff, !Z.leb_gt, !Z.eqb_neq. lia.
Qed.

(** ** Properties *)

(** C1: A name [NormalizeDomainName] accepts normalises to an LDH name: 1 to 253
    bytes of dot-separated labels of 1 to 63 bytes among a-z, 0-9 and '-' with no
    hyphen at either end, whatever the IDNA package returns; and the result is a
    fixed point of the normalisation unless it still ends in a dot. *)
Theorem NormalizeDomainName_sound `{UnicodeTables} `{Idna} name ldh u :
  NormalizeDomainName name = Ok (ldh, u) ->
  ldh_name (bs ldh)
  /\ (last (bs ldh) <> Some "."%char -> NormalizeDomainName ldh = Ok (ldh, ldh)).
Proof.
  intros Hn%Normalize_valid. split; [done|]. intros Hd. apply Normalize_step; [|done].
  rewrite <-(sb_bs ldh). rewrite Normalize_fixed by done.
  change "." with (sb ["."%char]). by apply TrimSuffix_no.
Qed.
Lemma NormalizeDomainName_sound_witness :
  ldh_name (bs "xn--bcher-kva.example")
  /\ (last (bs "xn--bcher-kva.example") <> Some "."%char ->
      @NormalizeDomainName ascii_tables no_idna "xn--bcher-kva.example"
      = Ok ("xn--bcher-kva.example", "xn--bcher-kva.example")).
Proof.
  apply (@NormalizeDomainName_sound ascii_tables no_idna " XN--bcher-KVA.Example. " _
    "xn--bcher-kva.example"). vm_compute. reflexivity.
Defined.

(** C2: Conversely every LDH name is accepted in any letter case, with white space
    around it and with or without a final dot, and normalises to its lower-case
    form without that dot. *)
Theorem NormalizeDomainName_complete `{UnicodeTables} `{Idna} ws (s sp1 sp2 : list ascii) :
  ws <> [] -> Forall valid_label ws -> (length (join_bytes "."%char ws) <= 253)%nat ->
  (lower_byte <$> s = join_bytes "."%char ws
   \/ lower_byte <$> s = join_bytes "."%char ws ++ ["."%char]) ->
  all_ascii s = true -> all_ascii (sp1 ++ sp2) = true ->
  Forall (fun c => space_byte c = true) (sp1 ++ sp2) ->
  NormalizeDomainName (sb (sp1 ++ s ++ sp2))
  = Ok (sb (join_bytes "."%char ws), sb (join_bytes "."%char ws)).
Proof.
  intros Hne Hws Hn Hs Ha Hsa [Hs1 Hs2]%Forall_app.
  assert (Hb : Forall (fun c => ldh_byte c \/ c = "."%char) (lower_byte <$> s)).
  { destruct Hs as [-> | ->]; [by apply join_ldh|].
    apply Forall_app; split; [by apply join_ldh|]. constructor; [by right|done]. }
  assert (Hns : Forall (fun c => space_byte c = false) s).
  { apply ldh_bytes_nospace, Forall_fmap in Hb.
    eapply Forall_impl; [exact Hb|]. intros c. apply lower_space. }
  apply Normalize_step; [|rewrite bs_sb; by apply ldh_name_join].
  rewrite TrimSpace_ascii.
  2:{ rewrite bs_sb. apply all_ascii_Forall. apply all_ascii_Forall in Ha, Hsa.
      apply Forall_app in Hsa as [??]. by repeat apply Forall_app_2. }
  rewrite bs_sb, trim_pad by done. rewrite ToLower_ascii by by rewrite bs_sb.
  rewrite bs_sb. change "." with (sb ["."%char]). destruct Hs as [-> | ->].
  - destruct (join_last ws Hne Hws) as (c & Hc & Hd & _). apply TrimSuffix_no. congruence.
  - apply TrimSuffix_snoc.
Qed.
Lemma NormalizeDomainName_complete_witness :
  @NormalizeDomainName ascii_tables no_idna (sb ([" "%char] ++ bs "ExAmple.COM." ++ []))
  = Ok (sb (join_bytes "."%char [bs "example"; bs "com"]),
        sb (join_bytes "."%char [bs "example"; bs "com"])).
Proof.
  apply (@NormalizeDomainName_complete ascii_tables no_idna).
  - discriminate.
  - apply Forall_forall. intros w Hw. rewrite <-(bs_sb w). apply ldh_label_iff.
    rewrite !elem_of_cons, elem_of_nil in Hw. by destruct Hw as [-> | [-> | []]].
  - vm_compute. lia.
  - right. vm_compute. reflexivity.
  - vm_compute. reflexivity.
  - vm_compute. reflexivity.
  - repeat constructor.
Defined.

(** Only one final dot is removed before validation while the validation
    tolerates one more: a valid name followed by two dots is accepted, and the
    LDH form handed to the storage still ends in a dot. *)
Theorem NormalizeDomainName_double_dot `{UnicodeTables} `{Idna} ws :
  ws <> [] -> Forall valid_label ws -> (length (join_bytes "."%char ws) <= 252)%nat ->
  let name := sb (join_bytes "."%char ws) in
  NormalizeDomainName (name +:+ "..") = Ok (name +:+ ".", name +:+ ".").
Proof.
  intros Hne Hws Hn name.
  assert (Hb : Forall (fun c => ldh_byte c \/ c = "."%char)
                 ((join_bytes "."%char ws ++ ["."%char]) ++ ["."%char])).
  { repeat (apply Forall_app; split); [by apply join_ldh|..]; by repeat constructor; right. }
  apply Normalize_step.
  - assert (E : name +:+ ".." = sb ((join_bytes "."%char ws ++ ["."%char]) ++ ["."%char])).
    { unfold name. apply (inj bs). by rewrite bs_app, !bs_sb, <-app_assoc. }
    rewrite E, TrimSpace_id, ToLower_id; rewrite ?bs_sb;
      auto using ldh_bytes_ascii, ldh_bytes_lower, ldh_bytes_nospace.
    change (sb ["."%char]) with ".".
    change "." with (sb ["."%char]) at 2. rewrite TrimSuffix_snoc.
    unfold name. apply (inj bs). by rewrite bs_app, !bs_sb.
  - unfold name. rewrite bs_app, bs_sb. split.
    + rewrite length_app. simpl. lia.
    + exists ws. split; [done|]. split; [done|]. by right.
Qed.
Lemma NormalizeDomainName_double_dot_witness :
  @NormalizeDomainName ascii_tables no_idna "example.com.." = Ok ("example.com.", "example.com.").
Proof.
  apply (@NormalizeDomainName_double_dot ascii_tables no_idna [bs "example"; bs "com"]).
  - discriminate.
  - apply Forall_forall. intros w Hw. rewrite <-(bs_sb w). apply ldh_label_iff.
    rewrite !elem_of_cons, elem_of_nil in Hw. by destruct Hw as [-> | [-> | []]].
  - vm_compute. lia.
Defined.

Lemma check_labels_ok labels :
  check_labels labels = Ok tt <-> Forall (fun l => 1 <= len l <= 63) labels.
Proof.
  induction labels as [|l ls IH]; simpl; [done|].
  rewrite Forall_cons. unfold len in *.
  destruct (Z.of_nat (length (bs l)) =? 0) eqn:E0; to_prop; [split; [done|lia]|].
  destruct (63 <? Z.of_nat (length (bs l))) eqn:E1; to_prop; [split; [done|lia]|].
  rewrite IH. intuition lia.
Qed.

(** [ValidateDomainName] accepts exactly the names of 1 to 253 bytes with at
    least two labels (an optional final dot aside), each of 1 to 63 bytes; so
    every LDH name of two labels passes it. *)
Theorem ValidateDomainName_spec name :
  (ValidateDomainName name = Ok tt <->
    1 <= len name <= 253 /\ (2 <= length (labels_of name))%nat
    /\ Forall (fun l => 1 <= len l <= 63) (labels_of name))
  /\ (ValidateLDHName name = true -> (2 <= length (labels_of name))%nat ->
      ValidateDomainName name = Ok tt).
Proof.
  assert (Hiff : ValidateDomainName name = Ok tt <->
    1 <= len name <= 253 /\ (2 <= length (labels_of name))%nat
    /\ Forall (fun l => 1 <= len l <= 63) (labels_of name)).
  { rewrite <-check_labels_ok. unfold ValidateDomainName.
    assert (0 <= len name) by (unfold len; lia).
    destruct (len name =? 0) eqn:E0; to_prop; [split; [done|lia]|].
    destruct (253 <? len name) eqn:E1; to_prop; [split; [done|lia]|].
    destruct (_ <? 2) eqn:E2; to_prop; [split; [done|lia]|].
    intuition lia. }
  split; [exact Hiff|]. intros Hv H2. apply Hiff.
  unfold ValidateLDHName in Hv. destruct (_ || _) eqn:E; [done|]. to_prop.
  assert (0 <= len name) by (unfold len; lia).
  split; [lia|]. split; [done|]. apply Forall_forall. intros l Hl.
  rewrite forallb_forall in Hv. apply list_elem_of_In, Hv, ldh_label_iff in Hl.
  destruct Hl as [Hl _ _ _]. unfold len. lia.
Qed.
Lemma ValidateDomainName_spec_witness : ValidateDomainName "example.com" = Ok tt.
Proof. apply (ValidateDomainName_spec "example.com"); vm_compute; [reflexivity|lia]. Defined.

Lemma add_extensions_spec seen conf ids :
  (forall x, x ∈ seen <-> x ∈ conf) ->
  exists new, add_extensions seen conf ids = conf ++ new
    /\ (forall x, x ∈ new <-> x ∈ ids /\ x <> "" /\ x ∉ conf)
    /\ NoDup new /\ new `sublist_of` ids.
Proof.
  revert seen conf. induction ids as [|i ids IH]; intros seen conf Hs; simpl.
  { exists []. rewrite app_nil_r. split_and!; [done| |constructor|done]. set_solver. }
  destruct (String.eqb i "") eqn:E0; to_prop; simpl.
  { destruct (IH seen conf Hs) as (new & -> & Hn & Hd & Hl). exists new.
    split_and!; [done| |done|by apply sublist_cons]. set_solver. }
  destruct (bool_decide (i ∈ seen)) eqn:E1; simpl.
  { apply bool_decide_eq_true in E1.
    destruct (IH seen conf Hs) as (new & -> & Hn & Hd & Hl). exists new.
    split_and!; [done| |done|by apply sublist_cons]. set_solver. }
  apply bool_decide_eq_false in E1.
  destruct (IH ({[i]} ∪ seen) (conf ++ [i])) as (new & -> & Hn & Hd & Hl).
  { intros x. rewrite elem_of_union, elem_of_singleton, elem_of_app, Hs. set_solver. }
  exists (i :: new). rewrite <-app_assoc. split_and!; [done| | |by apply sublist_skip].
  - intros x. rewrite elem_of_cons, Hn, elem_of_app. destruct (decide (x = i)); set_solver.
  - constructor; [|done]. rewrite Hn. set_solver.
Qed.

(** C40: [WithExtensions] keeps the conformance array as a prefix, appends exactly
    the given non-empty identifiers that were not in it, each once and in the order
    given, and so never introduces a duplicate. *)
Theorem WithExtensions_spec c ids :
  exists new,
    rdap.conf_ids (WithExtensions c ids) = rdap.conf_ids c ++ new
    /\ (forall x, x ∈ new <-> x ∈ ids /\ x <> "" /\ x ∉ rdap.conf_ids c)
    /\ NoDup new /\ new `sublist_of` ids
    /\ (NoDup (rdap.conf_ids c) -> NoDup (rdap.conf_ids (WithExtensions c ids))).
Proof.
  destruct (add_extensions_spec (list_to_set (rdap.conf_ids c)) (rdap.conf_ids c) ids)
    as (new & E & Hn & Hd & Hl); [intros x; apply elem_of_list_to_set|].
  exists new. unfold WithExtensions. simpl. rewrite E. split_and!; [done..|].
  intros Hc. apply NoDup_app. split; [done|].
  split; [|done]. intros x Hx Hx'. by apply Hn in Hx' as (_ & _ & ?).
Qed.
Lemma WithExtensions_spec_witness :
  NoDup (rdap.conf_ids (WithExtensions NewConformance2024 ["ttl0"; "ttl0"])).
Proof.
  destruct (WithExtensions_spec NewConformance2024 ["ttl0"; "ttl0"]) as (n & _ & _ & _ & _ & H).
  apply H. vm_compute. apply (bool_decide_unpack (NoDup _)). vm_compute. exact I.
Defined.

(** The ICANN-mandated notices are in every response whatever the
    customisation, custom notices only come after them, and every notice carries
    exactly one link, whose value is the request URL and whose target and
    relation are set. *)
Theorem NewNoticesWithICANN_spec requestURL baseURL opts :
  let notices := NewNoticesWithICANN requestURL baseURL opts in
  notices !! 2%nat = Some (status_codes_notice requestURL)
  /\ notices !! 3%nat = Some (inaccuracy_notice requestURL)
  /\ length notices = (4 + match opts with Some o => length (Custom o) | None => 0 end)%nat
  /\ Forall (fun n => exists l, rdap.n_Links n = [l] /\ rdap.l_Value l = requestURL
       /\ rdap.l_Href l <> "" /\ rdap.l_Rel l <> "") notices.
Proof.
  assert (Hh : baseURL +:+ "/help" <> "").
  { intros E. apply (f_equal bs) in E. rewrite bs_app in E. by destruct (bs baseURL). }
  simpl. split; [done|]. split; [done|]. split.
  { destruct opts as [o|]; simpl; [by rewrite length_fmap|done]. }
  constructor; [|constructor; [|constructor; [|constructor]]].
  - eexists. split; [reflexivity|]. simpl. split; [done|]. split; [|done].
    destruct opts as [o|]; [|done]. destruct (String.eqb (ToSURL o) "") eqn:E; to_prop; done.
  - eexists. split; [reflexivity|]. done.
  - eexists. split; [reflexivity|]. done.
  - eexists. split; [reflexivity|]. done.
  - destruct opts as [o|]; simpl; [|done]. apply Forall_fmap, Forall_true. intros c.
    eexists. split; [reflexivity|]. simpl. split; [done|].
    destruct (String.eqb (cn_URL c) "") eqn:E1, (String.eqb (cn_Rel c) "") eqn:E2;
      to_prop; done.
Qed.

(** [FormatTime] gives the empty string exactly for the zero time, and for any
    other instant of the years 0 to 9999 an RFC 3339 text that determines it up to
    the second. *)
Theorem FormatTime_spec t :
  0 <= c_year (civil_of_days (t_sec t / 86400)) < 10000 ->
  (FormatTime t = "" <-> IsZero t = true)
  /\ (IsZero t = false -> parse_rfc3339 (FormatTime t) = Some (t_sec t)).
Proof.
  intros Hy. pose proof (parse_format_rfc3339 t Hy) as Hp. unfold FormatTime.
  destruct (IsZero t) eqn:E; [done|]. split; [|done]. split; [|done].
  intros E'. by rewrite E' in Hp.
Qed.
Lemma FormatTime_spec_witness :
  parse_rfc3339 (FormatTime (mkTime 63891244800 0)) = Some 63891244800.
Proof. apply (FormatTime_spec (mkTime 63891244800 0)); vm_compute; repeat split; discriminate. Defined.

#[export] Hint Resolve ValidateLDHName_ldh_name : go.
