(* ===== verification/GoRegexp.v ===== *)
(** * Regular expressions

    The program only compiles anchored glob translations, so the [regexp]
    package is an interface: an abstract engine ([RegexpEngine]) together with
    the documented meaning of the expressions made of literal characters,
    escaped dots, [.*] and optional characters ([RegexpSpec]).  [glob_engine]
    implements the interface and is proved to satisfy it. *)

From stdpp Require Import base tactics option list strings.
From Stdlib Require Import ZArith Lia Ascii.
From S2P Require Import Prelude GoStrings.
#[local] Open Scope Z_scope.

(** ** The interface *)

Class RegexpEngine := {
  regexp : Type;
  regexp_Compile : string -> result regexp;
  regexp_MatchString : regexp -> string -> bool
}.

(** Items of an expression: a literal character, any run of characters, or an
    optional character. *)
Inductive tok : Type :=
  | TChar (c : ascii)
  | TAny
  | TOpt (c : ascii).

#[export] Instance tok_eq_dec : EqDecision tok.
Proof. solve_decision. Defined.

Definition newline : ascii := Ascii.ascii_of_nat 10.
Definition bslash : ascii := Ascii.ascii_of_nat 92.
Definition metachars : list ascii := bslash :: bs ".+*?()|[]{}^$".
(** An ASCII character that stands for itself in an expression. *)
Definition plain (c : ascii) : bool :=
  is_ascii_byte c && negb (bool_decide (c ∈ metachars)).
Definition tok_ok (t : tok) : Prop :=
  match t with
  | TChar c | TOpt c => plain c = true \/ c = "."%char
  | TAny => True
  end.

Definition render_char (c : ascii) : list ascii :=
  if bool_decide (c = "."%char) then [bslash; c] else [c].
Definition render_tok (t : tok) : list ascii :=
  match t with
  | TChar c => render_char c
  | TAny => ["."%char; "*"%char]
  | TOpt c => render_char c ++ ["?"%char]
  end.
Definition render (ts : list tok) : list ascii := concat (render_tok <$> ts).
Definition anchored (l : list ascii) : string := sb ("^"%char :: l ++ ["$"%char]).

(** Whether the items match a whole text; [.] matches any character but a
    newline. *)
Fixpoint tok_match (ts : list tok) (l : list ascii) : bool :=
  match ts with
  | [] => bool_decide (l = [])
  | TChar c :: ts' =>
      match l with x :: l' => bool_decide (x = c) && tok_match ts' l' | [] => false end
  | TOpt c :: ts' =>
      tok_match ts' l
      || match l with x :: l' => bool_decide (x = c) && tok_match ts' l' | [] => false end
  | TAny :: ts' =>
      (fix any (l : list ascii) : bool :=
         tok_match ts' l
         || match l with
            | x :: l' => negb (bool_decide (x = newline)) && any l'
            | [] => false
            end) l
  end.

(** The documented behaviour of the engine on those expressions. *)
Class RegexpSpec (E : RegexpEngine) : Prop := {
  regexp_items : forall ts, Forall tok_ok ts ->
    exists re, regexp_Compile (anchored (render ts)) = Ok re
      /\ forall s, all_ascii (bs s) = true -> regexp_MatchString re s = tok_match ts (bs s)
}.

(** ** An engine for those expressions *)

Definition opt_or_char (c : ascii) (l : list ascii) (k : list ascii -> option (list tok))
    : option (list tok) :=
  match l with
  | q :: l' => if bool_decide (q = "?"%char)
               then ts ← k l'; Some (TOpt c :: ts)
               else ts ← k l; Some (TChar c :: ts)
  | [] => ts ← k []; Some [TChar c]
  end.
(** A reader of the items; the fuel is the length of the text. *)
Fixpoint parse_items (fuel : nat) (l : list ascii) : option (list tok) :=
  match l with
  | [] => Some []
  | c :: l' =>
      match fuel with
      | O => None
      | S fuel =>
          if bool_decide (c = bslash) then
            match l' with
            | d :: l'' => if bool_decide (d = "."%char)
                          then opt_or_char d l'' (parse_items fuel) else None
            | [] => None
            end
          else if bool_decide (c = "."%char) then
            match l' with
            | d :: l'' => if bool_decide (d = "*"%char)
                          then ts ← parse_items fuel l''; Some (TAny :: ts) else None
            | [] => None
            end
          else if plain c then opt_or_char c l' (parse_items fuel)
          else None
      end
  end.

Definition glob_Compile (s : string) : result (list tok) :=
  match bs s with
  | c :: l =>
      if bool_decide (c = "^"%char) && bool_decide (last l = Some "$"%char) then
        match parse_items (length l) (take (length l - 1) l) with
        | Some ts => Ok ts
        | None => Err (ErrText "error parsing regexp")
        end
      else Err (ErrText "error parsing regexp")
  | [] => Err (ErrText "error parsing regexp")
  end.
Definition glob_engine : RegexpEngine := {|
  regexp := list tok;
  regexp_Compile := glob_Compile;
  regexp_MatchString ts s := tok_match ts (bs s)
|}.

(** ** Lemmas *)

Lemma tok_match_any ts l :
  tok_match (TAny :: ts) l
  = tok_match ts l
    || match l with
       | x :: l' => negb (bool_decide (x = newline)) && tok_match (TAny :: ts) l'
       | [] => false
       end.
Proof. by destruct l. Qed.

(** A run of characters without newline in front of a match. *)
Lemma tok_match_any_iff ts l :
  tok_match (TAny :: ts) l = true
  <-> exists l1 l2, l = l1 ++ l2 /\ (newline ∉ l1) /\ tok_match ts l2 = true.
Proof.
  split.
  - induction l as [|x l IH]; rewrite tok_match_any, orb_true_iff.
    + intros [H|H]; [|done]. exists [], []. split; [done|]. split; [apply not_elem_of_nil|done].
    + intros [H|H].
      * exists [], (x :: l). split; [done|]. split; [apply not_elem_of_nil|done].
      * to_prop. apply bool_decide_eq_false in H.
        apply IH in H0 as (l1 & l2 & -> & Hn & Hm). exists (x :: l1), l2.
        split; [done|]. split; [by apply not_elem_of_cons|done].
  - intros (l1 & l2 & -> & Hn & Hm). induction l1 as [|x l1 IH]; simpl app.
    + rewrite tok_match_any, Hm. done.
    + apply not_elem_of_cons in Hn as [Hx Hn]. rewrite tok_match_any, IH by done.
      rewrite bool_decide_eq_false_2 by congruence. by rewrite orb_true_r.
Qed.
Lemma tok_match_char_iff c ts l :
  tok_match (TChar c :: ts) l = true
  <-> exists l', l = c :: l' /\ tok_match ts l' = true.
Proof.
  simpl. destruct l as [|x l]; [split; [done|naive_solver]|].
  rewrite andb_true_iff, bool_decide_eq_true. naive_solver.
Qed.
Lemma tok_match_chars cs ts l :
  tok_match ((TChar <$> cs) ++ ts) l = true
  <-> exists l', l = cs ++ l' /\ tok_match ts l' = true.
Proof.
  revert l. induction cs as [|c cs IH]; intros l.
  - simpl. naive_solver.
  - rewrite fmap_cons, <-app_comm_cons, tok_match_char_iff. setoid_rewrite IH. naive_solver.
Qed.

Lemma plain_not c :
  plain c = true ->
  c <> bslash /\ c <> "."%char /\ c <> "?"%char /\ c <> "*"%char /\ is_ascii_byte c = true.
Proof.
  unfold plain. intros H. to_prop. apply bool_decide_eq_false in H0.
  split_and!; try done; intros ->; apply H0; by apply (bool_decide_unpack _).
Qed.

Lemma render_tok_no_q t ts :
  Forall tok_ok (t :: ts) -> head (render (t :: ts)) <> Some "?"%char.
Proof.
  intros [Ht _]%Forall_cons. unfold render. simpl.
  destruct t as [c| |c]; simpl in *; try done.
  all: unfold render_char; case_bool_decide as Hc; [done|];
    destruct Ht as [Hp| ->]; [|done]; apply plain_not in Hp; simpl; naive_solver.
Qed.
Lemma render_no_q ts : Forall tok_ok ts -> head (render ts) <> Some "?"%char.
Proof. destruct ts; [done|apply render_tok_no_q]. Qed.
Lemma render_tok_length t : (1 <= length (render_tok t))%nat.
Proof. destruct t; simpl; unfold render_char; try case_bool_decide; simpl; lia. Qed.

Lemma opt_or_char_TChar c l k :
  head l <> Some "?"%char ->
  opt_or_char c l k = (k l ≫= fun ts => Some (TChar c :: ts)) \/ l = [].
Proof.
  destruct l as [|q l]; [by right|]. intros Hq. left. simpl.
  rewrite bool_decide_eq_false_2; [done|]. simpl in Hq. congruence.
Qed.

(** Reading back a rendering gives the items. *)
Lemma parse_render ts fuel :
  Forall tok_ok ts -> (length (render ts) <= fuel)%nat -> parse_items fuel (render ts) = Some ts.
Proof.
  intros Hok. revert fuel. induction Hok as [|t ts Ht Hok IH]; intros fuel Hf; [by destruct fuel|].
  pose proof (render_tok_length t) as Hl.
  change (render (t :: ts)) with (render_tok t ++ render ts) in *.
  rewrite length_app in Hf. destruct fuel as [|fuel]; [lia|].
  assert (IH' : parse_items fuel (render ts) = Some ts) by (apply IH; lia).
  pose proof (render_no_q ts Hok) as Hq.
  assert (Hend : forall c, opt_or_char c (render ts) (parse_items fuel) = Some (TChar c :: ts)).
  { intros c. destruct (opt_or_char_TChar c (render ts) (parse_items fuel) Hq) as [-> | E].
    - by rewrite IH'.
    - rewrite E in IH' |- *. simpl. rewrite IH'. simpl. destruct fuel; simpl in IH'; by simplify_eq. }
  destruct t as [c| |c]; simpl in Ht |- *; unfold render_char.
  - case_bool_decide as Hc; [subst; simpl; by rewrite Hend|].
    destruct Ht as [Hp| ->]; [|done]. pose proof (plain_not c Hp) as (H1 & H2 & _).
    simpl. by rewrite !bool_decide_eq_false_2, Hp, Hend by done.
  - by rewrite IH'.
  - case_bool_decide as Hc; [subst; simpl; by rewrite IH'|].
    destruct Ht as [Hp| ->]; [|done]. pose proof (plain_not c Hp) as (H1 & H2 & _).
    simpl. by rewrite !bool_decide_eq_false_2, Hp, IH' by done.
Qed.

#[export] Instance glob_engine_spec : RegexpSpec glob_engine.
Proof.
  split. intros ts Hok. exists ts. split; [|done]. simpl. unfold glob_Compile, anchored.
  rewrite bs_sb. rewrite last_snoc. simpl.
  rewrite length_app. simpl. rewrite take_app_le by lia.
  replace (length (render ts) + 1 - 1)%nat with (length (render ts)) by lia.
  rewrite firstn_all. by rewrite parse_render by (done || lia).
Qed.
