(* ===== verification/Store.v ===== *)
(** * The storage boundary (internal/store/store.go)

    [Interface] is the record of operations the service, the handlers and the
    WHOIS server call; [StoreSpec] is what they may rely on; [New] selects an
    adapter. *)

From stdpp Require Import base tactics option list gmap strings.
From Stdlib Require Import ZArith Lia.
From S2P Require Import Prelude GoStrings Config Domain.
#[local] Open Scope Z_scope.

Module store.

Definition ErrReverseSearchUnsupported : string :=
  "reverse search not supported by this storage backend".

Record Interface := {
  LookupDomain : string -> result domain.Domain;
  GetDomainAggregate : string -> result domain.DomainAggregate;
  LookupContact : string -> result domain.Contact;
  LookupNameserver : string -> result domain.NameServer;
  LookupIPNetwork : string -> result domain.IPNetwork;
  LookupAutnum : Z -> result domain.Autnum;
  SearchDomainsByName : string -> Z -> result (list domain.Domain);
  SearchDomainsByNS : string -> Z -> result (list domain.Domain);
  SearchContactsByName : string -> Z -> result (list domain.Contact);
  SearchContactsByHandle : string -> Z -> result (list domain.Contact);
  SearchNameserversByName : string -> Z -> result (list domain.NameServer);
  SearchNameserversByIP : string -> Z -> result (list domain.NameServer);
  ReverseSearchDomainsByEntity : string -> string -> Z -> result (list domain.Domain);
  Ping : result unit;
  Close : result unit
}.

(** [store.New]: the three constructors are the adapters'. *)
Definition New (NewMemoryStore NewPostgresStore NewMySQLStore :
      config.StorageConfig -> result Interface) (cfg : config.StorageConfig)
    : result Interface :=
  if String.eqb (config.Driver cfg) "memory" then NewMemoryStore cfg
  else if String.eqb (config.Driver cfg) "postgres" then NewPostgresStore cfg
  else if String.eqb (config.Driver cfg) "mysql" then NewMySQLStore cfg
  else Err (ErrText ("unsupported storage driver: " +:+ config.Driver cfg)).

(** ** What an adapter promises *)

(** A result list never exceeds a positive limit. *)
Definition bounded {A} (f : Z -> result (list A)) : Prop :=
  forall limit l, 0 < limit -> f limit = Ok l -> Z.of_nat (length l) <= limit.

(** The aggregate is coherent with the single-object lookups: its registrar and
    its contacts are the ones [LookupContact] finds. *)
Record coherent (s : Interface) (name : string) (agg : domain.DomainAggregate) : Prop := {
  coherent_domain : LookupDomain s name = Ok (domain.agg_Domain agg);
  coherent_registrar : forall c,
    domain.agg_Registrar agg = Some c
    <-> LookupContact s (domain.Registrar (domain.agg_Domain agg)) = Ok c;
  coherent_contacts : forall h c,
    domain.agg_Contacts agg !! h = Some c -> LookupContact s h = Ok c;
  coherent_roles : forall role hs h c,
    domain.Contacts (domain.agg_Domain agg) !! role = Some hs -> h ∈ hs ->
    LookupContact s h = Ok c -> domain.agg_Contacts agg !! h = Some c
}.

Class StoreSpec (s : Interface) : Prop := {
  spec_coherent : forall name agg, GetDomainAggregate s name = Ok agg -> coherent s name agg;
  spec_found : forall name d, LookupDomain s name = Ok d ->
    exists agg, GetDomainAggregate s name = Ok agg;
  spec_domains : forall p, bounded (SearchDomainsByName s p);
  spec_domains_ns : forall p, bounded (SearchDomainsByNS s p);
  spec_contacts : forall p, bounded (SearchContactsByName s p);
  spec_contacts_handle : forall p, bounded (SearchContactsByHandle s p);
  spec_nameservers : forall p, bounded (SearchNameserversByName s p);
  spec_nameservers_ip : forall p, bounded (SearchNameserversByIP s p);
  spec_reverse : forall prop p, bounded (ReverseSearchDomainsByEntity s prop p)
}.

(** ** Lemmas *)

Lemma bounded_search_loop {A} (p : A -> bool) xs :
  bounded (fun limit => Ok (search_loop p limit [] xs)).
Proof. intros limit l Hl [= <-]. by apply search_loop_bound. Qed.
Lemma bounded_bind {A B} (r : result B) (f : B -> Z -> result (list A)) :
  (forall b, bounded (f b)) -> bounded (fun limit => r ≫= fun b => f b limit).
Proof. intros Hf limit l Hl. destruct r as [b|]; [by apply Hf|done]. Qed.
#[export] Hint Resolve bounded_search_loop bounded_bind : go.

End store.
