(* ===== verification/MemoryStore.v ===== *)
(** * The in-memory adapter (internal/store/memory.go)

    The maps of the store, its seed data, the lookups, the searches and the
    reverse search, with the glob compiler.  Every loop over a map is a loop
    over [map_range], so each theorem holds for every iteration order. *)

From stdpp Require Import base tactics option list gmap strings pretty.
From Stdlib Require Import ZArith Lia Ascii.
From S2P Require Import Prelude GoStrings GoTime Config Domain GoRegexp Store.
#[local] Open Scope Z_scope.

Module memory.

(** [MemoryStore] without its lock, which no operation of the model can be
    interrupted under. *)
Record MemoryStore := mkMemoryStore {
  domains : gmap string domain.Domain;
  contacts : gmap string domain.Contact;
  nameservers : gmap string domain.NameServer;
  ipNetworks : gmap string domain.IPNetwork;
  autnums : gmap Z domain.Autnum;
  domainByNS : gmap string (list string);
  domainByEntity : gmap string (list string);
  cacheTTL : Z;
  seeded : bool
}.

(** ** Seed data *)

Definition seed_metadata (now : Time) : domain.Metadata :=
  domain.mkMetadata 1 (time_Add now (-365 * 24 * hour)) now "" "seed" [] [].
Definition active : list domain.Status := [domain.status_of "active"].
Definition no_metadata : domain.Metadata :=
  domain.mkMetadata 0 zero_time zero_time "" "" [] [].

Definition seed_abuse : domain.Contact :=
  domain.mkContact "ABUSE-NAME" [domain.RoleAbuse] active
    (Some (domain.mkVCard "4.0" "Abuse Contact" "" "" None "tel:+1-555-123-4567" ""
             "abuse@example.com" "")) [] "" "" "" [] no_metadata.
Definition seed_registrar_card : domain.VCard :=
  domain.mkVCard "4.0" "Example Registrar Inc." "org" "Example Registrar Inc."
    (Some (domain.mkVCardAddress "US" "" "" "123 Maple Ave" "Los Angeles" "CA" "90210" ""))
    "" "" "" "".
Definition seed_registrar (now : Time) : domain.Contact :=
  domain.mkContact "2" [domain.RoleRegistrar] active (Some seed_registrar_card)
    [domain.mkPublicID "IANA Registrar ID" "2"] "" "2" "https://rdap.example.org/rdap/"
    [seed_abuse] (seed_metadata now).
Definition seed_technical (now : Time) : domain.Contact :=
  domain.mkContact "888" [domain.RoleTechnical] active
    (Some (domain.mkVCard "4.0" "Example Technical Contact" "" "" None "" ""
             "tech@example.com" "")) [] "" "" "" [] (seed_metadata now).
Definition seed_registrant (now : Time) : domain.Contact :=
  domain.mkContact "REG1-NAME" [domain.RoleRegistrant] active
    (Some (domain.mkVCard "4.0" "Example Registrant" "individual" "Example Organization"
             (Some (domain.mkVCardAddress "US" "" "" "123 Elm Street" "Springfield" "IL"
                      "62701" "")) "tel:+1-217-555-0132" "" "registrant@example.com" ""))
    [] "" "" "" [] (seed_metadata now).
Definition seed_ns1 (now : Time) : domain.NameServer :=
  domain.mkNameServer "NS1-NAME" "ns1.example.com" "ns1.example.com" ["8.8.8.8"]
    ["2001:4860:4860::8888"] [domain.status_of "associated"] (seed_metadata now).
Definition seed_ns2 (now : Time) : domain.NameServer :=
  domain.mkNameServer "NS2-NAME" "ns2.example.com" "ns2.example.com" ["1.1.1.1"]
    ["2606:4700:4700::1111"] [domain.status_of "associated"] (seed_metadata now).
Definition seed_domain (now : Time) : domain.Domain :=
  domain.mkDomain "EX1-NAME" "example.com" "example.com" "com" active
    (time_Add now (365 * 24 * hour))
    (<[domain.RoleRegistrant := ["REG1-NAME"]]> (<[domain.RoleTechnical := ["888"]]>
       (<[domain.RoleRegistrar := ["2"]]> ∅)))
    [seed_ns1 now; seed_ns2 now]
    (Some (domain.mkSecureDNS false false None [] [])) "2" (seed_metadata now).
Definition seed_network (now : Time) : domain.IPNetwork :=
  domain.mkIPNetwork "NET-8-8-8-0-24" "8.8.8.0" "8.8.8.255" "v4" ["8.8.8.0/24"] "GOOGLE"
    "ALLOCATED" "US" active "" (seed_metadata now).
Definition seed_autnum (now : Time) : domain.Autnum :=
  domain.mkAutnum "AS15169" 15169 15169 "GOOGLE" "DIRECT ALLOCATION" "US" active
    (seed_metadata now).

(** [m[k] = append(m[k], v)] *)
Definition append_to (k v : string) (m : gmap string (list string)) : gmap string (list string) :=
  <[k := default [] (m !! k) ++ [v]]> m.

Definition seed (now : Time) (s : MemoryStore) : MemoryStore :=
  if seeded s then s
  else mkMemoryStore
    (<["example.com" := seed_domain now]> (domains s))
    (<["REG1-NAME" := seed_registrant now]> (<["888" := seed_technical now]>
       (<["2" := seed_registrar now]> (contacts s))))
    (<["NS2-NAME" := seed_ns2 now]> (<["NS1-NAME" := seed_ns1 now]> (nameservers s)))
    (<["8.8.8.0/24" := seed_network now]> (ipNetworks s))
    (<[15169 := seed_autnum now]> (autnums s))
    (append_to "ns2.example.com" "example.com"
       (append_to "ns1.example.com" "example.com" (domainByNS s)))
    (append_to "REG1-NAME" "example.com" (domainByEntity s))
    (cacheTTL s) true.

(** [time.ParseDuration] is a parameter: only the TTL, which no operation
    reads, depends on it. *)
Definition NewMemoryStore (ParseDuration : string -> result Z) (now : Time)
    (cfg : config.StorageConfig) : MemoryStore :=
  let ttl :=
    if String.eqb (config.CacheTTL cfg) "" then 5 * minute
    else match ParseDuration (config.CacheTTL cfg) with
         | Ok parsed => parsed
         | Err _ => 5 * minute
         end in
  seed now (mkMemoryStore ∅ ∅ ∅ ∅ ∅ ∅ ∅ ttl false).

(** ** The glob compiler *)

Definition compileGlob `{RegexpEngine} (pattern : string) : result regexp :=
  let reStr := "^" +:+ Strings.ReplaceAll (Strings.ReplaceAll pattern "." "\.") "*" ".*"
               +:+ "$" in
  match regexp_Compile reStr with
  | Ok re => Ok re
  | Err err => Err (ErrWrap "invalid pattern: " err)
  end.

(** ** Lookups *)

Section operations.
Context `{UnicodeTables} `{MapRange} `{RegexpEngine}.
Implicit Types s : MemoryStore.

Definition lookup_name (name : string) : string :=
  Strings.ToLower (Strings.TrimSuffix name ".").

Definition LookupDomain s (name : string) : result domain.Domain :=
  let name := lookup_name name in
  match domains s !! name with
  | Some record => Ok record
  | None => Err (ErrText ("domain not found: " +:+ name))
  end.

(** [for _, h := range handles { if c, ok := contacts[h]; ok { acc[h] = c } }] *)
Fixpoint add_resolved {A} (m : gmap string A) (acc : gmap string A) (keys : list string)
    : gmap string A :=
  match keys with
  | [] => acc
  | k :: keys =>
      add_resolved m (match m !! k with Some c => <[k := c]> acc | None => acc end) keys
  end.
(** The loop over the roles of a domain and their handles. *)
Fixpoint add_roles {A} (m : gmap string A) (acc : gmap string A)
    (roles : list (string * list string)) : gmap string A :=
  match roles with
  | [] => acc
  | (_, handles) :: roles => add_roles m (add_resolved m acc handles) roles
  end.

Definition GetDomainAggregate s (name : string) : result domain.DomainAggregate :=
  let name := lookup_name name in
  match domains s !! name with
  | None => Err (ErrText ("domain not found: " +:+ name))
  | Some d =>
      let reg := contacts s !! domain.Registrar d in
      let acc := match reg with Some c => {[domain.Registrar d := c]} | None => ∅ end in
      Ok (domain.mkDomainAggregate d reg
            (add_roles (contacts s) acc (map_range (domain.Contacts d)))
            (add_resolved (nameservers s) ∅
               (domain.ns_Handle <$> domain.Nameservers d)))
  end.

Definition LookupContact s (handle : string) : result domain.Contact :=
  match contacts s !! handle with
  | Some record => Ok record
  | None => Err (ErrText ("entity not found: " +:+ handle))
  end.

Definition names_nameserver (name : string) (n : domain.NameServer) : bool :=
  Strings.EqualFold (domain.ns_LDHName n) name || Strings.EqualFold (domain.ns_UnicodeName n) name.
Definition LookupNameserver s (name : string) : result domain.NameServer :=
  let name := lookup_name name in
  match List.find (names_nameserver name) (map_range (nameservers s)).*2 with
  | Some record => Ok record
  | None => Err (ErrText ("nameserver not found: " +:+ name))
  end.

Definition LookupIPNetwork s (cidr : string) : result domain.IPNetwork :=
  match ipNetworks s !! cidr with
  | Some record => Ok record
  | None => Err (ErrText ("IP network not found: " +:+ cidr))
  end.

Definition LookupAutnum s (asn : Z) : result domain.Autnum :=
  match autnums s !! asn with
  | Some record => Ok record
  | None => Err (ErrText ("autnum not found: " +:+ Strconv.Itoa asn))
  end.

(** ** Searches *)

Definition SearchDomainsByName s (pattern : string) (limit : Z)
    : result (list domain.Domain) :=
  let pattern := Strings.ToLower pattern in
  let pattern := Strings.ReplaceAll pattern "*" ".*" in
  let pattern := Strings.ReplaceAll pattern "?" "." in
  re ← compileGlob pattern;
  Ok (search_loop (fun d => regexp_MatchString re (domain.LDHName d)) limit []
        (map_range (domains s)).*2).

(** The loop of [SearchDomainsByNS], which skips names without a domain. *)
Fixpoint by_name_loop (m : gmap string domain.Domain) (limit : Z)
    (acc : list domain.Domain) (names : list string) : list domain.Domain :=
  match names with
  | [] => acc
  | dn :: names =>
      match m !! dn with
      | Some d =>
          let acc := acc ++ [d] in
          if (0 <? limit) && (limit <=? Z.of_nat (length acc)) then acc
          else by_name_loop m limit acc names
      | None => by_name_loop m limit acc names
      end
  end.
Definition SearchDomainsByNS s (nsName : string) (limit : Z) : result (list domain.Domain) :=
  let nsName := Strings.ToLower nsName in
  match domainByNS s !! nsName with
  | None => Ok []
  | Some domainNames => Ok (by_name_loop (domains s) limit [] domainNames)
  end.

Definition SearchContactsByName s (pattern : string) (limit : Z)
    : result (list domain.Contact) :=
  re ← compileGlob (Strings.ToLower pattern);
  Ok (search_loop (fun e => regexp_MatchString re (Strings.ToLower (domain.ct_Handle e)))
        limit [] (map_range (contacts s)).*2).

Definition SearchContactsByHandle s (pattern : string) (limit : Z)
    : result (list domain.Contact) := SearchContactsByName s pattern limit.

Definition SearchNameserversByName s (pattern : string) (limit : Z)
    : result (list domain.NameServer) :=
  re ← compileGlob (Strings.ToLower pattern);
  Ok (search_loop (fun n => regexp_MatchString re (domain.ns_LDHName n)) limit []
        (map_range (nameservers s)).*2).

(** The loop of [SearchNameserversByIP]: an address listed under both families
    appends the server twice, the limit being tested after each append. *)
Fixpoint by_ip_loop (ip : string) (limit : Z) (acc xs : list domain.NameServer)
    : list domain.NameServer :=
  match xs with
  | [] => acc
  | n :: xs =>
      let full acc := (0 <? limit) && (limit <=? Z.of_nat (length acc)) in
      let acc := if existsb (String.eqb ip) (domain.IPV4 n) then acc ++ [n] else acc in
      if full acc then acc
      else
        let acc := if existsb (String.eqb ip) (domain.IPV6 n) then acc ++ [n] else acc in
        if full acc then acc else by_ip_loop ip limit acc xs
  end.
Definition SearchNameserversByIP s (ip : string) (limit : Z)
    : result (list domain.NameServer) :=
  Ok (by_ip_loop ip limit [] (map_range (nameservers s)).*2).

(** ** Reverse search *)

(** The set of handles of a domain: its registrar and its contacts. *)
Definition associated (d : domain.Domain) : gmap string bool :=
  let handles := if String.eqb (domain.Registrar d) "" then ∅
                 else {[domain.Registrar d := true]} in
  foldl (fun acc hs => foldl (fun acc h => <[h := true]> acc) acc hs) handles
    (map_range (domain.Contacts d)).*2.
(** The test of one contact, by property. *)
Definition contact_matches (re : regexp) (property handle : string) (c : domain.Contact)
    : bool :=
  let vcard f := match domain.ct_VCard c with
                 | Some v => regexp_MatchString re (Strings.ToLower (f v))
                 | None => false
                 end in
  if String.eqb property "role" then
    existsb (fun r => regexp_MatchString re (Strings.ToLower r)) (domain.Roles c)
  else if String.eqb property "handle" then
    regexp_MatchString re (Strings.ToLower handle)
  else if String.eqb property "fn" then vcard domain.FullName
  else if String.eqb property "email" then vcard domain.Email
  else false.
Definition domainMatchesEntity s (d : domain.Domain) (property : string) (re : regexp)
    : bool :=
  existsb (fun handle => match contacts s !! handle with
                         | Some c => contact_matches re property handle c
                         | None => false
                         end) (map_range (associated d)).*1.

Definition ReverseSearchDomainsByEntity s (property pattern : string) (limit : Z)
    : result (list domain.Domain) :=
  match compileGlob (Strings.ToLower pattern) with
  | Err err => Err (ErrWrap "invalid pattern: " err)
  | Ok re => Ok (search_loop (fun d => domainMatchesEntity s d property re) limit []
                   (map_range (domains s)).*2)
  end.

Definition Ping s : result unit := Ok tt.
Definition Close s : result unit := Ok tt.

(** [MemoryStore] as a [store.Interface] *)
Definition interface s : store.Interface := {|
  store.LookupDomain := LookupDomain s;
  store.GetDomainAggregate := GetDomainAggregate s;
  store.LookupContact := LookupContact s;
  store.LookupNameserver := LookupNameserver s;
  store.LookupIPNetwork := LookupIPNetwork s;
  store.LookupAutnum := LookupAutnum s;
  store.SearchDomainsByName := SearchDomainsByName s;
  store.SearchDomainsByNS := SearchDomainsByNS s;
  store.SearchContactsByName := SearchContactsByName s;
  store.SearchContactsByHandle := SearchContactsByHandle s;
  store.SearchNameserversByName := SearchNameserversByName s;
  store.SearchNameserversByIP := SearchNameserversByIP s;
  store.ReverseSearchDomainsByEntity := ReverseSearchDomainsByEntity s;
  store.Ping := Ping s;
  store.Close := Close s
|}.

End operations.

(** ** Specifications *)

(** The meaning of a glob: [*] is any run of characters without a newline,
    every other character stands for itself. *)
Inductive glob : list ascii -> list ascii -> Prop :=
  | glob_nil : glob [] []
  | glob_char c p l : c <> "*"%char -> glob p l -> glob (c :: p) (c :: l)
  | glob_star p l1 l2 : newline ∉ l1 -> glob p l2 -> glob ("*"%char :: p) (l1 ++ l2).

(** What the wildcards of a domain search become before the glob compiler. *)
Definition domain_glob (p : list ascii) : list ascii :=
  p ≫= fun c => if bool_decide (c = "*"%char) then ["."%char; "*"%char]
               else if bool_decide (c = "?"%char) then ["."%char] else [c].

(** Patterns of characters without a meaning of their own in expressions. *)
Definition glob_pattern (p : list ascii) : Prop :=
  Forall (fun c => plain c = true \/ c = "."%char \/ c = "*"%char) p.

(** The values of a contact a reverse-search property ranges over. *)
Inductive property_value (c : domain.Contact) (h : string) : string -> string -> Prop :=
  | value_role r : r ∈ domain.Roles c -> property_value c h "role" r
  | value_handle : property_value c h "handle" h
  | value_fn v : domain.ct_VCard c = Some v -> property_value c h "fn" (domain.FullName v)
  | value_email v : domain.ct_VCard c = Some v -> property_value c h "email" (domain.Email v).

(** A handle a domain refers to. *)
Definition refers_to (d : domain.Domain) (h : string) : Prop :=
  (h = domain.Registrar d /\ h <> "")
  \/ exists role hs, domain.Contacts d !! role = Some hs /\ h ∈ hs.

(** What a search over a map answers: stored objects that match, each at most
    once, no more than a positive limit, and all of them when there is no limit or
    it is not reached. *)
Record searched {A} (m : gmap string A) (matching : A -> Prop) (limit : Z) (xs : list A) : Prop := {
  searched_once : xs ⊆+ (map_to_list m).*2;
  searched_match : forall x, x ∈ xs -> matching x;
  searched_bound : 0 < limit -> Z.of_nat (length xs) <= limit;
  searched_all : limit <= 0 \/ Z.of_nat (length xs) < limit ->
    forall k x, m !! k = Some x -> matching x -> x ∈ xs
}.

(** The invariant of a store: keys agree with the objects and every reference
    resolves. *)
Record wf (s : MemoryStore) : Prop := {
  wf_domain : forall k d, domains s !! k = Some d -> domain.LDHName d = k;
  wf_contact : forall h c, contacts s !! h = Some c -> domain.ct_Handle c = h;
  wf_nameserver : forall h n, nameservers s !! h = Some n -> domain.ns_Handle n = h;
  wf_network : forall k n, ipNetworks s !! k = Some n -> domain.CIDR n = [k];
  wf_autnum : forall k a, autnums s !! k = Some a -> domain.StartASN a <= k <= domain.EndASN a;
  wf_refs : forall k d h, domains s !! k = Some d -> refers_to d h -> is_Some (contacts s !! h);
  wf_hosts : forall k d n, domains s !! k = Some d -> n ∈ domain.Nameservers d ->
    nameservers s !! domain.ns_Handle n = Some n;
  wf_byns : forall k names dn, domainByNS s !! k = Some names -> dn ∈ names ->
    exists d n, domains s !! dn = Some d /\ n ∈ domain.Nameservers d /\ domain.ns_LDHName n = k;
  wf_byentity : forall k names dn, domainByEntity s !! k = Some names -> dn ∈ names ->
    exists d, domains s !! dn = Some d /\ refers_to d k
}.

(** ** Lemmas *)

(** *** Globs and items *)

Definition glob_tok (c : ascii) : tok :=
  if bool_decide (c = "*"%char) then TAny else TChar c.
Definition glob_text (l : list ascii) : list ascii :=
  bs (Strings.ReplaceAll (Strings.ReplaceAll (sb l) "." "\.") "*" ".*").

Lemma ReplaceAll_app l k old new :
  Strings.ReplaceAll (sb (l ++ k)) old new
  = sb (bs (Strings.ReplaceAll (sb l) old new) ++ bs (Strings.ReplaceAll (sb k) old new)).
Proof. unfold Strings.ReplaceAll. by rewrite !bs_sb, fmap_app, concat_app. Qed.
Lemma glob_text_app l k : glob_text (l ++ k) = glob_text l ++ glob_text k.
Proof. unfold glob_text. by rewrite !ReplaceAll_app, bs_sb, !sb_bs. Qed.
Lemma render_app ts us : render (ts ++ us) = render ts ++ render us.
Proof. unfold render. by rewrite fmap_app, concat_app. Qed.

Lemma glob_text_char c :
  glob_text [c] = if bool_decide (c = "*"%char) then ["."%char; "*"%char] else render_char c.
Proof. destruct c as [[] [] [] [] [] [] [] []]; vm_compute; reflexivity. Qed.
Lemma glob_text_items p : glob_text p = render (glob_tok <$> p).
Proof.
  induction p as [|c p IH]; [done|].
  change (c :: p) with ([c] ++ p). rewrite glob_text_app, fmap_app, render_app, IH. f_equal.
  rewrite glob_text_char. unfold render, glob_tok. simpl.
  case_bool_decide; simpl; by rewrite ?app_nil_r.
Qed.
Lemma glob_tok_ok p : glob_pattern p -> Forall tok_ok (glob_tok <$> p).
Proof.
  intros Hp. apply Forall_fmap. eapply Forall_impl; [exact Hp|]. intros c Hc. simpl in *.
  unfold glob_tok. case_bool_decide; simpl; [done|naive_solver].
Qed.

Lemma compileGlob_text `{RegexpEngine} l ts re :
  glob_text l = render ts -> regexp_Compile (anchored (render ts)) = Ok re ->
  compileGlob (sb l) = Ok re.
Proof.
  intros Ht Hre. unfold compileGlob.
  assert (E : "^" +:+ Strings.ReplaceAll (Strings.ReplaceAll (sb l) "." "\.") "*" ".*" +:+ "$"
              = anchored (render ts)).
  { apply (inj bs). unfold anchored. rewrite !bs_app, bs_sb, <-Ht. done. }
  by rewrite E, Hre.
Qed.

Lemma tok_match_glob p l : tok_match (glob_tok <$> p) l = true <-> glob p l.
Proof.
  split.
  - revert l. induction p as [|c p IH]; intros l Hm.
    + simpl in Hm. apply bool_decide_eq_true in Hm as ->. constructor.
    + rewrite fmap_cons in Hm. unfold glob_tok in Hm at 1. case_bool_decide as Hc.
      * subst. apply tok_match_any_iff in Hm as (l1 & l2 & -> & Hn & Hm).
        constructor; [done|by apply IH].
      * apply tok_match_char_iff in Hm as (l' & -> & Hm). constructor; [done|by apply IH].
  - induction 1 as [|c p l Hc _ IH|p l1 l2 Hn _ IH]; [done| |].
    + rewrite fmap_cons. unfold glob_tok at 1. rewrite bool_decide_eq_false_2 by done.
      apply tok_match_char_iff. eauto.
    + rewrite fmap_cons. apply tok_match_any_iff. exists l1, l2. done.
Qed.

(** Ordinary characters stand for themselves. *)
Lemma plain_text q :
  Forall (fun c => plain c = true) q -> glob_text q = q /\ render (TChar <$> q) = q.
Proof.
  induction 1 as [|x q (_ & Hd & _ & Hs & _)%plain_not _ [IH1 IH2]]; [done|].
  assert (E : render_char x = [x]) by (unfold render_char; by rewrite bool_decide_eq_false_2).
  split.
  - change (x :: q) with ([x] ++ q). rewrite glob_text_app, IH1, glob_text_char.
    by rewrite bool_decide_eq_false_2, E by done.
  - rewrite fmap_cons. change (TChar x :: (TChar <$> q)) with ([TChar x] ++ (TChar <$> q)).
    rewrite render_app, IH2. unfold render. simpl. by rewrite E.
Qed.

(** The compiled pattern matches exactly what the glob means. *)
Lemma compileGlob_glob `{RegexpSpec} p :
  glob_pattern p ->
  exists re, compileGlob (sb p) = Ok re
    /\ forall s, all_ascii (bs s) = true -> regexp_MatchString re s = true <-> glob p (bs s).
Proof.
  intros Hp. destruct (regexp_items _ (glob_tok_ok p Hp)) as (re & Hre & Hm).
  exists re. split; [by eapply compileGlob_text, Hre; apply glob_text_items|].
  intros s Hs. rewrite Hm by done. apply tok_match_glob.
Qed.

(** *** Domain patterns *)

Lemma domain_glob_text p :
  Strings.ReplaceAll (Strings.ReplaceAll (sb p) "*" ".*") "?" "." = sb (domain_glob p).
Proof.
  induction p as [|c p IH]; [done|]. change (c :: p) with ([c] ++ p).
  rewrite !ReplaceAll_app. unfold domain_glob in *. rewrite bind_app.
  rewrite !sb_bs, IH, bs_sb. f_equal. f_equal. clear.
  destruct c as [[] [] [] [] [] [] [] []]; vm_compute; reflexivity.
Qed.
Lemma domain_glob_plain p : Forall (fun c => plain c = true) p -> domain_glob p = p.
Proof.
  induction 1 as [|c p Hc _ IH]; [done|]. change (c :: p) with ([c] ++ p) at 1.
  unfold domain_glob in *. rewrite bind_app, IH.
  apply plain_not in Hc as (_ & _ & Hq & Hs & _). simpl.
  by rewrite !bool_decide_eq_false_2 by done.
Qed.
Lemma glob_prefix p l :
  Forall (fun c => plain c = true) p ->
  glob (p ++ ["."%char; "*"%char]) l
  <-> exists rest, l = p ++ "."%char :: rest /\ newline ∉ rest.
Proof.
  intros Hp. rewrite <-tok_match_glob, fmap_app.
  replace (glob_tok <$> p) with (TChar <$> p).
  2: { induction Hp as [|c p Hc _ IH]; [done|]. rewrite !fmap_cons, IH. f_equal.
       apply plain_not in Hc as (_ & _ & _ & Hs & _). unfold glob_tok.
       by rewrite bool_decide_eq_false_2. }
  rewrite tok_match_chars. split.
  - intros (k & -> & (k' & -> & Hk)%tok_match_char_iff). exists k'. split; [done|].
    apply tok_match_any_iff in Hk as (l1 & l2 & -> & Hn & Hk%bool_decide_eq_true).
    subst. by rewrite app_nil_r.
  - intros (rest & -> & Hn). exists ("."%char :: rest). split; [done|].
    apply tok_match_char_iff. exists rest. split; [done|].
    apply tok_match_any_iff. exists rest, []. by rewrite app_nil_r.
Qed.

(** *** Resolved maps *)

Lemma add_resolved_lookup {A} (m acc : gmap string A) keys h x :
  add_resolved m acc keys !! h = Some x
  <-> (h ∈ keys /\ m !! h = Some x) \/ (acc !! h = Some x /\ (h ∉ keys \/ m !! h = None)).
Proof.
  revert acc. induction keys as [|k keys IH]; intros acc; simpl.
  - rewrite elem_of_nil. naive_solver.
  - rewrite IH, elem_of_cons. destruct (decide (h ∈ keys)), (decide (h = k)) as [->|Hk].
    1,3: destruct (m !! k) as [c|] eqn:E; [rewrite lookup_insert_eq|]; naive_solver.
    all: destruct (m !! k) as [c|] eqn:E; [rewrite lookup_insert_ne by done|]; naive_solver.
Qed.
Lemma add_roles_concat {A} (m acc : gmap string A) roles :
  add_roles m acc roles = add_resolved m acc (concat roles.*2).
Proof.
  revert acc. induction roles as [|[r hs] roles IH]; intros acc; [done|].
  simpl. rewrite IH. clear IH. revert acc.
  induction hs as [|h hs IHh]; intros acc; simpl; [done|apply IHh].
Qed.
Lemma range_concat_elem `{MapRange} (m : gmap string (list string)) h :
  h ∈ concat (map_range m).*2 <-> exists role hs, m !! role = Some hs /\ h ∈ hs.
Proof.
  rewrite list_elem_of_In, in_concat. split.
  - intros (hs & Hhs & Hh). apply list_elem_of_In, list_elem_of_fmap in Hhs as ([r k] & -> & Hr).
    apply map_range_elem in Hr. exists r, k. by rewrite list_elem_of_In.
  - intros (r & hs & Hr & Hh). exists hs. split; [|by apply list_elem_of_In].
    apply list_elem_of_In, list_elem_of_fmap. exists (r, hs). by rewrite map_range_elem.
Qed.

Lemma values_elem `{MapRange} {A} (m : gmap string A) x :
  x ∈ (map_range m).*2 <-> exists k, m !! k = Some x.
Proof.
  rewrite list_elem_of_fmap. split.
  - intros ([k y] & -> & Hk). apply map_range_elem in Hk. eauto.
  - intros [k Hk]. exists (k, x). by rewrite map_range_elem.
Qed.
Lemma search_loop_searched `{MapRange} {A} (m : gmap string A) (p : A -> bool) (matching : A -> Prop) limit :
  (forall k x, m !! k = Some x -> p x = true <-> matching x) ->
  searched m matching limit (search_loop p limit [] (map_range m).*2).
Proof.
  intros Hp. split.
  - rewrite <-(map_range_perm m). apply sublist_submseteq, search_loop_sublist.
  - intros x [[k Hx]%values_elem Hpx]%search_loop_elem. by eapply Hp.
  - apply search_loop_bound.
  - intros Hl k x Hx Hm%(Hp _ _ Hx). assert (Hin : x ∈ (map_range m).*2) by (apply values_elem; eauto).
    destruct (Z.le_gt_cases limit 0) as [?|Hl']; [by apply search_loop_complete|].
    destruct Hl as [?|Hl]; [lia|]. rewrite search_loop_spec in Hl |- *.
    destruct (Z.ltb_spec 0 limit); [|lia]. rewrite length_take in Hl. rewrite take_ge by lia.
    by rewrite list_elem_of_In, List.filter_In, <-list_elem_of_In.
Qed.
Lemma keys_elem `{MapRange} {A} (m : gmap string A) k :
  k ∈ (map_range m).*1 <-> is_Some (m !! k).
Proof.
  rewrite list_elem_of_fmap. split.
  - intros ([k' y] & -> & Hk). apply map_range_elem in Hk. eauto.
  - intros [x Hk]. exists (k, x). by rewrite map_range_elem.
Qed.

Lemma foldl_mark (acc : gmap string bool) hs h :
  is_Some (foldl (fun acc h => <[h := true]> acc) acc hs !! h) <-> is_Some (acc !! h) \/ h ∈ hs.
Proof.
  revert acc. induction hs as [|k hs IH]; intros acc; simpl.
  - rewrite elem_of_nil. naive_solver.
  - rewrite IH, elem_of_cons. destruct (decide (h = k)) as [->|Hk].
    + rewrite lookup_insert_eq. naive_solver.
    + rewrite lookup_insert_ne by done. naive_solver.
Qed.
Lemma foldl_mark_concat (acc : gmap string bool) hss :
  foldl (fun acc hs => foldl (fun acc h => <[h := true]> acc) acc hs) acc hss
  = foldl (fun acc h => <[h := true]> acc) acc (concat hss).
Proof.
  revert acc. induction hss as [|hs hss IH]; intros acc; simpl; [done|].
  by rewrite foldl_app, IH.
Qed.
Lemma associated_iff `{MapRange} d h : is_Some (associated d !! h) <-> refers_to d h.
Proof.
  unfold associated, refers_to. rewrite foldl_mark_concat, foldl_mark, range_concat_elem.
  destruct (String.eqb_spec (domain.Registrar d) "") as [E|E].
  - rewrite lookup_empty. split; [intros [[]%is_Some_None|]; by right|].
    intros [[-> ?]|]; [done|by right].
  - destruct (decide (h = domain.Registrar d)) as [->|Hh].
    + rewrite lookup_singleton_eq. naive_solver.
    + rewrite lookup_singleton_ne by done. split; [intros [[]%is_Some_None|]; by right|].
      intros [[-> ?]|]; [done|by right].
Qed.

(** *** Loops over names and addresses *)

Lemma by_name_loop_search m limit acc names :
  by_name_loop m limit acc names
  = search_loop (fun _ => true) limit acc (omap (fun dn => m !! dn) names).
Proof.
  revert acc. induction names as [|n names IH]; intros acc; [done|].
  simpl. destruct (m !! n); simpl; by rewrite IH.
Qed.

Definition has_ip (ip : string) (n : domain.NameServer) : Prop :=
  ip ∈ domain.IPV4 n \/ ip ∈ domain.IPV6 n.
Lemma existsb_eqb ip l : existsb (String.eqb ip) l = true <-> ip ∈ l.
Proof.
  rewrite existsb_exists, list_elem_of_In. split.
  - intros (x & Hx & ->%String.eqb_eq). done.
  - intros Hx. exists ip. by rewrite String.eqb_refl.
Qed.
Lemma by_ip_loop_bound ip limit acc xs :
  0 < limit -> Z.of_nat (length acc) < limit ->
  Z.of_nat (length (by_ip_loop ip limit acc xs)) <= limit.
Proof.
  intros Hl. revert acc. induction xs as [|n xs IH]; intros acc Ha; simpl; [lia|].
  replace (0 <? limit) with true by (symmetry; lia). simpl.
  assert (L : forall (b : bool) (a : list domain.NameServer), Z.of_nat (length a) < limit ->
    Z.of_nat (length (if b then a ++ [n] else a)) <= limit).
  { intros [] a ?; rewrite ?length_app; simpl; lia. }
  set (a1 := if existsb _ (domain.IPV4 n) then _ else _).
  destruct (limit <=? Z.of_nat (length a1)) eqn:E1; [by apply L|]. to_prop.
  set (a2 := if existsb _ (domain.IPV6 n) then _ else _).
  destruct (limit <=? Z.of_nat (length a2)) eqn:E2; [by apply L|]. to_prop.
  by apply IH.
Qed.
Lemma by_ip_loop_sound ip limit acc xs n :
  n ∈ by_ip_loop ip limit acc xs -> n ∈ acc \/ (n ∈ xs /\ has_ip ip n).
Proof.
  revert acc. induction xs as [|m xs IH]; intros acc; simpl; [by left|].
  assert (L : forall (b : bool) (a : list domain.NameServer), n ∈ (if b then a ++ [m] else a) ->
    n ∈ a \/ (n = m /\ b = true)).
  { intros [] a; rewrite ?elem_of_app, ?list_elem_of_singleton; naive_solver. }
  set (a1 := if existsb _ (domain.IPV4 m) then _ else _).
  set (a2 := if existsb _ (domain.IPV6 m) then _ else _).
  assert (H1 : n ∈ a1 -> n ∈ acc \/ (n ∈ m :: xs /\ has_ip ip n)).
  { intros [?|[-> E%existsb_eqb]]%L; [by left|]. right. split; [left|by left]. }
  assert (H2 : n ∈ a2 -> n ∈ acc \/ (n ∈ m :: xs /\ has_ip ip n)).
  { intros [?|[-> E%existsb_eqb]]%L; [by apply H1|]. right. split; [left|by right]. }
  repeat case_match; try done. intros [?|[? ?]]%IH; [by apply H2|].
  right. split; [by right|done].
Qed.
Lemma by_ip_loop_complete ip limit acc xs n :
  limit <= 0 -> n ∈ acc \/ (n ∈ xs /\ has_ip ip n) -> n ∈ by_ip_loop ip limit acc xs.
Proof.
  intros Hl. revert acc. induction xs as [|m xs IH]; intros acc; simpl.
  { rewrite elem_of_nil. naive_solver. }
  replace (0 <? limit) with false by (symmetry; lia). simpl.
  intros Hn. apply IH. destruct Hn as [Hn|[[->|Hn]%elem_of_cons Hip]]; [left|left|by right].
  - repeat case_match; rewrite ?elem_of_app; auto.
  - destruct Hip as [Hip|Hip]; apply existsb_eqb in Hip; rewrite Hip;
      repeat case_match; rewrite ?elem_of_app, ?list_elem_of_singleton; auto.
Qed.

(** *** The test of the reverse search *)

Lemma contact_matches_iff `{UnicodeTables} `{RegexpEngine} re property h c :
  contact_matches re property h c = true
  <-> exists v, property_value c h property v
        /\ regexp_MatchString re (Strings.ToLower v) = true.
Proof.
  unfold contact_matches. split.
  - destruct (String.eqb_spec property "role") as [->|].
    { intros (r & Hr%list_elem_of_In & Hm)%existsb_exists. exists r. split; [by constructor|done]. }
    destruct (String.eqb_spec property "handle") as [->|].
    { intros Hm. exists h. split; [constructor|done]. }
    destruct (String.eqb_spec property "fn") as [->|].
    { destruct (domain.ct_VCard c) as [v|] eqn:E; [|done]. intros Hm.
      eexists. split; [by constructor|done]. }
    destruct (String.eqb_spec property "email") as [->|]; [|done].
    destruct (domain.ct_VCard c) as [v|] eqn:E; [|done]. intros Hm.
    eexists. split; [by constructor|done].
  - intros (v & Hv & Hm). destruct Hv as [r Hr| |v E|v E]; simpl; rewrite ?E; try done.
    apply existsb_exists. exists r. by rewrite <-list_elem_of_In.
Qed.
Lemma domainMatchesEntity_iff `{UnicodeTables} `{MapRange} `{RegexpEngine} s d property re
    (Q : string -> Prop) :
  (forall h c prop v, contacts s !! h = Some c -> property_value c h prop v ->
     all_ascii (bs v) = true) ->
  (forall v, all_ascii (bs v) = true ->
     regexp_MatchString re (Strings.ToLower v) = true <-> Q v) ->
  domainMatchesEntity s d property re = true
  <-> exists h c v, refers_to d h /\ contacts s !! h = Some c
        /\ property_value c h property v /\ Q v.
Proof.
  intros Hv HQ. unfold domainMatchesEntity. rewrite existsb_exists. split.
  - intros (h & Hh%list_elem_of_In%keys_elem%associated_iff & Hm).
    destruct (contacts s !! h) as [c|] eqn:Ec; [|done].
    apply contact_matches_iff in Hm as (v & Hval & Hm). exists h, c, v.
    split_and!; try done. apply HQ; [by eapply Hv|done].
  - intros (h & c & v & Hr & Hc & Hval & Hq). exists h. split.
    + by apply list_elem_of_In, keys_elem, associated_iff.
    + rewrite Hc. apply contact_matches_iff. exists v. split; [done|].
      apply HQ; [by eapply Hv|done].
Qed.

(** *** The seed *)

Lemma seed_contacts now h c :
  (<["REG1-NAME" := seed_registrant now]> (<["888" := seed_technical now]>
     (<["2" := seed_registrar now]> ∅)) : gmap string domain.Contact) !! h = Some c ->
  (h = "REG1-NAME" /\ c = seed_registrant now) \/ (h = "888" /\ c = seed_technical now)
  \/ (h = "2" /\ c = seed_registrar now).
Proof. rewrite !lookup_insert_Some, lookup_empty. naive_solver. Qed.
Lemma seed_refers now h :
  refers_to (seed_domain now) h -> h = "REG1-NAME" \/ h = "888" \/ h = "2".
Proof.
  intros [[-> _]|(role & hs & Hr & Hh)]; [by right; right|].
  simpl in Hr. rewrite !lookup_insert_Some, lookup_empty in Hr.
  destruct Hr as [[_ <-]|[_ [[_ <-]|[_ [[_ <-]|[_ [=]]]]]]];
    apply list_elem_of_singleton in Hh; auto.
Qed.

Lemma seed_wf now ttl : wf (seed now (mkMemoryStore ∅ ∅ ∅ ∅ ∅ ∅ ∅ ttl false)).
Proof.
  unfold seed. simpl seeded. cbv iota. split; simpl.
  - intros k d H2. apply lookup_insert_Some in H2 as [[<- <-]|[_ []%lookup_empty_Some]]. done.
  - intros h c Hc. by apply seed_contacts in Hc as [[-> ->]|[[-> ->]|[-> ->]]].
  - intros h c Hc. rewrite !lookup_insert_Some, lookup_empty in Hc. naive_solver.
  - intros k n Hn. apply lookup_insert_Some in Hn as [[<- <-]|[_ []%lookup_empty_Some]]. done.
  - intros k a Ha. apply lookup_insert_Some in Ha as [[<- <-]|[_ []%lookup_empty_Some]]. done.
  - intros k d h Hd Hr. apply lookup_insert_Some in Hd as [[<- <-]|[_ []%lookup_empty_Some]].
    apply seed_refers in Hr as [->|[->| ->]]; by eexists.
  - intros k d n Hd Hn. apply lookup_insert_Some in Hd as [[<- <-]|[_ []%lookup_empty_Some]].
    simpl in Hn. rewrite !elem_of_cons, elem_of_nil in Hn. by destruct Hn as [->|[->|[]]].
  - intros k names dn Hn Hdn. unfold append_to in Hn.
    rewrite !lookup_insert_Some, lookup_empty in Hn.
    destruct Hn as [[<- <-]|[_ [[<- <-]|[_ [=]]]]]; vm_compute in Hdn;
      apply list_elem_of_singleton in Hdn as ->; exists (seed_domain now);
      [exists (seed_ns2 now)|exists (seed_ns1 now)]; (split; [done|]); (split; [|done]);
      simpl; rewrite !elem_of_cons; auto.
  - intros k names dn Hn Hdn. unfold append_to in Hn.
    rewrite lookup_insert_Some, lookup_empty in Hn. destruct Hn as [[<- <-]|[_ [=]]].
    vm_compute in Hdn. apply list_elem_of_singleton in Hdn as ->. exists (seed_domain now).
    split; [done|]. right. exists domain.RoleRegistrant, ["REG1-NAME"]. split; [done|left].
Qed.

(** *** The adapter satisfies the storage boundary *)

Lemma singleton_reg_lookup (reg : option domain.Contact) r h c :
  (match reg with Some x => {[r := x]} | None => ∅ end : gmap string domain.Contact) !! h = Some c
  <-> h = r /\ reg = Some c.
Proof.
  destruct reg as [x|]; [|rewrite lookup_empty; naive_solver].
  rewrite lookup_singleton_Some. naive_solver.
Qed.

Lemma aggregate_contacts `{MapRange} s d h c :
  add_roles (contacts s)
    (match contacts s !! domain.Registrar d with
     | Some x => {[domain.Registrar d := x]} | None => ∅ end)
    (map_range (domain.Contacts d)) !! h = Some c
  <-> contacts s !! h = Some c
      /\ (h = domain.Registrar d
          \/ exists role hs, domain.Contacts d !! role = Some hs /\ h ∈ hs).
Proof.
  rewrite add_roles_concat, add_resolved_lookup, range_concat_elem, singleton_reg_lookup.
  split.
  - intros [[? ?]|[[-> ?] ?]]; [by split; [|right]|by split; [|left]].
  - intros [Hc [->|Hr]]; [|by left].
    destruct (decide (domain.Registrar d ∈ concat (map_range (domain.Contacts d)).*2)) as [Hin|Hin].
    + left. rewrite range_concat_elem in Hin. done.
    + right. split; [done|]. left. by rewrite range_concat_elem in Hin.
Qed.

#[local] Ltac search_bound :=
  cbv beta zeta; apply store.bounded_bind; intros ?; apply store.bounded_search_loop.
#[export] Instance interface_spec `{UnicodeTables} `{MapRange} `{RegexpEngine} s :
  store.StoreSpec (interface s).
Proof.
  split; simpl.
  - intros name agg. unfold GetDomainAggregate, LookupDomain, LookupContact.
    destruct (domains s !! lookup_name name) as [d|] eqn:Ed; intros [= <-].
    split; simpl; unfold LookupDomain, LookupContact.
    + by rewrite Ed.
    + intros c. destruct (contacts s !! domain.Registrar d); naive_solver.
    + intros h c [Hc _]%aggregate_contacts. by rewrite Hc.
    + intros role hs h c Hr Hh. destruct (contacts s !! h) as [c'|] eqn:Ec; [|done].
      intros [= ->]. apply aggregate_contacts. split; [done|]. right. eauto.
  - intros name d. unfold GetDomainAggregate, LookupDomain.
    destruct (domains s !! lookup_name name); [eauto|done].
  - intros p. unfold SearchDomainsByName. search_bound.
  - intros p limit l Hl. unfold SearchDomainsByNS. destruct (_ !! _) as [names|]; intros [= <-].
    + rewrite by_name_loop_search. by apply search_loop_bound.
    + simpl. lia.
  - intros p. unfold SearchContactsByName. search_bound.
  - intros p. unfold SearchContactsByHandle, SearchContactsByName. search_bound.
  - intros p. unfold SearchNameserversByName. search_bound.
  - intros p limit l Hl [= <-]. by apply by_ip_loop_bound.
  - intros prop p. unfold ReverseSearchDomainsByEntity.
    destruct (compileGlob _); [apply store.bounded_search_loop|by intros ? ? ? ?].
Qed.

(** ** Properties *)

Section properties.
Context `{UnicodeTables} `{MapRange} `{RegexpEngine}.

(** C27: [GetDomainAggregate] finds a domain exactly when [LookupDomain] does and
    fails with the same error when it does not; its aggregate holds the stored
    registrar, every stored contact the domain refers to (as registrar or under any
    role) and no other, and every stored host of its nameserver list and no other,
    whatever the order in which the role map is visited. *)
Theorem GetDomainAggregate_spec s name :
  match LookupDomain s name with
  | Err e => GetDomainAggregate s name = Err e
  | Ok d => exists agg, GetDomainAggregate s name = Ok agg
    /\ domain.agg_Domain agg = d
    /\ domain.agg_Registrar agg = contacts s !! domain.Registrar d
    /\ (forall h c, domain.agg_Contacts agg !! h = Some c
          <-> contacts s !! h = Some c
              /\ (h = domain.Registrar d
                  \/ exists role hs, domain.Contacts d !! role = Some hs /\ h ∈ hs))
    /\ (forall h n, domain.agg_Nameservers agg !! h = Some n
          <-> nameservers s !! h = Some n
              /\ exists host, host ∈ domain.Nameservers d /\ domain.ns_Handle host = h)
  end.
Proof.
  unfold LookupDomain, GetDomainAggregate.
  destruct (domains s !! lookup_name name) as [d|]; [|done].
  eexists. split; [done|]. split; [done|]. split; [done|]. split; intros h x; simpl.
  - apply aggregate_contacts.
  - rewrite add_resolved_lookup, lookup_empty, list_elem_of_fmap. naive_solver.
Qed.

(** Domain names are looked up without regard to ASCII case and to one
    trailing dot: two spellings of a name that differ in these only give the
    same result, the error message included. *)
Theorem LookupDomain_spelling s l l' :
  all_ascii l = true -> lower_byte <$> l = lower_byte <$> l' ->
  last l <> Some "."%char ->
  LookupDomain s (sb (l ++ ["."%char])) = LookupDomain s (sb l')
  /\ GetDomainAggregate s (sb (l ++ ["."%char])) = GetDomainAggregate s (sb l')
  /\ LookupNameserver s (sb (l ++ ["."%char])) = LookupNameserver s (sb l').
Proof.
  intros Ha Hl Hd.
  assert (E : lookup_name (sb (l ++ ["."%char])) = lookup_name (sb l')).
  { unfold lookup_name. change "." with (sb ["."%char]).
    rewrite TrimSuffix_snoc, TrimSuffix_no.
    - assert (Ha' : all_ascii l' = true).
      { apply all_ascii_Forall. apply all_ascii_lower, all_ascii_Forall in Ha.
        rewrite Hl in Ha. rewrite Forall_fmap in Ha. eapply Forall_impl; [exact Ha|].
        intros c Hc. unfold lower_byte in Hc. simpl in Hc. pose proof (byte_bounds c).
        destruct (is_upper c) eqn:U; [|done]. apply in_range_iff in U. lia. }
      rewrite !ToLower_ascii by (by rewrite bs_sb). by rewrite !bs_sb, Hl.
    - intros Hd'. apply Hd. revert Hd' Hl. clear. intros Hd Hl.
      assert (E : last (lower_byte <$> l) = Some (lower_byte "."%char)).
      { by rewrite Hl, fmap_last, Hd. }
      rewrite fmap_last in E. destruct (last l) as [c|]; [|done]. injection E as E.
      f_equal. revert E. destruct c as [[] [] [] [] [] [] [] []]; by vm_compute. }
  unfold LookupDomain, GetDomainAggregate, LookupNameserver. by rewrite E.
Qed.

(** C28: the glob compiler accepts every pattern of ordinary characters and [*],
    and the expression it builds matches exactly what the glob means ([.] is
    literal, [*] any run of characters). *)
Theorem compileGlob_spec `{!RegexpSpec _} p :
  glob_pattern p ->
  exists re, compileGlob (sb p) = Ok re
    /\ forall s, all_ascii (bs s) = true -> regexp_MatchString re s = true <-> glob p (bs s).
Proof. apply compileGlob_glob. Qed.

(** A question mark is not a one-character wildcard for [compileGlob]: it
    makes the character before it optional. *)
Theorem compileGlob_question `{!RegexpSpec _} p c :
  Forall (fun c => plain c = true) (p ++ [c]) ->
  exists re, compileGlob (sb (p ++ [c; "?"%char])) = Ok re
    /\ forall s, all_ascii (bs s) = true ->
         regexp_MatchString re s = true <-> bs s = p \/ bs s = p ++ [c].
Proof.
  intros [Hp Hc]%Forall_app. rewrite Forall_singleton in Hc.
  set (ts := (TChar <$> p) ++ [TOpt c]).
  assert (Hok : Forall tok_ok ts).
  { apply Forall_app. split; [|rewrite Forall_singleton; by left].
    apply Forall_fmap. eapply Forall_impl; [exact Hp|]. intros x Hx. by left. }
  assert (Hg : glob_text (p ++ [c; "?"%char]) = render ts).
  { change [c; "?"%char] with ([c] ++ ["?"%char]).
    rewrite !glob_text_app. unfold ts. rewrite render_app.
    destruct (plain_text p Hp) as [-> ->].
    destruct (plain_text [c]) as [-> Hr]; [by rewrite Forall_singleton|].
    f_equal. revert Hr. unfold render. simpl. rewrite !app_nil_r. by intros ->. }
  destruct (regexp_items ts Hok) as (re & Hre & Hm).
  exists re. split; [by eapply compileGlob_text|]. intros s Hs. rewrite Hm by done.
  unfold ts. rewrite tok_match_chars. split.
  - intros (k & -> & Hk). simpl in Hk. apply orb_true_iff in Hk as [Hk|Hk].
    + apply bool_decide_eq_true in Hk as ->. left. by rewrite app_nil_r.
    + destruct k as [|x k]; [done|]. apply andb_true_iff in Hk as [E1 E2].
      apply bool_decide_eq_true in E1, E2. subst. by right.
  - intros [->| ->]; [exists []; by rewrite app_nil_r|]. exists [c]. split; [done|].
    simpl. by rewrite bool_decide_eq_true_2.
Qed.

(** C29: what a domain search really matches, for ASCII names and patterns of
    ordinary characters, dots and wildcards: every [*] of the pattern has become a
    dot followed by a wildcard and every [?] a literal dot, since the wildcards are
    translated before the glob compiler escapes dots (so [?] is not the
    one-character wildcard it is meant to be, and [example*] misses
    example-domain.com).  The answer holds stored domains that match, each once, at
    most as many as a positive limit, and all of them when the limit is absent or
    not reached. *)
Theorem SearchDomainsByName_spec `{!RegexpSpec _} s p limit :
  all_ascii p = true -> glob_pattern (domain_glob (lower_byte <$> p)) ->
  (forall k d, domains s !! k = Some d -> all_ascii (bs (domain.LDHName d)) = true) ->
  exists ds, SearchDomainsByName s (sb p) limit = Ok ds
    /\ searched (domains s)
         (fun d => glob (domain_glob (lower_byte <$> p)) (bs (domain.LDHName d))) limit ds.
Proof.
  intros Ha Hp Hs. destruct (compileGlob_glob _ Hp) as (re & Hre & Hm).
  unfold SearchDomainsByName. rewrite ToLower_ascii, bs_sb, domain_glob_text, Hre by
    (by rewrite bs_sb).
  eexists. split; [done|]. apply search_loop_searched. intros k d Hd. apply Hm. by eapply Hs.
Qed.

(** A search for the prefix [p*] finds the names [p.rest] only: a name that
    continues [p] with anything but a dot is not found (so [exam*] misses
    [example.com]). *)
Theorem SearchDomainsByName_prefix `{!RegexpSpec _} s p :
  all_ascii p = true -> Forall (fun c => plain c = true) (lower_byte <$> p) ->
  (forall k d, domains s !! k = Some d -> all_ascii (bs (domain.LDHName d)) = true) ->
  exists ds, SearchDomainsByName s (sb (p ++ ["*"%char])) 0 = Ok ds
    /\ forall d, d ∈ ds <-> (exists k, domains s !! k = Some d)
         /\ exists rest, bs (domain.LDHName d) = (lower_byte <$> p) ++ "."%char :: rest
             /\ newline ∉ rest.
Proof.
  intros Ha Hp Hs. set (q := lower_byte <$> p) in *.
  assert (Eq : domain_glob (lower_byte <$> p ++ ["*"%char]) = q ++ ["."%char; "*"%char]).
  { rewrite fmap_app. unfold domain_glob. rewrite bind_app. f_equal.
    change (domain_glob q = q). by apply domain_glob_plain. }
  assert (Hg : glob_pattern (q ++ ["."%char; "*"%char])).
  { apply Forall_app. split; [eapply Forall_impl; [exact Hp|by left]|].
    repeat (apply Forall_cons; split; [auto|]); auto. }
  destruct (compileGlob_glob _ Hg) as (re & Hre & Hm).
  unfold SearchDomainsByName. rewrite ToLower_ascii, bs_sb, domain_glob_text, Eq, Hre.
  2: { rewrite bs_sb. unfold all_ascii in *. rewrite forallb_app, Ha. done. }
  eexists. split; [done|]. intros d. rewrite <-glob_prefix by done. split.
  - intros [Hd%values_elem Hmatch]%search_loop_elem. split; [done|].
    destruct Hd as [k Hd]. apply Hm; [by eapply Hs|done].
  - intros [Hd Hmatch]. apply search_loop_complete; [done|by apply values_elem|].
    destruct Hd as [k Hd]. apply Hm; [by eapply Hs|done].
Qed.

(** [SearchNameserversByIP] returns only servers that list the address;
    with a positive limit at most that many; without one every such server. *)
Theorem SearchNameserversByIP_spec s ip limit :
  exists ns, SearchNameserversByIP s ip limit = Ok ns
    /\ (forall n, n ∈ ns -> (exists h, nameservers s !! h = Some n) /\ has_ip ip n)
    /\ (0 < limit -> Z.of_nat (length ns) <= limit)
    /\ (limit <= 0 -> forall h n, nameservers s !! h = Some n -> has_ip ip n -> n ∈ ns).
Proof.
  eexists. split; [done|]. split_and!.
  - intros n [Hn|[Hn Hip]]%by_ip_loop_sound; [by apply not_elem_of_nil in Hn|].
    by apply values_elem in Hn.
  - intros Hl. by apply by_ip_loop_bound.
  - intros Hl h n Hn Hip. apply by_ip_loop_complete; [done|]. right. split; [|done].
    apply values_elem. eauto.
Qed.

(** [LookupNameserver] returns a stored server that has the name (in either
    form, case folded) whenever there is one, and otherwise fails with the
    not-found error. *)
Theorem LookupNameserver_spec s name :
  match LookupNameserver s name with
  | Ok n => (exists h, nameservers s !! h = Some n)
      /\ (Strings.EqualFold (domain.ns_LDHName n) (lookup_name name) = true
          \/ Strings.EqualFold (domain.ns_UnicodeName n) (lookup_name name) = true)
  | Err e => e = ErrText ("nameserver not found: " +:+ lookup_name name)
      /\ forall h n, nameservers s !! h = Some n ->
           Strings.EqualFold (domain.ns_LDHName n) (lookup_name name) = false
           /\ Strings.EqualFold (domain.ns_UnicodeName n) (lookup_name name) = false
  end.
Proof.
  unfold LookupNameserver. destruct (List.find _ _) as [n|] eqn:E.
  - apply List.find_some in E as [Hn Hm]. apply list_elem_of_In, values_elem in Hn.
    split; [done|]. by apply orb_true_iff.
  - split; [done|]. intros h n Hn. apply orb_false_iff.
    eapply (List.find_none _ _ E), list_elem_of_In, values_elem. eauto.
Qed.

(** C30: for an ASCII pattern of ordinary characters, dots and [*], and contacts
    whose values are ASCII, the reverse search answers stored domains that refer to
    a stored contact having a value of the property that matches the pattern, case
    folded: each once, at most as many as a positive limit, and all of them when
    the limit is absent or not reached, whatever the order of the maps. *)
Theorem ReverseSearchDomainsByEntity_spec `{!RegexpSpec _} s property p limit :
  all_ascii p = true -> glob_pattern (lower_byte <$> p) ->
  (forall h c prop v, contacts s !! h = Some c -> property_value c h prop v ->
     all_ascii (bs v) = true) ->
  exists ds, ReverseSearchDomainsByEntity s property (sb p) limit = Ok ds
    /\ searched (domains s)
         (fun d => exists h c v, refers_to d h /\ contacts s !! h = Some c
            /\ property_value c h property v /\ glob (lower_byte <$> p) (lower_byte <$> bs v))
         limit ds.
Proof.
  intros Ha Hp Hv. destruct (compileGlob_glob _ Hp) as (re & Hre & Hm).
  unfold ReverseSearchDomainsByEntity.
  rewrite ToLower_ascii, bs_sb, Hre by (by rewrite bs_sb).
  eexists. split; [done|]. apply search_loop_searched. intros k d _.
  apply domainMatchesEntity_iff; [done|]. intros v Hva.
  rewrite ToLower_ascii by done. rewrite Hm, bs_sb; [done|].
  rewrite bs_sb. by apply all_ascii_lower.
Qed.

(** C34: a store misses nothing: after [NewMemoryStore] every domain is stored under
    its LDH name, every contact and host under its handle, every network under its
    CIDR block, every autnum under a number of its range; every contact, host and
    domain a stored object refers to is stored, and the two indexes name domains
    that have the host and refer to the contact; and in every store with that
    invariant, an aggregate holds every contact the domain refers to and every host
    of its nameserver list. *)
Theorem wf_aggregate_complete :
  (forall ParseDuration now cfg, wf (NewMemoryStore ParseDuration now cfg))
  /\ forall s name agg, wf s -> GetDomainAggregate s name = Ok agg ->
     (forall h, refers_to (domain.agg_Domain agg) h ->
        exists c, domain.agg_Contacts agg !! h = Some c /\ domain.ct_Handle c = h)
     /\ (forall n, n ∈ domain.Nameservers (domain.agg_Domain agg) ->
        domain.agg_Nameservers agg !! domain.ns_Handle n = Some n).
Proof.
  split; [intros; apply seed_wf|]. intros s name agg Hwf. unfold GetDomainAggregate.
  destruct (domains s !! lookup_name name) as [d|] eqn:Ed; [|done]. intros [= <-]. simpl. split.
  - intros h Hr. destruct (wf_refs s Hwf _ _ _ Ed Hr) as [c Hc]. exists c.
    split; [|by eapply wf_contact]. apply aggregate_contacts. split; [done|].
    destruct Hr as [[-> _]|Hr]; auto.
  - intros n Hn. apply add_resolved_lookup. left. split; [|by eapply wf_hosts].
    apply list_elem_of_fmap. eauto.
Qed.

End properties.

(** ** Witnesses: the seeded store, under either iteration order *)

Section witnesses.
#[local] Existing Instances ascii_tables range_backward glob_engine.

Definition demo_config : config.StorageConfig :=
  config.mkStorageConfig "memory" "" 0 0 "".
Definition demo : MemoryStore :=
  NewMemoryStore (fun _ => Err (ErrText "invalid duration")) zero_time demo_config.

Lemma demo_names k d :
  domains demo !! k = Some d -> all_ascii (bs (domain.LDHName d)) = true.
Proof.
  intros Hd. unfold demo, NewMemoryStore, seed in Hd. simpl in Hd.
  by apply lookup_insert_Some in Hd as [[_ <-]|[_ []%lookup_empty_Some]].
Qed.
Lemma demo_values h c prop v :
  contacts demo !! h = Some c -> property_value c h prop v -> all_ascii (bs v) = true.
Proof.
  intros Hc Hv. destruct Hv as [r Hr| |v E|v E]; apply seed_contacts in Hc;
    destruct Hc as [[? ->]|[[? ->]|[? ->]]]; subst; try done; simpl in *;
    try (by apply list_elem_of_singleton in Hr as ->); by injection E as <-.
Qed.

Lemma LookupDomain_spelling_witness :
  LookupDomain demo (sb (bs "Example.COM" ++ ["."%char])) = LookupDomain demo (sb (bs "example.com"))
  /\ is_ok (LookupDomain demo "example.com") = true.
Proof.
  split; [|vm_compute; reflexivity].
  apply (LookupDomain_spelling demo (bs "Example.COM") (bs "example.com"));
    [reflexivity|reflexivity|discriminate].
Defined.
Lemma compileGlob_spec_witness :
  exists re, compileGlob "exam*.com" = Ok re
    /\ regexp_MatchString re "example.com" = true.
Proof.
  destruct (compileGlob_spec (bs "exam*.com")) as (re & E & Hm).
  - repeat (apply Forall_cons; split; [vm_compute; auto|]). by apply Forall_nil.
  - exists re. split; [exact E|]. apply Hm; [reflexivity|].
    apply tok_match_glob. vm_compute. reflexivity.
Defined.
Lemma compileGlob_question_witness :
  exists re, compileGlob "ns?" = Ok re
    /\ regexp_MatchString re "n" = true /\ regexp_MatchString re "ns1" = false.
Proof.
  destruct (compileGlob_question (bs "n") "s"%char) as (re & E & Hm).
  - repeat (apply Forall_cons; split; [vm_compute; auto|]). by apply Forall_nil.
  - exists re. split; [exact E|]. split; [apply Hm; [reflexivity|left; reflexivity]|].
    apply not_true_iff_false. intros Hx. apply Hm in Hx; [|reflexivity].
    destruct Hx as [Hx|Hx]; discriminate Hx.
Defined.
Lemma glob_intro p l : tok_match (glob_tok <$> p) l = true -> glob p l.
Proof. apply tok_match_glob. Qed.
(** One of the two wildcards each, with a limit: the question mark takes the dot. *)
Lemma SearchDomainsByName_spec_witness :
  exists ds, SearchDomainsByName demo "EXAMPLE?com" 10 = Ok ds /\ seed_domain zero_time ∈ ds
    /\ exists ds', SearchDomainsByName demo "exam*" 10 = Ok ds' /\ seed_domain zero_time ∉ ds'.
Proof.
  destruct (SearchDomainsByName_spec demo (bs "EXAMPLE?com") 10) as (ds & E & S);
    [reflexivity| |exact demo_names|].
  { repeat (apply Forall_cons; split; [vm_compute; auto|]). by apply Forall_nil. }
  destruct (SearchDomainsByName_spec demo (bs "exam*") 10) as (ds' & E' & S');
    [reflexivity| |exact demo_names|].
  { repeat (apply Forall_cons; split; [vm_compute; auto|]). by apply Forall_nil. }
  exists ds. split; [exact E|]. split.
  - assert (Hl : (length ds <= 1)%nat) by exact (submseteq_length _ _ (searched_once _ _ _ _ S)).
    apply (searched_all _ _ _ _ S ltac:(right; lia) "example.com"); [reflexivity|].
    apply glob_intro. vm_compute. reflexivity.
  - exists ds'. split; [exact E'|]. intros Hin%(searched_match _ _ _ _ S')%tok_match_glob.
    vm_compute in Hin. discriminate Hin.
Defined.
Lemma SearchDomainsByName_prefix_witness :
  exists ds, SearchDomainsByName demo "exam*" 0 = Ok ds /\ seed_domain zero_time ∉ ds.
Proof.
  destruct (SearchDomainsByName_prefix demo (bs "exam")) as (ds & E & Hd).
  - reflexivity.
  - repeat (apply Forall_cons; split; [vm_compute; auto|]). by apply Forall_nil.
  - exact demo_names.
  - exists ds. split; [exact E|]. intros (_ & rest & Hr & _)%Hd. discriminate Hr.
Defined.
Lemma ReverseSearchDomainsByEntity_spec_witness :
  exists ds, ReverseSearchDomainsByEntity demo "fn" "example reg*" 0 = Ok ds
    /\ seed_domain zero_time ∈ ds.
Proof.
  destruct (ReverseSearchDomainsByEntity_spec demo "fn" (bs "example reg*") 0)
    as (ds & E & S).
  - reflexivity.
  - repeat (apply Forall_cons; split; [vm_compute; auto|]). by apply Forall_nil.
  - exact demo_values.
  - exists ds. split; [exact E|]. apply (searched_all _ _ _ _ S ltac:(left; lia) "example.com"); [reflexivity|].
    exists "2", (seed_registrar zero_time), "Example Registrar Inc.". split_and!.
    + left. split; [reflexivity|discriminate].
    + reflexivity.
    + by apply (value_fn (seed_registrar zero_time) "2" seed_registrar_card).
    + apply tok_match_glob. vm_compute. reflexivity.
Defined.
Lemma wf_aggregate_complete_witness :
  exists agg, GetDomainAggregate demo "example.com" = Ok agg
    /\ exists c, domain.agg_Contacts agg !! "888" = Some c.
Proof.
  destruct (GetDomainAggregate demo "example.com") as [agg|] eqn:E; [|by vm_compute in E].
  exists agg. split; [reflexivity|].
  destruct (proj2 wf_aggregate_complete demo "example.com" agg) as [Hc _]; [|exact E|].
  - exact (proj1 wf_aggregate_complete _ _ _).
  - destruct (Hc "888") as (c & H1 & _); [|eauto].
    assert (Ed : domain.agg_Domain agg = seed_domain zero_time) by (vm_compute in E; by injection E as <-).
    rewrite Ed. right. exists domain.RoleTechnical, ["888"]. split; [reflexivity|left].
Defined.

End witnesses.
End memory.
