(* ===== verification/Service.v ===== *)
(** * The query service (internal/service/service.go, extensions.go)

    The layer between the storage boundary and the RDAP wire objects: the
    resolved extension settings, the mappings from domain objects to RDAP
    objects, the lookups and the searches. *)

From stdpp Require Import base tactics option list gmap strings.
From Stdlib Require Import ZArith Lia Ascii.
From S2P Require Import Prelude GoStrings GoTime GoNet Config Domain RdapModels Rdap GoRegexp Store MemoryStore.
#[local] Open Scope Z_scope.

Module service.

(** ** Extensions *)

Record extensions := mkExtensions {
  ttl0 : bool; ttl0Domain : gmap string Z; ttl0NS : gmap string Z;
  ttl0Remarks : list rdap.Remark;
  geofeed1 : bool; geofeedURL : string;
  cidr0 : bool;
  reverseSearch : bool
}.

Definition extensionsFromConfig (cfg : config.RDAPConfig) : extensions :=
  let enabled := config.ExtensionsEnabled cfg in
  mkExtensions (enabled "ttl0")
    (from_option config.TTL0_Domain ∅ (config.TTL0 cfg))
    (from_option config.TTL0_Nameserver ∅ (config.TTL0 cfg))
    (from_option (fun t => (fun r => rdap.mkRemark (config.Remark_Title r) ""
                                       (config.Remark_Description r) [])
                             <$> config.TTL0_Remarks t) [] (config.TTL0 cfg))
    (enabled "geofeed1") (from_option config.Geofeed_URL "" (config.Geofeed cfg))
    (enabled "cidr0") (enabled "reverse_search").

Record Service := mkService {
  svc_store : store.Interface; svc_cfg : config.RDAPConfig; svc_ext : extensions
}.

Definition New (st : store.Interface) (cfg : config.RDAPConfig) : Service :=
  mkService st cfg (extensionsFromConfig cfg).

(** ** jCard *)

Definition prop (name : string) (params : list (string * jany)) (type : string) (v : jany)
    : jany := JArr [JStr name; JObj params; JStr type; v].
Definition text_prop (name value : string) : jany := prop name [] "text" (JStr value).
Definition tel_prop (kind uri : string) : jany :=
  prop "tel" [("type", JArr [JStr kind])] "uri" (JStr uri).
(** [if v != "" { props = append(props, p) }] *)
Definition prop_if (v : string) (p : jany) : list jany := if String.eqb v "" then [] else [p].
Definition adr_prop (a : domain.VCardAddress) : jany :=
  prop "adr"
    (if String.eqb (domain.CountryCode a) "" then [] else [("cc", JStr (domain.CountryCode a))])
    "text"
    (JArr (JStr <$> [domain.POBox a; domain.Extended a; domain.Street a; domain.Locality a;
                     domain.Region a; domain.PostalCode a; domain.CountryName a])).

Definition vcardToJCard (v : option domain.VCard) (fallbackName : string) : list jany :=
  let fn := from_option domain.FullName "" v in
  let fn := if String.eqb fn "" then fallbackName else fn in
  let props := [text_prop "version" "4.0"; text_prop "fn" fn] in
  match v with
  | None => [JStr "vcard"; JArr props]
  | Some v =>
      [JStr "vcard";
       JArr (props
         ++ prop_if (domain.Kind v) (text_prop "kind" (domain.Kind v))
         ++ prop_if (domain.Organization v) (text_prop "org" (domain.Organization v))
         ++ from_option (fun a => [adr_prop a]) [] (domain.Address v)
         ++ prop_if (domain.VoiceTel v) (tel_prop "voice" (domain.VoiceTel v))
         ++ prop_if (domain.FaxTel v) (tel_prop "fax" (domain.FaxTel v))
         ++ prop_if (domain.Email v) (text_prop "email" (domain.Email v))
         ++ prop_if (domain.ContactURI v)
              (prop "contact-uri" [] "uri" (JStr (domain.ContactURI v))))]
  end.

(** ** Mappings *)

Definition statusValues (status : list domain.Status) : list string :=
  domain.status_Value <$> status.
Definition roleStrings (roles : list domain.ContactRole) : list string := roles.
Definition publicIDsToRDAP (ids : list domain.PublicID) : list rdap.PublicID :=
  (fun id => rdap.mkPublicID (domain.pid_Type id) (domain.pid_Identifier id)) <$> ids.

Definition ttl0Data (values : gmap string Z) (remarks : list rdap.Remark)
    : option rdap.TTL0Data :=
  if bool_decide (values = ∅) then None else Some (rdap.mkTTL0Data values remarks).
(** [if ext != nil && ext.ttl0 { ... = ttl0Data(ext.ttl0NS, ext.ttl0Remarks) }] *)
Definition ns_ttl0 (ext : option extensions) : option rdap.TTL0Data :=
  match ext with
  | Some e => if ttl0 e then ttl0Data (ttl0NS e) (ttl0Remarks e) else None
  | None => None
  end.

Definition cidr0FromCIDR (cidr : string) : option rdap.CIDR0 :=
  match Net.ParseCIDR cidr with
  | None => None
  | Some (ip, ipnet) =>
      let ones := Net.mask_ones (Net.net_mask ipnet) in
      match Net.To4 ip with
      | Some ip4 => Some (rdap.mkCIDR0 (Net.ip_string ip4) "" ones)
      | None => Some (rdap.mkCIDR0 "" (Net.ip_string ip) ones)
      end
  end.

(** The registration and last-changed events of an object. *)
Definition object_events (m : domain.Metadata) : list rdap.Event :=
  [rdap.event "registration" (FormatTime (domain.CreatedAt m));
   rdap.event "last changed" (FormatTime (domain.UpdatedAt m))].
Definition self_link (baseURL path : string) : rdap.Link :=
  rdap.link (baseURL +:+ path) "self" (baseURL +:+ path) json_type.

(** A nameserver embedded in a domain has no events. *)
Definition embedded_nameserver (baseURL : string) (ext : option extensions)
    (ns : domain.NameServer) : rdap.Nameserver :=
  rdap.mkNameserver
    (rdap.common "nameserver" (domain.ns_Handle ns)
       [self_link baseURL ("/nameserver/" +:+ domain.ns_LDHName ns)] [] []
       (statusValues (domain.ns_Status ns)))
    (domain.ns_LDHName ns) (domain.ns_UnicodeName ns)
    (Some (rdap.mkIPAddrSet (domain.IPV4 ns) (domain.IPV6 ns))) (ns_ttl0 ext).

Definition entityToRDAP (c : domain.Contact) (baseURL : string) : rdap.Entity :=
  rdap.entity
    (rdap.common "entity" (domain.ct_Handle c)
       [self_link baseURL ("/entity/" +:+ domain.ct_Handle c)]
       (object_events (domain.ct_Metadata c)) [] (statusValues (domain.ct_Status c)))
    [] (roleStrings (domain.Roles c)) (publicIDsToRDAP (domain.PublicIDs c)).

Definition nameserverToRDAP (ns : domain.NameServer) (baseURL : string)
    (ext : option extensions) : rdap.Nameserver :=
  rdap.mkNameserver
    (rdap.common "nameserver" (domain.ns_Handle ns)
       [self_link baseURL ("/nameserver/" +:+ domain.ns_LDHName ns)]
       (object_events (domain.ns_Metadata ns)) [] (statusValues (domain.ns_Status ns)))
    (domain.ns_LDHName ns) (domain.ns_UnicodeName ns)
    (Some (rdap.mkIPAddrSet (domain.IPV4 ns) (domain.IPV6 ns))) (ns_ttl0 ext).

Definition ipNetworkToRDAP (n : domain.IPNetwork) (baseURL : string)
    (ext : option extensions) : rdap.IPNetwork :=
  let cidr := default "" (head (domain.CIDR n)) in
  let geofeed :=
    match ext with
    | Some e => if geofeed1 e && negb (String.eqb (geofeedURL e) "")
                then [rdap.link (baseURL +:+ "/ip/" +:+ cidr) "geofeed" (geofeedURL e)
                        "application/geofeed+csv"]
                else []
    | None => []
    end in
  let cidrs :=
    match ext with
    | Some e => if cidr0 e then omap cidr0FromCIDR (domain.CIDR n) else []
    | None => []
    end in
  rdap.mkIPNetwork
    (rdap.common "ip network" (domain.net_Handle n)
       (self_link baseURL ("/ip/" +:+ cidr) :: geofeed)
       (object_events (domain.net_Metadata n)) [] (statusValues (domain.net_Status n)))
    (domain.StartAddress n) (domain.EndAddress n) (domain.IPVersion n) (domain.CIDR n)
    (domain.net_Name n) (domain.net_Type n) (domain.net_Country n) "" cidrs.

(** ** Domains *)

Definition static_registrar_card : list jany :=
  [JStr "vcard";
   JArr [text_prop "version" "4.0"; text_prop "fn" "Example Registrar Inc.";
         prop "adr" [("cc", JStr "US")] "text"
           (JArr (JStr <$> [""; ""; "123 Maple Ave"; "Los Angeles"; "CA"; "90210"; ""]))]].
Definition static_registrant_card : list jany :=
  [JStr "vcard";
   JArr [text_prop "version" "4.0"; text_prop "fn" "Example Registrant";
         text_prop "org" "Example Organization";
         prop "adr" [("cc", JStr "US")] "text"
           (JArr (JStr <$> [""; ""; "123 Elm Street"; "Springfield"; "IL"; "62701"; ""]));
         tel_prop "voice" "tel:+1-217-555-0132";
         text_prop "email" "registrant@example.com"]].

Definition abuseEntity : rdap.Entity :=
  rdap.entity (rdap.common "entity" "ABUSE-NAME" [] [] [] ["active"])
    [JStr "vcard";
     JArr [text_prop "version" "4.0"; text_prop "fn" "Abuse Contact";
           tel_prop "voice" "tel:+1-555-123-4567"; text_prop "email" "abuse@example.com"]]
    ["abuse"] [].

Definition registrarEntity (d : domain.Domain) (agg : option domain.DomainAggregate)
    (registrarBaseURL : string) : rdap.Entity :=
  let card :=
    match agg ≫= domain.agg_Registrar with
    | Some reg => vcardToJCard (domain.ct_VCard reg) (domain.ct_Handle reg)
    | None => static_registrar_card
    end in
  rdap.entity
    (rdap.common "entity" (domain.Registrar d)
       [rdap.link registrarBaseURL "about" registrarBaseURL json_type] [] [abuseEntity]
       ["active"])
    card ["registrar"] [rdap.mkPublicID "IANA Registrar ID" (domain.Registrar d)].

(** The registrant entity; the static handle and card are replaced as far as the
    aggregate resolves them. *)
Definition registrantEntity (d : domain.Domain) (agg : option domain.DomainAggregate)
    : rdap.Entity :=
  let '(handle, card) :=
    match agg with
    | Some a =>
        match default [] (domain.Contacts d !! domain.RoleRegistrant) with
        | h :: _ =>
            (h, match domain.agg_Contacts a !! h with
                | Some c => vcardToJCard (domain.ct_VCard c) (domain.ct_Handle c)
                | None => static_registrant_card
                end)
        | [] => ("REG1-NAME", static_registrant_card)
        end
    | None => ("REG1-NAME", static_registrant_card)
    end in
  rdap.entity (rdap.common "entity" handle [] [] [] ["active"]) card ["registrant"] [].

Definition domain_secureDNS (d : domain.Domain) : rdap.SecureDNS :=
  match domain.d_SecureDNS d with
  | Some s => rdap.mkSecureDNS (domain.ZoneSigned s) (domain.DelegationSigned s)
                (domain.MaxSigLife s) [] []
  | None => rdap.mkSecureDNS false false None [] []
  end.

Definition domain_events (d : domain.Domain) (mode : string) : list rdap.Event :=
  let m := domain.d_Metadata d in
  [rdap.event "registration" (FormatTime (domain.CreatedAt m));
   rdap.event "last changed" (FormatTime (domain.UpdatedAt m));
   rdap.event "expiration" (FormatTime (domain.ExpiresAt d));
   rdap.event "last update of RDAP database" (FormatTime (domain.UpdatedAt m))]
  ++ (if String.eqb mode "registrar"
      then [rdap.event "registrar expiration" (FormatTime (domain.ExpiresAt d))] else []).

(** The links of a domain: itself, and the same name at its registrar. *)
Definition domain_links (requestURL baseURL registrarBaseURL ldhName : string) : list rdap.Link :=
  [rdap.link requestURL "self" (baseURL +:+ "/domain/" +:+ ldhName) json_type;
   rdap.link requestURL "related"
     (Strings.TrimRight registrarBaseURL "/" +:+ "/domain/" +:+ ldhName) json_type].
(** The [ttl0] member and the conformance. *)
Definition domain_extension (ext : option extensions) : option rdap.TTL0Data * rdap.Conformance :=
  match ext with
  | Some e => if ttl0 e
              then (ttl0Data (ttl0Domain e) (ttl0Remarks e), WithExtensions NewConformance2024 ["ttl0"])
              else (None, NewConformance2024)
  | None => (None, NewConformance2024)
  end.
(** The response object around the entities, nameservers and events. *)
Definition domain_response (d : domain.Domain) (links : list rdap.Link) (events : list rdap.Event)
    (entities : list rdap.Entity) (nameservers : list rdap.Nameserver) (secureDNS : rdap.SecureDNS)
    (ext : option extensions) (notices : list rdap.Notice) : rdap.Domain :=
  rdap.mkDomain
    (rdap.common "domain" (domain.d_Handle d) links events entities
       (statusValues (domain.d_Status d)))
    (domain_extension ext).2 (domain.LDHName d) (domain.UnicodeName d) [] nameservers
    (Some secureDNS) None notices [] (domain_extension ext).1.

Definition domainToRDAP (d : domain.Domain) (agg : option domain.DomainAggregate)
    (baseURL requestURL registrarBaseURL mode : string) (opts : option NoticeOptions)
    (ext : option extensions) : rdap.Domain :=
  let nameservers := embedded_nameserver baseURL ext <$> domain.Nameservers d in
  let domainEntities :=
    registrarEntity d agg registrarBaseURL
    :: (if String.eqb mode "registrar" then [registrantEntity d agg] else []) in
  domain_response d (domain_links requestURL baseURL registrarBaseURL (domain.LDHName d))
    (domain_events d mode) domainEntities nameservers (domain_secureDNS d) ext
    (NewNoticesWithICANN requestURL baseURL opts).

(** ** Notice options *)

Definition NoticeOptionsFromConfig (cfg : config.RDAPConfig) : NoticeOptions :=
  let custom :=
    (fun c => mkCustomNotice (config.Custom_Title c) (config.Custom_Description c)
                (config.Custom_URL c) (config.Custom_Rel c)) <$> config.CustomNotices cfg in
  match config.ToS cfg with
  | Some t => mkNoticeOptions (config.ToS_Title t) (config.ToS_Description t)
                (config.ToS_URL t) custom
  | None => mkNoticeOptions "" [] "" custom
  end.

(** ** Methods of [Service] *)

Section methods.
Context (s : Service).

Definition BaseURL : string := config.BaseURL (svc_cfg s).
Definition NoticeOptions' : option NoticeOptions := Some (NoticeOptionsFromConfig (svc_cfg s)).

Definition to_rdap (d : domain.Domain) (agg : option domain.DomainAggregate)
    (requestURL : string) : rdap.Domain :=
  domainToRDAP d agg (config.BaseURL (svc_cfg s)) requestURL
    (config.RegistrarBaseURL (svc_cfg s)) (config.Mode (svc_cfg s)) NoticeOptions'
    (Some (svc_ext s)).
Definition DomainToRDAP (d : domain.Domain) (requestURL : string) : rdap.Domain :=
  to_rdap d None requestURL.
Definition DomainAggregateToRDAP (agg : domain.DomainAggregate) (requestURL : string)
    : rdap.Domain := to_rdap (domain.agg_Domain agg) (Some agg) requestURL.
Definition EntityToRDAP (c : domain.Contact) (requestURL : string) : rdap.Entity :=
  entityToRDAP c (config.BaseURL (svc_cfg s)).
Definition NameserverToRDAP (ns : domain.NameServer) (requestURL : string) : rdap.Nameserver :=
  nameserverToRDAP ns (config.BaseURL (svc_cfg s)) (Some (svc_ext s)).
Definition IPNetworkToRDAP (n : domain.IPNetwork) (requestURL : string) : rdap.IPNetwork :=
  ipNetworkToRDAP n (config.BaseURL (svc_cfg s)) (Some (svc_ext s)).

Definition LookupDomain (name requestURL : string) : result rdap.Domain :=
  agg ← store.GetDomainAggregate (svc_store s) name;
  Ok (DomainAggregateToRDAP agg requestURL).
Definition LookupEntity (handle requestURL : string) : result rdap.Entity :=
  c ← store.LookupContact (svc_store s) handle; Ok (EntityToRDAP c requestURL).
Definition LookupNameserver `{UnicodeTables} (name requestURL : string)
    : result rdap.Nameserver :=
  ns ← store.LookupNameserver (svc_store s) (Strings.ToLower name);
  Ok (NameserverToRDAP ns requestURL).
Definition LookupIPNetwork (cidr requestURL : string) : result rdap.IPNetwork :=
  n ← store.LookupIPNetwork (svc_store s) cidr; Ok (IPNetworkToRDAP n requestURL).

(** Every search maps the objects of the store's answer in order. *)
Definition SearchDomainsByName (pattern : string) (limit : Z) (requestURL : string)
    : result (list rdap.Domain) :=
  ds ← store.SearchDomainsByName (svc_store s) pattern limit;
  Ok (List.map (fun d => DomainToRDAP d requestURL) ds).
Definition SearchDomainsByNS (nsName : string) (limit : Z) (requestURL : string)
    : result (list rdap.Domain) :=
  ds ← store.SearchDomainsByNS (svc_store s) nsName limit;
  Ok (List.map (fun d => DomainToRDAP d requestURL) ds).
Definition SearchEntitiesByName (pattern : string) (limit : Z) (requestURL : string)
    : result (list rdap.Entity) :=
  cs ← store.SearchContactsByName (svc_store s) pattern limit;
  Ok (List.map (fun c => EntityToRDAP c requestURL) cs).
Definition SearchEntitiesByHandle (pattern : string) (limit : Z) (requestURL : string)
    : result (list rdap.Entity) :=
  cs ← store.SearchContactsByHandle (svc_store s) pattern limit;
  Ok (List.map (fun c => EntityToRDAP c requestURL) cs).
Definition SearchNameserversByName (pattern : string) (limit : Z) (requestURL : string)
    : result (list rdap.Nameserver) :=
  ns ← store.SearchNameserversByName (svc_store s) pattern limit;
  Ok (List.map (fun n => NameserverToRDAP n requestURL) ns).
Definition SearchNameserversByIP (ip : string) (limit : Z) (requestURL : string)
    : result (list rdap.Nameserver) :=
  ns ← store.SearchNameserversByIP (svc_store s) ip limit;
  Ok (List.map (fun n => NameserverToRDAP n requestURL) ns).

Definition ReverseSearchDomainsByEntity (property pattern : string) (limit : Z)
    (requestURL : string) : result (list rdap.Domain) :=
  if negb (reverseSearch (svc_ext s))
  then Err (ErrSentinel store.ErrReverseSearchUnsupported)
  else
    ds ← store.ReverseSearchDomainsByEntity (svc_store s) property pattern limit;
    Ok (List.map (fun d => DomainToRDAP d requestURL) ds).

Definition ReverseSearchProperties : list rdap.ReverseSearchProperty :=
  if negb (reverseSearch (svc_ext s)) then []
  else rdap.mkRSProperty "domains" "entity" <$> ["handle"; "role"; "fn"; "email"].

End methods.

Definition reverse_paths : gmap string string :=
  <["handle" := "$.entities[*].handle"]> (<["role" := "$.entities[*].roles"]>
    (<["fn" := "$.entities[*].vcardArray[1][?(@[0]=='fn')][3]"]>
       (<["email" := "$.entities[*].vcardArray[1][?(@[0]=='email')][3]"]> ∅))).
Definition ReverseSearchMapping (properties : list string)
    : list rdap.ReverseSearchPropertiesMapping :=
  omap (fun p => path ← reverse_paths !! p; Some (rdap.mkRSMapping p path)) properties.

(** ** Reading a jCard *)

(** A property of a jCard: name, parameters, type and value (RFC 7095). *)
Record jprop := mkJprop {
  jp_name : string; jp_params : list (string * jany); jp_type : string; jp_value : jany
}.
Definition read_prop (p : jany) : option jprop :=
  match p with
  | JArr [JStr name; JObj params; JStr type; v] => Some (mkJprop name params type v)
  | _ => None
  end.
Definition read_jcard (l : list jany) : option (list jprop) :=
  match l with
  | [JStr tag; JArr ps] => if String.eqb tag "vcard" then mapM read_prop ps else None
  | _ => None
  end.
(** The values of a property, and of a telephone property of a given type. *)
Definition values (name : string) (ps : list jprop) : list jany :=
  jp_value <$> List.filter (fun p => String.eqb (jp_name p) name) ps.
Definition tel_values (kind : string) (ps : list jprop) : list jany :=
  jp_value <$> List.filter (fun p =>
    String.eqb (jp_name p) "tel"
    && match jp_params p with
       | [(k, JArr [JStr t])] => String.eqb k "type" && String.eqb t kind
       | _ => false
       end) ps.
(** The values of a parameter of a property. *)
Definition param_values (name param : string) (ps : list jprop) : list jany :=
  List.filter (fun p => String.eqb (jp_name p) name) ps ≫= fun p =>
    snd <$> List.filter (fun kv => String.eqb kv.1 param) (jp_params p).
(** No value for an empty field. *)
Definition field (v : string) : list jany := if String.eqb v "" then [] else [JStr v].

(** A result list within a limit *)
Definition within (limit : Z) {A} (r : result (list A)) : Prop :=
  match r with Ok l => Z.of_nat (length l) <= limit | Err _ => True end.

(** ** Properties *)

(** *** The card read back *)

Lemma vcardToJCard_read v h :
  exists ps, read_jcard (vcardToJCard v h) = Some ps
    /\ head ps = Some (mkJprop "version" [] "text" (JStr "4.0"))
    /\ values "fn" ps
       = [JStr (if String.eqb (from_option domain.FullName "" v) "" then h
                else from_option domain.FullName "" v)]
    /\ values "kind" ps = from_option (fun v => field (domain.Kind v)) [] v
    /\ values "org" ps = from_option (fun v => field (domain.Organization v)) [] v
    /\ values "adr" ps
       = from_option (fun v => from_option (fun a => [JArr (JStr <$>
           [domain.POBox a; domain.Extended a; domain.Street a; domain.Locality a;
            domain.Region a; domain.PostalCode a; domain.CountryName a])]) []
           (domain.Address v)) [] v
    /\ param_values "adr" "cc" ps
       = from_option (fun v => from_option (fun a => field (domain.CountryCode a)) []
           (domain.Address v)) [] v
    /\ tel_values "voice" ps = from_option (fun v => field (domain.VoiceTel v)) [] v
    /\ tel_values "fax" ps = from_option (fun v => field (domain.FaxTel v)) [] v
    /\ values "email" ps = from_option (fun v => field (domain.Email v)) [] v
    /\ values "contact-uri" ps = from_option (fun v => field (domain.ContactURI v)) [] v.
Proof.
  destruct v as [[ver fn kind org adr voice fax email uri]|]; simpl; [|eexists; by split_and!].
  unfold prop_if, field. destruct adr as [a|];
    destruct (String.eqb kind ""), (String.eqb org ""), (String.eqb voice ""),
      (String.eqb fax ""), (String.eqb email ""), (String.eqb uri "");
    eexists; split_and!; try done; unfold param_values; simpl; unfold field;
    by destruct (String.eqb (domain.CountryCode a) "").
Qed.

(** C32: every emitted vCard is a well-formed jCard whose first property is
    version 4.0 (whatever the version of the card), with exactly one [fn] (the full
    name, or the fallback handle when there is none), and every other field of the
    card can be read back from it, the seven parts of the address and its country
    code (the cc parameter) included. *)
Theorem vcardToJCard_spec v h :
  exists ps, read_jcard (vcardToJCard v h) = Some ps
    /\ head ps = Some (mkJprop "version" [] "text" (JStr "4.0"))
    /\ values "fn" ps
       = [JStr (if String.eqb (from_option domain.FullName "" v) "" then h
                else from_option domain.FullName "" v)]
    /\ values "kind" ps = from_option (fun v => field (domain.Kind v)) [] v
    /\ values "org" ps = from_option (fun v => field (domain.Organization v)) [] v
    /\ values "adr" ps
       = from_option (fun v => from_option (fun a => [JArr (JStr <$>
           [domain.POBox a; domain.Extended a; domain.Street a; domain.Locality a;
            domain.Region a; domain.PostalCode a; domain.CountryName a])]) []
           (domain.Address v)) [] v
    /\ param_values "adr" "cc" ps
       = from_option (fun v => from_option (fun a => field (domain.CountryCode a)) []
           (domain.Address v)) [] v
    /\ tel_values "voice" ps = from_option (fun v => field (domain.VoiceTel v)) [] v
    /\ tel_values "fax" ps = from_option (fun v => field (domain.FaxTel v)) [] v
    /\ values "email" ps = from_option (fun v => field (domain.Email v)) [] v
    /\ values "contact-uri" ps = from_option (fun v => field (domain.ContactURI v)) [] v.
Proof. apply vcardToJCard_read. Qed.

Lemma reverse_paths_iff p :
  is_Some (reverse_paths !! p) <-> p ∈ ["handle"; "role"; "fn"; "email"].
Proof.
  unfold reverse_paths. rewrite !lookup_insert_is_Some', !elem_of_cons, elem_of_nil.
  rewrite lookup_empty, <-not_eq_None_Some. naive_solver.
Qed.

Section properties.
Context (st : store.Interface) `{!store.StoreSpec st} (cfg : config.RDAPConfig).
Implicit Types (name url : string) (d : domain.Domain).

Lemma LookupDomain_found name url d :
  store.LookupDomain st name = Ok d ->
  exists agg, store.coherent st name agg /\ domain.agg_Domain agg = d
    /\ LookupDomain (New st cfg) name url = Ok (to_rdap (New st cfg) d (Some agg) url).
Proof.
  intros Hd. destruct (store.spec_found name d Hd) as [agg Ha]. exists agg.
  pose proof (store.spec_coherent name agg Ha) as Hc.
  assert (domain.agg_Domain agg = d) as E.
  { pose proof (store.coherent_domain _ _ _ Hc) as H'. congruence. }
  split; [done|]. split; [done|]. unfold LookupDomain. simpl. rewrite Ha. simpl.
  unfold DomainAggregateToRDAP. by rewrite E.
Qed.

Lemma LookupDomain_missing name url e :
  store.LookupDomain st name = Err e -> exists e', LookupDomain (New st cfg) name url = Err e'.
Proof.
  intros Hd. unfold LookupDomain. simpl.
  destruct (store.GetDomainAggregate st name) as [agg|e'] eqn:Ha; [|by exists e'].
  pose proof (store.coherent_domain _ _ _ (store.spec_coherent _ _ Ha)). congruence.
Qed.
Lemma registrant_roles d agg : rdap.Roles (registrantEntity d agg) = ["registrant"].
Proof. unfold registrantEntity. by destruct (match agg with Some _ => _ | None => _ end). Qed.
Lemma to_rdap_entities s d agg url :
  rdap.c_Entities (rdap.d_Common (to_rdap s d agg url))
  = registrarEntity d agg (config.RegistrarBaseURL (svc_cfg s))
    :: (if String.eqb (config.Mode (svc_cfg s)) "registrar" then [registrantEntity d agg] else []).
Proof. unfold to_rdap, domainToRDAP. by destruct (ttl0 (svc_ext s)). Qed.
Lemma expiration_event d mode :
  "registrar expiration" ∈ rdap.EventAction <$> domain_events d mode <-> mode = "registrar".
Proof.
  unfold domain_events. destruct (String.eqb_spec mode "registrar") as [->|Hm]; simpl.
  - split; [done|]. intros _. do 4 right. left.
  - rewrite !elem_of_cons, elem_of_nil. naive_solver.
Qed.

(** C25: over any store that meets the storage contract, a domain lookup succeeds
    exactly when the store knows the domain, and its answer carries the domain's
    identity, statuses and hosts in order, the 2024 conformance (with [ttl0]
    exactly when enabled), a registrar entity, and a registrant entity and the
    registrar-expiration event exactly in registrar mode. *)
Theorem LookupDomain_spec name url :
  match store.LookupDomain st name with
  | Ok d => exists out, LookupDomain (New st cfg) name url = Ok out
      /\ rdap.LDHName out = domain.LDHName d
      /\ rdap.Handle (rdap.d_Common out) = domain.d_Handle d
      /\ rdap.Status (rdap.d_Common out) = domain.status_Value <$> domain.d_Status d
      /\ (fun n => (rdap.Handle (rdap.ns_Common n), rdap.ns_LDHName n)) <$> rdap.Nameservers out
         = (fun n => (domain.ns_Handle n, domain.ns_LDHName n)) <$> domain.Nameservers d
      /\ rdap.Roles <$> rdap.c_Entities (rdap.d_Common out)
         = ["registrar"] :: (if String.eqb (config.Mode cfg) "registrar"
                             then [["registrant"]] else [])
      /\ ("registrar expiration" ∈ rdap.EventAction <$> rdap.Events (rdap.d_Common out)
          <-> config.Mode cfg = "registrar")
      /\ rdap.conf_ids (rdap.d_Conformance out)
         = rdap.conf_ids NewConformance2024
           ++ (if config.ExtensionsEnabled cfg "ttl0" then ["ttl0"] else [])
  | Err _ => exists e, LookupDomain (New st cfg) name url = Err e
  end.
Proof.
  destruct (store.LookupDomain st name) as [d|e] eqn:Hd.
  - destruct (LookupDomain_found name url d Hd) as (agg & _ & _ & E).
    eexists. split; [exact E|]. unfold to_rdap, domainToRDAP. simpl.
    destruct (config.ExtensionsEnabled cfg "ttl0"); simpl; split_and!; try done.
    all: rewrite <-?list_fmap_compose; try done.
    all: try apply expiration_event.
    all: destruct (String.eqb (config.Mode cfg) "registrar"); simpl; by rewrite ?registrant_roles.
  - by eapply LookupDomain_missing.
Qed.

(** C26: a registrar the store resolves is always rendered from its own record:
    the first entity of the answer has the registrar's handle and a jCard whose
    name is the contact's full name, or its handle when it has none, never the
    placeholder. *)
Theorem LookupDomain_registrar name url d c :
  store.LookupDomain st name = Ok d ->
  store.LookupContact st (domain.Registrar d) = Ok c ->
  exists out ent rest ps, LookupDomain (New st cfg) name url = Ok out
    /\ rdap.c_Entities (rdap.d_Common out) = ent :: rest
    /\ rdap.Handle (rdap.ent_Common ent) = domain.Registrar d
    /\ read_jcard (rdap.VCardArray ent) = Some ps
    /\ values "fn" ps
       = [JStr (let fn := from_option domain.FullName "" (domain.ct_VCard c) in
                if String.eqb fn "" then domain.ct_Handle c else fn)].
Proof.
  intros Hd Hc. destruct (LookupDomain_found name url d Hd) as (agg & Hco & <- & E).
  destruct (vcardToJCard_read (domain.ct_VCard c) (domain.ct_Handle c)) as (ps & Hps & _ & Hfn & _).
  do 4 eexists. split; [exact E|]. rewrite to_rdap_entities. split; [done|]. split; [done|].
  apply (store.coherent_registrar _ _ _ Hco) in Hc. simpl. rewrite Hc. eauto.
Qed.

(** In registrar mode the registrant entity is rendered from the stored
    contact of the first registrant handle whenever the store resolves it. *)
Theorem LookupDomain_registrant name url d h hs c :
  config.Mode cfg = "registrar" ->
  store.LookupDomain st name = Ok d ->
  domain.Contacts d !! domain.RoleRegistrant = Some (h :: hs) ->
  store.LookupContact st h = Ok c ->
  exists out ent, LookupDomain (New st cfg) name url = Ok out
    /\ rdap.c_Entities (rdap.d_Common out) !! 1%nat = Some ent
    /\ rdap.Roles ent = ["registrant"]
    /\ rdap.Handle (rdap.ent_Common ent) = h
    /\ rdap.VCardArray ent = vcardToJCard (domain.ct_VCard c) (domain.ct_Handle c).
Proof.
  intros Hm Hd Hr Hc. destruct (LookupDomain_found name url d Hd) as (agg & Hco & <- & E).
  do 2 eexists. split; [exact E|]. rewrite to_rdap_entities. simpl. rewrite Hm.
  split; [done|]. unfold registrantEntity. rewrite Hr. simpl.
  by rewrite (store.coherent_roles _ _ _ Hco _ _ h c Hr ltac:(left) Hc).
Qed.

(** No search answer is longer than a positive limit. *)
Lemma searches_within p q limit url :
  0 < limit ->
  let s := New st cfg in
  within limit (SearchDomainsByName s p limit url) /\ within limit (SearchDomainsByNS s p limit url)
  /\ within limit (SearchEntitiesByName s p limit url) /\ within limit (SearchEntitiesByHandle s p limit url)
  /\ within limit (SearchNameserversByName s p limit url) /\ within limit (SearchNameserversByIP s p limit url)
  /\ within limit (ReverseSearchDomainsByEntity s p q limit url).
Proof.
  intros Hl s.
  assert (L : forall A B (f : A -> B) (r : Z -> result (list A)), store.bounded r ->
    within limit (r limit ≫= fun l => Ok (List.map f l))).
  { intros A B f r Hr. destruct (r limit) as [l|] eqn:E; simpl; [|done].
    rewrite length_map. by eapply Hr. }
  split_and!.
  - apply (L _ _ _ (store.SearchDomainsByName st p)), store.spec_domains.
  - apply (L _ _ _ (store.SearchDomainsByNS st p)), store.spec_domains_ns.
  - apply (L _ _ _ (store.SearchContactsByName st p)), store.spec_contacts.
  - apply (L _ _ _ (store.SearchContactsByHandle st p)), store.spec_contacts_handle.
  - apply (L _ _ _ (store.SearchNameserversByName st p)), store.spec_nameservers.
  - apply (L _ _ _ (store.SearchNameserversByIP st p)), store.spec_nameservers_ip.
  - unfold ReverseSearchDomainsByEntity. destruct (negb _); [done|].
    apply (L _ _ _ (store.ReverseSearchDomainsByEntity st p q)), store.spec_reverse.
Qed.

(** Reverse search is all or nothing: disabled, every query fails with the
    unsupported sentinel and nothing is advertised; enabled, the query goes to
    the store and exactly the four properties that have a JSON path are
    advertised. *)
Theorem ReverseSearch_gate property pattern limit url :
  let s := New st cfg in
  if config.ExtensionsEnabled cfg "reverse_search"
  then ReverseSearchDomainsByEntity s property pattern limit url
       = (ds ← store.ReverseSearchDomainsByEntity st property pattern limit;
          Ok (List.map (fun d => DomainToRDAP s d url) ds))
       /\ (forall p, p ∈ rdap.rsp_Property <$> ReverseSearchProperties s
             <-> ReverseSearchMapping [p] <> [])
  else (exists e, ReverseSearchDomainsByEntity s property pattern limit url = Err e
          /\ errors_Is e store.ErrReverseSearchUnsupported = true)
       /\ ReverseSearchProperties s = [].
Proof.
  intros s. unfold ReverseSearchDomainsByEntity, ReverseSearchProperties, s. simpl.
  destruct (config.ExtensionsEnabled cfg "reverse_search"); simpl.
  - split; [done|]. intros p. rewrite <-reverse_paths_iff. unfold ReverseSearchMapping. simpl.
    destruct (reverse_paths !! p) as [path|]; simpl; [|split; [intros []%is_Some_None|done]].
    split; [done|by eexists].
  - split; [|done]. eexists. split; [done|]. apply String.eqb_refl.
Qed.

End properties.

(** The cidr0 entry of a well-formed CIDR carries the address as written
    (not the network address) and the written prefix length; anything else gives
    no entry.  An IPv4-mapped IPv6 CIDR becomes an IPv4 prefix that keeps its
    IPv6 length, up to 128. *)
Theorem cidr0FromCIDR_spec cidr :
  match cidr0FromCIDR cidr with
  | Some e => exists i a n, index_byte "/"%char (bs cidr) = Some i
      /\ Netip.ParseAddr (sb (take i (bs cidr))) = Some a
      /\ Net.dtoi (drop (S i) (bs cidr)) = Some n
      /\ 0 <= n <= Netip.BitLen a
      /\ e = match Net.To4 (Netip.As16 a) with
             | Some b => rdap.mkCIDR0 (Net.ip_string b) "" n
             | None => rdap.mkCIDR0 "" (Net.ip_string (Netip.As16 a)) n
             end
  | None => Net.ParseCIDR cidr = None
  end.
Proof.
  unfold cidr0FromCIDR, Net.ParseCIDR.
  destruct (index_byte _ _) as [i|]; simpl; [|done].
  destruct (Netip.ParseAddr _) as [a|] eqn:Ea; simpl; [|done].
  destruct (negb _); simpl; [done|].
  destruct (Net.dtoi _) as [n|] eqn:En; simpl; [|done].
  destruct (Netip.BitLen a <? n) eqn:Eb; simpl; [done|]. to_prop.
  assert (0 <= n).
  { unfold Net.dtoi in En. destruct (digits _) eqn:Ed; [|done]. simpl in En.
    case_match; simplify_eq. by eapply digits_nonneg. }
  rewrite mask_ones_CIDRMask by lia.
  destruct (Net.To4 (Netip.As16 a)) as [b|] eqn:E4; exists i, a, n; rewrite E4; split_and!; done.
Qed.

(** In the extension data of an IP network, the geofeed link appears exactly
    when the extension is enabled with a URL, and the cidr0 entries exactly when
    that extension is, one for each well-formed CIDR of the network. *)
Theorem IPNetworkToRDAP_extensions st cfg n url :
  let out := IPNetworkToRDAP (New st cfg) n url in
  ("geofeed" ∈ rdap.l_Rel <$> rdap.Links (rdap.net_Common out)
    <-> config.ExtensionsEnabled cfg "geofeed1" = true
        /\ exists g, config.Geofeed cfg = Some g /\ config.Geofeed_URL g <> "")
  /\ rdap.CIDR0CIDRs out
     = (if config.ExtensionsEnabled cfg "cidr0" then omap cidr0FromCIDR (domain.CIDR n) else [])
  /\ rdap.CIDR out = domain.CIDR n
  /\ head (rdap.l_Rel <$> rdap.Links (rdap.net_Common out)) = Some "self".
Proof.
  unfold IPNetworkToRDAP, ipNetworkToRDAP. simpl. split_and!; try done.
  destruct (config.ExtensionsEnabled cfg "geofeed1"), (config.Geofeed cfg) as [g|]; simpl;
    try destruct (String.eqb_spec (config.Geofeed_URL g) ""); simpl;
    rewrite ?elem_of_cons, ?elem_of_nil; naive_solver.
Qed.

(** ** Witnesses: the seeded memory store *)

Section witnesses.
#[local] Existing Instances ascii_tables range_backward glob_engine.

Definition demo : store.Interface := memory.interface memory.demo.
#[local] Instance demo_spec : store.StoreSpec demo.
Proof. apply memory.interface_spec. Qed.
Definition demo_domain : domain.Domain := memory.seed_domain zero_time.
Definition demo_registrar : domain.Contact := memory.seed_registrar zero_time.
Definition demo_registrant : domain.Contact := memory.seed_registrant zero_time.

Lemma LookupDomain_spec_witness :
  exists out, LookupDomain (New demo config.sample_rdap) "example.com" "u" = Ok out
    /\ rdap.Roles <$> rdap.c_Entities (rdap.d_Common out) = [["registrar"]; ["registrant"]].
Proof.
  pose proof (LookupDomain_spec demo config.sample_rdap "example.com" "u") as L.
  replace (store.LookupDomain demo "example.com") with (Ok demo_domain) in L
    by (vm_compute; reflexivity).
  destruct L as (out & E & _ & _ & _ & _ & R & _). exists out. split; [exact E|exact R].
Defined.
Lemma LookupDomain_registrar_witness :
  exists out, LookupDomain (New demo config.sample_rdap) "example.com" "u" = Ok out.
Proof.
  destruct (LookupDomain_registrar demo config.sample_rdap "example.com" "u" demo_domain
              demo_registrar) as (out & ent & rest & ps & E & _);
    [vm_compute; reflexivity|vm_compute; reflexivity|eauto].
Defined.
Lemma LookupDomain_registrant_witness :
  exists out ent, LookupDomain (New demo config.sample_rdap) "example.com" "u" = Ok out
    /\ rdap.c_Entities (rdap.d_Common out) !! 1%nat = Some ent
    /\ rdap.Handle (rdap.ent_Common ent) = "REG1-NAME".
Proof.
  destruct (LookupDomain_registrant demo config.sample_rdap "example.com" "u" demo_domain
              "REG1-NAME" [] demo_registrant) as (out & ent & E1 & E2 & _ & E3 & _);
    [reflexivity|vm_compute; reflexivity|vm_compute; reflexivity|vm_compute; reflexivity|eauto].
Defined.

End witnesses.
End service.
