(* ===== verification/RdapTypes.v ===== *)
(** * The types of RDAP documents

    A schema for the JSON of internal/rdap/models.go, one class of objects per
    RFC 9083 object class and answer, and a typing judgement for JSON trees.  The
    mappings of internal/service are typed: whatever the store and the
    configuration hold, the objects they build have the members of their class,
    each at most once, with values of the right type, and a bounded nesting. *)

From stdpp Require Import base tactics option list gmap strings.
From Stdlib Require Import ZArith Lia.
From S2P Require Import Prelude GoStrings GoTime GoNet Config Domain RdapModels GoJson GoJsonEncode RdapJson Rdap GoRegexp Store MemoryStore Service.
#[local] Open Scope Z_scope.

Module rdaptypes.
Import encoder rdapjson.

(** ** Schema *)

(** The classes of objects. *)
Inductive class : Type :=
  | CLink | CEvent | CNotice | CRemark | CPublicID | CCidr0 | CEntity | CNetwork | CTtl0 | CIPAddrs
  | CNameserver | CVariantName | CVariant | CDS | CKey | CSecureDNS | CDomain
  | CMapping | CProperty | CProvider | CFarv1
  | CHelp | CEntityAnswer | CNameserverAnswer | CNetworkAnswer | CAutnumAnswer
  | CDomains | CReverse | CEntities | CNameservers | CError.

Inductive ty : Type :=
  | TStr                       (* any string *)
  | TLit (s : string)          (* this string *)
  | TInt                       (* an integer *)
  | TBool
  | TCard                      (* a jCard, RFC 7095 *)
  | TMap                       (* an object from names to integers *)
  | TArr (t : ty)              (* an array that is not empty *)
  | TRef (c : class).          (* an object of a class *)

(** A member: its name, whether it is required, its type. *)
Record member_type := mkMember { mt_name : string; mt_required : bool; mt_type : ty }.
Definition req (name : string) (t : ty) : member_type := mkMember name true t.
Definition opt (name : string) (t : ty) : member_type := mkMember name false t.

Definition strs : ty := TArr TStr.
Definition notices_opt : list member_type := [opt "notices" (TArr (TRef CNotice))].
Definition notices_req : list member_type := [req "notices" (TArr (TRef CNotice))].
Definition conformance_req : list member_type := [req "rdapConformance" strs].

(** The members every object class shares, [own] being the notices in place. *)
Definition common_members (name : string) (own : list member_type) : list member_type :=
  [req "objectClassName" (TLit name); opt "handle" TStr; opt "links" (TArr (TRef CLink));
   opt "events" (TArr (TRef CEvent))] ++ own
  ++ [opt "remarks" (TArr (TRef CRemark)); opt "port43" TStr; opt "entities" (TArr (TRef CEntity));
      opt "status" strs].
Definition network_members (own : list member_type) : list member_type :=
  common_members "ip network" own
  ++ [opt "startAddress" TStr; opt "endAddress" TStr; opt "ipVersion" TStr; opt "cidr" strs;
      opt "name" TStr; opt "type" TStr; opt "country" TStr; opt "parentHandle" TStr;
      opt "cidr0_cidrs" (TArr (TRef CCidr0))].
Definition entity_members (own : list member_type) : list member_type :=
  common_members "entity" own
  ++ [opt "vcardArray" TCard; opt "roles" strs; opt "publicIds" (TArr (TRef CPublicID));
      opt "networks" (TArr (TRef CNetwork)); opt "asEventActor" TBool].
Definition nameserver_members (own : list member_type) : list member_type :=
  common_members "nameserver" own
  ++ [opt "ldhName" TStr; opt "unicodeName" TStr; opt "ipAddresses" (TRef CIPAddrs);
      opt "ttl0_data" (TRef CTtl0)].
Definition search_members (results : string) (c : class) (mapping : bool) : list member_type :=
  conformance_req ++ [opt results (TArr (TRef c))] ++ notices_req
  ++ [mkMember "reverse_search_properties_mapping" mapping (TArr (TRef CMapping))].

(** The members of a class, in the order of the document. *)
Definition members (c : class) : list member_type :=
  match c with
  | CLink => [opt "value" TStr; opt "rel" TStr; opt "href" TStr; opt "type" TStr; opt "title" TStr]
  | CEvent => [opt "eventAction" TStr; opt "eventDate" TStr; opt "eventActor" TStr]
  | CNotice | CRemark =>
      [opt "title" TStr; opt "type" TStr; opt "description" strs; opt "links" (TArr (TRef CLink))]
  | CPublicID => [opt "type" TStr; opt "identifier" TStr]
  | CCidr0 => [opt "v4prefix" TStr; opt "v6prefix" TStr; req "length" TInt]
  | CEntity => entity_members notices_opt
  | CNetwork => network_members notices_opt
  | CTtl0 => [req "values" TMap; opt "remarks" (TArr (TRef CRemark))]
  | CIPAddrs => [opt "v4" strs; opt "v6" strs]
  | CNameserver => nameserver_members notices_opt
  | CVariantName => [opt "ldhName" TStr; opt "unicodeName" TStr]
  | CVariant => [opt "relation" strs; opt "idnTable" TStr; opt "variantNames" (TArr (TRef CVariantName))]
  | CDS => [opt "keyTag" TInt; opt "algorithm" TInt; opt "digestType" TInt; opt "digest" TStr;
            opt "events" (TArr (TRef CEvent)); opt "links" (TArr (TRef CLink))]
  | CKey => [opt "flags" TInt; opt "protocol" TInt; opt "algorithm" TInt; opt "publicKey" TStr;
             opt "events" (TArr (TRef CEvent)); opt "links" (TArr (TRef CLink))]
  | CSecureDNS => [req "zoneSigned" TBool; req "delegationSigned" TBool; opt "maxSigLife" TInt;
                   opt "dsData" (TArr (TRef CDS)); opt "keyData" (TArr (TRef CKey))]
  | CDomain =>
      common_members "domain" [] ++ conformance_req
      ++ [opt "ldhName" TStr; opt "unicodeName" TStr; opt "variants" (TArr (TRef CVariant));
          opt "nameservers" (TArr (TRef CNameserver)); req "secureDNS" (TRef CSecureDNS);
          opt "network" (TRef CNetwork)] ++ notices_req
      ++ [opt "publicIds" (TArr (TRef CPublicID)); opt "ttl0_data" (TRef CTtl0)]
  | CMapping => [req "property" TStr; req "propertyPath" TStr]
  | CProperty => [req "searchableResourceType" TStr; req "relatedResourceType" TStr; req "property" TStr]
  | CProvider => [req "iss" TStr; req "name" TStr; opt "default" TBool]
  | CFarv1 =>
      [req "sessionClientSupported" TBool; req "tokenClientSupported" TBool; req "dntSupported" TBool;
       opt "providerDiscoverySupported" TBool; opt "issuerIdentifierSupported" TBool;
       opt "implicitTokenRefreshSupported" TBool; opt "openidcProviders" (TArr (TRef CProvider))]
  | CHelp => conformance_req ++ notices_req
      ++ [opt "reverse_search_properties" (TArr (TRef CProperty));
          opt "farv1_openidcConfiguration" (TRef CFarv1)]
  | CEntityAnswer => entity_members [] ++ conformance_req ++ notices_req
  | CNameserverAnswer => nameserver_members [] ++ conformance_req ++ notices_req
  | CNetworkAnswer => network_members [] ++ conformance_req ++ notices_req
  | CAutnumAnswer =>
      (common_members "autnum" []
       ++ [opt "startAutnum" TInt; opt "endAutnum" TInt; opt "name" TStr; opt "type" TStr;
           opt "country" TStr]) ++ conformance_req ++ notices_req
  | CDomains => search_members "domainSearchResults" CDomain false
  | CReverse => search_members "domainSearchResults" CDomain true
  | CEntities => search_members "entitySearchResults" CEntity false
  | CNameservers => search_members "nameserverSearchResults" CNameserver false
  | CError => conformance_req ++ [req "errorCode" TInt; req "title" TStr; req "description" strs]
      ++ notices_opt
  end.

(** ** Typing *)

Definition is_str (v : jany) : bool := match v with JStr _ => true | _ => false end.
Definition text_or_texts (v : jany) : bool :=
  match v with JStr _ => true | JArr l => forallb is_str l | _ => false end.
(** A property of a jCard: name, parameters, type, value. *)
Definition card_property (v : jany) : bool :=
  match v with
  | JArr [JStr _; JObj params; JStr _; v] =>
      forallb (fun p => text_or_texts p.2) params && text_or_texts v
  | _ => false
  end.
Definition property_named (name : string) (v : jany) : bool :=
  match v with JArr (JStr n :: _) => String.eqb n name | _ => false end.
(** The tag, the version first, a formatted name. *)
Definition is_card (v : jany) : bool :=
  match v with
  | JArr [JStr tag; JArr (version :: ps)] =>
      String.eqb tag "vcard" && property_named "version" version
      && existsb (property_named "fn") ps && forallb card_property (version :: ps)
  | _ => false
  end.

(** [has n v t]: the tree [v] has type [t] and at most [n] levels of brackets. *)
Inductive has : nat -> jany -> ty -> Prop :=
  | has_str n s : has n (JStr s) TStr
  | has_lit n s : to_valid s = s -> has n (JStr s) (TLit s)
  | has_int n z : has n (int_json z) TInt
  | has_bool n b : has n (JBool b) TBool
  | has_card n v : is_card v = true -> has (5 + n) v TCard
  | has_map n ms : Forall (fun m => exists z, m.2 = int_json z) ms -> has (S n) (JObj ms) TMap
  | has_arr n v vs t : has_all n (v :: vs) t -> has (S n) (JArr (v :: vs)) (TArr t)
  | has_obj n ms c : has_members n ms (members c) -> has (S n) (JObj ms) (TRef c)
with has_all : nat -> list jany -> ty -> Prop :=
  | all_nil n t : has_all n [] t
  | all_cons n v vs t : has n v t -> has_all n vs t -> has_all n (v :: vs) t
with has_members : nat -> list (string * jany) -> list member_type -> Prop :=
  | members_nil n : has_members n [] []
  | members_take n k v ms r t mts :
      has n v t -> has_members n ms mts -> has_members n ((k, v) :: ms) (mkMember k r t :: mts)
  | members_skip n ms k t mts :
      has_members n ms mts -> has_members n ms (mkMember k false t :: mts).
Scheme has_mut := Induction for has Sort Prop
  with has_all_mut := Induction for has_all Sort Prop
  with has_members_mut := Induction for has_members Sort Prop.
Combined Scheme has_ind3 from has_mut, has_all_mut, has_members_mut.

(** ** The schema is well formed *)

(** The member names of a class are distinct and plain ASCII. *)
Lemma members_distinct c : NoDup (mt_name <$> members c).
Proof. apply (bool_decide_unpack _). destruct c; vm_compute; exact I. Qed.
Definition plain (mts : list member_type) : Prop := Forall (fun m => to_valid (mt_name m) = mt_name m) mts.
Lemma members_plain c : plain (members c).
Proof.
  assert (E : forallb (fun m => String.eqb (to_valid (mt_name m)) (mt_name m)) (members c) = true)
    by (destruct c; vm_compute; reflexivity).
  rewrite forallb_forall in E. apply Forall_forall. intros m Hm.
  by apply String.eqb_eq, E, list_elem_of_In.
Qed.

(** ** What typing gives *)

Lemma has_members_names n ms mts : has_members n ms mts -> ms.*1 `sublist_of` (mt_name <$> mts).
Proof. induction 1; simpl; [constructor|by constructor|by constructor]. Qed.
(** An object of a class names no member twice. *)
Lemma has_distinct n ms c : has n (JObj ms) (TRef c) -> NoDup ms.*1.
Proof.
  inversion 1 as [| | | | | | |? ? ? Hm]; subst. eapply sublist_NoDup; [apply members_distinct|].
  by eapply has_members_names.
Qed.
Lemma has_members_required n ms mts k t :
  has_members n ms mts -> mkMember k true t ∈ mts -> exists v, (k, v) ∈ ms /\ has n v t.
Proof.
  induction 1 as [|n k' v ms r t' mts Hv Hm IH|n ms k' t' mts Hm IH]; [by intros ?%elem_of_nil| |].
  - intros [[= -> <- ->]|Hin]%elem_of_cons; [exists v; split; [left|done]|].
    destruct (IH Hin) as (w & Hw & Ht). exists w. split; [by right|done].
  - intros [[=]|Hin]%elem_of_cons. by apply IH.
Qed.

Lemma literals_foldr {A} (f : A -> Prop) l : Forall f l -> foldr (fun x p => f x /\ p) True l.
Proof. induction 1; simpl; done. Qed.
Lemma text_literals v : text_or_texts v = true -> literals v.
Proof.
  destruct v as [| | | |l|]; try done. intros Hl. apply (literals_foldr literals), Forall_forall.
  intros x Hx. simpl in Hl. rewrite forallb_forall in Hl. apply list_elem_of_In, Hl in Hx. by destruct x.
Qed.
Lemma property_literals v : card_property v = true -> literals v.
Proof.
  destruct v as [| | | |[|[| | |a| |] [|[| | | | |ps] [|[| | |b| |] [|v [|]]]]]|]; try done.
  simpl. intros [Hp Hv]%andb_true_iff. split; [done|]. split; [|by split; [|split; [apply text_literals|]]].
  apply (literals_foldr (fun m => literals m.2)), Forall_forall. intros m Hm.
  rewrite forallb_forall in Hp. by apply text_literals, Hp, list_elem_of_In.
Qed.
Lemma card_literals v : is_card v = true -> literals v.
Proof.
  destruct v as [| | | |[|[| | |tag| |] [|[| | | |[|p ps]|] [|]]]|]; try done.
  unfold is_card. intros [_ Hps]%andb_true_iff. split; [done|]. split; [|done].
  apply (literals_foldr literals), Forall_forall. intros q Hq.
  rewrite forallb_forall in Hps. by apply property_literals, Hps, list_elem_of_In.
Qed.

(** *** Nesting *)

Lemma depth_le_all (l : list jany) n :
  Forall (fun v => depth v <= n) l -> 0 <= n -> foldr (fun v m => Z.max (depth v) m) 0 l <= n.
Proof. induction 1; simpl; lia. Qed.
Lemma depth_le_members (l : list (string * jany)) n :
  Forall (fun m => depth m.2 <= n) l -> 0 <= n -> foldr (fun m k => Z.max (depth m.2) k) 0 l <= n.
Proof. induction 1; simpl; lia. Qed.
Lemma text_depth v : text_or_texts v = true -> depth v <= 1.
Proof.
  destruct v as [| | | |l|]; try done. intros Hl. simpl. pose proof (depth_le_all l 0) as D.
  apply Z.le_trans with (1 + 0); [|lia]. apply Zplus_le_compat_l, D; [|lia].
  apply Forall_forall. intros x Hx. simpl in Hl. rewrite forallb_forall in Hl.
  apply list_elem_of_In, Hl in Hx. by destruct x.
Qed.
Lemma property_depth v : card_property v = true -> depth v <= 3.
Proof.
  destruct v as [| | | |[|[| | |a| |] [|[| | | | |ps] [|[| | |b| |] [|v [|]]]]]|]; try done.
  simpl. intros [Hp Hv]%andb_true_iff. apply text_depth in Hv.
  assert (D : foldr (fun m k => Z.max (depth m.2) k) 0 ps <= 1).
  { apply depth_le_members; [|lia]. apply Forall_forall. intros m Hm.
    rewrite forallb_forall in Hp. by apply text_depth, Hp, list_elem_of_In. }
  lia.
Qed.
Lemma card_depth v : is_card v = true -> depth v <= 5.
Proof.
  destruct v as [| | | |[|[| | |tag| |] [|[| | | |[|p ps]|] [|]]]|]; try done.
  unfold is_card. intros [_ Hps]%andb_true_iff.
  assert (D : foldr (fun v m => Z.max (depth v) m) 0 (p :: ps) <= 3).
  { apply depth_le_all; [|lia]. apply Forall_forall. intros q Hq.
    rewrite forallb_forall in Hps. by apply property_depth, Hps, list_elem_of_In. }
  cbn [depth foldr] in *. lia.
Qed.

Lemma has_bounds :
  (forall n v t, has n v t -> literals v /\ depth v <= Z.of_nat n)
  /\ (forall n vs t, has_all n vs t -> Forall (fun v => literals v /\ depth v <= Z.of_nat n) vs)
  /\ (forall n ms mts, has_members n ms mts ->
        Forall (fun m => literals m.2 /\ depth m.2 <= Z.of_nat n) ms).
Proof.
  apply has_ind3; try (by intros; split; [done|simpl; lia]); try (by constructor); try done.
  - intros n z. split; [apply literal_Itoa|simpl; lia].
  - intros n v Hv. split; [by apply card_literals|]. apply card_depth in Hv. lia.
  - intros n ms Hms. split.
    + apply (literals_foldr (fun m => literals m.2)). eapply Forall_impl; [done|].
      intros m [z ->]. apply literal_Itoa.
    + cbn [depth]. pose proof (depth_le_members ms 0) as D.
      assert (foldr (fun m k => Z.max (depth m.2) k) 0 ms <= 0); [|lia].
      apply D; [|lia]. eapply Forall_impl; [done|]. by intros m [z ->].
  - intros n v vs t _ IH. split.
    + apply (literals_foldr literals). by eapply Forall_impl; [done|intros x []].
    + cbn [depth]. pose proof (depth_le_all (v :: vs) (Z.of_nat n)) as D.
      assert (foldr (fun v m => Z.max (depth v) m) 0 (v :: vs) <= Z.of_nat n); [|lia].
      apply D; [|lia]. by eapply Forall_impl; [done|intros x []].
  - intros n ms c _ IH. split.
    + apply (literals_foldr (fun m => literals m.2)). by eapply Forall_impl; [done|intros x []].
    + cbn [depth]. pose proof (depth_le_members ms (Z.of_nat n)) as D.
      assert (foldr (fun m k => Z.max (depth m.2) k) 0 ms <= Z.of_nat n); [|lia].
      apply D; [|lia]. by eapply Forall_impl; [done|intros x []].
Qed.
Lemma has_literals n v t : has n v t -> literals v.
Proof. by intros []%has_bounds. Qed.

(** *** Texts *)

(** What the encoder replaces in a string changes no type. *)
Lemma is_str_scrub v : is_str (scrub v) = is_str v.
Proof. by destruct v. Qed.
Lemma forallb_map {A B} (f : B -> bool) (g : A -> B) l :
  forallb f (List.map g l) = forallb (fun x => f (g x)) l.
Proof. induction l; simpl; congruence. Qed.
Lemma forallb_eq {A} (f g : A -> bool) l : (forall x, f x = g x) -> forallb f l = forallb g l.
Proof. intros Hf. induction l; simpl; congruence. Qed.
Lemma text_scrub v : text_or_texts (scrub v) = text_or_texts v.
Proof.
  destruct v as [| | | |l|]; try done. simpl. rewrite forallb_map. by apply forallb_eq, is_str_scrub.
Qed.
Lemma property_scrub v : card_property v = true -> card_property (scrub v) = true.
Proof.
  destruct v as [| | | |[|[| | |a| |] [|[| | | | |ps] [|[| | |b| |] [|v [|]]]]]|]; try done.
  cbn [card_property scrub List.map]. intros [Hp Hv]%andb_true_iff.
  rewrite forallb_map, text_scrub. apply andb_true_iff. split; [|done].
  rewrite <-Hp. apply forallb_eq. intros m. apply text_scrub.
Qed.
Lemma named_scrub name v :
  to_valid name = name -> property_named name v = true -> property_named name (scrub v) = true.
Proof.
  intros Hn. destruct v as [| | | |[|[| | |a| |] l]|]; try done. simpl.
  intros ->%String.eqb_eq. by apply String.eqb_eq.
Qed.
Lemma card_scrub v : is_card v = true -> is_card (scrub v) = true.
Proof.
  destruct v as [| | | |[|[| | |tag| |] [|[| | | |[|p ps]|] [|]]]|]; try done.
  unfold is_card. rewrite !andb_true_iff. intros [[[Ht Hv] Hf] Hps].
  cbn [scrub List.map]. rewrite !andb_true_iff. split_and!.
  - apply String.eqb_eq in Ht as ->. by vm_compute.
  - apply named_scrub; [by vm_compute|done].
  - apply existsb_exists in Hf as (q & Hq & Hn). apply existsb_exists. exists (scrub q).
    split; [by apply in_map|]. apply named_scrub; [by vm_compute|done].
  - change (scrub p :: List.map scrub ps) with (List.map scrub (p :: ps)). rewrite forallb_map.
    rewrite forallb_forall in Hps |- *. intros q Hq. by apply property_scrub, Hps.
Qed.
Lemma has_scrub_all :
  (forall n v t, has n v t -> has n (scrub v) t)
  /\ (forall n vs t, has_all n vs t -> has_all n (List.map scrub vs) t)
  /\ (forall n ms mts, has_members n ms mts -> plain mts ->
        has_members n (List.map (fun m => (to_valid m.1, scrub m.2)) ms) mts).
Proof.
  apply has_ind3; try (by intros; simpl; constructor).
  - intros n s Hs. simpl. rewrite Hs. by constructor.
  - intros n v Hv. by apply has_card, card_scrub.
  - intros n ms Hms. cbn [scrub]. apply has_map. apply Forall_fmap.
    eapply Forall_impl; [done|]. intros m [z Hz]. exists z. simpl. by rewrite Hz.
  - intros n ms c _ IH. cbn [scrub]. apply has_obj, IH, members_plain.
  - intros n k v ms r t mts _ IHv _ IH [Hk Hp]%Forall_cons. simpl in *. rewrite Hk.
    constructor; [done|by apply IH].
  - intros n ms k t mts _ IH [_ Hp]%Forall_cons. constructor. by apply IH.
Qed.
Lemma has_scrub n v t : has n v t -> has n (scrub v) t.
Proof. apply has_scrub_all. Qed.

(** A typed tree is encoded as a document that the parser reads back, typed. *)
Lemma parse_typed n v t :
  has n v t -> Z.of_nat n <= json.maxNestingDepth ->
  json.parse (Encode v) = Some (scrub v) /\ has n (scrub v) t.
Proof.
  intros Hv Hn. split; [|by apply has_scrub]. apply has_bounds in Hv as [Hl Hd].
  apply parse_Encode; [done|lia].
Qed.

(** ** Fields *)

Lemma has_mono_all :
  (forall n v t, has n v t -> forall m, (n <= m)%nat -> has m v t)
  /\ (forall n vs t, has_all n vs t -> forall m, (n <= m)%nat -> has_all m vs t)
  /\ (forall n ms mts, has_members n ms mts -> forall m, (n <= m)%nat -> has_members m ms mts).
Proof.
  apply has_ind3; try (by intros; constructor; auto).
  - intros n v Hv m Hm. replace m with (5 + (m - 5))%nat by lia. by constructor.
  - intros n ms Hms [|m] Hm; [lia|]. by constructor.
  - intros n v vs t _ IH [|m] Hm; [lia|]. constructor. apply IH. lia.
  - intros n ms c _ IH [|m] Hm; [lia|]. constructor. apply IH. lia.
Qed.
Lemma has_mono n m v t : has n v t -> (n <= m)%nat -> has m v t.
Proof. intros Hv Hm. by apply (proj1 has_mono_all n). Qed.
Lemma has_all_Forall n vs t : Forall (fun v => has n v t) vs -> has_all n vs t.
Proof. induction 1; by constructor. Qed.

Lemma members_app n a b ma mb :
  has_members n a ma -> has_members n b mb -> has_members n (a ++ b) (ma ++ mb).
Proof. induction 1; simpl; [done|by constructor; auto|by constructor; auto]. Qed.
(** One field before the others. *)
Lemma members_cons n a b m mts :
  has_members n a [m] -> has_members n b mts -> has_members n (a ++ b) (m :: mts).
Proof. apply (members_app n a b [m] mts). Qed.
Lemma member_opt n k v t : has n v t -> has_members n [(k, v)] [opt k t].
Proof. repeat constructor. done. Qed.
Lemma member_req n k v t : has n v t -> has_members n [(k, v)] [req k t].
Proof. repeat constructor. done. Qed.
Lemma member_absent n k t : has_members n [] [opt k t].
Proof. repeat constructor. Qed.
Lemma member_str n k v : has_members n (str_field k v) [opt k TStr].
Proof. unfold str_field. case_match; repeat constructor. Qed.
Lemma member_bool n k b : has_members n (bool_field k b) [opt k TBool].
Proof. destruct b; repeat constructor. Qed.
Lemma member_int n k z : has_members n (int_field k z) [opt k TInt].
Proof. unfold int_field. case_match; [apply member_absent|]. apply member_opt. constructor. Qed.
Lemma has_list {A} n (f : A -> jany) l t :
  l <> [] -> Forall (fun x => has n (f x) t) l -> has (S n) (JArr (List.map f l)) (TArr t).
Proof.
  intros Hne Hl. destruct l as [|x l]; [done|]. simpl. constructor.
  apply (has_all_Forall _ (List.map f (x :: l))). by apply Forall_fmap.
Qed.
Lemma member_list {A} n k (f : A -> jany) l t :
  Forall (fun x => has n (f x) t) l -> has_members (S n) (list_field k f l) [opt k (TArr t)].
Proof.
  intros Hl. destruct l as [|x l]; [apply member_absent|]. by apply member_opt, has_list.
Qed.
Lemma member_list_all {A} n k (f : A -> jany) l t :
  (forall x, has n (f x) t) -> has_members (S n) (list_field k f l) [opt k (TArr t)].
Proof. intros Hf. by apply member_list, Forall_forall. Qed.
Lemma member_list_req {A} n k (f : A -> jany) l t :
  l <> [] -> Forall (fun x => has n (f x) t) l -> has_members (S n) (list_field k f l) [req k (TArr t)].
Proof. intros Hne Hl. destruct l as [|x l]; [done|]. by apply member_req, has_list. Qed.
Lemma member_strs n k l : has_members (S n) (strs_field k l) [opt k strs].
Proof. apply member_list_all. constructor. Qed.
Lemma member_ptr {A} n k (f : A -> jany) o t :
  (forall a, o = Some a -> has n (f a) t) -> has_members n (ptr_field k f o) [opt k t].
Proof. intros Hf. destruct o; [apply member_opt; auto|apply member_absent]. Qed.
Lemma member_conformance n c :
  rdap.conf_ids c <> [] -> has_members (S n) (conformance_fields c) conformance_req.
Proof. intros Hc. apply member_list_req; [done|]. apply Forall_forall. constructor. Qed.
Lemma has_object n ms c : has_members n ms (members c) -> has (S n) (JObj ms) (TRef c).
Proof. apply has_obj. Qed.

Create HintDb typed.
#[export] Hint Resolve member_str member_bool member_int member_strs member_conformance : typed.
#[export] Hint Constructors has : typed.
#[export] Hint Extern 0 (has_members _ (list_field _ _ []) _) => apply member_absent : typed.
(** Field by field, as the document lists them. *)
Ltac fields :=
  repeat first
    [ progress auto with typed nocore
    | apply members_cons
    | apply member_list_all; intros ?
    | apply member_ptr; intros ? ?
    | apply member_req
    | apply member_opt ].

(** ** Records *)

Lemma link_typed n l : has (S n) (link_json l) (TRef CLink).
Proof. apply has_object. fields. Qed.
Lemma event_typed n e : has (S n) (event_json e) (TRef CEvent).
Proof. apply has_object. fields. Qed.
#[export] Hint Resolve link_typed event_typed : typed.
Lemma notice_typed n x : has (3 + n) (notice_json x) (TRef CNotice).
Proof. apply has_object. fields. Qed.
Lemma remark_typed n x : has (3 + n) (remark_json x) (TRef CRemark).
Proof. apply has_object. fields. Qed.
Lemma publicID_typed n x : has (S n) (publicID_json x) (TRef CPublicID).
Proof. apply has_object. fields. Qed.
Lemma cidr0_typed n x : has (S n) (cidr0_json x) (TRef CCidr0).
Proof. apply has_object. unfold cidr0_json. fields. Qed.
#[export] Hint Resolve publicID_typed cidr0_typed : typed.
#[export] Hint Extern 1 (has _ (notice_json _) _) => apply notice_typed : typed.
#[export] Hint Extern 1 (has _ (remark_json _) _) => apply remark_typed : typed.

(** The members a struct literal always has, then the fields. *)
Lemma members_lit n k v ms t mts :
  has n v t -> has_members n ms mts -> has_members n ((k, v) :: ms) (req k t :: mts).
Proof. by constructor. Qed.
Ltac lits := repeat (apply members_lit; [by constructor|]).

Lemma ttl0_typed n t : has (5 + n) (ttl0_json t) (TRef CTtl0).
Proof.
  apply has_object. unfold ttl0_json. apply members_lit; [|fields].
  apply has_map, Forall_fmap, Forall_forall. intros kv _. by exists kv.2.
Qed.
Lemma ipaddrs_typed n a : has (2 + n) (ipaddrs_json a) (TRef CIPAddrs).
Proof. apply has_object. fields. Qed.
Lemma variant_typed n v : has (4 + n) (variant_json v) (TRef CVariant).
Proof. apply has_object. unfold variant_json. fields. apply has_object. fields. Qed.
Lemma ds_typed n d : has (3 + n) (ds_json d) (TRef CDS).
Proof. apply has_object. fields. Qed.
Lemma key_typed n k : has (3 + n) (key_json k) (TRef CKey).
Proof. apply has_object. fields. Qed.
#[export] Hint Extern 1 (has _ (ttl0_json _) _) => apply ttl0_typed : typed.
#[export] Hint Extern 1 (has _ (ipaddrs_json _) _) => apply ipaddrs_typed : typed.
#[export] Hint Extern 1 (has _ (variant_json _) _) => apply variant_typed : typed.
#[export] Hint Extern 1 (has _ (ds_json _) _) => apply ds_typed : typed.
#[export] Hint Extern 1 (has _ (key_json _) _) => apply key_typed : typed.
Lemma secureDNS_typed n s : has (5 + n) (secureDNS_json s) (TRef CSecureDNS).
Proof. apply has_object. unfold secureDNS_json. cbn [app]. lits. fields. Qed.
Lemma mapping_typed n m : has (S n) (mapping_json m) (TRef CMapping).
Proof. apply has_object. unfold mapping_json. lits. constructor. Qed.
Lemma property_typed n p : has (S n) (property_json p) (TRef CProperty).
Proof. apply has_object. unfold property_json. lits. constructor. Qed.
Lemma provider_typed n p : has (S n) (provider_json p) (TRef CProvider).
Proof. apply has_object. unfold provider_json. cbn [app]. lits. fields. Qed.
#[export] Hint Resolve mapping_typed property_typed provider_typed : typed.
#[export] Hint Extern 1 (has _ (secureDNS_json _) _) => apply secureDNS_typed : typed.
Lemma farv1_typed n f : has (3 + n) (farv1_json f) (TRef CFarv1).
Proof. apply has_object. unfold farv1_json. cbn [app]. lits. fields. Qed.
#[export] Hint Extern 1 (has _ (farv1_json _) _) => apply farv1_typed : typed.

(** Common members; the entities are typed one level down. *)
Lemma common_typed {E} (ent : E -> jany) n name own (c : rdap.CommonOf E) :
  rdap.ObjectClassName c = name -> name <> "" -> to_valid name = name ->
  Forall (fun e => has (3 + n) (ent e) (TRef CEntity)) (rdap.c_Entities c) ->
  has_members (4 + n) (common_fields ent own c)
    (common_members name (if own then notices_opt else [])).
Proof.
  intros Hc Hn Hv He. unfold common_fields, common_members.
  assert (Hname : has_members (4 + n) (str_field "objectClassName" (rdap.ObjectClassName c))
                    [req "objectClassName" (TLit name)]).
  { unfold str_field. apply String.eqb_neq in Hn. rewrite Hc, Hn. apply member_req. by constructor. }
  apply members_cons; [exact Hname|]. do 3 (apply members_cons; [fields|]).
  apply members_app; [destruct own; fields; constructor|].
  do 2 (apply members_cons; [fields|]). apply members_cons; [by apply member_list|fields].
Qed.

(** What a mapping of the service must give for its object to be typed. *)
Definition of_class {E} (name : string) (c : rdap.CommonOf E) : Prop :=
  rdap.ObjectClassName c = name /\ rdap.c_Entities c = [].
Lemma network_typed n own (x : rdap.IPNetwork) :
  of_class "ip network" (rdap.net_Common x) ->
  has_members (4 + n) (network_fields entity_json own x)
    (network_members (if own then notices_opt else [])).
Proof.
  intros [Hc He]. apply members_app; [|fields].
  by apply common_typed; [|..|by vm_compute|rewrite He].
Qed.
Lemma nameserver_fields_typed n own x :
  of_class "nameserver" (rdap.ns_Common x) ->
  has_members (5 + n) (nameserver_fields own x)
    (nameserver_members (if own then notices_opt else [])).
Proof.
  intros [Hc He]. apply members_app; [|fields].
  by apply (common_typed entity_json (S n)); [|..|by vm_compute|rewrite He].
Qed.
Lemma nameserver_typed n x :
  of_class "nameserver" (rdap.ns_Common x) -> has (6 + n) (nameserver_json x) (TRef CNameserver).
Proof. intros Hx. by apply has_object, nameserver_fields_typed. Qed.

(** An entity: its class, its card, and the entities in it. *)
Definition card_ok (vcard : list jany) : Prop := vcard = [] \/ is_card (JArr vcard) = true.
Lemma entity_fields_typed n own c vcard roles pids :
  rdap.ObjectClassName c = "entity" -> card_ok vcard ->
  Forall (fun e => has (4 + n) (entity_json e) (TRef CEntity)) (rdap.c_Entities c) ->
  has_members (5 + n) (entity_fields own (rdap.entity c vcard roles pids))
    (entity_members (if own then notices_opt else [])).
Proof.
  intros Hc Hv He. apply members_app; [by apply (common_typed entity_json (S n))|].
  unfold entity_rest, rdap.entity. cbn [rdap.VCardArray rdap.Roles rdap.ent_PublicIDs rdap.Networks rdap.AsEventActor].
  apply members_cons; [|fields].
  destruct Hv as [->|Hv]; [apply member_absent|]. destruct vcard as [|v vcard]; [done|].
  unfold list_field. rewrite (map_id (v :: vcard)). by apply member_opt, has_card.
Qed.
Lemma entity_typed n c vcard roles pids :
  rdap.ObjectClassName c = "entity" -> card_ok vcard ->
  Forall (fun e => has (4 + n) (entity_json e) (TRef CEntity)) (rdap.c_Entities c) ->
  has (6 + n) (entity_json (rdap.entity c vcard roles pids)) (TRef CEntity).
Proof. intros Hc Hv He. by apply has_object, (entity_fields_typed n true). Qed.

(** ** The objects of the service *)

(** A jCard of the service is a jCard. *)
Definition proper_property (p : jany) : Prop := card_property p = true.
Lemma card_of (version fn : jany) ps :
  property_named "version" version = true -> property_named "fn" fn = true ->
  Forall proper_property (version :: fn :: ps) ->
  card_ok [JStr "vcard"; JArr (version :: fn :: ps)].
Proof.
  intros Hv Hf Hps. right. unfold is_card. rewrite Hv. cbn [existsb]. rewrite Hf.
  rewrite !andb_true_iff. split_and!; try done.
  apply forallb_forall. intros p Hp. rewrite Forall_forall in Hps. by apply Hps, list_elem_of_In.
Qed.
Lemma texts_proper l : text_or_texts (JArr (JStr <$> l)) = true.
Proof. simpl. induction l; simpl; done. Qed.
Lemma text_prop_proper name v : proper_property (service.text_prop name v).
Proof. done. Qed.
Lemma adr_prop_proper a : proper_property (service.adr_prop a).
Proof.
  unfold proper_property, service.adr_prop, service.prop. cbn [card_property].
  rewrite texts_proper, andb_true_r. by case_match.
Qed.
Lemma prop_if_proper v p : proper_property p -> Forall proper_property (service.prop_if v p).
Proof. intros Hp. unfold service.prop_if. case_match; by repeat constructor. Qed.
Lemma vcardToJCard_card v name : card_ok (service.vcardToJCard v name).
Proof.
  unfold service.vcardToJCard. destruct v as [v|]; apply card_of; try done; [|by repeat constructor].
  do 2 (apply Forall_cons; split; [done|]).
  repeat (apply Forall_app; split); try by apply prop_if_proper.
  destruct (domain.Address v); repeat constructor. apply adr_prop_proper.
Qed.
Lemma static_cards : card_ok service.static_registrar_card /\ card_ok service.static_registrant_card.
Proof. split; right; by vm_compute. Qed.

Lemma abuse_typed n : has (6 + n) (entity_json service.abuseEntity) (TRef CEntity).
Proof. apply entity_typed; [done|right; by vm_compute|constructor]. Qed.
Lemma registrar_typed n d agg url :
  has (8 + n) (entity_json (service.registrarEntity d agg url)) (TRef CEntity).
Proof.
  apply (entity_typed (2 + n)); [done| |].
  - destruct (agg ≫= _); [apply vcardToJCard_card|apply static_cards].
  - apply Forall_singleton. apply abuse_typed.
Qed.
Lemma registrant_typed n d agg :
  has (6 + n) (entity_json (service.registrantEntity d agg)) (TRef CEntity).
Proof.
  unfold service.registrantEntity.
  destruct agg as [a|]; [destruct (default [] _) as [|h l]; [|destruct (domain.agg_Contacts a !! h)]|];
    (apply entity_typed; [done| |constructor]); first [apply vcardToJCard_card|apply static_cards].
Qed.
Lemma contact_fields_typed n own c url :
  has_members (5 + n) (entity_fields own (service.entityToRDAP c url))
    (entity_members (if own then notices_opt else [])).
Proof. apply entity_fields_typed; [done|by left|constructor]. Qed.
Lemma contact_typed n c url : has (6 + n) (entity_json (service.entityToRDAP c url)) (TRef CEntity).
Proof. apply entity_typed; [done|by left|constructor]. Qed.

Lemma conformance_nonempty c : head (rdap.conf_ids c) = Some "rdap_level_0" -> rdap.conf_ids c <> [].
Proof. by destruct (rdap.conf_ids c). Qed.
Lemma notices_typed n url base opts :
  has_members (4 + n) (list_field "notices" notice_json (NewNoticesWithICANN url base opts)) notices_req.
Proof. apply member_list_req; [done|]. apply Forall_forall. intros x _. apply notice_typed. Qed.
Lemma domain_typed n d agg base url rurl mode opts ext :
  has (10 + n) (domain_json (service.domainToRDAP d agg base url rurl mode opts ext)) (TRef CDomain).
Proof.
  apply has_object. unfold domain_json, service.domainToRDAP, service.domain_response.
  apply members_app; [apply (common_typed entity_json (5 + n) "domain" false); [done..|]|].
  { simpl. constructor; [apply registrar_typed|]. case_match; [|constructor].
    apply Forall_singleton. eapply has_mono; [apply (registrant_typed (2 + n))|lia]. }
  apply members_app; [apply member_conformance|].
  { unfold service.domain_extension. destruct ext as [[[] ? ? ? ? ? ? ?]|]; done. }
  do 3 (apply members_cons; [fields|]).
  apply members_cons.
  { apply member_list, Forall_fmap, Forall_forall. intros x _.
    by apply (nameserver_typed (2 + n)). }
  apply members_cons; [apply member_req, secureDNS_typed|].
  apply members_cons; [apply member_absent|].
  apply members_app; [apply notices_typed|]. fields.
Qed.

End rdaptypes.
