(* ===== verification/Mapping.v ===== *)
(** * SQL row mapping (internal/store/mapping.go)

    The readers of the JSON columns of the SQL schemas: status lists, nameserver
    objects, the DNSSEC object and the jCard, each on the text of the column.  A
    NULL column is the empty text, which every reader treats alike. *)

From stdpp Require Import base tactics option list gmap strings.
From Stdlib Require Import ZArith Lia Ascii.
From S2P Require Import Prelude GoStrings GoTime Domain RdapModels GoJson Service.
#[local] Open Scope Z_scope.

Module mapping.

(** ** The columns of lists and objects *)

(** [nsJSON], an item of the "nameservers" column *)
Record nsJSON := mkNsJSON {
  nj_Handle : string; nj_LDHName : string; nj_UnicodeName : string;
  nj_IPV4 : list string; nj_IPV6 : list string; nj_Status : list string
}.
Definition zero_nsJSON : nsJSON := mkNsJSON "" "" "" [] [] [].
(** The member [k] of a decoded [nsJSON]; the JSON tags are the names. *)
Definition nsJSON_field (k : string) : json.decoder nsJSON := fun v n =>
  let '(mkNsJSON h l u v4 v6 st) := n in
  let strings := json.dec_slice "" json.dec_string in
  let named := json.names_field k in
  if named "handle" then let '(x, ok) := json.dec_string v h in (mkNsJSON x l u v4 v6 st, ok)
  else if named "ldhName" then let '(x, ok) := json.dec_string v l in (mkNsJSON h x u v4 v6 st, ok)
  else if named "unicodeName" then
    let '(x, ok) := json.dec_string v u in (mkNsJSON h l x v4 v6 st, ok)
  else if named "ipv4" then let '(x, ok) := strings v v4 in (mkNsJSON h l u x v6 st, ok)
  else if named "ipv6" then let '(x, ok) := strings v v6 in (mkNsJSON h l u v4 x st, ok)
  else if named "status" then let '(x, ok) := strings v st in (mkNsJSON h l u v4 v6 x, ok)
  else (n, true).
Definition dec_nsJSON : json.decoder nsJSON := json.dec_struct nsJSON_field.

(** [secureDNSJSON] with its anonymous item types, which have the fields of
    [domain.DSRecord] and [domain.KeyRecord]. *)
Record secureDNSJSON := mkSecureDNSJSON {
  sj_ZoneSigned : bool; sj_DelegationSigned : bool; sj_MaxSigLife : option Z;
  sj_DSData : list domain.DSRecord; sj_KeyData : list domain.KeyRecord
}.
Definition ds_field (k : string) : json.decoder domain.DSRecord := fun v d =>
  let '(domain.mkDSRecord t a y g) := d in
  let named := json.names_field k in
  if named "keyTag" then let '(x, ok) := json.dec_int v t in (domain.mkDSRecord x a y g, ok)
  else if named "algorithm" then let '(x, ok) := json.dec_int v a in (domain.mkDSRecord t x y g, ok)
  else if named "digestType" then let '(x, ok) := json.dec_int v y in (domain.mkDSRecord t a x g, ok)
  else if named "digest" then let '(x, ok) := json.dec_string v g in (domain.mkDSRecord t a y x, ok)
  else (d, true).
Definition key_field (k : string) : json.decoder domain.KeyRecord := fun v d =>
  let '(domain.mkKeyRecord f p a u) := d in
  let named := json.names_field k in
  if named "flags" then let '(x, ok) := json.dec_int v f in (domain.mkKeyRecord x p a u, ok)
  else if named "protocol" then let '(x, ok) := json.dec_int v p in (domain.mkKeyRecord f x a u, ok)
  else if named "algorithm" then let '(x, ok) := json.dec_int v a in (domain.mkKeyRecord f p x u, ok)
  else if named "publicKey" then
    let '(x, ok) := json.dec_string v u in (domain.mkKeyRecord f p a x, ok)
  else (d, true).
Definition secureDNS_field (k : string) : json.decoder secureDNSJSON := fun v s =>
  let '(mkSecureDNSJSON z d m ds ks) := s in
  let named := json.names_field k in
  if named "zoneSigned" then let '(x, ok) := json.dec_bool v z in (mkSecureDNSJSON x d m ds ks, ok)
  else if named "delegationSigned" then
    let '(x, ok) := json.dec_bool v d in (mkSecureDNSJSON z x m ds ks, ok)
  else if named "maxSigLife" then
    let '(x, ok) := json.dec_ptr 0 json.dec_int v m in (mkSecureDNSJSON z d x ds ks, ok)
  else if named "dsData" then
    let '(x, ok) := json.dec_slice (domain.mkDSRecord 0 0 0 "") (json.dec_struct ds_field) v ds in
    (mkSecureDNSJSON z d m x ks, ok)
  else if named "keyData" then
    let '(x, ok) := json.dec_slice (domain.mkKeyRecord 0 0 0 "") (json.dec_struct key_field) v ks in
    (mkSecureDNSJSON z d m ds x, ok)
  else (s, true).

Definition no_metadata : domain.Metadata :=
  domain.mkMetadata 0 zero_time zero_time "" "" [] [].

Definition parseStatusVal (vals : list string) : list domain.Status := domain.status_of <$> vals.
Definition parseStatus (statusJSON : string) : list domain.Status :=
  match json.Unmarshal (json.dec_slice "" json.dec_string) statusJSON [] with
  | (vals, true) => domain.status_of <$> vals
  | (_, false) => []
  end.
Definition parseNameservers (raw : string) : list domain.NameServer :=
  match json.Unmarshal (json.dec_slice zero_nsJSON dec_nsJSON) raw [] with
  | (items, true) =>
      (fun n => domain.mkNameServer (nj_Handle n) (nj_LDHName n) (nj_UnicodeName n) (nj_IPV4 n)
                  (nj_IPV6 n) (parseStatusVal (nj_Status n)) no_metadata) <$> items
  | (_, false) => []
  end.
Definition parseSecureDNS (sdJSON : string) : option domain.SecureDNS :=
  if String.eqb sdJSON "" then None
  else match json.Unmarshal (json.dec_struct secureDNS_field) sdJSON
               (mkSecureDNSJSON false false None [] []) with
       | (s, true) => Some (domain.mkSecureDNS (sj_ZoneSigned s) (sj_DelegationSigned s)
                              (sj_MaxSigLife s) (sj_DSData s) (sj_KeyData s))
       | (_, false) => None
       end.
Definition statusStrings (status : list domain.Status) : list string :=
  domain.status_Value <$> status.

(** ** The jCard column *)

(** [s, ok := v.(string)] *)
Definition as_string (v : jany) : option string :=
  match v with JStr s => Some s | _ => None end.
Definition str (v : jany) : string := default "" (as_string v).
(** [params, _ := v.(map[string]interface{})]: nil for anything else. *)
Definition as_object (v : jany) : list (string * jany) :=
  match v with JObj m => m | _ => [] end.
(** [s, _ := params[k].(string)] on a decoded object, whose last member of a
    name wins. *)
Definition param_string (params : list (string * jany)) (k : string) : string :=
  match List.find (fun p => String.eqb p.1 k) (reverse params) with
  | Some (_, v) => str v
  | None => ""
  end.

(** What the property loop assigns. *)
Record card := mkCard {
  k_fn : string; k_kind : string; k_org : string; k_adr : option domain.VCardAddress;
  k_voice : string; k_fax : string; k_email : string; k_uri : string
}.
Definition empty_card : card := mkCard "" "" "" None "" "" "" "".

(** The address of an [adr] property. *)
Definition parse_adr (params value : jany) : domain.VCardAddress :=
  let cc := param_string (as_object params) "cc" in
  match value with
  | JArr (a :: b :: c :: d :: e :: f :: g :: _) =>
      domain.mkVCardAddress cc (str a) (str b) (str c) (str d) (str e) (str f) (str g)
  | _ => domain.mkVCardAddress cc "" "" "" "" "" "" ""
  end.

(** One iteration of the loop: properties that are not arrays of at least four
    items, unknown names and values that are not strings are skipped. *)
Definition read_property (k : card) (p : jany) : card :=
  let '(mkCard fn kind org adr voice fax email uri) := k in
  match p with
  | JArr (name :: params :: _ :: value :: _) =>
      let name := str name in
      let set (f : string -> card) := match as_string value with Some s => f s | None => k end in
      if String.eqb name "fn" then set (fun s => mkCard s kind org adr voice fax email uri)
      else if String.eqb name "kind" then set (fun s => mkCard fn s org adr voice fax email uri)
      else if String.eqb name "org" then set (fun s => mkCard fn kind s adr voice fax email uri)
      else if String.eqb name "tel" then
        set (fun s => if String.eqb (param_string (as_object params) "type") "fax"
                      then mkCard fn kind org adr voice s email uri
                      else mkCard fn kind org adr s fax email uri)
      else if String.eqb name "email" then set (fun s => mkCard fn kind org adr voice fax s uri)
      else if String.eqb name "contact-uri" then
        set (fun s => mkCard fn kind org adr voice fax email s)
      else if String.eqb name "adr" then
        mkCard fn kind org (Some (parse_adr params value)) voice fax email uri
      else k
  | _ => k
  end.

(** [parseVCardJSON] after decoding into [[]interface{}]. *)
Definition parse_jcard (arr : list jany) : option domain.VCard :=
  match arr with
  | _ :: JArr props :: _ =>
      let k := foldl read_property empty_card props in
      Some (domain.mkVCard "4.0" (k_fn k) (k_kind k) (k_org k) (k_adr k) (k_voice k)
              (k_fax k) (k_email k) (k_uri k))
  | _ => None
  end.
(** A value that is not an array does not decode; null decodes to no items. *)
Definition parseVCardJSON (raw : string) : option domain.VCard :=
  match json.parse raw with
  | Some (JArr arr) => if forallb json.numbers_ok arr then parse_jcard arr else None
  | _ => None
  end.

(** ** Lemmas *)

(** An optional property either leaves the card alone or assigns its value,
    which is what assigning the (possibly empty) value to an empty field does. *)
Lemma read_prop_if v p k :
  foldl read_property k (service.prop_if v p) = if String.eqb v "" then k else read_property k p.
Proof. unfold service.prop_if. by destruct (String.eqb v ""). Qed.
Lemma parse_adr_prop a :
  parse_adr (JObj (if String.eqb (domain.CountryCode a) "" then []
                   else [("cc", JStr (domain.CountryCode a))]))
    (JArr (JStr <$> [domain.POBox a; domain.Extended a; domain.Street a; domain.Locality a;
                     domain.Region a; domain.PostalCode a; domain.CountryName a])) = a.
Proof.
  destruct a as [cc po ext street loc reg pc cn]. simpl.
  destruct (String.eqb_spec cc "") as [->|_]; done.
Qed.

Definition set_adr (a : domain.VCardAddress) (k : card) : card :=
  mkCard (k_fn k) (k_kind k) (k_org k) (Some a) (k_voice k) (k_fax k) (k_email k) (k_uri k).
Lemma read_adr k a : read_property k (service.adr_prop a) = set_adr a k.
Proof. destruct k. rewrite <-(parse_adr_prop a) at 2. reflexivity. Qed.

(** ** Properties *)

(** C37: the jCard the service writes for a contact reads back as the contact's
    vCard, every field but the telephone numbers unchanged (version 4.0, and the
    name that was shown); the reader does not see the type the writer gives a
    telephone, so a fax number comes back as the voice number. *)
Theorem parse_jcard_roundtrip v h :
  parse_jcard (service.vcardToJCard (Some v) h)
  = Some (domain.mkVCard "4.0"
            (if String.eqb (domain.FullName v) "" then h else domain.FullName v)
            (domain.Kind v) (domain.Organization v) (domain.Address v)
            (if String.eqb (domain.FaxTel v) "" then domain.VoiceTel v else domain.FaxTel v)
            "" (domain.Email v) (domain.ContactURI v)).
Proof.
  destruct v as [ver fn kind org adr voice fax email uri].
  unfold service.vcardToJCard, parse_jcard. cbn [from_option domain.FullName domain.Kind
    domain.Organization domain.Address domain.VoiceTel domain.FaxTel domain.Email
    domain.ContactURI].
  rewrite !foldl_app, !read_prop_if.
  assert (E : forall k, foldl read_property k (from_option (fun a => [service.adr_prop a]) [] adr)
                        = from_option (fun a => set_adr a k) k adr).
  { intros k. destruct adr as [a|]; simpl; [apply read_adr|done]. }
  rewrite E. clear E.
  destruct (String.eqb_spec kind "") as [->|_], (String.eqb_spec org "") as [->|_],
    (String.eqb_spec voice "") as [->|_], (String.eqb_spec fax "") as [->|_],
    (String.eqb_spec email "") as [->|_], (String.eqb_spec uri "") as [->|_];
    destruct adr as [a|]; reflexivity.
Qed.

End mapping.
