(* ===== verification/Sql.v ===== *)
(** * The database boundary of the SQL adapters

    What internal/store/postgres.go and internal/store/mysql.go use of a database
    server: tables with the columns of the schema, SELECT statements, and
    transactions.  The server is a parameter.  A [world] gives, for each
    statement, the committed contents of the tables when it starts, so other
    clients may commit anything between two statements; the order in which the
    rows are visited; and the failures.  The text and network operators of the
    WHERE clauses are a [Dialect]. *)

From stdpp Require Import base tactics option list strings.
From Stdlib Require Import ZArith Lia.
From S2P Require Import Prelude GoTime.
#[local] Open Scope Z_scope.
#[local] Set Warnings "-register-all".

Module sql.

(** ** Tables

    A column that the schema lets be NULL is an option; a JSON column is its
    text.  [N] is the row type of [ip_networks], which the schemas differ on. *)
Record domain_row := mkDomainRow {
  dr_handle : string; dr_ldh_name : string; dr_unicode_name : string; dr_tld : string;
  dr_status : string; dr_created_at : Time; dr_updated_at : Time; dr_expires_at : option Time;
  dr_registrant : option string; dr_admin : option string; dr_tech : option string;
  dr_billing : option string; dr_nameservers : string; dr_secure_dns : option string
}.
Record entity_row := mkEntityRow {
  er_handle : string; er_vcard_json : option string; er_roles : string; er_status : string;
  er_created_at : Time; er_updated_at : Time; er_public_ids : string
}.
Record nameserver_row := mkNameserverRow {
  nr_handle : string; nr_ldh_name : string; nr_unicode_name : string; nr_ipv4 : option string;
  nr_ipv6 : option string; nr_status : string; nr_created_at : Time; nr_updated_at : Time
}.
Record autnum_row := mkAutnumRow {
  ar_handle : string; ar_start_asn : Z; ar_end_asn : Z; ar_name : option string;
  ar_type : option string; ar_country : option string; ar_status : string;
  ar_created_at : Time; ar_updated_at : Time
}.
Record tables (N : Type) := mkTables {
  t_domains : list domain_row;
  t_entities : list entity_row;
  t_nameservers : list nameserver_row;
  t_domain_nameservers : list (string * string);
  t_ip_networks : list N;
  t_autnums : list autnum_row
}.
Arguments t_domains {_}. Arguments t_entities {_}. Arguments t_nameservers {_}.
Arguments t_domain_nameservers {_}. Arguments t_ip_networks {_}. Arguments t_autnums {_}.

(** ** Statements *)

(** [SELECT ... FROM from WHERE where LIMIT limit].  A condition may fail (an
    argument that does not convert); a NULL operand makes it false. *)
Record stmt (N A : Type) := mkStmt {
  s_from : tables N -> list A;
  s_where : A -> result bool;
  s_limit : option Z
}.
Arguments mkStmt {_ _}. Arguments s_from {_ _}. Arguments s_where {_ _}. Arguments s_limit {_ _}.

Definition or_cond (a b : result bool) : result bool :=
  x ← a; y ← b; Ok (x || y).
Definition and_cond (a b : result bool) : result bool :=
  x ← a; y ← b; Ok (x && y).
(** A condition on a column that may be NULL. *)
Definition on_column {A} (c : option A) (p : A -> result bool) : result bool :=
  from_option p (Ok false) c.

(** The operators whose meaning is the server's: text equality, the two LIKE
    matches (value, pattern), JSON containment (column, argument), [<<= ANY] on
    network addresses, and the text of a network address. *)
Class Dialect := {
  text_eq : string -> string -> bool;
  text_like : string -> string -> result bool;
  text_ilike : string -> string -> result bool;
  json_contains : string -> string -> result bool;
  inet_in_any : string -> list string -> result bool;
  inet_text : string -> string
}.

(** The errors of the client library. *)
Class Driver := {
  errNoRows : error;
  errScanNull : error;
  errScanRange : error;
  errNegativeLimit : error;
  errAborted : error;
  errCommitRollback : error;
  (** a failed statement aborts the transaction it is in *)
  fault_aborts : bool
}.

Record world (N : Type) := mkWorld {
  w_tables : nat -> tables N;
  w_order : nat -> forall A, list A -> list A;
  w_order_perm : forall t A (l : list A), w_order t A l ≡ₚ l;
  w_fault : nat -> option error;
  (** the rows after the first [n] fail to arrive *)
  w_rows_fault : nat -> option (nat * error)
}.
Arguments w_tables {_}. Arguments w_order {_}. Arguments w_order_perm {_}.
Arguments w_fault {_}. Arguments w_rows_fault {_}.

Inductive isolation := ReadCommitted | RepeatableRead.

Record txn (N : Type) := mkTxn {
  tx_isolation : isolation;
  tx_snapshot : option (tables N);
  tx_aborted : bool
}.
Arguments mkTxn {_}. Arguments tx_isolation {_}. Arguments tx_snapshot {_}. Arguments tx_aborted {_}.

(** A client session: the number of the next statement and the open transaction. *)
Record session (N : Type) := mkSession { clock : nat; open_tx : option (txn N) }.
Arguments mkSession {_}. Arguments clock {_}. Arguments open_tx {_}.

(** ** Operations of a session *)

Definition M (N A : Type) : Type := session N -> result A * session N.
Definition ret {N A} (a : A) : M N A := fun s => (Ok a, s).
Definition fail {N A} (e : error) : M N A := fun s => (Err e, s).
(** [if err != nil { return nil, err }] *)
Definition bind {N A B} (m : M N A) (f : A -> M N B) : M N B := fun s =>
  match m s with
  | (Ok a, s) => f a s
  | (Err e, s) => (Err e, s)
  end.
(** The result as a value: the code looks at the error itself. *)
Definition try {N A} (m : M N A) : M N (result A) := fun s =>
  let '(r, s) := m s in (Ok r, s).
Definition lift {N A} (r : result A) : M N A := fun s => (r, s).
(** [fmt.Errorf("pre%w", err)] *)
Definition wrap {A} (pre : string) (r : result A) : result A :=
  match r with Ok a => Ok a | Err e => Err (ErrWrap pre e) end.
Definition wrapM {N A} (pre : string) (m : M N A) : M N A := fun s =>
  let '(r, s) := m s in (wrap pre r, s).

Declare Scope sql_scope.
Delimit Scope sql_scope with sql.
Notation "x <- m ;; k" := (bind m (fun x => k))
  (at level 100, m at next level, right associativity) : sql_scope.
#[local] Open Scope sql_scope.

Section operations.
Context {N : Type} `{Driver} (w : world N).

(** The rows a statement selects from the tables [db] as statement number [t]. *)
Definition select {A} (t : nat) (db : tables N) (st : stmt N A) : result (list A) :=
  rows ← foldr (fun r acc =>
                  b ← s_where st r; rest ← acc; Ok (if (b : bool) then r :: rest else rest))
           (Ok []) (w_order w t A (s_from st db));
  match s_limit st with
  | None => Ok rows
  | Some n => if n <? 0 then Err errNegativeLimit else Ok (take (Z.to_nat n) rows)
  end.
(** The rows that arrive, and the error [rows.Err()] reports after them. *)
Definition fetch {A} (t : nat) (rows : list A) : list A * option error :=
  match w_rows_fault w t with
  | Some (n, e) => (take n rows, Some e)
  | None => (rows, None)
  end.

(** [pool.Query]: outside a transaction a statement reads what is committed. *)
Definition Query {A} (st : stmt N A) : M N (list A * option error) := fun s =>
  let t := clock s in
  (match w_fault w t with
   | Some e => Err e
   | None => rows ← select t (w_tables w t) st; Ok (fetch t rows)
   end, mkSession (S t) (open_tx s)).

(** The tables a statement of a transaction reads, and the transaction after
    it: REPEATABLE READ takes its snapshot at the first statement that reads. *)
Definition tx_tables (t : nat) (x : txn N) : tables N * txn N :=
  match tx_isolation x with
  | ReadCommitted => (w_tables w t, x)
  | RepeatableRead =>
      let db := default (w_tables w t) (tx_snapshot x) in
      (db, mkTxn RepeatableRead (Some db) (tx_aborted x))
  end.
Definition failed (x : txn N) : txn N :=
  mkTxn (tx_isolation x) (tx_snapshot x) (tx_aborted x || fault_aborts).
(** [tx.Query] *)
Definition tx_Query {A} (st : stmt N A) : M N (list A * option error) := fun s =>
  let t := clock s in
  match open_tx s with
  | None => (Err errAborted, mkSession (S t) None)
  | Some x =>
      if tx_aborted x then (Err errAborted, mkSession (S t) (Some x))
      else match w_fault w t with
           | Some e => (Err e, mkSession (S t) (Some (failed x)))
           | None =>
               let '(db, x) := tx_tables t x in
               match select t db st with
               | Ok rows => (Ok (fetch t rows),
                             mkSession (S t) (Some (if w_rows_fault w t is Some _ then failed x else x)))
               | Err e => (Err e, mkSession (S t) (Some (failed x)))
               end
           end
  end.

(** [QueryRow(...)] up to [Scan]: the first row. *)
Definition first_row {A} (q : M N (list A * option error)) : M N A :=
  r <- q;;
  match r with
  | (_, Some e) => fail e
  | (row :: _, None) => ret row
  | ([], None) => fail errNoRows
  end.
Definition QueryRow {A} (st : stmt N A) : M N A := first_row (Query st).
Definition tx_QueryRow {A} (st : stmt N A) : M N A := first_row (tx_Query st).

(** A statement of its own that answers no rows. *)
Definition simple (f : session N -> session N) : M N unit := fun s =>
  match w_fault w (clock s) with
  | Some e => (Err e, mkSession (S (clock s)) (failed <$> open_tx s))
  | None => (Ok tt, let s' := f s in mkSession (S (clock s)) (open_tx s'))
  end.
Definition Begin (iso : isolation) : M N unit :=
  simple (fun s => mkSession (clock s) (Some (mkTxn iso None false))).
(** [SET TRANSACTION ISOLATION LEVEL ...], before any query *)
Definition SetIsolation (iso : isolation) : M N unit :=
  simple (fun s => mkSession (clock s)
                     ((fun x => mkTxn iso (tx_snapshot x) (tx_aborted x)) <$> open_tx s)).
(** Committing an aborted transaction rolls it back and reports that. *)
Definition Commit : M N unit := fun s =>
  let s' := mkSession (S (clock s)) None in
  match open_tx s with
  | Some x => if tx_aborted x then (Err errCommitRollback, s')
              else (match w_fault w (clock s) with Some e => Err e | None => Ok tt end, s')
  | None => (Err errCommitRollback, s')
  end.
(** [defer tx.Rollback()]: without effect after a commit. *)
Definition with_rollback {A} (m : M N A) : M N A := fun s =>
  let '(r, s) := m s in (r, mkSession (clock s) None).
Definition PingDB : M N unit := simple id.

(** [for rows.Next() { x, err := scan(rows); if err != nil { return nil, err };
    results = append(results, *x) }; return results, rows.Err()] *)
Fixpoint scan_rows {A B} (scan : result A -> result B) (rows : list A) : result (list B) :=
  match rows with
  | [] => Ok []
  | r :: rows => x ← scan (Ok r); xs ← scan_rows scan rows; Ok (x :: xs)
  end.
Definition collect {A B} (scan : result A -> result B) (q : list A * option error)
    : result (list B) :=
  xs ← scan_rows scan q.1;
  match q.2 with None => Ok xs | Some e => Err e end.

End operations.

(** An operation that starts as statement number [t] of the session, outside a
    transaction. *)
Definition run {N A} (t : nat) (m : M N A) : result A := (m (mkSession t None)).1.

(** A column scanned into a variable that cannot hold NULL. *)
Definition not_null `{Driver} {A} (c : option A) : result A :=
  match c with Some a => Ok a | None => Err errScanNull end.
(** A BIGINT scanned into a [uint32]. *)
Definition scan_uint32 `{Driver} (n : Z) : result Z :=
  if (0 <=? n) && (n <? 2 ^ 32) then Ok n else Err errScanRange.

(** ** Lemmas *)

Section lemmas.
Context {N : Type} `{Driver} (w : world N).
Implicit Types s : session N.

Lemma bind_ext {A B} (m : M N A) (f g : A -> M N B) s :
  (forall a s, f a s = g a s) -> bind m f s = bind m g s.
Proof. intros E. unfold bind. destruct (m s) as [[a|e] s']; [apply E|done]. Qed.

Definition filter_rows {A} (p : A -> result bool) (xs : list A) : result (list A) :=
  foldr (fun r acc => b ← p r; rest ← acc; Ok (if (b : bool) then r :: rest else rest)) (Ok []) xs.
Lemma filter_rows_Ok {A} (p : A -> result bool) xs rows :
  filter_rows p xs = Ok rows ->
  sublist rows xs /\ forall a, a ∈ rows <-> a ∈ xs /\ p a = Ok true.
Proof.
  revert rows. induction xs as [|x xs IH]; intros rows Hr; simpl in Hr.
  { injection Hr as <-. split; [done|]. intros a. rewrite elem_of_nil. naive_solver. }
  fold (filter_rows p xs) in Hr.
  destruct (p x) as [b|e] eqn:Hp; [|done]. simpl in Hr.
  destruct (filter_rows p xs) as [rest|e] eqn:Hf; [|done]. injection Hr as <-. destruct (IH rest eq_refl) as [Hsub Hin].
  split; [destruct b; by constructor|]. intros a.
  clear IH. destruct b; rewrite ?elem_of_cons, Hin; intuition (subst; congruence).
Qed.
Lemma filter_rows_total {A} (p : A -> bool) xs :
  filter_rows (fun a => Ok (p a)) xs = Ok (List.filter p xs).
Proof.
  induction xs as [|x xs IH]; [done|]. simpl. fold (filter_rows (fun a => Ok (p a)) xs).
  rewrite IH. simpl. by destruct (p x).
Qed.

(** A selected row is a row of the table that satisfies the condition; without
    a limit, or when fewer rows than the limit come back, no such row is left out. *)
Lemma select_sound {A} t db (st : stmt N A) rows a :
  select w t db st = Ok rows -> a ∈ rows -> a ∈ s_from st db /\ s_where st a = Ok true.
Proof.
  unfold select. fold (filter_rows (s_where st) (w_order w t A (s_from st db))).
  destruct (filter_rows _ _) as [all|e] eqn:E; [|done]. simpl.
  apply filter_rows_Ok in E as [_ E]. intros Hr Ha.
  assert (Hin : a ∈ all).
  { destruct (s_limit st) as [n|]; [|by injection Hr as <-].
    destruct (n <? 0); [done|]. injection Hr as <-. by eapply elem_of_take in Ha as (i & Hi & _);
      apply list_elem_of_lookup_2 in Hi. }
  apply E in Hin as [Hin Hw]. split; [|done]. by rewrite w_order_perm in Hin.
Qed.
Lemma select_complete {A} t db (st : stmt N A) rows a :
  select w t db st = Ok rows -> a ∈ s_from st db -> s_where st a = Ok true ->
  match s_limit st with Some n => Z.of_nat (length rows) < n | None => True end -> a ∈ rows.
Proof.
  unfold select. fold (filter_rows (s_where st) (w_order w t A (s_from st db))).
  destruct (filter_rows _ _) as [all|e] eqn:E; [|done]. simpl.
  apply filter_rows_Ok in E as [_ E]. intros Hr Ha Hw Hl.
  assert (Hin : a ∈ all) by (apply E; split; [by rewrite w_order_perm|done]).
  destruct (s_limit st) as [n|]; [|by injection Hr as <-].
  destruct (n <? 0); [done|]. injection Hr as <-.
  rewrite length_take in Hl. rewrite take_ge; [done|lia].
Qed.
Lemma select_bound {A} t db (st : stmt N A) rows n :
  s_limit st = Some n -> select w t db st = Ok rows -> Z.of_nat (length rows) <= Z.max 0 n.
Proof.
  unfold select. intros ->. destruct (foldr _ _ _) as [all|e]; [|done]. simpl.
  destruct (n <? 0) eqn:E; [done|]. intros [= <-]. rewrite length_take. lia.
Qed.
Lemma select_total {A} t db (st : stmt N A) :
  (forall a, is_ok (s_where st a) = true) -> s_limit st = None ->
  is_ok (select w t db st) = true.
Proof.
  intros Hp Hl. unfold select. rewrite Hl.
  assert (E : forall xs, exists rows, filter_rows (s_where st) xs = Ok rows).
  { induction xs as [|x xs [rows IH]]; [by exists []|]. simpl. specialize (Hp x).
    destruct (s_where st x); [|done]. simpl.
    fold (filter_rows (s_where st) xs). rewrite IH. simpl. eauto. }
  destruct (E (w_order w t A (s_from st db))) as [rows Hr].
  fold (filter_rows (s_where st) (w_order w t A (s_from st db))). by rewrite Hr.
Qed.

(** *** A transaction that has taken its snapshot *)

Definition in_snapshot (db : tables N) (aborted : bool) s : Prop :=
  open_tx s = Some (mkTxn RepeatableRead (Some db) aborted).

(** No statement fails; a failed statement leaves a trace in its transaction. *)
Definition quiet : Prop := forall t, w_fault w t = None /\ w_rows_fault w t = None.
Definition faults_show : Prop := fault_aborts = true \/ quiet.
(** Whatever is committed meanwhile, a row read in the transaction is a row of
    the snapshot; while the transaction is not aborted, a missing row is missing
    in the snapshot. *)
Record row_read {A} (db : tables N) (st : stmt N A) (a0 : bool) (r : result A) (a1 : bool) : Prop := {
  row_sound : forall x, r = Ok x -> x ∈ s_from st db /\ s_where st x = Ok true;
  row_aborts : a0 = true -> a1 = true;
  row_quiet : quiet -> a1 = a0;
  row_missing : forall e, r = Err e -> faults_show -> a1 = false ->
    forall x, x ∈ s_from st db -> s_where st x <> Ok true
}.
Lemma tx_QueryRow_snapshot {A} db (st : stmt N A) a0 s :
  s_limit st = None -> (forall a, is_ok (s_where st a) = true) -> in_snapshot db a0 s ->
  exists a1, in_snapshot db a1 (tx_QueryRow w st s).2
    /\ row_read db st a0 (tx_QueryRow w st s).1 a1.
Proof.
  intros Hl Ht Hs. unfold tx_QueryRow, first_row, bind, tx_Query. rewrite Hs. simpl.
  destruct a0.
  { exists true. split; [done|]. split; done. }
  destruct (w_fault w (clock s)) as [e|] eqn:Ef.
  { exists fault_aborts. split; [done|]. split; [done|done|..].
    - intros Hq. by rewrite (proj1 (Hq _)) in Ef.
    - intros _ _ [Hab|Hno] E; [by rewrite Hab in E|]. by rewrite (proj1 (Hno _)) in Ef. }
  pose proof (select_total (clock s) db st Ht Hl) as Hok.
  destruct (select w (clock s) db st) as [rows|e] eqn:E; [|done].
  unfold fetch. destruct (w_rows_fault w (clock s)) as [[n e]|] eqn:Er.
  { exists fault_aborts. destruct (take n rows); simpl; (split; [done|]); (split; [done|done|..]);
      try (intros Hq; by rewrite (proj2 (Hq _)) in Er);
      (intros _ _ [Hab|Hno] Ea; [by rewrite Hab in Ea|]); by rewrite (proj2 (Hno _)) in Er. }
  exists false. destruct rows as [|x rows]; simpl; (split; [done|]); (split; [..|done|done|]).
  - done.
  - intros e _ _ _ x Hx Hw.
    assert (Hn : x ∈ []) by (eapply select_complete; [exact E|done|done|by rewrite Hl]).
    by apply elem_of_nil in Hn.
  - intros y [= ->]. eapply select_sound; [exact E|left].
  - done.
Qed.
(** A row found is a row that satisfies the condition; without failures, none is
    found only when none does. *)
Lemma QueryRow_sound {A} (st : stmt N A) s x :
  (QueryRow w st s).1 = Ok x -> x ∈ s_from st (w_tables w (clock s)) /\ s_where st x = Ok true.
Proof.
  unfold QueryRow, first_row, bind, Query. destruct (w_fault w (clock s)); [done|].
  destruct (select w (clock s) (w_tables w (clock s)) st) as [rows|e] eqn:E; [|done]. simpl.
  unfold fetch. destruct (w_rows_fault w (clock s)) as [[n e]|]; [by destruct (take n rows)|].
  destruct rows as [|y rows]; [done|]. simpl. intros [= ->].
  eapply select_sound; [exact E|left].
Qed.
Lemma QueryRow_none {A} (st : stmt N A) (p : A -> bool) s e x :
  quiet -> from_option (fun n => 0 < n) True (s_limit st) ->
  (forall a, s_where st a = Ok (p a)) ->
  (QueryRow w st s).1 = Err e -> x ∈ s_from st (w_tables w (clock s)) -> p x = false.
Proof.
  intros Hq Hl Ht. unfold QueryRow, first_row, bind, Query. destruct (Hq (clock s)) as [-> Hr].
  destruct (select w (clock s) (w_tables w (clock s)) st) as [rows|e'] eqn:E.
  - simpl. unfold fetch. rewrite Hr. destruct rows as [|y rows]; [|done]. intros _ Hx.
    destruct (p x) eqn:Hp; [|done].
    assert (Hn : x ∈ []).
    { eapply select_complete; [exact E|done|by rewrite Ht, Hp|]. by destruct (s_limit st). }
    by apply elem_of_nil in Hn.
  - intros _ _. exfalso. revert E. unfold select.
    fold (filter_rows (s_where st) (w_order w (clock s) A (s_from st (w_tables w (clock s))))).
    assert (Et : forall xs, is_ok (filter_rows (s_where st) xs) = true).
    { induction xs as [|y xs IH]; [done|]. simpl. rewrite Ht. simpl.
      fold (filter_rows (s_where st) xs). by destruct (filter_rows _ _). }
    specialize (Et (w_order w (clock s) A (s_from st (w_tables w (clock s))))).
    destruct (filter_rows _ _); [|done]. simpl. destruct (s_limit st) as [n|]; [|done].
    simpl in Hl. by replace (n <? 0) with false by lia.
Qed.
(** Without failures a single row is found when, and only when, one satisfies
    the condition. *)
Lemma QueryRow_quiet {A} (st : stmt N A) s x :
  quiet -> s_limit st = None -> (forall a, is_ok (s_where st a) = true) ->
  (forall a b, a ∈ s_from st (w_tables w (clock s)) -> b ∈ s_from st (w_tables w (clock s)) ->
     s_where st a = Ok true -> s_where st b = Ok true -> a = b) ->
  (QueryRow w st s).1 = Ok x
  <-> x ∈ s_from st (w_tables w (clock s)) /\ s_where st x = Ok true.
Proof.
  intros Hq Hl Ht Hu. unfold QueryRow, first_row, bind, Query.
  destruct (Hq (clock s)) as [-> Hr]. pose proof (select_total (clock s) (w_tables w (clock s)) st Ht Hl).
  destruct (select w (clock s) (w_tables w (clock s)) st) as [rows|e] eqn:E; [|done]. simpl.
  unfold fetch. rewrite Hr. destruct rows as [|y rows]; simpl.
  - split; [done|]. intros [Hx Hw].
    assert (Hn : x ∈ []) by (eapply select_complete; [exact E|done|done|by rewrite Hl]).
    by apply elem_of_nil in Hn.
  - destruct (select_sound _ _ _ _ y E) as [Hy Hyw]; [left|]. split; [by intros [= <-]|].
    intros [Hx Hw]. f_equal. by apply Hu.
Qed.

(** *** Rows of a search *)

Lemma scan_rows_Ok {A B} (scan : result A -> result B) rows xs :
  scan_rows scan rows = Ok xs <-> Forall2 (fun r x => scan (Ok r) = Ok x) rows xs.
Proof.
  revert xs. induction rows as [|r rows IH]; intros xs; simpl.
  - split; [intros [= <-]; constructor|intros Hf; by inversion Hf].
  - destruct (scan (Ok r)) as [x|e] eqn:Ex; simpl.
    2: { split; [done|]. intros Hf. inversion Hf; subst. congruence. }
    destruct (scan_rows scan rows) as [xs'|e] eqn:Er; simpl.
    + split; [intros [= <-]; constructor; [done|by apply IH]|].
      intros Hf. inversion Hf as [|? y ? ys Hy Hys]; subst. apply IH in Hys. congruence.
    + split; [done|]. intros Hf. inversion Hf as [|? y ? ys Hy Hys]; subst.
      apply IH in Hys. congruence.
Qed.

(** A scanner of part of a joined row. *)
Lemma collect_fmap {A B C} (f : A -> B) (scan : result B -> result C) (q : list A * option error) :
  collect scan (f <$> q.1, q.2) = collect (fun r => scan (f <$> r)) q.
Proof.
  unfold collect. simpl.
  assert (E : scan_rows scan (f <$> q.1) = scan_rows (fun r => scan (f <$> r)) q.1).
  { induction q.1 as [|r rows IH]; [done|]. rewrite fmap_cons. cbn [scan_rows].
    by rewrite IH. }
  by rewrite E.
Qed.

(** What a search outside a transaction returns: some of the rows its statement
    selects from what is committed when it starts; all of them when it meets no
    failure, which it then reports. *)
Record search_result {A B} (db : tables N) (st : stmt N A) (scan : result A -> result B)
    (xs : list B) : Prop := {
  search_sound : forall x, x ∈ xs -> exists r, r ∈ s_from st db /\ s_where st r = Ok true
    /\ scan (Ok r) = Ok x;
  search_bound : forall n, s_limit st = Some n -> Z.of_nat (length xs) <= Z.max 0 n;
  search_complete : forall r, r ∈ s_from st db -> s_where st r = Ok true ->
    match s_limit st with Some n => Z.of_nat (length xs) < n | None => True end ->
    exists x, x ∈ xs /\ scan (Ok r) = Ok x
}.
Lemma Query_search {A B} pre (st : stmt N A) (scan : result A -> result B) s xs :
  (bind (wrapM pre (Query w st)) (fun rows => lift (collect scan rows)) s).1 = Ok xs ->
  search_result (w_tables w (clock s)) st scan xs.
Proof.
  unfold bind, wrapM, Query, lift. destruct (w_fault w (clock s)); [done|].
  destruct (select w (clock s) (w_tables w (clock s)) st) as [rows|e] eqn:E; [|done]. simpl.
  unfold collect, fetch. destruct (w_rows_fault w (clock s)) as [[n e]|]; simpl.
  { destruct (scan_rows _ _); done. }
  destruct (scan_rows scan rows) as [ys|e] eqn:Es; [|done]. intros [= ->].
  apply scan_rows_Ok in Es. assert (Hlen := Forall2_length _ _ _ Es). split.
  - intros x Hx. apply list_elem_of_lookup in Hx as [i Hi].
    destruct (Forall2_lookup_r _ _ _ _ _ Es Hi) as (r & Hr & Hx). exists r.
    apply list_elem_of_lookup_2 in Hr.
    by destruct (select_sound _ _ _ _ _ E Hr).
  - intros n Hn. rewrite <-Hlen. by eapply select_bound.
  - intros r Hr Hw Hl. rewrite <-Hlen in Hl.
    assert (Hin : r ∈ rows) by by eapply select_complete.
    apply list_elem_of_lookup in Hin as [i Hi].
    destruct (Forall2_lookup_l _ _ _ _ _ Es Hi) as (x & Hx & Hsx).
    exists x. split; [by eapply list_elem_of_lookup_2|done].
Qed.

End lemmas.

End sql.
