(* ===== verification/SqlStore.v ===== *)
(** * What the two SQL adapters share

    internal/store/postgres.go and internal/store/mysql.go repeat the code from
    the scanned columns of a row to a record and the loops that resolve the
    references of a domain; they differ in the text of the source column of the
    metadata, the [source] argument here. *)

From stdpp Require Import base tactics option list gmap strings.
From Stdlib Require Import ZArith Lia Ascii.
From S2P Require Import Prelude GoStrings GoTime Domain GoJson Store MemoryStore Mapping Sql.
#[local] Open Scope Z_scope.

Module sqlstore.
Import sql.
#[local] Open Scope sql_scope.

Definition patternToSQL (pattern : string) : string :=
  let pattern := Strings.ReplaceAll pattern "*" "%" in
  Strings.ReplaceAll pattern "?" "_".

(** ** From columns to records *)

Definition metadata (source : string) (created updated : Time) : domain.Metadata :=
  domain.mkMetadata 1 created updated "" source [] [].

Section scanners.
Context `{Driver}.

(** [m[role] = []string{*h}] when the column is not NULL *)
Definition set_role (role : domain.ContactRole) (h : option string)
    (m : gmap domain.ContactRole (list string)) : gmap domain.ContactRole (list string) :=
  match h with Some h => <[role := [h]]> m | None => m end.
(** The record built from the scanned columns. *)
Definition domain_record (source : string) (r : domain_row) (expires : Time) : domain.Domain :=
  domain.mkDomain (dr_handle r) (dr_ldh_name r) (dr_unicode_name r) (dr_tld r)
    (mapping.parseStatus (dr_status r)) expires
    (set_role domain.RoleBilling (dr_billing r) (set_role domain.RoleTechnical (dr_tech r)
       (set_role domain.RoleAdministrative (dr_admin r)
          (set_role domain.RoleRegistrant (dr_registrant r) ∅))))
    (if String.eqb (dr_nameservers r) "" then [] else mapping.parseNameservers (dr_nameservers r))
    (mapping.parseSecureDNS (default "" (dr_secure_dns r)))
    (default "" (dr_registrant r))
    (metadata source (dr_created_at r) (dr_updated_at r)).
Definition scan_domain_columns (row : result domain_row) : result (domain_row * Time) :=
  r ← row; expires ← not_null (dr_expires_at r); Ok (r, expires).
Definition scan_domain (source : string) (row : result domain_row) : result domain.Domain :=
  '(r, expires) ← wrap "scan domain: " (scan_domain_columns row);
  Ok (domain_record source r expires).

(** A public identifier of the [public_ids] column. *)
Definition publicID_field (k : string) : json.decoder domain.PublicID := fun v p =>
  let '(domain.mkPublicID t i) := p in
  if json.names_field k "type" then
    let '(x, ok) := json.dec_string v t in (domain.mkPublicID x i, ok)
  else if json.names_field k "identifier" then
    let '(x, ok) := json.dec_string v i in (domain.mkPublicID t x, ok)
  else (p, true).
(** [json.Unmarshal(raw, &vals)] with the error ignored *)
Definition strings_column (raw : string) : list string :=
  (json.Unmarshal (json.dec_slice "" json.dec_string) raw []).1.
Definition contact_record (source : string) (r : entity_row) : domain.Contact :=
  let vcard := match er_vcard_json r with
               | Some raw => if String.eqb raw "" then None else mapping.parseVCardJSON raw
               | None => None
               end in
  let pids := (json.Unmarshal (json.dec_slice (domain.mkPublicID "" "")
                 (json.dec_struct publicID_field)) (er_public_ids r) []).1 in
  domain.mkContact (er_handle r) (strings_column (er_roles r))
    (mapping.parseStatus (er_status r)) vcard pids "" "" "" []
    (metadata source (er_created_at r) (er_updated_at r)).

Definition nameserver_record (source : string) (r : nameserver_row) : domain.NameServer :=
  domain.mkNameServer (nr_handle r) (nr_ldh_name r) (nr_unicode_name r)
    (strings_column (default "" (nr_ipv4 r))) (strings_column (default "" (nr_ipv6 r)))
    (mapping.parseStatus (nr_status r)) (metadata source (nr_created_at r) (nr_updated_at r)).

End scanners.

(** ** Statements *)

Section statements.
Context `{Dialect} {N : Type}.
Abbreviation stmt := (sql.stmt N).

(** [FROM domains WHERE ldh_name = $1 OR unicode_name = $1] *)
Definition domain_by_name (name : string) : stmt domain_row :=
  mkStmt t_domains (fun r => Ok (text_eq (dr_ldh_name r) name || text_eq (dr_unicode_name r) name))
    None.
(** [FROM entities WHERE handle = $1] *)
Definition entity_by_handle (handle : string) : stmt entity_row :=
  mkStmt t_entities (fun r => Ok (text_eq (er_handle r) handle)) None.
(** [FROM nameservers WHERE handle = $1] *)
Definition nameserver_by_handle (handle : string) : stmt nameserver_row :=
  mkStmt t_nameservers (fun r => Ok (text_eq (nr_handle r) handle)) None.
(** [FROM nameservers WHERE ldh_name = $1 OR unicode_name = $1] *)
Definition nameserver_by_name (name : string) : stmt nameserver_row :=
  mkStmt t_nameservers
    (fun r => Ok (text_eq (nr_ldh_name r) name || text_eq (nr_unicode_name r) name)) None.

(** [FROM domains d JOIN domain_nameservers dn ON ... JOIN nameservers n ON ...] *)
Definition domain_hosts (db : tables N) : list (domain_row * nameserver_row) :=
  d ← t_domains db; dn ← t_domain_nameservers db; n ← t_nameservers db;
  if text_eq (dr_handle d) dn.1 && text_eq dn.2 (nr_handle n) then [(d, n)] else [].
(** [WHERE n.ldh_name = $1 OR n.unicode_name = $1 LIMIT $2] *)
Definition domains_of_host (nsName : string) (limit : Z) : stmt (domain_row * nameserver_row) :=
  mkStmt domain_hosts
    (fun x => Ok (text_eq (nr_ldh_name x.2) nsName || text_eq (nr_unicode_name x.2) nsName))
    (Some limit).
End statements.

(** ** The references of a domain *)

Section aggregate.
Context `{MapRange} {N : Type}.

(** [for h := range handles { contact, err := lookupContactTx(h); if err == nil
    { agg.Contacts[h] = contact; if h == d.Registrar { agg.Registrar = contact } } }] *)
Fixpoint resolve_contacts (lookup : string -> M N domain.Contact) (registrar : string) (handles : list string)
    (agg : domain.DomainAggregate) : M N domain.DomainAggregate :=
  match handles with
  | [] => ret agg
  | h :: handles =>
      contact <- try (lookup h);;
      resolve_contacts lookup registrar handles
        match contact with
        | Ok c => domain.mkDomainAggregate (domain.agg_Domain agg)
                    (if String.eqb h registrar then Some c else domain.agg_Registrar agg)
                    (<[h := c]> (domain.agg_Contacts agg)) (domain.agg_Nameservers agg)
        | Err _ => agg
        end
  end.
Fixpoint resolve_nameservers (lookup : string -> M N domain.NameServer)
    (nss : list domain.NameServer) (agg : domain.DomainAggregate)
    : M N domain.DomainAggregate :=
  match nss with
  | [] => ret agg
  | ns :: nss =>
      row <- try (lookup (domain.ns_Handle ns));;
      resolve_nameservers lookup nss
        match row with
        | Ok n => domain.mkDomainAggregate (domain.agg_Domain agg) (domain.agg_Registrar agg)
                    (domain.agg_Contacts agg)
                    (<[domain.ns_Handle n := n]> (domain.agg_Nameservers agg))
        | Err _ => agg
        end
  end.
(** The set of handles to resolve. *)
Definition handles (d : domain.Domain) : gmap string bool :=
  let m := if String.eqb (domain.Registrar d) "" then ∅ else {[domain.Registrar d := true]} in
  foldl (fun m hs => foldl (fun m h => <[h := true]> m) m hs) m (map_range (domain.Contacts d)).*2.

End aggregate.

(** ** LIKE *)

(** The documented meaning of LIKE, on characters: [%] is any run, [_] any one
    character, a backslash takes the next character literally. *)
Fixpoint like_match (eq : Z -> Z -> bool) (p l : list Z) : bool :=
  match p with
  | [] => match l with [] => true | _ => false end
  | c :: p =>
      if c =? 37 then
        (fix any (l : list Z) : bool :=
           like_match eq p l || match l with [] => false | _ :: l => any l end) l
      else if c =? 92 then
        match p, l with
        | e :: p, x :: l => eq e x && like_match eq p l
        | _, _ => false
        end
      else match l with
           | [] => false
           | x :: l => ((c =? 95) || eq c x) && like_match eq p l
           end
  end.
(** No backslash at the end of the pattern, which is an error. *)
Fixpoint well_escaped (p : list ascii) : bool :=
  match p with
  | [] => true
  | c :: p =>
      if bool_decide (c = Strconv.backslash) then
        match p with [] => false | _ :: p => well_escaped p end
      else well_escaped p
  end.
Class LikeSpec `{Dialect} : Prop := {
  like_spec : forall v p, all_ascii (bs p) = true -> well_escaped (bs p) = true ->
    text_like v p = Ok (like_match Z.eqb (byte <$> bs p) (Utf8.runes (bs v)))
}.

(** What a search pattern means once it is a LIKE pattern: [*] is any run of
    characters and [?] any one, but so are [%] and [_], which are not escaped;
    after a backslash a character stands for itself, [*] for [%] and [?] for [_]. *)
Definition runs (c : ascii) : Prop := c = "*"%char \/ c = "%"%char.
Definition ones (c : ascii) : Prop := c = "?"%char \/ c = "_"%char.
Inductive wildcard : list ascii -> list Z -> Prop :=
  | wild_nil : wildcard [] []
  | wild_char c p l :
      ~ runs c -> ~ ones c -> c <> Strconv.backslash -> wildcard p l -> wildcard (c :: p) (byte c :: l)
  | wild_one c p x l : ones c -> wildcard p l -> wildcard (c :: p) (x :: l)
  | wild_run c p l1 l2 : runs c -> wildcard p l2 -> wildcard (c :: p) (l1 ++ l2)
  | wild_escape c p l :
      wildcard p l ->
      wildcard (Strconv.backslash :: c :: p)
        (byte (if decide (c = "*"%char) then "%"%char
               else if decide (c = "?"%char) then "_"%char else c) :: l).
(** Patterns of ASCII characters that do not end in a backslash. *)
Definition search_pattern (p : string) : Prop :=
  all_ascii (bs p) = true /\ well_escaped (bs p) = true.

Definition like_char (c : ascii) : ascii :=
  if bool_decide (c = "*"%char) then "%"%char else if bool_decide (c = "?"%char) then "_"%char else c.
Lemma patternToSQL_bytes p : bs (patternToSQL p) = like_char <$> bs p.
Proof.
  rewrite <-(sb_bs p) at 1. induction (bs p) as [|c l IH]; [done|].
  change (c :: l) with ([c] ++ l) at 1. unfold patternToSQL in *.
  rewrite !memory.ReplaceAll_app, !sb_bs, bs_sb, IH, fmap_cons.
  change (like_char c :: (like_char <$> l)) with ([like_char c] ++ (like_char <$> l)). f_equal.
  clear. destruct c as [[] [] [] [] [] [] [] []]; vm_compute; reflexivity.
Qed.

Lemma like_any eq p l :
  like_match eq (37 :: p) l = true <-> exists l1 l2, l = l1 ++ l2 /\ like_match eq p l2 = true.
Proof.
  change (like_match eq (37 :: p) l) with
    ((fix any (l : list Z) : bool :=
        like_match eq p l || match l with [] => false | _ :: l => any l end) l).
  induction l as [|x l IH].
  - rewrite orb_false_r. split; [intros; by exists [], []|].
    intros (l1 & l2 & E & Hm). symmetry in E. apply app_nil in E as [-> ->]. done.
  - rewrite orb_true_iff, IH. split.
    + intros [Hm|(l1 & l2 & -> & Hm)]; [by exists [], (x :: l)|by exists (x :: l1), l2].
    + intros ([|y l1] & l2 & E & Hm); simpl in E; [left; by subst|].
      injection E as -> ->. right. eauto.
Qed.

(** The translated pattern matches what the search pattern means. *)
Lemma byte_inj_eqb c d : (byte c =? byte d) = bool_decide (c = d).
Proof.
  case_bool_decide as Hd; [subst; apply Z.eqb_refl|]. apply Z.eqb_neq. intros E. apply Hd.
  by rewrite <-(of_byte_byte c), E, of_byte_byte.
Qed.
Lemma like_char_percent c : bool_decide (like_char c = "%"%char) = true <-> runs c.
Proof. unfold like_char, runs. repeat case_bool_decide; subst; split; intros; naive_solver. Qed.
Lemma like_char_underscore c : bool_decide (like_char c = "_"%char) = true <-> ones c.
Proof. unfold like_char, ones. repeat case_bool_decide; subst; split; intros; naive_solver. Qed.
Lemma like_char_backslash c : like_char c = Strconv.backslash <-> c = Strconv.backslash.
Proof. unfold like_char. repeat case_bool_decide; subst; done. Qed.
Lemma like_char_plain c : ~ runs c -> ~ ones c -> like_char c = c.
Proof. unfold like_char, runs, ones. intros Hr Ho. repeat case_bool_decide; tauto. Qed.

Lemma like_wildcard n p l :
  (length p <= n)%nat ->
  well_escaped p = true -> like_match Z.eqb (byte <$> (like_char <$> p)) l = true <-> wildcard p l.
Proof.
  revert p l. induction n as [|n IH]; intros [|c p] l Hn He; simpl in Hn; try lia.
  1, 2: destruct l; simpl; split; try done; [by constructor|intros Hw; by inversion Hw].
  rewrite !fmap_cons. destruct (decide (runs c)) as [Hr|Hr].
  { assert (He' : well_escaped p = true) by by destruct Hr; subst c.
    assert (like_char c = "%"%char) as -> by by destruct Hr; subst c.
    change (byte "%") with 37. rewrite like_any. split.
    - intros (l1 & l2 & -> & Hm). constructor; [done|]. apply IH; [lia|done|exact Hm].
    - intros Hw. inversion Hw as [| |? ? ? ? Ho|? ? l1 l2 ? Hw'|]; subst; try done.
      + destruct Hr, Ho; congruence.
      + exists l1, l2. split; [done|]. apply IH; [lia|done|exact Hw'].
      + by destruct Hr. }
  cbn [like_match]. change 37 with (byte "%"). change 95 with (byte "_").
  change 92 with (byte Strconv.backslash). rewrite !byte_inj_eqb.
  rewrite bool_decide_false by (intros E; apply Hr, like_char_percent; by rewrite bool_decide_true).
  simpl in He. destruct (decide (c = Strconv.backslash)) as [->|Hb].
  { rewrite bool_decide_true by by apply like_char_backslash. rewrite bool_decide_true in He by done.
    destruct p as [|d p]; [done|]. rewrite !fmap_cons. simpl in Hn.
    assert (Hd : like_char d = if decide (d = "*"%char) then "%"%char
                               else if decide (d = "?"%char) then "_"%char else d).
    { unfold like_char. repeat case_decide; by repeat case_bool_decide. }
    destruct l as [|x l]; [split; [done|]; intros Hw; inversion Hw as [|? ? ? ? ? Hb|? ? ? ? Ho|? ? ? ? Hr'|]; subst; done|].
    rewrite andb_true_iff, Z.eqb_eq, IH by (lia || done). rewrite Hd. split.
    - intros [<- Hw]. by constructor.
    - intros Hw. inversion Hw as [|? ? ? ? ? Hb|? ? ? ? Ho|? ? ? ? Hr'|]; subst; try done.
      by destruct Ho. }
  rewrite bool_decide_false by by rewrite like_char_backslash. rewrite bool_decide_false in He by done.
  destruct l as [|x l].
  { split; [done|]. intros Hw. by inversion Hw; subst. }
  rewrite andb_true_iff, orb_true_iff, like_char_underscore, Z.eqb_eq, IH by (lia || done). split.
  - intros [[Ho|Hx] Hw]; [by constructor|]. destruct (decide (ones c)); [by constructor|]. subst x.
    rewrite like_char_plain by done. by constructor.
  - intros Hw. inversion Hw as [|? ? ? _ ? _ ?|? ? ? ? Ho|? ? ? ? Hr'|]; subst; try done.
    + split; [|done]. right. by rewrite like_char_plain.
    + split; [by left|done].
Qed.
Lemma well_escaped_like p : well_escaped (like_char <$> p) = well_escaped p.
Proof.
  assert (H : forall n p, (length p <= n)%nat -> well_escaped (like_char <$> p) = well_escaped p).
  { clear p. induction n as [|n IH]; intros [|c p] Hn; simpl in Hn; try lia; try done.
    rewrite fmap_cons. simpl. rewrite (bool_decide_ext _ _ (like_char_backslash c)).
    case_bool_decide; [|apply IH; lia]. destruct p as [|d p]; [done|]. rewrite fmap_cons.
    apply IH. simpl in Hn. lia. }
  by apply (H (length p)).
Qed.
Lemma text_like_pattern `{LikeSpec} v p :
  search_pattern p ->
  exists b, text_like v (patternToSQL p) = Ok b
    /\ (b = true <-> wildcard (bs p) (Utf8.runes (bs v))).
Proof.
  intros [Ha Hp]. eexists. rewrite like_spec, patternToSQL_bytes.
  - split; [done|]. by eapply like_wildcard.
  - rewrite patternToSQL_bytes. apply all_ascii_Forall. apply Forall_fmap.
    apply all_ascii_Forall in Ha. eapply Forall_impl; [exact Ha|]. intros c Hc.
    unfold like_char. simpl. repeat case_bool_decide; [by vm_compute|by vm_compute|done].
  - by rewrite patternToSQL_bytes, well_escaped_like.
Qed.

(** ** Specification *)

Section spec.
Context `{Dialect} `{Driver} `{MapRange} {N : Type} (w : world N) (source : string).
Implicit Types (db : tables N) (agg : domain.DomainAggregate).

Definition reads_contact db (h : string) (c : domain.Contact) : Prop :=
  exists e, e ∈ t_entities db /\ text_eq (er_handle e) h = true /\ c = contact_record source e.
Definition reads_nameserver db (h : string) (n : domain.NameServer) : Prop :=
  exists r, r ∈ t_nameservers db /\ text_eq (nr_handle r) h = true
    /\ n = nameserver_record source r.
Definition reads_domain db (name : string) (d : domain.Domain) : Prop :=
  exists r expires, r ∈ t_domains db
    /\ (text_eq (dr_ldh_name r) name || text_eq (dr_unicode_name r) name) = true
    /\ dr_expires_at r = Some expires /\ d = domain_record source r expires.

(** Every part of the aggregate is read from the tables [db]. *)
Record aggregate_in db (name : string) agg : Prop := {
  in_domain : reads_domain db name (domain.agg_Domain agg);
  in_registrar : domain.agg_Registrar agg
                 = domain.agg_Contacts agg !! domain.Registrar (domain.agg_Domain agg);
  in_contacts : forall h c, domain.agg_Contacts agg !! h = Some c ->
    memory.refers_to (domain.agg_Domain agg) h /\ reads_contact db h c;
  in_nameservers : forall h n, domain.agg_Nameservers agg !! h = Some n ->
    domain.ns_Handle n = h
    /\ exists ns, ns ∈ domain.Nameservers (domain.agg_Domain agg)
         /\ reads_nameserver db (domain.ns_Handle ns) n
}.
(** No reference that [db] resolves is left out. *)
Record aggregate_complete db agg : Prop := {
  all_contacts : forall h c, memory.refers_to (domain.agg_Domain agg) h -> reads_contact db h c ->
    exists c, domain.agg_Contacts agg !! h = Some c /\ reads_contact db h c;
  all_nameservers : forall ns n, ns ∈ domain.Nameservers (domain.agg_Domain agg) ->
    reads_nameserver db (domain.ns_Handle ns) n ->
    exists n, reads_nameserver db (domain.ns_Handle ns) n
      /\ is_Some (domain.agg_Nameservers agg !! domain.ns_Handle n)
}.

(** What a query of the transaction tells about an object. *)
Record object_read {A} (P : A -> Prop) (a0 : bool) (r : result A) (a1 : bool) : Prop := {
  object_sound : forall x, r = Ok x -> P x;
  object_aborts : a0 = true -> a1 = true;
  object_quiet : quiet w -> a1 = a0;
  object_missing : forall e x, r = Err e -> faults_show w -> a1 = false -> ~ P x
}.
Definition snapshot_lookup {A} db (P : string -> A -> Prop) (lookup : string -> M N A) : Prop :=
  forall h a0 s, in_snapshot db a0 s ->
    exists a1, in_snapshot db a1 (lookup h s).2 /\ object_read (P h) a0 (lookup h s).1 a1.

(** ** The loops over a snapshot *)

Lemma resolve_contacts_spec db lookup registrar hs agg a0 s :
  snapshot_lookup db (reads_contact db) lookup -> in_snapshot db a0 s ->
  (domain.agg_Registrar agg = domain.agg_Contacts agg !! registrar) ->
  exists agg' a1, let '(r, s') := resolve_contacts lookup registrar hs agg s in
    r = Ok agg' /\ in_snapshot db a1 s' /\ (a0 = true -> a1 = true)
    /\ (quiet w -> a1 = a0)
    /\ domain.agg_Domain agg' = domain.agg_Domain agg
    /\ domain.agg_Nameservers agg' = domain.agg_Nameservers agg
    /\ domain.agg_Registrar agg' = domain.agg_Contacts agg' !! registrar
    /\ (forall h c, domain.agg_Contacts agg' !! h = Some c ->
          domain.agg_Contacts agg !! h = Some c \/ (h ∈ hs /\ reads_contact db h c))
    /\ (forall h, is_Some (domain.agg_Contacts agg !! h) -> is_Some (domain.agg_Contacts agg' !! h))
    /\ (faults_show w -> a1 = false -> forall h c, h ∈ hs -> reads_contact db h c ->
          is_Some (domain.agg_Contacts agg' !! h)).
Proof.
  intros Hlook. revert agg a0 s. induction hs as [|h hs IH]; intros agg a0 s Hs Hreg.
  { exists agg, a0. simpl. repeat split; auto. intros _ _ h c Hh. by apply elem_of_nil in Hh. }
  cbn [resolve_contacts]. unfold bind, try at 1.
  destruct (Hlook h a0 s Hs) as (a & Ha & Hread).
  destruct (lookup h s) as [r s1]. cbn [fst snd] in *.
  set (agg1 := match r with Ok c => _ | Err _ => agg end).
  assert (Hag : domain.agg_Registrar agg1 = domain.agg_Contacts agg1 !! registrar
    /\ domain.agg_Domain agg1 = domain.agg_Domain agg
    /\ domain.agg_Nameservers agg1 = domain.agg_Nameservers agg).
  { subst agg1. destruct r as [c|e]; [|done]. simpl. split; [|done].
    destruct (String.eqb_spec h registrar) as [->|Hn]; [by rewrite lookup_insert_eq|].
    by rewrite lookup_insert_ne. }
  destruct Hag as (Hreg1 & Hd1 & Hn1).
  destruct (IH agg1 a s1 Ha Hreg1) as (agg' & a1 & HI).
  exists agg', a1. destruct (resolve_contacts lookup registrar hs agg1 s1) as [r' s'].
  destruct HI as (-> & Hs' & Hab & Hq & Hd & Hn & Hr & Hc & Hk & Hm).
  destruct Hread as [Hsound Haborts Hquiet Hmiss].
  repeat split; try congruence; auto.
  - intros Q. by rewrite Hq, Hquiet.
  - intros k c [Hk1|[Hin Hrd]]%Hc; [|right; split; [by right|done]].
    subst agg1. destruct r as [c'|e]; [|by left]. simpl in Hk1.
    apply lookup_insert_Some in Hk1 as [[-> ->]|[_ ?]]; [|by left].
    right. split; [left|by apply Hsound].
  - intros k Hk0. apply Hk. subst agg1. destruct r; [|done]. simpl.
    destruct (decide (h = k)) as [->|]; [by rewrite lookup_insert_eq|by rewrite lookup_insert_ne].
  - intros Hf Ha1 k c [->|Hin]%elem_of_cons Hrd; [|by eapply Hm].
    apply Hk. subst agg1. destruct r as [c'|e]; [simpl; by rewrite lookup_insert_eq|].
    exfalso. eapply Hmiss; [done|done| |exact Hrd]. destruct a; [|done]. by rewrite Hab in Ha1.
Qed.

Lemma resolve_nameservers_spec db lookup nss agg a0 s :
  snapshot_lookup db (reads_nameserver db) lookup -> in_snapshot db a0 s ->
  exists agg' a1, let '(r, s') := resolve_nameservers lookup nss agg s in
    r = Ok agg' /\ in_snapshot db a1 s' /\ (a0 = true -> a1 = true)
    /\ (quiet w -> a1 = a0)
    /\ domain.agg_Domain agg' = domain.agg_Domain agg
    /\ domain.agg_Registrar agg' = domain.agg_Registrar agg
    /\ domain.agg_Contacts agg' = domain.agg_Contacts agg
    /\ (forall h n, domain.agg_Nameservers agg' !! h = Some n ->
          domain.agg_Nameservers agg !! h = Some n
          \/ (domain.ns_Handle n = h
              /\ exists ns, ns ∈ nss /\ reads_nameserver db (domain.ns_Handle ns) n))
    /\ (forall h, is_Some (domain.agg_Nameservers agg !! h) ->
          is_Some (domain.agg_Nameservers agg' !! h))
    /\ (faults_show w -> a1 = false -> forall ns n, ns ∈ nss ->
          reads_nameserver db (domain.ns_Handle ns) n ->
          exists n, reads_nameserver db (domain.ns_Handle ns) n
            /\ is_Some (domain.agg_Nameservers agg' !! domain.ns_Handle n)).
Proof.
  intros Hlook. revert agg a0 s. induction nss as [|ns nss IH]; intros agg a0 s Hs.
  { exists agg, a0. simpl. repeat split; auto. intros _ _ ns n Hns. by apply elem_of_nil in Hns. }
  cbn [resolve_nameservers]. unfold bind, try at 1.
  destruct (Hlook (domain.ns_Handle ns) a0 s Hs) as (a & Ha & Hread).
  destruct (lookup (domain.ns_Handle ns) s) as [r s1]. cbn [fst snd] in *.
  set (agg1 := match r with Ok n => _ | Err _ => agg end).
  destruct (IH agg1 a s1 Ha) as (agg' & a1 & HI).
  exists agg', a1. destruct (resolve_nameservers lookup nss agg1 s1) as [r' s'].
  destruct HI as (-> & Hs' & Hab & Hq & Hd & Hr & Hc & Hn & Hk & Hm).
  destruct Hread as [Hsound Haborts Hquiet Hmiss].
  split; [done|]. split; [done|]. split; [auto|].
  split; [intros Q; by rewrite Hq, Hquiet|]. split; [by destruct r|].
  split; [by destruct r|]. split; [by destruct r|]. repeat split.
  - intros k n [Hk1|(Hh & m & Hin & Hrd)]%Hn.
    2: { right. split; [done|]. exists m. split; [by right|done]. }
    subst agg1. destruct r as [n'|e]; [|by left]. simpl in Hk1.
    apply lookup_insert_Some in Hk1 as [[<- ->]|[_ ?]]; [|by left].
    right. split; [done|]. exists ns. split; [left|by apply Hsound].
  - intros k Hk0. apply Hk. subst agg1. destruct r as [n|]; [|done]. simpl.
    destruct (decide (domain.ns_Handle n = k)) as [->|];
      [by rewrite lookup_insert_eq|by rewrite lookup_insert_ne].
  - intros Hf Ha1 m n [->|Hin]%elem_of_cons Hrd; [|by eapply Hm].
    subst agg1. destruct r as [n'|e].
    + exists n'. split; [by apply Hsound|]. apply Hk. simpl. by rewrite lookup_insert_eq.
    + exfalso. eapply Hmiss; [done|done| |exact Hrd]. destruct a; [|done]. by rewrite Hab in Ha1.
Qed.

Lemma handles_elem d h : h ∈ (map_range (handles d)).*1 <-> memory.refers_to d h.
Proof. rewrite memory.keys_elem. apply memory.associated_iff. Qed.

(** The adapters' aggregate once the isolation level is set. *)
Definition read_aggregate (scan : result domain_row -> result domain.Domain)
    (lookup_contact : string -> M N domain.Contact)
    (lookup_nameserver : string -> M N domain.NameServer) (name : string)
    : M N domain.DomainAggregate :=
  row <- try (tx_QueryRow w (domain_by_name name));;
  d <- wrapM "domain lookup: " (lift (scan row));;
  agg <- resolve_contacts lookup_contact (domain.Registrar d) (map_range (handles d)).*1
           (domain.mkDomainAggregate d None ∅ ∅);;
  agg <- resolve_nameservers lookup_nameserver (domain.Nameservers d) agg;;
  _ <- wrapM "commit transaction: " (Commit w);;
  ret agg.

Lemma first_read name (s : session N) row s' :
  open_tx s = Some (mkTxn RepeatableRead None false) ->
  tx_QueryRow w (domain_by_name name) s = (Ok row, s') ->
  in_snapshot (w_tables w (clock s)) false s'
  /\ row ∈ t_domains (w_tables w (clock s))
  /\ (text_eq (dr_ldh_name row) name || text_eq (dr_unicode_name row) name) = true.
Proof.
  intros Hs. unfold tx_QueryRow, first_row, bind, tx_Query. rewrite Hs. simpl.
  destruct (w_fault w (clock s)) as [e|]; [done|].
  destruct (select w (clock s) _ _) as [rows|e] eqn:E; [|done].
  unfold fetch. destruct (w_rows_fault w (clock s)) as [[n e]|]; [by destruct (take n rows)|].
  destruct rows as [|x rows]; [done|]. simpl. intros [= -> <-]. split; [done|].
  destruct (select_sound _ _ _ _ _ row E) as [Hin Hw]; [left|]. split; [done|].
  simpl in Hw. by injection Hw.
Qed.

Lemma scan_domain_Ok row d :
  scan_domain source row = Ok d ->
  exists r expires, row = Ok r /\ dr_expires_at r = Some expires /\ d = domain_record source r expires.
Proof.
  unfold scan_domain, scan_domain_columns, not_null. destruct row as [r|e]; [|done]. simpl.
  destruct (dr_expires_at r) as [x|] eqn:E; [|done]. intros [= <-]. eauto.
Qed.

(** A query by handle, as a lookup. *)
Lemma lookup_row {A B} db (P : string -> B -> Prop) (st : string -> sql.stmt N A) pre
    (rec : A -> B) (scan : result A -> result B) :
  (forall h, s_limit (st h) = None) -> (forall h a, is_ok (s_where (st h) a) = true) ->
  (forall row, scan row = r ← wrap pre row; Ok (rec r)) ->
  (forall h x, P h x <-> exists r, r ∈ s_from (st h) db /\ s_where (st h) r = Ok true /\ x = rec r) ->
  snapshot_lookup db P (fun h => row <- try (tx_QueryRow w (st h));; lift (scan row)).
Proof.
  intros Hl Ht Hscan HP h a0 s Hs.
  destruct (tx_QueryRow_snapshot w db (st h) a0 s (Hl h) (Ht h) Hs) as (a1 & Ha & Hr).
  exists a1. unfold bind, try, lift. destruct (tx_QueryRow w (st h) s) as [r s'].
  rewrite Hscan. simpl in *. destruct Hr as [Hsound Hab Hq Hmiss]. split; [done|]. split; [|done|done|].
  - intros x. destruct r as [y|e]; [|done]. simpl. intros [= <-]. apply HP.
    destruct (Hsound y eq_refl). eauto.
  - intros e x Hx Hf Ha1 (y & Hy & Hw & _)%HP. destruct r as [z|e']; [done|].
    by eapply (Hmiss e' eq_refl Hf Ha1 y).
Qed.
Lemma lookup_contact db scan :
  (forall row, scan row = r ← wrap "scan entity: " row; Ok (contact_record source r)) ->
  snapshot_lookup db (reads_contact db)
    (fun h => row <- try (tx_QueryRow w (entity_by_handle h));; lift (scan row)).
Proof.
  intros Hscan. eapply lookup_row; [done|done|exact Hscan|]. intros h x. simpl.
  split; intros (r & Hr & Hw & ->); exists r; split_and!; congruence.
Qed.
Lemma lookup_nameserver db scan :
  (forall row, scan row = r ← wrap "scan nameserver: " row; Ok (nameserver_record source r)) ->
  snapshot_lookup db (reads_nameserver db)
    (fun h => row <- try (tx_QueryRow w (nameserver_by_handle h));; lift (scan row)).
Proof.
  intros Hscan. eapply lookup_row; [done|done|exact Hscan|]. intros h x. simpl.
  split; intros (r & Hr & Hw & ->); exists r; split_and!; congruence.
Qed.

Lemma read_aggregate_spec scan lookup_contact lookup_nameserver name s agg :
  let db := w_tables w (clock s) in
  (forall row, scan row = scan_domain source row) ->
  snapshot_lookup db (reads_contact db) lookup_contact ->
  snapshot_lookup db (reads_nameserver db) lookup_nameserver ->
  open_tx s = Some (mkTxn RepeatableRead None false) ->
  (read_aggregate scan lookup_contact lookup_nameserver name s).1 = Ok agg ->
  aggregate_in db name agg /\ (faults_show w -> aggregate_complete db agg).
Proof.
  intros db Hscan Hlc Hln Hs. unfold read_aggregate, bind at 1, try, wrapM, lift.
  destruct (tx_QueryRow w (domain_by_name name) s) as [row s1] eqn:E1.
  unfold bind at 1. rewrite Hscan.
  destruct (scan_domain source row) as [d|e] eqn:Ed; [|done]. simpl.
  apply scan_domain_Ok in Ed as (r & expires & -> & Hexp & Hd).
  destruct (first_read _ _ _ _ Hs E1) as (Hs1 & Hr & Hm). fold db in Hs1, Hr. unfold bind at 1.
  edestruct (resolve_contacts_spec db lookup_contact (domain.Registrar d)
    (map_range (handles d)).*1 (domain.mkDomainAggregate d None ∅ ∅) false s1 Hlc Hs1)
    as (agg1 & a1 & HC); [done|].
  destruct (resolve_contacts _ _ _ _ s1) as [r1 s2].
  destruct HC as (-> & Hs2 & Ha1 & _ & Hd1 & Hn1 & Hr1 & Hc1 & _ & Hm1). unfold bind at 1.
  edestruct (resolve_nameservers_spec db lookup_nameserver (domain.Nameservers d) agg1 a1 s2 Hln Hs2)
    as (agg2 & a2 & HN).
  destruct (resolve_nameservers _ _ _ s2) as [r2 s3].
  destruct HN as (-> & Hs3 & Ha2 & _ & Hd2 & Hr2 & Hc2 & Hn2 & _ & Hm2).
  unfold bind at 1, Commit. rewrite Hs3. simpl.
  destruct a2; [done|]. destruct (w_fault w (clock s3)); [done|]. simpl. intros [= <-].
  assert (a1 = false) as -> by (destruct a1; [by rewrite Ha2|done]).
  simpl in Hd1, Hn1, Hc1. rewrite Hd1 in Hd2. split.
  - split.
    + rewrite Hd2, Hd. exists r, expires. done.
    + by rewrite Hr2, Hc2, Hd2.
    + intros h c. rewrite Hc2, Hd2. intros [Hk|[Hin Hrd]]%Hc1; [by rewrite lookup_empty in Hk|].
      by apply handles_elem in Hin.
    + intros h n [Hk|Hk]%Hn2; [by rewrite Hn1, lookup_empty in Hk|]. by rewrite Hd2.
  - intros Hf. split.
    + intros h c Href Hrd. rewrite Hd2 in Href. apply handles_elem in Href. rewrite Hc2.
      destruct (Hm1 Hf eq_refl h c Href Hrd) as [c' Hc']. exists c'. split; [done|].
      destruct (Hc1 _ _ Hc') as [Hk|[_ ?]]; [by rewrite lookup_empty in Hk|done].
    + intros ns n Hns Hrd. rewrite Hd2 in Hns. by eapply Hm2.
Qed.

(** ** A database at rest

    Without failures and without writers, when names and handles identify rows. *)
Record keyed db : Prop := {
  key_domain : forall name a b, a ∈ t_domains db -> b ∈ t_domains db ->
    (text_eq (dr_ldh_name a) name || text_eq (dr_unicode_name a) name) = true ->
    (text_eq (dr_ldh_name b) name || text_eq (dr_unicode_name b) name) = true -> a = b;
  key_entity : forall h a b, a ∈ t_entities db -> b ∈ t_entities db ->
    text_eq (er_handle a) h = true -> text_eq (er_handle b) h = true -> a = b;
  key_empty : forall e, e ∈ t_entities db -> text_eq (er_handle e) "" = false
}.

Lemma reads_contact_unique db h c c' :
  keyed db -> reads_contact db h c -> reads_contact db h c' -> c = c'.
Proof.
  intros Hk (e & He & Hh & ->) (e' & He' & Hh' & ->).
  by rewrite (key_entity _ Hk h e e' He He' Hh Hh').
Qed.

Lemma read_aggregate_quiet scan lookup_contact lookup_nameserver name s d :
  let db := w_tables w (clock s) in
  (forall row, scan row = scan_domain source row) ->
  snapshot_lookup db (reads_contact db) lookup_contact ->
  snapshot_lookup db (reads_nameserver db) lookup_nameserver ->
  open_tx s = Some (mkTxn RepeatableRead None false) ->
  quiet w -> keyed db -> reads_domain db name d ->
  exists agg, (read_aggregate scan lookup_contact lookup_nameserver name s).1 = Ok agg.
Proof.
  intros db Hscan Hlc Hln Hs Hq Hk (r & expires & Hr & Hm & Hexp & _).
  unfold read_aggregate, bind at 1, try, wrapM, lift.
  assert (E1 : exists s1, tx_QueryRow w (domain_by_name name) s = (Ok r, s1)
                          /\ in_snapshot db false s1).
  { unfold tx_QueryRow, first_row, bind, tx_Query. rewrite Hs. cbn [tx_aborted tx_tables
      tx_isolation tx_snapshot default]. destruct (Hq (clock s)) as [-> Hrf].
    assert (Hok : is_ok (select w (clock s) db (domain_by_name name)) = true)
      by by apply select_total.
    simpl. fold db. destruct (select w (clock s) db (domain_by_name name)) as [rows|e] eqn:E.
    2: done.
    unfold fetch. rewrite Hrf. destruct rows as [|x rows].
    { assert (Hn : r ∈ []) by (eapply select_complete; [exact E|done|by simpl; rewrite Hm|done]).
      by apply elem_of_nil in Hn. }
    destruct (select_sound _ _ _ _ _ x E) as [Hx Hw]; [left|]. simpl in Hx, Hw. injection Hw as Hw.
    rewrite (key_domain _ Hk name x r) by done. simpl. by eexists. }
  destruct E1 as (s1 & E1 & Hs1). rewrite E1. unfold bind at 1. rewrite Hscan.
  assert (Es : scan_domain source (Ok r) = Ok (domain_record source r expires)).
  { unfold scan_domain, scan_domain_columns. simpl. by rewrite Hexp. }
  rewrite Es. clear Es. set (d' := domain_record source r expires). cbn [wrap]. unfold bind at 1.
  destruct (resolve_contacts_spec db lookup_contact (domain.Registrar d')
    (map_range (handles d')).*1 (domain.mkDomainAggregate d' None ∅ ∅) false s1 Hlc Hs1)
    as (agg1 & a1 & HC); [done|].
  destruct (resolve_contacts _ _ _ _ s1) as [r1 s2].
  destruct HC as (-> & Hs2 & _ & Hq1 & _). unfold bind at 1.
  destruct (resolve_nameservers_spec db lookup_nameserver (domain.Nameservers d') agg1 a1 s2 Hln Hs2)
    as (agg2 & a2 & HN).
  destruct (resolve_nameservers _ _ _ s2) as [r2 s3].
  destruct HN as (-> & Hs3 & _ & Hq2 & _).
  unfold bind at 1, Commit. rewrite Hs3, Hq2, Hq1 by done. cbn [tx_aborted].
  destruct (Hq (clock s3)) as [-> _]. by exists agg2.
Qed.

Lemma reads_domain_unique db name d d' :
  keyed db -> reads_domain db name d -> reads_domain db name d' -> d = d'.
Proof.
  intros Hk (r & x & Hr & Hm & Hx & ->) (r' & x' & Hr' & Hm' & Hx' & ->).
  rewrite (key_domain _ Hk name r r') in Hx |- * by done. congruence.
Qed.

(** The lookups of a domain and of a contact outside a transaction. *)
Definition domain_lookup (name : string) : M N domain.Domain :=
  c <- wrapM "domain lookup: " (row <- try (QueryRow w (domain_by_name name));;
                                lift (scan_domain_columns row));;
  let '(r, expires) := c in ret (domain_record source r expires).
Definition contact_lookup (handle : string) : M N domain.Contact :=
  r <- wrapM "entity lookup: " (QueryRow w (entity_by_handle handle));;
  ret (contact_record source r).

(** At rest they find exactly the rows of the tables. *)
Lemma domain_lookup_rest t name d :
  quiet w -> keyed (w_tables w t) ->
  run t (domain_lookup name) = Ok d <-> reads_domain (w_tables w t) name d.
Proof.
  intros Hq Hk.
  pose proof (QueryRow_quiet w (domain_by_name name) (mkSession t None)) as Hrow.
  unfold run, domain_lookup, bind at 1, wrapM, bind at 1, try, lift.
  destruct (QueryRow w (domain_by_name name) (mkSession t None)) as [row s]. simpl in *.
  assert (Hx : forall r, row = Ok r <-> r ∈ t_domains (w_tables w t)
    /\ (text_eq (dr_ldh_name r) name || text_eq (dr_unicode_name r) name) = true).
  { intros r. rewrite (Hrow r Hq eq_refl) by (try done; intros a b Ha Hb [= Hma] [= Hmb];
      by eapply key_domain). by split; intros [? E]; (split; [done|]); congruence. }
  clear Hrow. unfold scan_domain_columns. split.
  - destruct row as [r|]; [|done]. simpl. destruct (proj1 (Hx r) eq_refl) as [Hin Hm].
    destruct (dr_expires_at r) as [x|] eqn:E; [|done]. intros [= <-]. by exists r, x.
  - intros (r & x & Hin & Hm & E & ->). rewrite (proj2 (Hx r)) by done. simpl. by rewrite E.
Qed.
Lemma contact_lookup_rest t h c :
  quiet w -> keyed (w_tables w t) ->
  run t (contact_lookup h) = Ok c <-> reads_contact (w_tables w t) h c.
Proof.
  intros Hq Hk.
  pose proof (QueryRow_quiet w (entity_by_handle h) (mkSession t None)) as Hrow.
  unfold run, contact_lookup, bind at 1, wrapM.
  destruct (QueryRow w (entity_by_handle h) (mkSession t None)) as [row s]. simpl in *.
  assert (Hx : forall r, row = Ok r <-> r ∈ t_entities (w_tables w t)
    /\ text_eq (er_handle r) h = true).
  { intros r. rewrite (Hrow r Hq eq_refl) by (try done; intros a b Ha Hb [= Hma] [= Hmb];
      by eapply key_entity). by split; intros [? E]; (split; [done|]); congruence. }
  clear Hrow. split.
  - destruct row as [r|]; [|done]. simpl. intros [= <-]. destruct (proj1 (Hx r) eq_refl).
    by exists r.
  - intros (r & Hin & Hm & ->). by rewrite (proj2 (Hx r)).
Qed.

(** The bound of a search is the limit of its statement. *)
Lemma search_bounded {A B} pre (st : Z -> sql.stmt N A) (scan : result A -> result B) t :
  (forall n, s_limit (st n) = Some n) ->
  store.bounded (fun n => run t (bind (wrapM pre (Query w (st n)))
                                  (fun rows => lift (collect scan rows)))).
Proof.
  intros Hl n l Hn Hr. apply Query_search in Hr. pose proof (search_bound _ _ _ _ Hr n (Hl n)). lia.
Qed.
(** The same for a search whose rows are joined rows. *)
Lemma host_search_bounded {A B C} pre (st : Z -> sql.stmt N (A * C)) (scan : result A -> result B) t :
  (forall n, s_limit (st n) = Some n) ->
  store.bounded (fun n => run t (bind (wrapM pre (Query w (st n)))
                                  (fun rows => lift (collect scan (rows.1.*1, rows.2))))).
Proof.
  intros Hl n l Hn Hr. eapply (search_bounded pre st (fun r => scan (fst <$> r)) t Hl n l Hn).
  rewrite <-Hr. unfold run, bind, lift. destruct (wrapM _ _ _) as [[rows|e] s]; [|done].
  by rewrite collect_fmap.
Qed.

(** The aggregate of a database at rest is coherent with the single lookups. *)
Lemma rest_coherent (i : store.Interface) db name agg :
  keyed db ->
  (forall d, store.LookupDomain i name = Ok d <-> reads_domain db name d) ->
  (forall h c, store.LookupContact i h = Ok c <-> reads_contact db h c) ->
  aggregate_in db name agg -> aggregate_complete db agg -> store.coherent i name agg.
Proof.
  intros Hk HD HC [Hd Hr Hc _] [Hall _]. split.
  - by apply HD.
  - intros c. rewrite Hr, HC. split; [by intros [_ ?]%Hc|]. intros Hrd.
    assert (Hne : domain.Registrar (domain.agg_Domain agg) <> "").
    { intros E. rewrite E in Hrd. destruct Hrd as (e & He & Hh & _).
      by rewrite (key_empty _ Hk e He) in Hh. }
    destruct (Hall _ c (or_introl (conj eq_refl Hne)) Hrd) as (c' & Hc' & Hrd').
    by rewrite (reads_contact_unique db _ c c' Hk Hrd Hrd').
  - intros h c [_ ?]%Hc. by apply HC.
  - intros role hs h c Hrole Hin Hrd%HC.
    destruct (Hall h c) as (c' & Hc' & Hrd'); [right; eauto|done|].
    by rewrite (reads_contact_unique db _ c c' Hk Hrd Hrd').
Qed.

(** Where [GetDomainAggregate] is the aggregate read from one snapshot and the
    lookups are those of the tables, the contract of the storage boundary holds. *)
Record reads_tables (i : store.Interface) db : Prop := {
  rt_domain : forall name d, store.LookupDomain i name = Ok d -> reads_domain db name d;
  rt_domain_found : forall name d, reads_domain db name d -> store.LookupDomain i name = Ok d;
  rt_contact : forall h c, store.LookupContact i h = Ok c <-> reads_contact db h c;
  rt_aggregate : forall name agg, store.GetDomainAggregate i name = Ok agg ->
    aggregate_in db name agg /\ aggregate_complete db agg;
  rt_aggregate_found : forall name d, reads_domain db name d ->
    exists agg, store.GetDomainAggregate i name = Ok agg;
  rt_bounded : (forall p, store.bounded (store.SearchDomainsByName i p))
    /\ (forall p, store.bounded (store.SearchDomainsByNS i p))
    /\ (forall p, store.bounded (store.SearchContactsByName i p))
    /\ (forall p, store.bounded (store.SearchContactsByHandle i p))
    /\ (forall p, store.bounded (store.SearchNameserversByName i p))
    /\ (forall p, store.bounded (store.SearchNameserversByIP i p))
    /\ (forall q p, store.bounded (store.ReverseSearchDomainsByEntity i q p))
}.
Lemma reads_tables_spec i db : keyed db -> reads_tables i db -> store.StoreSpec i.
Proof.
  intros Hk [HD HD' HC HA HF (B1 & B2 & B3 & B4 & B5 & B6 & B7)]. split; try done.
  - intros name agg [Hin Hall]%HA. eapply rest_coherent; try done. intros d. split; auto.
  - intros name d Hd%HD. by eapply HF.
Qed.

End spec.

(** ** A concrete dialect and concrete tables, for the witnesses *)

Definition bytes_dialect : Dialect := {|
  text_eq := String.eqb;
  text_like v p := Ok (like_match Z.eqb (byte <$> bs p) (Utf8.runes (bs v)));
  text_ilike v p := Ok (like_match Z.eqb (byte <$> (lower_byte <$> bs p))
                          (Utf8.runes (lower_byte <$> bs v)));
  json_contains c a := Ok (String.eqb c a);
  inet_in_any c cs := Ok (existsb (String.eqb c) cs);
  inet_text a := a +:+ "/32"
|}.
Lemma bytes_dialect_like : @LikeSpec bytes_dialect.
Proof. done. Qed.
Definition sample_status : string := json.Marshal_strings ["active"].
Definition sample_domain (registrar : string) (expires : option Time) : domain_row :=
  mkDomainRow "EX1-NAME" "example.com" "example.com" "com" sample_status zero_time zero_time expires
    (Some registrar) None (Some "888") None "[]" None.
Definition sample_entity (h : string) : entity_row :=
  mkEntityRow h None (json.Marshal_strings ["registrar"]) sample_status zero_time zero_time "[]".
Definition sample_db {N} (d : domain_row) (handles : list string) : tables N :=
  mkTables _ [d] (sample_entity <$> handles) [] [] [] [].
Definition sample_world {N} (f : nat -> tables N) : world N :=
  mkWorld _ f (fun _ A l => l) (fun _ A l => reflexivity l) (fun _ => None) (fun _ => None).
(** Names and handles of the sample identify its rows. *)
Lemma sample_db_keyed {N} d hs :
  hs = ["REG-A"; "888"] -> @keyed bytes_dialect N (sample_db d hs).
Proof.
  intros ->. split.
  - intros n a b ->%list_elem_of_singleton ->%list_elem_of_singleton _ _. reflexivity.
  - intros h a b Ha Hb E1%String.eqb_eq E2%String.eqb_eq. subst h. simpl in *. set_solver.
  - intros e He. simpl in He. set_solver.
Qed.

End sqlstore.
