(* ===== verification/Postgres.v ===== *)
(** * The PostgreSQL adapter (internal/store/postgres.go)

    The row scanners, the lookups, the aggregate read inside one REPEATABLE READ
    transaction, and the searches, as operations of a database session. *)

From stdpp Require Import base tactics option list gmap strings.
From Stdlib Require Import ZArith Lia Ascii.
From S2P Require Import Prelude GoStrings GoTime Config Domain GoJson Store Mapping Sql SqlStore.
#[local] Open Scope Z_scope.

Module postgres.
Import sql sqlstore.
#[local] Open Scope sql_scope.

(** A row of [ip_networks] in the PostgreSQL schema: the addresses are INET, the
    CIDRs an array of texts. *)
Record ip_network_row := mkIPNetworkRow {
  ir_handle : string; ir_start_address : string; ir_end_address : string;
  ir_ip_version : string; ir_cidr : list string; ir_name : option string;
  ir_type : option string; ir_country : option string; ir_status : string;
  ir_created_at : Time; ir_updated_at : Time
}.
(** ** Row scanners *)

Section scanners.
Context `{Driver}.
Definition scanDomainRow : result domain_row -> result domain.Domain := scan_domain "postgres".
Definition scanContactRow (row : result entity_row) : result domain.Contact :=
  r ← wrap "scan entity: " row; Ok (contact_record "postgres" r).
Definition scanNameserverRow (row : result nameserver_row) : result domain.NameServer :=
  r ← wrap "scan nameserver: " row; Ok (nameserver_record "postgres" r).
End scanners.

Section operations.
Context `{Dialect} `{Driver} `{MapRange} (w : world ip_network_row).

(** ** Lookups *)

Definition LookupDomain (name : string) : M ip_network_row domain.Domain :=
  c <- wrapM "domain lookup: " (row <- try (QueryRow w (domain_by_name name));;
                                lift (scan_domain_columns row));;
  let '(r, expires) := c in ret (domain_record "postgres" r expires).

Definition lookupContactTx (handle : string) : M ip_network_row domain.Contact :=
  row <- try (tx_QueryRow w (entity_by_handle handle));; lift (scanContactRow row).

(** The query of a nameserver of the domain. *)
Definition lookup_nameserver_tx (handle : string) : M ip_network_row domain.NameServer :=
  row <- try (tx_QueryRow w (nameserver_by_handle handle));; lift (scanNameserverRow row).

Definition GetDomainAggregate (name : string) : M ip_network_row domain.DomainAggregate :=
  _ <- wrapM "begin transaction: " (Begin w ReadCommitted);;
  with_rollback (
    _ <- wrapM "set isolation level: " (SetIsolation w RepeatableRead);;
    row <- try (tx_QueryRow w (domain_by_name name));;
    d <- wrapM "domain lookup: " (lift (scanDomainRow row));;
    agg <- resolve_contacts lookupContactTx (domain.Registrar d) (map_range (handles d)).*1
             (domain.mkDomainAggregate d None ∅ ∅);;
    agg <- resolve_nameservers lookup_nameserver_tx (domain.Nameservers d) agg;;
    _ <- wrapM "commit transaction: " (Commit w);;
    ret agg).

Definition LookupContact (handle : string) : M ip_network_row domain.Contact :=
  r <- wrapM "entity lookup: " (QueryRow w (entity_by_handle handle));;
  ret (contact_record "postgres" r).

Definition LookupNameserver (name : string) : M ip_network_row domain.NameServer :=
  r <- wrapM "nameserver lookup: "
         (QueryRow w (nameserver_by_name name));;
  ret (nameserver_record "postgres" r).

(** [name], [type] and [country] are scanned into strings, which cannot hold
    NULL; the addresses are selected as texts. *)
Definition LookupIPNetwork (cidr : string) : M ip_network_row domain.IPNetwork :=
  c <- wrapM "IP network lookup: "
         (r <- QueryRow w (mkStmt t_ip_networks (fun r => inet_in_any cidr (ir_cidr r)) None);;
          name <- lift (not_null (ir_name r));; type <- lift (not_null (ir_type r));;
          country <- lift (not_null (ir_country r));; ret (r, name, type, country));;
  let '(r, name, type, country) := c in
  ret (domain.mkIPNetwork (ir_handle r) (inet_text (ir_start_address r))
         (inet_text (ir_end_address r)) (ir_ip_version r) (ir_cidr r) name type country
         (mapping.parseStatus (ir_status r)) "" (metadata "postgres" (ir_created_at r) (ir_updated_at r))).

Definition LookupAutnum (asn : Z) : M ip_network_row domain.Autnum :=
  c <- wrapM "autnum lookup: "
         (r <- QueryRow w (mkStmt t_autnums
                 (fun r => Ok ((ar_start_asn r <=? asn) && (asn <=? ar_end_asn r))) (Some 1));;
          first <- lift (scan_uint32 (ar_start_asn r));; last <- lift (scan_uint32 (ar_end_asn r));;
          name <- lift (not_null (ar_name r));; type <- lift (not_null (ar_type r));;
          country <- lift (not_null (ar_country r));; ret (r, first, last, name, type, country));;
  let '(r, first, last, name, type, country) := c in
  ret (domain.mkAutnum (ar_handle r) first last name type country
         (mapping.parseStatus (ar_status r)) (metadata "postgres" (ar_created_at r) (ar_updated_at r))).

(** ** Searches *)

Definition SearchDomainsByName (pattern : string) (limit : Z) : M ip_network_row (list domain.Domain) :=
  let sqlPattern := patternToSQL pattern in
  rows <- wrapM "search domains: " (Query w (mkStmt t_domains
            (fun r => or_cond (text_like (dr_ldh_name r) sqlPattern)
                        (text_like (dr_unicode_name r) sqlPattern)) (Some limit)));;
  lift (collect scanDomainRow rows).

Definition SearchDomainsByNS (nsName : string) (limit : Z) : M ip_network_row (list domain.Domain) :=
  rows <- wrapM "search domains by NS: " (Query w (domains_of_host nsName limit));;
  lift (collect scanDomainRow (rows.1.*1, rows.2)).

Definition SearchContactsByName (pattern : string) (limit : Z) : M ip_network_row (list domain.Contact) :=
  let sqlPattern := "%" +:+ patternToSQL pattern +:+ "%" in
  rows <- wrapM "search entities: " (Query w (mkStmt t_entities
            (fun r => or_cond (on_column (er_vcard_json r) (fun v => text_ilike v sqlPattern))
                        (text_ilike (er_handle r) sqlPattern)) (Some limit)));;
  lift (collect scanContactRow rows).

Definition SearchContactsByHandle (pattern : string) (limit : Z)
    : M ip_network_row (list domain.Contact) :=
  let sqlPattern := patternToSQL pattern in
  rows <- wrapM "search entities by handle: " (Query w (mkStmt t_entities
            (fun r => text_ilike (er_handle r) sqlPattern) (Some limit)));;
  lift (collect scanContactRow rows).

Definition SearchNameserversByName (pattern : string) (limit : Z)
    : M ip_network_row (list domain.NameServer) :=
  let sqlPattern := patternToSQL pattern in
  rows <- wrapM "search nameservers: " (Query w (mkStmt t_nameservers
            (fun r => or_cond (text_like (nr_ldh_name r) sqlPattern)
                        (text_like (nr_unicode_name r) sqlPattern)) (Some limit)));;
  lift (collect scanNameserverRow rows).

Definition SearchNameserversByIP (ip : string) (limit : Z)
    : M ip_network_row (list domain.NameServer) :=
  let ipJSON := sb ("["%char :: dquote :: bs ip ++ [dquote; "]"%char]) in
  rows <- wrapM "search nameservers by IP: " (Query w (mkStmt t_nameservers
            (fun r => or_cond (on_column (nr_ipv4 r) (fun c => json_contains c ipJSON))
                        (on_column (nr_ipv6 r) (fun c => json_contains c ipJSON))) (Some limit)));;
  lift (collect scanNameserverRow rows).

Definition Ping : M ip_network_row unit := PingDB w.
Definition ReverseSearchDomainsByEntity (property pattern : string) (limit : Z)
    : M ip_network_row (list domain.Domain) :=
  fail (ErrSentinel store.ErrReverseSearchUnsupported).
Definition Close : M ip_network_row unit := ret tt.

(** [PostgresStore] as a [store.Interface]: operations that start as statement
    number [t] of the session. *)
Definition interface (t : nat) : store.Interface := {|
  store.LookupDomain n := run t (LookupDomain n);
  store.GetDomainAggregate n := run t (GetDomainAggregate n);
  store.LookupContact h := run t (LookupContact h);
  store.LookupNameserver n := run t (LookupNameserver n);
  store.LookupIPNetwork c := run t (LookupIPNetwork c);
  store.LookupAutnum n := run t (LookupAutnum n);
  store.SearchDomainsByName p l := run t (SearchDomainsByName p l);
  store.SearchDomainsByNS p l := run t (SearchDomainsByNS p l);
  store.SearchContactsByName p l := run t (SearchContactsByName p l);
  store.SearchContactsByHandle p l := run t (SearchContactsByHandle p l);
  store.SearchNameserversByName p l := run t (SearchNameserversByName p l);
  store.SearchNameserversByIP p l := run t (SearchNameserversByIP p l);
  store.ReverseSearchDomainsByEntity q p l := run t (ReverseSearchDomainsByEntity q p l);
  store.Ping := run t Ping;
  store.Close := run t Close
|}.

End operations.

(** ** The constructor *)

(** A Go conversion to [int32] wraps. *)
Definition int32 (z : Z) : Z := (z + 2 ^ 31) mod 2 ^ 32 - 2 ^ 31.

(** The pool configuration: the bounds the code sets, and the connection settings
    read from the DSN. *)
Record pool_config (C : Type) := mkPoolConfig { MaxConns : Z; MinConns : Z; ConnConfig : C }.
Arguments mkPoolConfig {_} _ _ _.
Arguments MaxConns {_} _.
Arguments MinConns {_} _.
Arguments ConnConfig {_} _.

(** [pgxpool.ParseConfig] and [pgxpool.NewWithConfig] are parameters; the pool
    they give is a database world, whose first statement is the ping. *)
Definition NewPostgresStore `{Dialect} `{Driver} `{MapRange} {C : Type}
    (ParseConfig : string -> result (pool_config C))
    (NewWithConfig : pool_config C -> result (world ip_network_row))
    (cfg : config.StorageConfig) : result store.Interface :=
  poolCfg ← wrap "parse pgx config: " (ParseConfig (config.DSN cfg));
  let poolCfg := if 0 <? config.MaxOpen cfg
    then mkPoolConfig (int32 (config.MaxOpen cfg)) (MinConns poolCfg) (ConnConfig poolCfg)
    else poolCfg in
  let poolCfg := if 0 <? config.MaxIdle cfg
    then mkPoolConfig (MaxConns poolCfg) (int32 (config.MaxIdle cfg)) (ConnConfig poolCfg)
    else poolCfg in
  pool ← wrap "create pool: " (NewWithConfig poolCfg);
  _ ← wrap "ping database: " (run 0 (Ping pool));
  Ok (interface pool 1).

(** ** Lemmas *)

Section lemmas.
Context `{Dialect} `{Driver} `{MapRange} (w : world ip_network_row).

Lemma read_in_snapshot t name agg :
  run t (GetDomainAggregate w name) = Ok agg ->
  exists s, clock s = (t + 2)%nat /\ open_tx s = Some (mkTxn RepeatableRead None false)
    /\ (read_aggregate w scanDomainRow (lookupContactTx w) (lookup_nameserver_tx w) name s).1 = Ok agg.
Proof.
  unfold run, GetDomainAggregate, bind at 1, wrapM at 1, Begin, simple. simpl.
  destruct (w_fault w t); [done|]. simpl.
  unfold with_rollback, bind at 1, wrapM at 1, SetIsolation, simple. simpl.
  destruct (w_fault w (S t)); [done|]. simpl. intros Hr.
  exists (mkSession (S (S t)) (Some (mkTxn RepeatableRead None false))).
  split; [simpl; lia|]. split; [done|].
  fold (read_aggregate w scanDomainRow (lookupContactTx w) (lookup_nameserver_tx w) name) in Hr.
  by destruct (read_aggregate _ _ _ _ _ _).
Qed.

(** The mutual description of the adapter and of the tables it reads. *)
Lemma contact_snapshot db : snapshot_lookup w db (reads_contact "postgres" db) (lookupContactTx w).
Proof. by apply lookup_contact. Qed.
Lemma nameserver_snapshot db :
  snapshot_lookup w db (reads_nameserver "postgres" db) (lookup_nameserver_tx w).
Proof. by apply lookup_nameserver. Qed.

Lemma aggregate_snapshot t name agg :
  run t (GetDomainAggregate w name) = Ok agg ->
  aggregate_in "postgres" (w_tables w (t + 2)) name agg
  /\ (faults_show w -> aggregate_complete "postgres" (w_tables w (t + 2)) agg).
Proof.
  intros (s & Ht & Hs & Hr)%read_in_snapshot. rewrite <-Ht.
  eapply read_aggregate_spec; [|by apply contact_snapshot|by apply nameserver_snapshot|done|exact Hr].
  done.
Qed.
Lemma aggregate_quiet t name d :
  quiet w -> keyed (w_tables w (t + 2)) -> reads_domain "postgres" (w_tables w (t + 2)) name d ->
  exists agg, run t (GetDomainAggregate w name) = Ok agg.
Proof.
  intros Hq Hk Hd. unfold run, GetDomainAggregate, bind at 1, wrapM at 1, Begin, simple. simpl.
  destruct (Hq t) as [-> _]. simpl.
  unfold with_rollback, bind at 1, wrapM at 1, SetIsolation, simple. simpl.
  destruct (Hq (S t)) as [-> _]. simpl.
  fold (read_aggregate w scanDomainRow (lookupContactTx w) (lookup_nameserver_tx w) name).
  set (s := mkSession _ _). replace (t + 2)%nat with (clock s) in * by (simpl; lia).
  destruct (read_aggregate_quiet w "postgres" scanDomainRow (lookupContactTx w)
    (lookup_nameserver_tx w) name s d) as [agg Hagg]; try done.
  - apply contact_snapshot.
  - apply nameserver_snapshot.
  - exists agg. by destruct (read_aggregate _ _ _ _ _ s).
Qed.
Lemma pg_tables_read db t :
  quiet w -> (forall t, w_tables w t = db) -> keyed db -> reads_tables "postgres" (interface w t) db.
Proof.
  intros Hq Hdb Hk. assert (Hkt : keyed (w_tables w t)) by by rewrite Hdb.
  split; rewrite <-?(Hdb t).
  - intros name d. by apply domain_lookup_rest.
  - intros name d. by apply domain_lookup_rest.
  - intros h c. by apply contact_lookup_rest.
  - intros name agg [Hin Hall]%aggregate_snapshot. rewrite Hdb in Hin, Hall |- *.
    split; [done|apply Hall; by right].
  - intros name d Hd. eapply aggregate_quiet; rewrite ?Hdb in Hd |- *; done.
  - split_and!; try (intros; by apply search_bounded); [|done].
    intros p. by apply host_search_bounded.
Qed.
End lemmas.


(** ** Properties *)

(** C15: a domain aggregate is read from one snapshot.  Whatever other clients
    commit between the statements of the transaction, the domain is a row of the
    tables as they were at the first query, the contacts and nameservers are the
    rows of those same tables the domain refers to, none that resolves is left
    out, and the registrar is the resolved contact of the registrar handle. *)
Theorem GetDomainAggregate_snapshot `{Dialect} `{Driver} `{MapRange} (w : world ip_network_row) t name agg :
  fault_aborts = true ->
  run t (GetDomainAggregate w name) = Ok agg ->
  aggregate_in "postgres" (w_tables w (t + 2)) name agg
  /\ aggregate_complete "postgres" (w_tables w (t + 2)) agg.
Proof.
  intros Hf [Hin Hall]%aggregate_snapshot. split; [done|]. apply Hall. by left.
Qed.

(** A domain row the search pattern names. *)
Definition named (pattern : string) (r : domain_row) : Prop :=
  wildcard (bs pattern) (Utf8.runes (bs (dr_ldh_name r)))
  \/ wildcard (bs pattern) (Utf8.runes (bs (dr_unicode_name r))).
Lemma named_like `{LikeSpec} pattern r :
  search_pattern pattern ->
  or_cond (text_like (dr_ldh_name r) (patternToSQL pattern))
    (text_like (dr_unicode_name r) (patternToSQL pattern)) = Ok true <-> named pattern r.
Proof.
  intros Hp. destruct (text_like_pattern (dr_ldh_name r) pattern Hp) as (b1 & -> & H1).
  destruct (text_like_pattern (dr_unicode_name r) pattern Hp) as (b2 & -> & H2).
  unfold or_cond, named. rewrite <-H1, <-H2. simpl. destruct b1, b2; naive_solver.
Qed.

(** C24: for a pattern of ASCII characters that does not end in a backslash, a
    domain search returns the records of rows one of whose names the pattern
    matches, at most as many as the limit, and every such row when fewer come back;
    so a matching row whose expiry is NULL makes a search that reaches it fail.
    [*] matches any run of characters and [?] any one, but since LIKE's own
    characters are not escaped so do [%] and [_], and a backslash escapes the
    character after it. *)
Theorem SearchDomainsByName_like `{LikeSpec} `{Driver} (w : world ip_network_row) t pattern limit ds :
  search_pattern pattern -> 0 < limit ->
  run t (SearchDomainsByName w pattern limit) = Ok ds ->
  (forall d, d ∈ ds -> exists r expires, r ∈ t_domains (w_tables w t) /\ named pattern r
     /\ dr_expires_at r = Some expires /\ d = domain_record "postgres" r expires)
  /\ Z.of_nat (length ds) <= limit
  /\ (Z.of_nat (length ds) < limit -> forall r, r ∈ t_domains (w_tables w t) -> named pattern r ->
        exists expires, dr_expires_at r = Some expires /\ domain_record "postgres" r expires ∈ ds).
Proof.
  intros Hp Hl Hr. apply Query_search in Hr as [Hs Hb Hc]. split; [|split].
  - intros d (r & Hin & Hw & Hd)%Hs. simpl in *. apply named_like in Hw; [|done].
    apply scan_domain_Ok in Hd as (r' & x & [= <-] & Hx & ->). eauto 10.
  - specialize (Hb limit eq_refl). lia.
  - intros Hlen r Hin Hw. destruct (Hc r Hin) as (d & Hd & Hsd); [by apply named_like|done|].
    apply scan_domain_Ok in Hsd as (r' & x & [= <-] & Hx & ->). eauto.
Qed.

(** A PostgreSQL database at rest (no failures, no writers, names and handles
    that identify rows) meets the contract of the storage boundary, the one the
    service is verified against: the aggregate is coherent with the single
    lookups and exists when the domain does, and every search is bounded. *)
Theorem postgres_interface_spec `{Dialect} `{Driver} `{MapRange} (w : world ip_network_row) db t :
  quiet w -> (forall t, w_tables w t = db) -> keyed db -> store.StoreSpec (interface w t).
Proof. intros Hq Hdb Hk. eapply (reads_tables_spec "postgres"), pg_tables_read; done. Qed.

(** *** Witnesses *)

Definition pgx : Driver := {|
  errNoRows := ErrSentinel "no rows in result set";
  errScanNull := ErrText "cannot scan NULL";
  errScanRange := ErrText "value is greater than maximum value for uint32";
  errNegativeLimit := ErrText "LIMIT must not be negative";
  errAborted := ErrText "current transaction is aborted";
  errCommitRollback := ErrSentinel "commit unexpectedly resulted in rollback";
  fault_aborts := true
|}.

(** A transfer commits after the domain row is read, and deletes the old
    registrar. *)
Definition transfer (t : nat) : tables ip_network_row :=
  if (t <=? 2)%nat then sample_db (sample_domain "REG-A" (Some zero_time)) ["REG-A"; "888"]
  else sample_db (sample_domain "REG-B" (Some zero_time)) ["REG-B"; "888"].

Lemma GetDomainAggregate_snapshot_witness :
  let w := sample_world transfer in
  exists agg, run 0 (@GetDomainAggregate bytes_dialect pgx range_forward w "example.com") = Ok agg
    /\ @aggregate_in bytes_dialect _ "postgres" (transfer 2) "example.com" agg
    /\ @aggregate_complete bytes_dialect _ "postgres" (transfer 2) agg
    /\ domain.ct_Handle <$> domain.agg_Registrar agg = Some "REG-A".
Proof.
  cbv zeta. set (r := run 0 _). assert (E : (fun x => domain.ct_Handle <$> domain.agg_Registrar x)
    <$> r = Ok (Some "REG-A")) by (vm_compute; reflexivity).
  destruct r as [agg|e] eqn:Hr; [|discriminate E]. injection E as E. exists agg.
  split; [reflexivity|].
  destruct (@GetDomainAggregate_snapshot bytes_dialect pgx range_forward (sample_world transfer) 0
    "example.com" agg eq_refl Hr) as [Hin Hall].
  split; [exact Hin|]. split; [exact Hall|exact E].
Defined.

Lemma SearchDomainsByName_like_witness :
  let db := sample_db (sample_domain "REG-A" (Some zero_time)) [] in
  exists d, run 0 (@SearchDomainsByName bytes_dialect pgx (sample_world (fun _ => db)) "e_?mple*" 5)
    = Ok [d] /\ exists r expires, r ∈ t_domains db /\ named "e_?mple*" r
       /\ dr_expires_at r = Some expires /\ d = domain_record "postgres" r expires.
Proof.
  cbv zeta. set (db := sample_db _ _).
  destruct (run 0 (@SearchDomainsByName bytes_dialect pgx (sample_world (fun _ => db)) "e_?mple*" 5))
    as [[|d [|d' ds]]|e] eqn:E; try (vm_compute in E; discriminate E).
  exists d. split; [reflexivity|].
  apply (@SearchDomainsByName_like bytes_dialect bytes_dialect_like pgx (sample_world (fun _ => db)) 0
    "e_?mple*" 5 [d]); [|lia|exact E|left].
  split; reflexivity.
Defined.

Lemma postgres_interface_spec_witness :
  let db := sample_db (sample_domain "REG-A" (Some zero_time)) ["REG-A"; "888"] in
  store.StoreSpec (@interface bytes_dialect pgx range_forward (sample_world (fun _ => db)) 0).
Proof.
  intros db. apply (@postgres_interface_spec bytes_dialect pgx range_forward (sample_world (fun _ => db)) db 0);
    [done|done|by apply sample_db_keyed].
Defined.

End postgres.
