(* ===== verification/Handlers.v ===== *)
(** * The HTTP handlers (internal/handlers/handlers.go, response.go)

    Every handler as a function from the request (and the path parameters the
    router extracts, which are third-party) to what it writes, and the route
    table.  A body is the value handed to the JSON encoder. *)

From stdpp Require Import base tactics option list gmap strings pretty.
From Stdlib Require Import ZArith Lia Ascii.
From S2P Require Import Prelude GoStrings GoTime GoNet GoHttp Config Domain RdapModels Rdap GoRegexp Store MemoryStore Service.
#[local] Open Scope Z_scope.

Module handlers.

Record Handler := mkHandler {
  h_svc : service.Service; h_cfg : config.RDAPConfig; h_port : Z;
  h_rate : config.RateConfig; h_auth : config.AuthConfig
}.

Definition New (svc : service.Service) (cfg : config.RDAPConfig) (rate : config.RateConfig)
    (authCfg : config.AuthConfig) (serverPort : Z) : Handler :=
  mkHandler svc cfg serverPort rate authCfg.

(** The values the handlers encode. *)
Inductive body : Type :=
  | BHelp (x : rdap.Help)
  | BDomain (x : rdap.Domain)
  | BEntity (x : rdap.EntityResponse)
  | BNameserver (x : rdap.NameserverResponse)
  | BIPNetwork (x : rdap.IPNetworkResponse)
  | BAutnum (x : rdap.AutnumResponse)
  | BDomains (x : rdap.DomainSearchResult)
  | BEntities (x : rdap.EntitySearchResult)
  | BNameservers (x : rdap.NameserverSearchResult)
  | BError (x : rdap.ErrorResponse)
  | BText (s : string).

Definition writer : Type := Response body -> Response body.
(** A handler of a request with its path parameters ([chi.URLParam]). *)
Definition handler : Type := (string -> string) -> Request -> writer.

Definition writeJSON (status : Z) (v : body) : writer := fun w =>
  write_body v (write_header status (set_header "Content-Type" "application/rdap+json" w)).
Definition writeError (status errorCode : Z) (title description : string) : writer :=
  writeJSON status
    (BError (rdap.mkErrorResponse NewConformance errorCode title [description] [])).

Section handlers.
Context `{UnicodeTables} `{Idna} (h : Handler).

Definition requestURL (r : Request) : string :=
  let scheme :=
    if rq_tls r || Strings.EqualFold (header_get (rq_header r) "X-Forwarded-Proto") "https"
    then "https" else "http" in
  let host :=
    match Net.SplitHostPort (rq_host r) with
    | Some _ => rq_host r
    | None =>
        if negb (String.eqb scheme "http" && (h_port h =? 80))
           && negb (String.eqb scheme "https" && (h_port h =? 443))
        then Net.JoinHostPort (rq_host r) (Strconv.Itoa (h_port h))
        else rq_host r
    end in
  Url.url_string scheme host (rq_path r) (rq_rawquery r).

Definition noticeOpts : option NoticeOptions :=
  Some (service.NoticeOptionsFromConfig (h_cfg h)).
Definition notices (reqURL : string) : list rdap.Notice :=
  NewNoticesWithICANN reqURL (config.BaseURL (h_cfg h)) noticeOpts.
Definition enabled (ext : string) : bool := config.ExtensionsEnabled (h_cfg h) ext.

Definition farv1Providers (authCfg : config.AuthConfig) : list rdap.FARV1Provider :=
  if String.eqb (config.Issuer authCfg) "" then []
  else [rdap.mkFARV1Provider (config.Issuer authCfg) (config.Issuer authCfg) true].

Definition help_response : rdap.Help :=
  let rateInfo :=
    if config.Rate_Enabled (h_rate h)
    then mkRateLimitInfo true (config.Requests (h_rate h)) (config.Window (h_rate h))
           (config.Burst (h_rate h))
    else mkRateLimitInfo false 0 0 0 in
  let help := NewHelp (config.BaseURL (h_cfg h)) noticeOpts rateInfo
                (mkSearchInfo (config.SearchEnabled (h_cfg h))) in
  let help :=
    if enabled "reverse_search"
    then rdap.mkHelp (WithExtensions (rdap.help_Conformance help) ["reverse_search"])
           (rdap.help_Notices help) (service.ReverseSearchProperties (h_svc h))
           (rdap.FARV1 help)
    else help in
  if config.Auth_Enabled (h_auth h)
  then rdap.mkHelp (WithExtensions (rdap.help_Conformance help) ["farv1"])
         (rdap.help_Notices help) (rdap.ReverseSearchProperties help)
         (Some (rdap.mkFARV1 false true false false
                  (negb (String.eqb (config.Issuer (h_auth h)) "")) false
                  (farv1Providers (h_auth h))))
  else help.
Definition Help : handler := fun _ r => writeJSON 200 (BHelp help_response).

(** ** Lookups *)

Definition LookupDomain : handler := fun URLParam r =>
  let domainName := URLParam "domainName" in
  if String.eqb domainName ""
  then writeError 400 400 "Invalid domain name" "Domain name parameter is required"
  else
    match NormalizeDomainName domainName with
    | Err err => writeError 400 400 "Invalid domain name" (error_message err)
    | Ok (ldhName, _) =>
        match service.LookupDomain (h_svc h) ldhName (requestURL r) with
        | Err _ => writeError 404 404 "Domain not found"
                     ("No domain found for: " +:+ domainName)
        | Ok resp => writeJSON 200 (BDomain resp)
        end
    end.

Definition LookupEntity : handler := fun URLParam r =>
  let handle := URLParam "handle" in
  if String.eqb handle ""
  then writeError 400 400 "Invalid entity handle" "Entity handle parameter is required"
  else
    match service.LookupEntity (h_svc h) handle (requestURL r) with
    | Err _ => writeError 404 404 "Entity not found" ("No entity found for handle: " +:+ handle)
    | Ok entity =>
        writeJSON 200
          (BEntity (rdap.mkEntityResponse entity NewConformance (notices (requestURL r))))
    end.

Definition LookupNameserver : handler := fun URLParam r =>
  let name := URLParam "name" in
  if String.eqb name ""
  then writeError 400 400 "Invalid nameserver name" "Nameserver name parameter is required"
  else
    match service.LookupNameserver (h_svc h) name (requestURL r) with
    | Err _ => writeError 404 404 "Nameserver not found" ("No nameserver found for: " +:+ name)
    | Ok ns =>
        let conf := if enabled "ttl0" then WithExtensions NewConformance ["ttl0"]
                    else NewConformance in
        writeJSON 200 (BNameserver (rdap.mkNameserverResponse ns conf (notices (requestURL r))))
    end.

Definition ipNetworkConformance : rdap.Conformance :=
  let conf := NewConformance in
  let conf := if enabled "geofeed1" then WithExtensions conf ["geofeed1"] else conf in
  if enabled "cidr0" then WithExtensions conf ["cidr0"] else conf.

(** The CIDR the store is asked for: a prefix as written, an address with the
    length of its family, nothing for anything else. *)
Definition network_query (network : string) : option string :=
  match Netip.ParsePrefix network with
  | Some _ => Some network
  | None =>
      match Netip.ParseAddr network with
      | None => None
      | Some _ => Some (network +:+ (if Strings.Contains network ":" then "/128" else "/32"))
      end
  end.
Definition LookupIPNetwork : handler := fun URLParam r =>
  let network := URLParam "*" in
  if String.eqb network ""
  then writeError 400 400 "Invalid network" "Network parameter is required"
  else
    match network_query network with
    | None => writeError 400 400 "Invalid network"
                "Must be a valid IP address or CIDR notation"
    | Some network =>
        match service.LookupIPNetwork (h_svc h) network (requestURL r) with
        | Err _ => writeError 404 404 "IP network not found"
                     ("No IP network found for: " +:+ network)
        | Ok ipnet =>
            writeJSON 200 (BIPNetwork (rdap.mkIPNetworkResponse ipnet ipNetworkConformance
                                         (notices (requestURL r))))
        end
    end.

Definition LookupAutnum : handler := fun URLParam r =>
  let asnStr := URLParam "asn" in
  if String.eqb asnStr "" then writeError 400 400 "Invalid ASN" "ASN parameter is required"
  else
    match Strconv.ParseUint asnStr 32 with
    | None => writeError 400 400 "Invalid ASN" "ASN must be a valid 32-bit unsigned integer"
    | Some asn32 =>
        let name := "AS" +:+ Strconv.Itoa asn32 in
        writeJSON 200
          (BAutnum (rdap.mkAutnumResponse
             (rdap.mkAutnum (rdap.common "autnum" name [] [] [] ["active"]) asn32 asn32 name "" "")
             NewConformance (notices (requestURL r))))
    end.

(** ** Searches *)

Definition SearchNotImplemented : handler := fun _ r =>
  writeError 501 501 "Search not implemented" "Search queries are disabled on this server".

(** The limit the four search handlers compute. *)
Definition search_limit (q : list (string * string)) : Z :=
  let limit := config.MaxSearchLimit (h_cfg h) in
  let l := Url.query_get q "limit" in
  if String.eqb l "" then limit
  else match Strconv.Atoi l with
       | Some parsed => if (0 <? parsed) && (parsed <=? limit) then parsed else limit
       | None => limit
       end.

(** The property predicates of a reverse search, in the code's order. *)
Definition predicates (q : list (string * string)) : list (string * string) :=
  List.filter (fun p => negb (String.eqb p.2 ""))
    ((fun p => (p, Url.query_get q p)) <$> ["handle"; "role"; "fn"; "email"]).

Definition ReverseSearchDomains : handler := fun _ r =>
  if negb (enabled "reverse_search")
  then writeError 501 501 "Reverse search not implemented"
         "The reverse_search extension is not enabled on this server"
  else
    let q := Url.parse_query (rq_rawquery r) in
    let limit := search_limit q in
    match predicates q with
    | [] => writeError 400 400 "Missing search parameter"
              "One of 'handle', 'role', 'fn', or 'email' is required"
    | _ :: _ :: _ => writeError 400 400 "Ambiguous search"
              "Only one reverse search property may be specified"
    | [(property, pattern)] =>
        match service.ReverseSearchDomainsByEntity (h_svc h) property pattern limit
                (requestURL r) with
        | Err err =>
            if errors_Is err store.ErrReverseSearchUnsupported
            then writeError 501 501 "Reverse search not implemented"
                   "The storage backend does not support reverse search"
            else writeError 500 500 "Reverse search failed" (error_message err)
        | Ok results =>
            writeJSON 200 (BDomains (rdap.mkDomainSearchResult
              (WithExtensions NewConformance ["reverse_search"]) results
              (notices (requestURL r)) (service.ReverseSearchMapping [property])))
        end
    end.

(** The body common to the three search handlers: two exclusive parameters, one
    of which is required. *)
Definition exclusive_search {A} (p1 p2 : string) (ambiguous missing : string)
    (search1 search2 : string -> Z -> string -> result (list A))
    (respond : string -> list A -> body) (r : Request) : writer :=
  let q := Url.parse_query (rq_rawquery r) in
  let v1 := Url.query_get q p1 in
  let v2 := Url.query_get q p2 in
  let limit := search_limit q in
  if negb (String.eqb v1 "") && negb (String.eqb v2 "")
  then writeError 400 400 "Ambiguous search" ambiguous
  else
    let reqURL := requestURL r in
    let run (search : string -> Z -> string -> result (list A)) v :=
      match search v limit reqURL with
      | Err err => writeError 500 500 "Search failed" (error_message err)
      | Ok results => writeJSON 200 (respond reqURL results)
      end in
    if negb (String.eqb v1 "") then run search1 v1
    else if negb (String.eqb v2 "") then run search2 v2
    else writeError 400 400 "Missing search parameter" missing.

Definition SearchDomains : handler := fun _ =>
  exclusive_search "name" "nsLdhName"
    "Cannot specify both 'name' and 'nsLdhName' parameters"
    "Either 'name' or 'nsLdhName' parameter is required"
    (service.SearchDomainsByName (h_svc h)) (service.SearchDomainsByNS (h_svc h))
    (fun url l => BDomains (rdap.mkDomainSearchResult NewConformance l (notices url) [])).
Definition SearchEntities : handler := fun _ =>
  exclusive_search "fn" "handle"
    "Cannot specify both 'fn' and 'handle' parameters"
    "Either 'fn' or 'handle' parameter is required"
    (service.SearchEntitiesByName (h_svc h)) (service.SearchEntitiesByHandle (h_svc h))
    (fun url l => BEntities (rdap.mkEntitySearchResult NewConformance l (notices url) [])).
Definition SearchNameservers : handler := fun _ =>
  exclusive_search "name" "ip"
    "Cannot specify both 'name' and 'ip' parameters"
    "Either 'name' or 'ip' parameter is required"
    (service.SearchNameserversByName (h_svc h)) (service.SearchNameserversByIP (h_svc h))
    (fun url l => BNameservers (rdap.mkNameserverSearchResult NewConformance l (notices url) [])).

(** ** Routes *)

Record route := mkRoute { rt_method : string; rt_pattern : string; rt_handler : handler }.

Definition get_head (pattern : string) (f : handler) : list route :=
  [mkRoute "GET" pattern f; mkRoute "HEAD" pattern f].

Definition RegisterRoutes : list route :=
  get_head "/help" Help ++ [mkRoute "GET" "/" Help]
  ++ get_head "/domain/{domainName}" LookupDomain
  ++ get_head "/entity/{handle}" LookupEntity
  ++ get_head "/nameserver/{name}" LookupNameserver
  ++ get_head "/ip/*" LookupIPNetwork
  ++ get_head "/autnum/{asn}" LookupAutnum
  ++ (if config.SearchEnabled (h_cfg h) then
        get_head "/domains" SearchDomains ++ get_head "/entities" SearchEntities
        ++ get_head "/nameservers" SearchNameservers
      else
        get_head "/domains" SearchNotImplemented ++ get_head "/entities" SearchNotImplemented
        ++ get_head "/nameservers" SearchNotImplemented)
  ++ get_head "/domains/reverse_search/entity" ReverseSearchDomains.

End handlers.

(** ** Specifications *)

Definition body_conformance (b : body) : list string :=
  match b with
  | BHelp x => rdap.conf_ids (rdap.help_Conformance x)
  | BDomain x => rdap.conf_ids (rdap.d_Conformance x)
  | BEntity x => rdap.conf_ids (rdap.er_Conformance x)
  | BNameserver x => rdap.conf_ids (rdap.nr_Conformance x)
  | BIPNetwork x => rdap.conf_ids (rdap.ir_Conformance x)
  | BAutnum x => rdap.conf_ids (rdap.ar_Conformance x)
  | BDomains x => rdap.conf_ids (rdap.ds_Conformance x)
  | BEntities x => rdap.conf_ids (rdap.es_Conformance x)
  | BNameservers x => rdap.conf_ids (rdap.nss_Conformance x)
  | BError x => rdap.conf_ids (rdap.err_Conformance x)
  | BText _ => []
  end.

(** A status and a body that agree: an error object carries the status it is
    sent with, anything else is sent with 200; all announce RDAP level 0. *)
Definition consistent (status : Z) (b : body) : Prop :=
  head (body_conformance b) = Some "rdap_level_0"
  /\ match b with
     | BError e => rdap.ErrorCode e = status /\ status ∈ [400; 404; 500; 501]
     | BText _ => False
     | _ => status = 200
     end.
(** A writer that sends one consistent JSON answer. *)
Definition answers (f : writer) (status : Z) (b : body) : Prop :=
  f = writeJSON status b /\ consistent status b.
Definition sends (f : writer) (status : Z) : Prop := exists b, answers f status b.

(** The results a search answer carries. *)
Definition results_length (b : body) : Z :=
  match b with
  | BDomains x => Z.of_nat (length (rdap.DomainSearchResults x))
  | BEntities x => Z.of_nat (length (rdap.EntitySearchResults x))
  | BNameservers x => Z.of_nat (length (rdap.NameserverSearchResults x))
  | _ => 0
  end.

(** ** Lemmas *)

Lemma head_add_extensions seen c l ids :
  head (add_extensions seen (c :: l) ids) = Some c.
Proof.
  revert seen l. induction ids as [|i ids IH]; intros seen l; [done|]. simpl.
  case_match; apply IH.
Qed.
Lemma head_WithExtensions c ids :
  head (rdap.conf_ids c) = Some "rdap_level_0" ->
  head (rdap.conf_ids (WithExtensions c ids)) = Some "rdap_level_0".
Proof.
  destruct c as [[|x l]]; simpl; [done|]. intros [= ->]. apply head_add_extensions.
Qed.
#[local] Hint Resolve head_WithExtensions : core.

Lemma sends_error st title desc :
  st ∈ [400; 404; 500; 501] -> sends (writeError st st title desc) st.
Proof. intros Hst. by eexists. Qed.
Lemma sends_json b :
  head (body_conformance b) = Some "rdap_level_0" ->
  match b with BError _ | BText _ => False | _ => True end -> sends (writeJSON 200 b) 200.
Proof. intros Hc Hb. exists b. split; [done|]. split; [done|]. by destruct b. Qed.

Lemma domain_conformance d agg base url rbase mode opts ext :
  head (rdap.conf_ids (rdap.d_Conformance
    (service.domainToRDAP d agg base url rbase mode opts ext))) = Some "rdap_level_0".
Proof. unfold service.domainToRDAP. destruct ext as [[[] ? ? ? ? ? ? ?]|]; simpl; auto. Qed.

(** Split the branches of a handler; each sends one answer. *)
#[local] Ltac answer :=
  repeat case_match; eexists;
  first [ apply sends_error; vm_compute; by repeat constructor
        | apply sends_json; simpl; auto using head_WithExtensions ].

Section lemmas.
Context `{UnicodeTables} `{Idna} (h : Handler).

Lemma exclusive_search_sends {A} p1 p2 a m (s1 s2 : string -> Z -> string -> result (list A))
    respond r :
  (forall url l, sends (writeJSON 200 (respond url l)) 200) ->
  exists st, sends (exclusive_search h p1 p2 a m s1 s2 respond r) st.
Proof.
  intros Hr. unfold exclusive_search.
  repeat case_match; eexists; try (apply sends_error; vm_compute; by repeat constructor).
  all: apply Hr.
Qed.

Lemma Help_conformance :
  rdap.conf_ids (rdap.help_Conformance (help_response h))
  = "rdap_level_0" :: (if enabled h "reverse_search" then ["reverse_search"] else [])
    ++ (if config.Auth_Enabled (h_auth h) then ["farv1"] else []).
Proof.
  unfold help_response. by destruct (enabled h _), (config.Auth_Enabled (h_auth h)).
Qed.

Definition all_handlers : list handler :=
  [Help h; LookupDomain h; LookupEntity h; LookupNameserver h; LookupIPNetwork h;
   LookupAutnum h; SearchDomains h; SearchEntities h; SearchNameservers h;
   SearchNotImplemented; ReverseSearchDomains h].
Lemma route_handler rt : rt ∈ RegisterRoutes h -> rt_handler rt ∈ all_handlers.
Proof.
  unfold RegisterRoutes, get_head, all_handlers.
  destruct (config.SearchEnabled (h_cfg h)); simpl;
    rewrite !elem_of_cons, elem_of_nil; intros Hrt;
    repeat destruct Hrt as [->|Hrt]; try done; simpl; tauto.
Qed.

Lemma route_sends rt URLParam r :
  rt ∈ RegisterRoutes h -> exists st, sends (rt_handler rt URLParam r) st.
Proof.
  assert (Hh : Forall (fun f : handler => forall URLParam r, exists st, sends (f URLParam r) st)
    all_handlers).
  { unfold all_handlers. repeat (apply Forall_cons; split; [intros U q|]); [..|by apply Forall_nil].
    - exists 200. apply sends_json; [|done]. simpl body_conformance. by rewrite Help_conformance.
    - unfold LookupDomain. destruct (NormalizeDomainName _) as [[ldh u]|]; [|answer].
      unfold service.LookupDomain. repeat case_match; simplify_eq; eexists;
        try (apply sends_error; vm_compute; by repeat constructor).
      destruct (store.GetDomainAggregate _ _); simplify_eq/=.
      apply sends_json; [apply domain_conformance|done].
    - unfold LookupEntity. answer.
    - unfold LookupNameserver. answer.
    - unfold LookupIPNetwork, ipNetworkConformance. answer.
    - unfold LookupAutnum. answer.
    - apply exclusive_search_sends. intros. by apply sends_json.
    - apply exclusive_search_sends. intros. by apply sends_json.
    - apply exclusive_search_sends. intros. by apply sends_json.
    - unfold SearchNotImplemented. answer.
    - unfold ReverseSearchDomains. answer. }
  rewrite Forall_forall in Hh. intros Hrt. by apply Hh, route_handler.
Qed.

End lemmas.

Lemma search_limit_range h q :
  0 < config.MaxSearchLimit (h_cfg h) ->
  0 < search_limit h q <= config.MaxSearchLimit (h_cfg h).
Proof. intros Hm. unfold search_limit. repeat case_match; to_prop; lia. Qed.

(** The one property of a reverse search, with its pattern. *)
Definition sole_property (q : list (string * string)) (property pattern : string) : Prop :=
  property ∈ ["handle"; "role"; "fn"; "email"]
  /\ Url.query_get q property = pattern /\ pattern <> ""
  /\ forall p, p ∈ ["handle"; "role"; "fn"; "email"] -> p <> property -> Url.query_get q p = "".
Lemma predicates_sole q p v : predicates q = [(p, v)] <-> sole_property q p v.
Proof.
  unfold predicates, sole_property. simpl.
  assert (Hall : forall P : string -> Prop, (forall x, x ∈ ["handle"; "role"; "fn"; "email"] -> P x)
            <-> P "handle" /\ P "role" /\ P "fn" /\ P "email").
  { intros P. split; [intros HP; split_and!; apply HP; rewrite !elem_of_cons; tauto|].
    intros (?&?&?&?) x. rewrite !elem_of_cons, elem_of_nil.
    by intros [->|[->|[->|[->|[]]]]]. }
  rewrite (Hall (fun x => x <> p -> Url.query_get q x = "")), !elem_of_cons, elem_of_nil.
  destruct (String.eqb_spec (Url.query_get q "handle") "") as [E1|E1],
    (String.eqb_spec (Url.query_get q "role") "") as [E2|E2],
    (String.eqb_spec (Url.query_get q "fn") "") as [E3|E3],
    (String.eqb_spec (Url.query_get q "email") "") as [E4|E4]; simpl; split;
    try (intros [=]; subst; split_and!; first [done|tauto|congruence]);
    intros ([->|[->|[->|[->|[]]]]] & <- & Hn & Q1 & Q2 & Q3 & Q4); try done; exfalso;
    first [by apply E1, Q1|by apply E2, Q2|by apply E3, Q3|by apply E4, Q4].
Qed.
Lemma predicates_mapping q p v :
  predicates q = [(p, v)] ->
  rdap.rsm_Property <$> service.ReverseSearchMapping [p] = [p].
Proof.
  intros E. assert (Hp : p ∈ ["handle"; "role"; "fn"; "email"]).
  { assert (Hin : (p, v) ∈ predicates q) by (rewrite E; left).
    unfold predicates in Hin. apply list_elem_of_In, List.filter_In in Hin as [Hin _].
    apply list_elem_of_In, list_elem_of_fmap in Hin as (p' & [= -> _] & Hp). done. }
  rewrite !elem_of_cons, elem_of_nil in Hp. by repeat destruct Hp as [->|Hp].
Qed.

(** A writer that sends one answer with at most [limit] results. *)
Definition sends_short (limit : Z) (f : writer) : Prop :=
  exists st b, f = writeJSON st b /\ results_length b <= limit.

Lemma sends_short_small limit st b :
  0 < limit -> results_length b = 0 -> sends_short limit (writeJSON st b).
Proof. intros Hl Hb. exists st, b. split; [done|lia]. Qed.

Section bounds.
Context `{UnicodeTables} `{Idna} (st : store.Interface) `{!store.StoreSpec st}.
Context (h : Handler) (cfg : config.RDAPConfig) (Hsvc : h_svc h = service.New st cfg).
Context (Hmax : 0 < config.MaxSearchLimit (h_cfg h)).

Lemma exclusive_search_short {A} p1 p2 a m (s1 s2 : string -> Z -> string -> result (list A))
    respond r :
  (forall v limit url, 0 < limit -> service.within limit (s1 v limit url)
                                 /\ service.within limit (s2 v limit url)) ->
  (forall url l, results_length (respond url l) = Z.of_nat (length l)) ->
  sends_short (search_limit h (Url.parse_query (rq_rawquery r)))
    (exclusive_search h p1 p2 a m s1 s2 respond r).
Proof.
  intros Hs Hr. unfold exclusive_search.
  set (limit := search_limit h _). assert (Hl : 0 < limit) by by apply search_limit_range.
  set (v1 := Url.query_get _ p1). set (v2 := Url.query_get _ p2).
  pose proof (fun v => Hs v limit (requestURL h r) Hl) as Hs'.
  destruct (negb (String.eqb v1 "") && _); [by apply sends_short_small|].
  destruct (negb (String.eqb v1 "")), (negb (String.eqb v2 "")).
  4: by apply sends_short_small.
  1,2: destruct (Hs' v1) as [Hw _]; destruct (s1 v1 limit (requestURL h r)).
  5: destruct (Hs' v2) as [_ Hw]; destruct (s2 v2 limit (requestURL h r)).
  all: try by apply sends_short_small.
  all: do 2 eexists; split; [done|]; by rewrite Hr.
Qed.

Lemma route_short rt URLParam r :
  rt ∈ RegisterRoutes h ->
  sends_short (search_limit h (Url.parse_query (rq_rawquery r))) (rt_handler rt URLParam r).
Proof.
  pose proof (search_limit_range h (Url.parse_query (rq_rawquery r)) Hmax) as [Hl _].
  pose proof (fun p limit url => service.searches_within st cfg p "" limit url) as W.
  cbv zeta in W. rewrite <-Hsvc in W.
  assert (Hh : Forall (fun f : handler => sends_short
      (search_limit h (Url.parse_query (rq_rawquery r))) (f URLParam r))
    (all_handlers h)).
  { unfold all_handlers. repeat (apply Forall_cons; split); [..|by apply Forall_nil].
    7,8,9: apply exclusive_search_short; [|done]; intros v l url Hp;
      specialize (W v l url Hp); tauto.
    8: { unfold ReverseSearchDomains. destruct (negb _); [by apply sends_short_small|].
      destruct (predicates _) as [|[p v] [|]]; [by apply sends_short_small| |
        by apply sends_short_small].
      pose proof (service.searches_within st cfg p v _ (requestURL h r) Hl) as W'.
      cbv zeta in W'. rewrite <-Hsvc in W'.
      destruct W' as (_ & _ & _ & _ & _ & _ & W').
      destruct (service.ReverseSearchDomainsByEntity _ _ _ _ _).
      - do 2 eexists; split; [done|]. exact W'.
      - destruct (errors_Is _ _); by apply sends_short_small. }
    all: unfold Help, LookupDomain, LookupEntity, LookupNameserver, LookupIPNetwork,
      LookupAutnum, SearchNotImplemented.
    all: repeat case_match; by apply sends_short_small. }
  rewrite Forall_forall in Hh. intros Hrt. by apply Hh, route_handler.
Qed.

End bounds.

Lemma consistent_status status b : consistent status b -> status ∈ [200; 400; 404; 500; 501].
Proof.
  intros [_ Hb]. destruct b; try subst status; try (by left); [|done]. destruct Hb as [_ Hb]. by right.
Qed.

(** ** Properties *)

Section properties.
Context `{UnicodeTables} `{Idna}.
Implicit Types (h : Handler) (r : Request) (U : string -> string) (st : store.Interface).

(** A domain lookup is answered 400 for a name that does not normalise, 200
    with the domain for a name the store knows and 404 otherwise, whatever store
    meets the storage contract. *)
Theorem LookupDomain_answer st `{!store.StoreSpec st} cfg port rate authCfg U r :
  let h := New (service.New st cfg) cfg rate authCfg port in
  U "domainName" <> "" ->
  match NormalizeDomainName (U "domainName") with
  | Err e => LookupDomain h U r
             = writeError 400 400 "Invalid domain name" (error_message e)
  | Ok (ldh, _) =>
      match store.LookupDomain st ldh with
      | Ok d => exists out, LookupDomain h U r = writeJSON 200 (BDomain out)
          /\ rdap.LDHName out = domain.LDHName d
          /\ rdap.Handle (rdap.d_Common out) = domain.d_Handle d
      | Err _ => LookupDomain h U r
          = writeError 404 404 "Domain not found" ("No domain found for: " +:+ U "domainName")
      end
  end.
Proof.
  intros h Hu. unfold LookupDomain. apply String.eqb_neq in Hu. rewrite Hu.
  destruct (NormalizeDomainName _) as [[ldh u]|e]; [|done]. simpl.
  destruct (store.LookupDomain st ldh) as [d|e] eqn:Hd.
  - destruct (service.LookupDomain_found st cfg ldh (requestURL h r) d Hd) as (agg & _ & _ & ->).
    by eexists.
  - by destruct (service.LookupDomain_missing st cfg ldh (requestURL h r) e Hd) as [e' ->].
Qed.

(** C31: with a positive maximum, the limit of a request is the requested one when
    it is a number between one and the maximum, and exactly the maximum otherwise
    (absent, not a number, out of range), and no answer of any route carries more
    results than that. *)
Theorem answers_bounded st `{!store.StoreSpec st} cfg port rate authCfg rt U r :
  let h := New (service.New st cfg) cfg rate authCfg port in
  let q := Url.parse_query (rq_rawquery r) in
  let requested n := Strconv.Atoi (Url.query_get q "limit") = Some n /\ 1 <= n <= config.MaxSearchLimit cfg in
  0 < config.MaxSearchLimit cfg -> rt ∈ RegisterRoutes h ->
  (forall n, requested n -> search_limit h q = n)
  /\ ((forall n, ~ requested n) -> search_limit h q = config.MaxSearchLimit cfg)
  /\ exists status b, rt_handler rt U r = writeJSON status b
     /\ results_length b <= search_limit h q <= config.MaxSearchLimit cfg.
Proof.
  intros h q requested Hm Hrt. split_and!.
  - intros n [Hn Hr]. unfold search_limit. rewrite Hn. simpl.
    destruct (String.eqb_spec (Url.query_get q "limit") "") as [E|E]; [by rewrite E in Hn|].
    by replace ((0 <? n) && (n <=? config.MaxSearchLimit cfg)) with true
      by (symmetry; apply andb_true_iff; split; [apply Z.ltb_lt|apply Z.leb_le]; lia).
  - intros Hno. unfold search_limit. simpl. destruct (String.eqb _ _); [done|].
    destruct (Strconv.Atoi _) as [n|] eqn:En; [|done].
    destruct ((0 <? n) && (n <=? config.MaxSearchLimit cfg)) eqn:Eb; [|done].
    to_prop. destruct (Hno n). split; [done|lia].
  - destruct (route_short st h cfg eq_refl Hm rt U r Hrt) as (status & b & E & Hb).
    exists status, b. split; [done|]. pose proof (search_limit_range h q Hm).
    unfold q in *. simpl in *. lia.
Qed.

(** With searches disabled, the three search paths answer 501 whatever the
    query, and no route but the reverse search consults the store for a list. *)
Theorem search_disabled h rt U r :
  config.SearchEnabled (h_cfg h) = false ->
  rt ∈ RegisterRoutes h -> rt_pattern rt ∈ ["/domains"; "/entities"; "/nameservers"] ->
  rt_handler rt U r
  = writeError 501 501 "Search not implemented" "Search queries are disabled on this server".
Proof.
  intros Hs. unfold RegisterRoutes, get_head. rewrite Hs. simpl.
  rewrite !elem_of_cons, !elem_of_nil. intros Hrt Hp.
  repeat (destruct Hrt as [->|Hrt]; [simpl in Hp; destruct Hp as [Hp|[Hp|[Hp|[]]]];
    first [discriminate Hp|reflexivity]|]). done.
Qed.

(** An IP lookup is answered 400 exactly when the path is neither an address
    nor a prefix; an address is looked up as the prefix of its family's full
    length, a prefix as written, and the answer is 200 or 404 as the store knows
    it or not. *)
Theorem LookupIPNetwork_answer st cfg port rate authCfg U r :
  let h := New (service.New st cfg) cfg rate authCfg port in
  let s := U "*" in
  s <> "" ->
  match Netip.ParsePrefix s, Netip.ParseAddr s with
  | None, None => exists title desc, LookupIPNetwork h U r = writeError 400 400 title desc
  | p, _ =>
      let net := match p with
                 | Some _ => s
                 | None => s +:+ (if Strings.Contains s ":" then "/128" else "/32")
                 end in
      match store.LookupIPNetwork st net with
      | Ok n => exists out, LookupIPNetwork h U r = writeJSON 200 (BIPNetwork out)
          /\ rdap.StartAddress (rdap.ir_IPNetwork out) = domain.StartAddress n
          /\ rdap.EndAddress (rdap.ir_IPNetwork out) = domain.EndAddress n
      | Err _ => LookupIPNetwork h U r
          = writeError 404 404 "IP network not found" ("No IP network found for: " +:+ net)
      end
  end.
Proof.
  intros h s Hs. unfold LookupIPNetwork. fold s. apply String.eqb_neq in Hs. rewrite Hs.
  unfold network_query, service.LookupIPNetwork. simpl.
  destruct (Netip.ParsePrefix s); [|destruct (Netip.ParseAddr s); [|by do 2 eexists]].
  all: destruct (store.LookupIPNetwork st _); simpl; [by eexists|done].
Qed.

(** An autonomous-system lookup is answered 200 exactly for the decimal
    numbers below 2^32 (every one of them), with a generated object for that very
    number: the store is never asked. *)
Theorem LookupAutnum_answer h h' U r :
  h_cfg h = h_cfg h' -> h_port h = h_port h' ->
  LookupAutnum h U r = LookupAutnum h' U r
  /\ (forall n, 0 <= n < 2 ^ 32 -> U "asn" = Strconv.Itoa n ->
       exists out, LookupAutnum h U r = writeJSON 200 (BAutnum out)
         /\ rdap.StartAutnum (rdap.ar_Autnum out) = n /\ rdap.EndAutnum (rdap.ar_Autnum out) = n
         /\ rdap.Handle (rdap.as_Common (rdap.ar_Autnum out)) = "AS" +:+ U "asn")
  /\ (Strconv.ParseUint (U "asn") 32 = None ->
       exists desc, LookupAutnum h U r = writeError 400 400 "Invalid ASN" desc).
Proof.
  intros Hc Hp. split_and!.
  - unfold LookupAutnum, notices, noticeOpts, requestURL. by rewrite Hc, Hp.
  - intros n Hn Hu. unfold LookupAutnum. rewrite Hu, ParseUint_Itoa by done.
    destruct (String.eqb_spec (Strconv.Itoa n) "") as [E|E]; [|by eexists].
    pose proof (digits_Itoa n ltac:(lia)) as D. by rewrite E in D.
  - intros Hn. unfold LookupAutnum. rewrite Hn. destruct (String.eqb _ _); by eexists.
Qed.

(** The help answer advertises RFC 9560 support exactly when authentication
    is enabled (naming the configured issuer as the provider) and reverse search
    exactly when the extension is, in the conformance and in its own member. *)
Theorem Help_answer st cfg port rate authCfg U r :
  let h := New (service.New st cfg) cfg rate authCfg port in
  exists out, Help h U r = writeJSON 200 (BHelp out)
    /\ ("farv1" ∈ rdap.conf_ids (rdap.help_Conformance out)
         <-> config.Auth_Enabled authCfg = true)
    /\ (is_Some (rdap.FARV1 out) <-> config.Auth_Enabled authCfg = true)
    /\ (forall f, rdap.FARV1 out = Some f ->
          rdap.Iss <$> rdap.OpenIDCProviders f
          = (if String.eqb (config.Issuer authCfg) "" then [] else [config.Issuer authCfg]))
    /\ ("reverse_search" ∈ rdap.conf_ids (rdap.help_Conformance out)
         <-> config.ExtensionsEnabled cfg "reverse_search" = true)
    /\ (rdap.ReverseSearchProperties out <> []
         <-> config.ExtensionsEnabled cfg "reverse_search" = true).
Proof.
  intros h. exists (help_response h). split; [done|].
  rewrite !Help_conformance.
  unfold help_response, service.ReverseSearchProperties, enabled. simpl.
  destruct (config.ExtensionsEnabled cfg "reverse_search"), (config.Auth_Enabled authCfg);
    simpl; unfold farv1Providers; destruct (String.eqb (config.Issuer authCfg) "").
  all: split_and!; rewrite ?elem_of_cons, ?elem_of_nil; try done; try naive_solver.
Qed.

End properties.

(** ** Witnesses: a server over the seeded store *)

Section witnesses.
#[local] Existing Instances ascii_tables no_idna range_backward glob_engine
  service.demo_spec.

Definition demo_rate : config.RateConfig := config.Rate config.sample.
Definition demo_auth : config.AuthConfig := config.Auth config.sample.
Definition demo_handler (cfg : config.RDAPConfig) : Handler :=
  New (service.New service.demo cfg) cfg demo_rate demo_auth 8080.
Definition demo_request (path query : string) : Request :=
  mkRequest "GET" "localhost" path query false ∅ "192.0.2.1:4711".
(** One path parameter. *)
Definition param (k v : string) : string -> string :=
  fun k' => if String.eqb k' k then v else "".

(** A bracketed host without a port is bracketed again. *)
Example requestURL_bracket :
  requestURL (demo_handler config.sample_rdap)
    (mkRequest "GET" "[::1]" "/help" "" false ∅ "192.0.2.1:4711")
  = "http://[[::1]]:8080/help".
Proof. vm_compute. reflexivity. Qed.

Lemma LookupDomain_answer_witness :
  exists out, LookupDomain (demo_handler config.sample_rdap) (param "domainName" "EXAMPLE.com.")
                (demo_request "/domain/EXAMPLE.com." "") = writeJSON 200 (BDomain out)
    /\ rdap.LDHName out = "example.com".
Proof.
  pose proof (LookupDomain_answer service.demo config.sample_rdap 8080 demo_rate demo_auth
                (param "domainName" "EXAMPLE.com.") (demo_request "/domain/EXAMPLE.com." "")) as L.
  replace (NormalizeDomainName (param "domainName" "EXAMPLE.com."  "domainName"))
    with (Ok ("example.com", "example.com")) in L by (vm_compute; reflexivity).
  cbv beta zeta iota in L.
  replace (store.LookupDomain service.demo "example.com") with (Ok service.demo_domain) in L
    by (vm_compute; reflexivity).
  destruct L as (out & E & El & _); [discriminate|]. exists out. split; [exact E|exact El].
Defined.
Lemma answers_bounded_witness :
  exists status b,
    SearchDomains (demo_handler config.sample_rdap) (param "" "")
      (demo_request "/domains" "name=example.com&limit=1") = writeJSON status b
    /\ results_length b <= 1.
Proof.
  destruct (answers_bounded service.demo config.sample_rdap 8080 demo_rate demo_auth
              (mkRoute "GET" "/domains" (SearchDomains (demo_handler config.sample_rdap)))
              (param "" "") (demo_request "/domains" "name=example.com&limit=1"))
    as (Hl & _ & status & b & E & Hb); [reflexivity|by do 13 right; left|].
  exists status, b. split; [exact E|].
  specialize (Hl 1 ltac:(split; [vm_compute; reflexivity|split; vm_compute; discriminate])).
  rewrite Hl in Hb. exact (proj1 Hb).
Defined.
Definition no_search_cfg : config.RDAPConfig := config.RDAP config.sample.
Lemma search_disabled_witness :
  SearchNotImplemented (param "" "") (demo_request "/domains" "name=*")
  = writeError 501 501 "Search not implemented" "Search queries are disabled on this server".
Proof.
  apply (search_disabled (demo_handler no_search_cfg)
           (mkRoute "GET" "/domains" SearchNotImplemented)); [reflexivity| |left].
  do 13 right. left.
Defined.
Lemma LookupIPNetwork_answer_witness :
  exists out, LookupIPNetwork (demo_handler config.sample_rdap) (param "*" "8.8.8.0/24")
                (demo_request "/ip/8.8.8.0/24" "") = writeJSON 200 (BIPNetwork out).
Proof.
  pose proof (LookupIPNetwork_answer service.demo config.sample_rdap 8080 demo_rate demo_auth
                (param "*" "8.8.8.0/24") (demo_request "/ip/8.8.8.0/24" "")) as L.
  replace (Netip.ParsePrefix (param "*" "8.8.8.0/24" "*"))
    with (Some (Addr4 [8; 8; 8; 0], 24)) in L by (vm_compute; reflexivity).
  cbv beta zeta iota in L.
  replace (store.LookupIPNetwork service.demo (param "*" "8.8.8.0/24" "*"))
    with (Ok (memory.seed_network zero_time)) in L by (vm_compute; reflexivity).
  destruct L as (out & E & _); [discriminate|]. exists out. exact E.
Defined.
Lemma LookupAutnum_answer_witness :
  exists out, LookupAutnum (demo_handler config.sample_rdap) (param "asn" "15169")
                (demo_request "/autnum/15169" "") = writeJSON 200 (BAutnum out)
    /\ rdap.StartAutnum (rdap.ar_Autnum out) = 15169.
Proof.
  destruct (LookupAutnum_answer (demo_handler config.sample_rdap) (demo_handler config.sample_rdap)
              (param "asn" "15169") (demo_request "/autnum/15169" ""))
    as (_ & L & _); [reflexivity|reflexivity|].
  destruct (L 15169) as (out & E & Es & _); [lia|vm_compute; reflexivity|].
  exists out. split; [exact E|exact Es].
Defined.

End witnesses.
End handlers.
