(* ===== verification/Wire.v ===== *)
(** * The bytes of an answer (internal/handlers/response.go)

    The JSON value of every body, the text [json.NewEncoder(w).Encode] writes for
    it, and that this text is one JSON document, of the type of its route, whatever
    bytes the request, the configuration or the store contributed. *)

From stdpp Require Import base tactics option list gmap strings.
From Stdlib Require Import ZArith Lia.
From S2P Require Import Prelude GoStrings GoTime GoNet GoHttp Config Domain RdapModels GoJson GoJsonEncode RdapJson Rdap GoRegexp Store MemoryStore Service RdapTypes Handlers.
#[local] Open Scope Z_scope.

Module wire.
Import encoder rdapjson rdaptypes handlers.

(** ** Bodies *)

(** The value of a body; a text is not JSON. *)
Definition body_json (b : body) : option jany :=
  match b with
  | BHelp x => Some (help_json x)
  | BDomain x => Some (domain_json x)
  | BEntity x => Some (response_json (entity_fields false (rdap.er_Entity x))
                         (rdap.er_Conformance x) (rdap.er_Notices x))
  | BNameserver x => Some (response_json (nameserver_fields false (rdap.nr_Nameserver x))
                             (rdap.nr_Conformance x) (rdap.nr_Notices x))
  | BIPNetwork x => Some (response_json (network_fields entity_json false (rdap.ir_IPNetwork x))
                            (rdap.ir_Conformance x) (rdap.ir_Notices x))
  | BAutnum x => Some (response_json (autnum_fields (rdap.ar_Autnum x))
                         (rdap.ar_Conformance x) (rdap.ar_Notices x))
  | BDomains x => Some (search_json (rdap.ds_Conformance x) "domainSearchResults" domain_json
                          (rdap.DomainSearchResults x) (rdap.ds_Notices x) (rdap.ds_Mapping x))
  | BEntities x => Some (search_json (rdap.es_Conformance x) "entitySearchResults" entity_json
                           (rdap.EntitySearchResults x) (rdap.es_Notices x) (rdap.es_Mapping x))
  | BNameservers x => Some (search_json (rdap.nss_Conformance x) "nameserverSearchResults"
                              nameserver_json (rdap.NameserverSearchResults x) (rdap.nss_Notices x)
                              (rdap.nss_Mapping x))
  | BError x => Some (error_json x)
  | BText _ => None
  end.
(** The bytes written for a body. *)
Definition body_text (b : body) : string :=
  match b, body_json b with
  | BText s, _ => s
  | _, Some v => Encode v
  | _, None => ""
  end.

(** ** Specifications *)

(** The first member of an object with a name. *)
Definition member (name : string) (v : jany) : option jany :=
  match v with
  | JObj ms => snd <$> List.find (fun m => String.eqb m.1 name) ms
  | _ => None
  end.
(** The class of the answer of a route, and of an answer with its status. *)
Definition route_classes : list (string * class) :=
  [("/help", CHelp); ("/", CHelp); ("/domain/{domainName}", CDomain);
   ("/entity/{handle}", CEntityAnswer); ("/nameserver/{name}", CNameserverAnswer);
   ("/ip/*", CNetworkAnswer); ("/autnum/{asn}", CAutnumAnswer); ("/domains", CDomains);
   ("/entities", CEntities); ("/nameservers", CNameservers);
   ("/domains/reverse_search/entity", CReverse)].
Definition answer_class (pattern : string) (status : Z) : class :=
  if status =? 200 then
    from_option snd CError (List.find (fun r => String.eqb r.1 pattern) route_classes)
  else CError.
(** The nesting of the deepest answer: a search result with the card of the abuse
    contact of a registrar. *)
Definition max_depth : nat := 12.

(** A JSON document that announces RDAP level 0 and repeats an error status. *)
Definition rdap_document (status : Z) (text : string) : Prop :=
  exists v, json.parse text = Some v
  /\ (exists l, member "rdapConformance" v = Some (JArr (JStr "rdap_level_0" :: l)))
  /\ (status <> 200 -> member "errorCode" v = Some (JNum (Strconv.Itoa status))).

(** ** The types of the bodies *)

Lemma response_typed n o mo c ns k :
  members k = mo ++ conformance_req ++ notices_req ->
  has_members (4 + n) o mo -> head (rdap.conf_ids c) = Some "rdap_level_0" ->
  has_members (4 + n) (list_field "notices" notice_json ns) notices_req ->
  has (5 + n) (response_json o c ns) (TRef k).
Proof.
  intros Hk Ho Hc Hn. apply has_object. rewrite Hk. apply members_app; [done|].
  apply members_app; [|done]. by apply member_conformance, conformance_nonempty.
Qed.
Lemma search_typed {A} n c name (f : A -> jany) l url base opts ms k r mapped :
  members k = search_members name r mapped ->
  head (rdap.conf_ids c) = Some "rdap_level_0" -> (mapped = true -> ms <> []) ->
  Forall (fun x => has (3 + n) (f x) (TRef r)) l ->
  has (5 + n) (search_json c name f l (NewNoticesWithICANN url base opts) ms) (TRef k).
Proof.
  intros Hk Hc Hm Hl. apply has_object. rewrite Hk. unfold search_members.
  apply members_app; [by apply member_conformance, conformance_nonempty|].
  apply members_app; [by apply member_list|]. apply members_app; [apply notices_typed|].
  destruct mapped; [|fields]. apply member_list_req; [auto|].
  apply Forall_forall. intros m _. apply mapping_typed.
Qed.
Lemma error_typed n st title desc :
  st <> 0 -> title <> "" ->
  has (5 + n) (error_json (rdap.mkErrorResponse NewConformance st title [desc] [])) (TRef CError).
Proof.
  intros Hst Ht. apply has_object. unfold error_json, int_field, str_field. cbn.
  apply Z.eqb_neq in Hst. apply String.eqb_neq in Ht. rewrite Hst, Ht. cbn.
  repeat constructor; done.
Qed.

(** A handler whose answer is typed by a class when it succeeds. *)
Definition types (f : writer) (k : class) : Prop :=
  exists st b v, f = writeJSON st b /\ body_json b = Some v
  /\ has max_depth v (TRef (if st =? 200 then k else CError)).
Lemma types_error st title desc k :
  st <> 0 -> st <> 200 -> title <> "" -> types (writeError st st title desc) k.
Proof.
  intros H0 H2 Ht. apply Z.eqb_neq in H2. eexists st, _, _. split; [done|]. split; [done|].
  rewrite H2. by apply (error_typed 7).
Qed.
Lemma types_ok b v k :
  body_json b = Some v -> has max_depth v (TRef k) -> types (writeJSON 200 b) k.
Proof. intros Hb Hv. by exists 200, b, v. Qed.

(** Results of a search are mapped objects. *)
Lemma search_mapped {A B} (P : B -> Prop) (f : A -> B) (r : result (list A)) l :
  (forall a, P (f a)) -> (xs ← r; Ok (List.map f xs)) = Ok l -> Forall P l.
Proof. intros Hf. destruct r as [xs|]; [|done]. intros [= <-]. apply Forall_fmap, Forall_forall. auto. Qed.

#[local] Ltac errors := repeat case_match; try (by apply types_error).

Section routes.
Context `{UnicodeTables} `{Idna} (h : Handler).

Lemma exclusive_search_types {A} p1 p2 a m (s1 s2 : string -> Z -> string -> result (list A))
    respond (P : A -> Prop) k r :
  (forall v limit url l, s1 v limit url = Ok l -> Forall P l) ->
  (forall v limit url l, s2 v limit url = Ok l -> Forall P l) ->
  (forall url l, Forall P l -> types (writeJSON 200 (respond url l)) k) ->
  types (exclusive_search h p1 p2 a m s1 s2 respond r) k.
Proof. intros H1 H2 Hr. unfold exclusive_search. errors; eauto. Qed.

Lemma Help_types U r : types (Help h U r) CHelp.
Proof.
  eapply types_ok; [reflexivity|]. apply has_object.
  apply members_app; [apply member_conformance; by rewrite Help_conformance|].
  apply members_app.
  { unfold help_response. repeat case_match; (apply member_list_req; [done|]);
      apply Forall_forall; intros x _; apply notice_typed. }
  fields.
Qed.
Lemma LookupDomain_types U r : types (LookupDomain h U r) CDomain.
Proof.
  unfold LookupDomain. errors. eapply types_ok; [reflexivity|].
  unfold service.LookupDomain in *. destruct (store.GetDomainAggregate _ _); simplify_eq/=.
  apply (domain_typed 2).
Qed.
Lemma LookupEntity_types U r : types (LookupEntity h U r) CEntityAnswer.
Proof.
  unfold LookupEntity. errors. eapply types_ok; [reflexivity|].
  unfold service.LookupEntity in *. destruct (store.LookupContact _ _); simplify_eq/=.
  apply (response_typed 7 _ (entity_members [])); [done| |done|apply notices_typed].
  by apply (contact_fields_typed 6 false).
Qed.
Lemma LookupNameserver_types U r : types (LookupNameserver h U r) CNameserverAnswer.
Proof.
  unfold LookupNameserver. errors; (eapply types_ok; [reflexivity|]);
    unfold service.LookupNameserver in *; destruct (store.LookupNameserver _ _); simplify_eq/=;
    (apply (response_typed 7 _ (nameserver_members [])); [done| |done|apply notices_typed]);
    by apply (nameserver_fields_typed 6 false).
Qed.
Lemma LookupIPNetwork_types U r : types (LookupIPNetwork h U r) CNetworkAnswer.
Proof.
  unfold LookupIPNetwork. errors. eapply types_ok; [reflexivity|].
  unfold service.LookupIPNetwork in *. destruct (store.LookupIPNetwork _ _); simplify_eq/=.
  apply (response_typed 7 _ (network_members [])); [done| | |apply notices_typed].
  - by apply (network_typed 7 false).
  - unfold ipNetworkConformance. by repeat case_match; auto using head_WithExtensions.
Qed.
Lemma LookupAutnum_types U r : types (LookupAutnum h U r) CAutnumAnswer.
Proof.
  unfold LookupAutnum. errors. eapply types_ok; [reflexivity|].
  eapply (response_typed 7); [reflexivity| |done|apply notices_typed].
  unfold autnum_fields. apply members_app; [by apply (common_typed entity_json 7 "autnum" false)|fields].
Qed.
Lemma SearchDomains_types U r : types (SearchDomains h U r) CDomains.
Proof.
  apply (exclusive_search_types _ _ _ _ _ _ _ (fun d => has 10 (domain_json d) (TRef CDomain)));
    [intros v l u x; apply search_mapped; intros d; apply (domain_typed 0)..|].
  intros url l Hl. eapply types_ok; [reflexivity|]. by apply (search_typed 7 _ _ _ _ _ _ _ _ _ CDomain false).
Qed.
Lemma SearchEntities_types U r : types (SearchEntities h U r) CEntities.
Proof.
  apply (exclusive_search_types _ _ _ _ _ _ _ (fun e => has 10 (entity_json e) (TRef CEntity)));
    [intros v l u x; apply search_mapped; intros c; apply (contact_typed 4)..|].
  intros url l Hl. eapply types_ok; [reflexivity|]. by apply (search_typed 7 _ _ _ _ _ _ _ _ _ CEntity false).
Qed.
Lemma SearchNameservers_types U r : types (SearchNameservers h U r) CNameservers.
Proof.
  apply (exclusive_search_types _ _ _ _ _ _ _ (fun n => has 10 (nameserver_json n) (TRef CNameserver)));
    [intros v l u x; apply search_mapped; intros n; by apply (nameserver_typed 4)..|].
  intros url l Hl. eapply types_ok; [reflexivity|]. by apply (search_typed 7 _ _ _ _ _ _ _ _ _ CNameserver false).
Qed.
Lemma predicates_property q p v : predicates q = [(p, v)] -> service.ReverseSearchMapping [p] <> [].
Proof.
  intros Hp. assert (Hin : (p, v) ∈ predicates q) by (rewrite Hp; left).
  unfold predicates in Hin. apply list_elem_of_In, filter_In in Hin as [Hin _].
  simpl in Hin. by destruct_or! Hin; simplify_eq.
Qed.
Lemma ReverseSearchDomains_types U r : types (ReverseSearchDomains h U r) CReverse.
Proof.
  unfold ReverseSearchDomains. destruct (predicates _) as [|[p v] [|]] eqn:Ep; errors.
  eapply types_ok; [reflexivity|].
  unfold service.ReverseSearchDomainsByEntity in *. case_match; [done|].
  apply (search_typed 7 _ _ _ _ _ _ _ _ _ CDomain true); [done|done| |].
  - intros _. by eapply predicates_property.
  - eapply search_mapped; [|done]. intros d. apply (domain_typed 0).
Qed.
Lemma SearchNotImplemented_types U r k : types (SearchNotImplemented U r) k.
Proof. by apply types_error. Qed.

#[local] Hint Resolve Help_types LookupDomain_types LookupEntity_types LookupNameserver_types
  LookupIPNetwork_types LookupAutnum_types SearchDomains_types SearchEntities_types
  SearchNameservers_types ReverseSearchDomains_types SearchNotImplemented_types : typed.
Lemma route_types rt U r :
  rt ∈ RegisterRoutes h ->
  types (rt_handler rt U r)
    (from_option snd CError (List.find (fun r => String.eqb r.1 (rt_pattern rt)) route_classes)).
Proof.
  unfold RegisterRoutes, get_head.
  destruct (config.SearchEnabled (h_cfg h)); simpl;
    rewrite !elem_of_cons, elem_of_nil; intros Hrt;
    repeat destruct Hrt as [->|Hrt]; try done; simpl; auto with typed nocore.
Qed.
End routes.

(** ** Members *)

(** Fields none of which reads back under the name [k]. *)
Definition others (k : string) (fs : fields) : Prop := Forall (fun m => to_valid m.1 <> k) fs.
Lemma others_app k a b : others k a -> others k b -> others k (a ++ b).
Proof. intros. by apply Forall_app. Qed.
Lemma others_list {A} k n (f : A -> jany) l : to_valid n <> k -> others k (list_field n f l).
Proof. intros Hn. unfold list_field. case_match; by repeat constructor. Qed.
Lemma others_str k n v : to_valid n <> k -> others k (str_field n v).
Proof. intros Hn. unfold str_field. case_match; by repeat constructor. Qed.
Lemma others_bool k n b : to_valid n <> k -> others k (bool_field n b).
Proof. intros Hn. destruct b; by repeat constructor. Qed.
Lemma others_int k n z : to_valid n <> k -> others k (int_field n z).
Proof. intros Hn. unfold int_field. case_match; by repeat constructor. Qed.
Lemma others_ptr {A} k n (f : A -> jany) o : to_valid n <> k -> others k (ptr_field n f o).
Proof. intros Hn. destruct o; by repeat constructor. Qed.
#[local] Ltac others :=
  repeat first
    [apply others_app|apply others_list; vm_compute; discriminate
    |apply others_str; vm_compute; discriminate|apply others_bool; vm_compute; discriminate
    |apply others_int; vm_compute; discriminate|apply others_ptr; vm_compute; discriminate
    |apply Forall_nil_2].

Abbreviation conf_name := "rdapConformance".
Lemma others_common {E} (ent : E -> jany) b c : others conf_name (common_fields ent b c).
Proof. unfold common_fields, strs_field. destruct b; others. Qed.
Lemma others_entity b e : others conf_name (entity_fields b e).
Proof. apply others_app; [apply others_common|]. unfold entity_rest, strs_field. others. Qed.
Lemma others_network b (n : rdap.IPNetwork) : others conf_name (network_fields entity_json b n).
Proof. unfold network_fields, strs_field. apply others_app; [apply others_common|]. others. Qed.
Lemma others_nameserver b n : others conf_name (nameserver_fields b n).
Proof. unfold nameserver_fields. apply others_app; [apply others_common|]. others. Qed.
Lemma others_autnum a : others conf_name (autnum_fields a).
Proof. unfold autnum_fields. apply others_app; [apply others_common|]. others. Qed.

Lemma member_scrub k n v a b :
  others k a -> to_valid n = k -> member k (scrub (JObj (a ++ (n, v) :: b))) = Some (scrub v).
Proof.
  intros Ha Hn. simpl. induction Ha as [|m a Hm _ IH]; simpl.
  - by rewrite Hn, String.eqb_refl.
  - apply String.eqb_neq in Hm. by rewrite Hm.
Qed.
(** The conformance of an object whose earlier fields have other names. *)
Lemma fields_conformance a c b :
  others conf_name a -> head (rdap.conf_ids c) = Some "rdap_level_0" ->
  exists l, member conf_name (scrub (JObj (a ++ conformance_fields c ++ b)))
            = Some (JArr (JStr "rdap_level_0" :: l)).
Proof.
  intros Ha Hc. destruct c as [[|x ids]]; [done|]. injection Hc as ->.
  unfold conformance_fields, strs_field, list_field. cbn [rdap.conf_ids app].
  rewrite member_scrub by (done || vm_compute; reflexivity). cbn [scrub List.map]. by eexists.
Qed.
Lemma body_member_conformance b v :
  body_json b = Some v -> head (body_conformance b) = Some "rdap_level_0" ->
  exists l, member conf_name (scrub v) = Some (JArr (JStr "rdap_level_0" :: l)).
Proof.
  destruct b; simpl; intros [= <-] Hc; unfold help_json, domain_json, response_json, search_json, error_json.
  - by apply (fields_conformance []); [constructor|].
  - by apply fields_conformance; [apply others_common|].
  - by apply fields_conformance; [apply others_entity|].
  - by apply fields_conformance; [apply others_nameserver|].
  - by apply fields_conformance; [apply others_network|].
  - by apply fields_conformance; [apply others_autnum|].
  - by apply (fields_conformance []); [constructor|].
  - by apply (fields_conformance []); [constructor|].
  - by apply (fields_conformance []); [constructor|].
  - by apply (fields_conformance []); [constructor|].
Qed.
Lemma body_member_error e :
  rdap.ErrorCode e <> 0 ->
  member "errorCode" (scrub (error_json e)) = Some (JNum (Strconv.Itoa (rdap.ErrorCode e))).
Proof.
  intros He. unfold error_json, int_field. apply Z.eqb_neq in He. rewrite He. cbn [app].
  rewrite member_scrub; [done| |by vm_compute].
  unfold conformance_fields, strs_field. others.
Qed.

(** The text of a body that is typed. *)
Lemma body_text_typed b v k :
  body_json b = Some v -> has max_depth v (TRef k) ->
  json.parse (body_text b) = Some (scrub v) /\ has max_depth (scrub v) (TRef k).
Proof.
  intros Hb Hv.
  replace (body_text b) with (Encode v) by (destruct b; try discriminate Hb; by injection Hb as <-).
  apply parse_typed; [done|]. by vm_compute.
Qed.
Lemma document_of status b v k :
  consistent status b -> body_json b = Some v -> has max_depth v (TRef k) ->
  rdap_document status (body_text b).
Proof.
  intros [Hc Hs] Ev Hv. exists (scrub v). split; [by eapply body_text_typed|].
  split; [by apply (body_member_conformance b)|].
  intros Hne. destruct b; try (by destruct Hne). injection Ev as <-. destruct Hs as [<- Hin].
  apply body_member_error. intros E. rewrite E, !elem_of_cons, elem_of_nil in Hin. by destruct_or! Hin.
Qed.
(** What a route sends on an untouched writer. *)
Lemma writeJSON_sent (w : Response body) st b :
  rs_status w = None -> rs_body w = [] ->
  writeJSON st b w = mkResponse (<["Content-Type" := ["application/rdap+json"]]> (rs_header w)) (Some st) [b].
Proof.
  intros Hs Hb. unfold writeJSON, write_body, write_header, set_header. simpl. by rewrite Hs, Hb.
Qed.
Lemma writeJSON_inj st st' b b' : writeJSON st b = writeJSON st' b' -> st = st' /\ b = b'.
Proof.
  intros E. apply (f_equal (fun f => f empty_response)) in E.
  rewrite !writeJSON_sent in E by done. by simplify_eq.
Qed.

(** ** Properties *)

Section properties.
Context `{UnicodeTables} `{Idna}.

(** C3: every route answers every request with exactly one body of type
    application/rdap+json, whose bytes are one JSON document that announces RDAP
    level 0; the status is 200, or 400, 404, 500 or 501 with a document that repeats
    it as its errorCode: no byte of the request, the store or the configuration can
    break out of a JSON string, and no response is empty or holds two documents. *)
Theorem routes_bytes (h : Handler) rt U r (w : Response body) :
  rt ∈ RegisterRoutes h -> rs_status w = None -> rs_body w = [] ->
  exists status b,
    rt_handler rt U r w
    = mkResponse (<["Content-Type" := ["application/rdap+json"]]> (rs_header w)) (Some status) [b]
    /\ status ∈ [200; 400; 404; 500; 501] /\ rdap_document status (body_text b).
Proof.
  intros Hrt Hs Hb. destruct (route_sends h rt U r Hrt) as (status & b & Hw & Hc).
  pose proof (consistent_status _ _ Hc) as Hst.
  destruct (route_types h rt U r Hrt) as (st & b' & v & Hw' & Ev & Hv). rewrite Hw in Hw' |- *.
  apply writeJSON_inj in Hw' as [-> <-]. exists st, b. split; [by apply writeJSON_sent|].
  split; [exact Hst|]. by eapply document_of.
Qed.

(** C4: every answer is well typed: the text a route sends parses, within the
    nesting limit of the parser, to an object of the class of that route when the
    status is 200 and of the error class otherwise.  Every object in it, at any
    depth, has the members of its class and no others, in order, none twice, the
    required ones among them (the class name, the conformance and the notices of
    an answer), each of its type; empty arrays are left out; every card is a jCard
    with a version and a formatted name. *)
Theorem routes_typed (h : Handler) rt U r (w : Response body) :
  rt ∈ RegisterRoutes h -> rs_status w = None -> rs_body w = [] ->
  exists status b v,
    rt_handler rt U r w
    = mkResponse (<["Content-Type" := ["application/rdap+json"]]> (rs_header w)) (Some status) [b]
    /\ json.parse (body_text b) = Some v
    /\ has max_depth v (TRef (answer_class (rt_pattern rt) status)).
Proof.
  intros Hrt Hs Hb. destruct (route_types h rt U r Hrt) as (st & b & v & -> & Ev & Hv).
  exists st, b, (scrub v). split; [by apply writeJSON_sent|]. unfold answer_class.
  by destruct (st =? 200); apply body_text_typed.
Qed.

End properties.

(** ** Witnesses *)

Section witnesses.
#[local] Existing Instances ascii_tables no_idna range_backward glob_engine.

(** A handle full of quotes, brackets and a byte that is not UTF-8. *)
Definition hostile : string := sb (bs (quoted "`}<x>") ++ [of_byte 255]).
Definition hostile_answer : Response body :=
  LookupEntity (demo_handler config.sample_rdap) (param "handle" hostile)
    (demo_request "/entity/x" "") empty_response.
Example hostile_text :
  body_text <$> rs_body hostile_answer
  = [quoted "{`rdapConformance`:[`rdap_level_0`],`errorCode`:404,`title`:`Entity not found`,"
     +:+ quoted "`description`:[`No entity found for handle: "
     +:+ "\" +:+ quoted "`}\u003cx\u003e\ufffd`]}" +:+ sb [Ascii.ascii_of_nat 10]].
Proof. vm_compute. reflexivity. Qed.

Lemma routes_bytes_witness :
  exists b, rs_body hostile_answer = [b] /\ rdap_document 404 (body_text b).
Proof.
  destruct (routes_bytes (demo_handler config.sample_rdap)
    (mkRoute "GET" "/entity/{handle}" (LookupEntity (demo_handler config.sample_rdap)))
    (param "handle" hostile) (demo_request "/entity/x" "") empty_response)
    as (status & b & E & _ & Hd); [by do 5 right; left|reflexivity|reflexivity|].
  change (rt_handler _ _ _ _) with hostile_answer in E.
  assert (Es : rs_status hostile_answer = Some 404) by (vm_compute; reflexivity).
  rewrite E in Es. injection Es as ->. exists b. rewrite E. split; [reflexivity|exact Hd].
Defined.

(** The seeded domain, found. *)
Definition seeded_answer : Response body :=
  LookupDomain (demo_handler config.sample_rdap) (param "domainName" "EXAMPLE.com.")
    (demo_request "/domain/EXAMPLE.com." "") empty_response.
Definition seeded_name : option jany :=
  match rs_body seeded_answer with
  | [b] => json.parse (body_text b) ≫= member "ldhName"
  | _ => None
  end.
Lemma routes_typed_witness :
  exists b v, rs_body seeded_answer = [b] /\ json.parse (body_text b) = Some v
    /\ has max_depth v (TRef CDomain)
    /\ member "ldhName" v = Some (JStr "example.com").
Proof.
  destruct (routes_typed (demo_handler config.sample_rdap)
    (mkRoute "GET" "/domain/{domainName}" (LookupDomain (demo_handler config.sample_rdap)))
    (param "domainName" "EXAMPLE.com.") (demo_request "/domain/EXAMPLE.com." "") empty_response)
    as (status & b & v & E & Hp & Hv); [by do 3 right; left|reflexivity|reflexivity|].
  change (rt_handler _ _ _ _) with seeded_answer in E.
  assert (Es : rs_status seeded_answer = Some 200) by (vm_compute; reflexivity).
  assert (Em : seeded_name = Some (JStr "example.com")) by (vm_compute; reflexivity).
  unfold seeded_name in Em. rewrite E in Es, Em. injection Es as ->. exists b, v. rewrite E.
  split; [reflexivity|]. split; [exact Hp|]. split; [exact Hv|].
  simpl in Em. rewrite Hp in Em. exact Em.
Defined.

End witnesses.
End wire.
