(* ===== verification/Client.v ===== *)
(** * What a client reads

    A reader of RDAP documents, written from RFC 9083 and independent of the
    encoder: it looks members up by name in the parsed text.  On the bytes of a
    domain or search answer it finds the data of the store, on the bytes of an error
    its code: store, service (internal/service), handler (internal/handlers) and
    encoder together lose and invent nothing. *)

From stdpp Require Import base tactics option list gmap strings.
From Stdlib Require Import ZArith Lia Ascii.
From S2P Require Import Prelude GoStrings GoTime GoNet GoHttp Config Domain RdapModels GoJson GoJsonEncode RdapJson Rdap GoRegexp Store MemoryStore Service RdapTypes Handlers Wire.
#[local] Open Scope Z_scope.

Module client.
Import encoder rdapjson rdaptypes handlers wire.

(** ** The reader *)

Definition as_str (v : jany) : option string := match v with JStr s => Some s | _ => None end.
Definition as_list (v : jany) : option (list jany) := match v with JArr l => Some l | _ => None end.
Definition as_int (v : jany) : option Z := match v with JNum lit => Strconv.Atoi lit | _ => None end.
Definition as_bool (v : jany) : option bool := match v with JBool b => Some b | _ => None end.
(** Members; an absent one reads as empty. *)
Definition get_str (k : string) (v : jany) : string := default "" (member k v ≫= as_str).
Definition get_list (k : string) (v : jany) : list jany := default [] (member k v ≫= as_list).
Definition get_strs (k : string) (v : jany) : list string := omap as_str (get_list k v).
Definition get_int (k : string) (v : jany) : Z := default 0 (member k v ≫= as_int).
Definition get_bool (k : string) (v : jany) : bool := default false (member k v ≫= as_bool).
Definition get_obj (k : string) (v : jany) : jany := default JNull (member k v).

Record host := mkHost { ho_handle : string; ho_name : string; ho_v4 : list string; ho_v6 : list string }.
Definition read_host (v : jany) : host :=
  let ips := get_obj "ipAddresses" v in
  mkHost (get_str "handle" v) (get_str "ldhName" v) (get_strs "v4" ips) (get_strs "v6" ips).
Definition read_event (v : jany) : string * string := (get_str "eventAction" v, get_str "eventDate" v).
Definition read_entity (v : jany) : list string * string := (get_strs "roles" v, get_str "handle" v).

Record domain_view := mkDomainView {
  dv_handle : string; dv_name : string; dv_unicode : string; dv_status : list string;
  dv_hosts : list host; dv_events : list (string * string);
  dv_entities : list (list string * string); dv_zone_signed : bool; dv_delegation_signed : bool
}.
Definition read_domain (v : jany) : domain_view :=
  mkDomainView (get_str "handle" v) (get_str "ldhName" v) (get_str "unicodeName" v)
    (get_strs "status" v) (read_host <$> get_list "nameservers" v)
    (read_event <$> get_list "events" v) (read_entity <$> get_list "entities" v)
    (get_bool "zoneSigned" (get_obj "secureDNS" v)) (get_bool "delegationSigned" (get_obj "secureDNS" v)).
(** The instant of an event. *)
Definition event_time (action : string) (d : domain_view) : option Z :=
  e ← List.find (fun e => String.eqb e.1 action) (dv_events d); parse_rfc3339 e.2.

Record error_view := mkErrorView { ev_code : Z; ev_title : string; ev_description : list string }.
Definition read_error (v : jany) : error_view :=
  mkErrorView (get_int "errorCode" v) (get_str "title" v) (get_strs "description" v).

(** The property of a reverse search and its JSONPath. *)
Definition read_mapping (v : jany) : string * string := (get_str "property" v, get_str "propertyPath" v).
(** The objects of a search answer. *)
Definition read_results {A} (key : string) (read : jany -> A) (v : jany) : list A :=
  read <$> get_list key v.

(** ** What there is to read *)

Definition host_of (n : domain.NameServer) : host :=
  mkHost (domain.ns_Handle n) (domain.ns_LDHName n) (domain.IPV4 n) (domain.IPV6 n).
(** The registrant a domain refers to; an answer that was not built from an
    aggregate always names the example. *)
Definition registrant_of (resolved : bool) (d : domain.Domain) : string :=
  if resolved then default "REG1-NAME" (head (default [] (domain.Contacts d !! domain.RoleRegistrant)))
  else "REG1-NAME".
Definition view_of (resolved : bool) (mode : string) (d : domain.Domain) : domain_view :=
  let m := domain.d_Metadata d in
  mkDomainView (domain.d_Handle d) (domain.LDHName d) (domain.UnicodeName d)
    (domain.status_Value <$> domain.d_Status d) (host_of <$> domain.Nameservers d)
    ([("registration", FormatTime (domain.CreatedAt m)); ("last changed", FormatTime (domain.UpdatedAt m));
      ("expiration", FormatTime (domain.ExpiresAt d));
      ("last update of RDAP database", FormatTime (domain.UpdatedAt m))]
     ++ (if String.eqb mode "registrar"
         then [("registrar expiration", FormatTime (domain.ExpiresAt d))] else []))
    ((["registrar"], domain.Registrar d)
     :: (if String.eqb mode "registrar"
         then [(["registrant"], registrant_of resolved d)] else []))
    (from_option domain.ZoneSigned false (domain.d_SecureDNS d))
    (from_option domain.DelegationSigned false (domain.d_SecureDNS d)).

(** A view with the bytes that are not UTF-8 replaced. *)
Definition valid_host (h : host) : host :=
  mkHost (to_valid (ho_handle h)) (to_valid (ho_name h)) (to_valid <$> ho_v4 h) (to_valid <$> ho_v6 h).
Definition valid_view (d : domain_view) : domain_view :=
  mkDomainView (to_valid (dv_handle d)) (to_valid (dv_name d)) (to_valid (dv_unicode d))
    (to_valid <$> dv_status d) (valid_host <$> dv_hosts d)
    ((fun e => (to_valid e.1, to_valid e.2)) <$> dv_events d)
    ((fun e : list string * string => (to_valid <$> e.1, to_valid e.2)) <$> dv_entities d)
    (dv_zone_signed d) (dv_delegation_signed d).

Definition entity_of (c : domain.Contact) : list string * string :=
  (service.roleStrings (domain.Roles c), domain.ct_Handle c).
Definition valid_entity (e : list string * string) : list string * string :=
  (to_valid <$> e.1, to_valid e.2).

(** Where RFC 9536's properties are in a domain answer. *)
Definition path_of (property : string) : string :=
  if decide (property = "handle") then "$.entities[*].handle"
  else if decide (property = "role") then "$.entities[*].roles"
  else "$.entities[*].vcardArray[1][?(@[0]=='" +:+ property +:+ "')][3]".

(** What the two exclusive parameters of a search ask the store for. *)
Definition asked {A} (p1 p2 : string) (search1 search2 : string -> Z -> result (list A)) (limit : Z)
    (q : list (string * string)) : option (result (list A)) :=
  match Url.query_get q p1, Url.query_get q p2 with
  | "", "" => None
  | v, "" => Some (search1 v limit)
  | "", v => Some (search2 v limit)
  | _, _ => None
  end.
(** What a client reads from the answer to a search: the results of the store, or
    the error. *)
Definition search_read {A B} (found : option (result (list A))) (results : jany -> list B)
    (expected : A -> B) (status : Z) (v : jany) : Prop :=
  match found with
  | Some (Ok l) => status = 200 /\ results v = expected <$> l
  | Some (Err e) => status = 500
      /\ read_error v = mkErrorView 500 "Search failed" [to_valid (error_message e)]
  | None => status = 400 /\ ev_code (read_error v) = 400
  end.

(** The one document a writer sends, as a client reads it. *)
Definition sends_read (f : writer) (w : Response body) (reads : Z -> jany -> Prop) : Prop :=
  exists status b v,
    f w = mkResponse (<["Content-Type" := ["application/rdap+json"]]> (rs_header w)) (Some status) [b]
    /\ json.parse (body_text b) = Some v /\ reads status v.

(** ** Lemmas *)

(** *** Fields *)

Definition field (k : string) (fs : fields) : option jany :=
  snd <$> List.find (fun m => String.eqb m.1 k) fs.
Lemma member_field k fs : member k (JObj fs) = field k fs.
Proof. done. Qed.
Definition or_else {A} (a b : option A) : option A := match a with Some _ => a | None => b end.
Lemma field_app k a b : field k (a ++ b) = or_else (field k a) (field k b).
Proof.
  unfold field. induction a as [|m a IH]; [done|]. simpl. by destruct (String.eqb m.1 k).
Qed.
Lemma field_cons k n v fs : field k ((n, v) :: fs) = if String.eqb n k then Some v else field k fs.
Proof. unfold field. simpl. by destruct (String.eqb n k). Qed.
Lemma field_str k n v :
  field k (str_field n v)
  = if String.eqb n k then if String.eqb v "" then None else Some (JStr v) else None.
Proof. unfold field, str_field. destruct (String.eqb v ""); simpl; by destruct (String.eqb n k). Qed.
Lemma field_list {A} k n (f : A -> jany) l :
  field k (list_field n f l)
  = if String.eqb n k then match l with [] => None | _ => Some (JArr (List.map f l)) end else None.
Proof. unfold field, list_field. destruct l; simpl; by destruct (String.eqb n k). Qed.
Lemma field_bool k n b :
  field k (bool_field n b) = if String.eqb n k then if b then Some (JBool true) else None else None.
Proof. unfold field, bool_field. destruct b; simpl; by destruct (String.eqb n k). Qed.
Lemma field_ptr {A} k n (f : A -> jany) o :
  field k (ptr_field n f o) = if String.eqb n k then f <$> o else None.
Proof. unfold field, ptr_field. destruct o; simpl; by destruct (String.eqb n k). Qed.

(** What the readers of a member make of an optional field. *)
Lemma read_str_field v : default "" ((if String.eqb v "" then None else Some (JStr v)) ≫= as_str) = v.
Proof. by destruct (String.eqb_spec v ""). Qed.
Lemma read_list_field {A} (f : A -> jany) l :
  default [] (match l with [] => None | _ => Some (JArr (List.map f l)) end ≫= as_list) = List.map f l.
Proof. by destruct l. Qed.
Lemma read_strings l : omap as_str (List.map JStr l) = l.
Proof. induction l as [|x l IH]; [done|]. change (x :: omap as_str (List.map JStr l) = x :: l). by rewrite IH. Qed.


(** *** Replaced bytes *)

(** Reading commutes with the replacement of bytes that are not UTF-8 on objects
    whose member names are plain, as those of a class are. *)
Definition plain_names (v : jany) : Prop :=
  match v with JObj ms => Forall (fun m => to_valid m.1 = m.1) ms | _ => True end.
Lemma members_plain_names n ms mts :
  has_members n ms mts -> plain mts -> Forall (fun m => to_valid m.1 = m.1) ms.
Proof.
  induction 1 as [|n' k v ms r t mts Hv Hm IH|n' ms k t mts Hm IH]; [constructor|..];
    intros [Hk Hp]%Forall_cons; [constructor; [exact Hk|]|]; by apply IH.
Qed.
Lemma typed_plain n v c : has n v (TRef c) -> plain_names v.
Proof.
  inversion 1 as [| | | | | | |n' ms c' Hm]; subst. eapply members_plain_names; [done|apply members_plain].
Qed.
Lemma plain_member_scrub k v : plain_names v -> member k (scrub v) = scrub <$> member k v.
Proof.
  destruct v as [| | | | |ms]; try done. simpl. induction 1 as [|m ms Hm _ IH]; [done|]. simpl.
  rewrite Hm. by destruct (String.eqb m.1 k).
Qed.
Lemma get_str_scrub k v : plain_names v -> get_str k (scrub v) = to_valid (get_str k v).
Proof. intros Hv. unfold get_str. rewrite plain_member_scrub by done. by destruct (member k v) as [[]|]. Qed.
Lemma get_bool_scrub k v : plain_names v -> get_bool k (scrub v) = get_bool k v.
Proof. intros Hv. unfold get_bool. rewrite plain_member_scrub by done. by destruct (member k v) as [[]|]. Qed.
Lemma get_obj_scrub k v : plain_names v -> get_obj k (scrub v) = scrub (get_obj k v).
Proof. intros Hv. unfold get_obj. rewrite plain_member_scrub by done. by destruct (member k v). Qed.
Lemma get_list_scrub k v : plain_names v -> get_list k (scrub v) = scrub <$> get_list k v.
Proof. intros Hv. unfold get_list. rewrite plain_member_scrub by done. by destruct (member k v) as [[]|]. Qed.
Lemma omap_scrub (l : list jany) : omap as_str (scrub <$> l) = to_valid <$> omap as_str l.
Proof.
  induction l as [|x l IH]; [done|]. rewrite fmap_cons. destruct x; try exact IH.
  change (to_valid s :: omap as_str (scrub <$> l) = to_valid s :: (to_valid <$> omap as_str l)).
  by rewrite IH.
Qed.
Lemma get_strs_scrub k v : plain_names v -> get_strs k (scrub v) = to_valid <$> get_strs k v.
Proof.
  intros Hv. unfold get_strs. rewrite get_list_scrub by done.
  apply omap_scrub.
Qed.

(** The type of a member of a typed object. *)
Lemma member_typed n v c k x :
  has n v (TRef c) -> member k v = Some x ->
  exists r t m, mkMember k r t ∈ members c /\ has m x t.
Proof.
  intros Hv. inversion Hv as [| | | | | | |n' ms c' Hm]; subst; clear Hv. simpl. intros Hx.
  destruct (List.find _ ms) as [[k' y]|] eqn:Ef; [|done]. injection Hx as ->.
  apply find_some in Ef as [Hin Hk]. apply String.eqb_eq in Hk. simpl in Hk. subst k'.
  apply list_elem_of_In in Hin. revert Hin.
  induction Hm as [|n'' k' w ms r t mts Hw Hm IH|n'' ms k' t mts Hm IH]; [by intros ?%elem_of_nil| |].
  - intros [[= -> ->]|Hin]%elem_of_cons; [exists r, t, n''; split; [left|done]|].
    destruct (IH Hin) as (r' & t' & m & Hm' & Ht). exists r', t', m. split; [by right|done].
  - intros Hin. destruct (IH Hin) as (r' & t' & m & Hm' & Ht). exists r', t', m. split; [by right|done].
Qed.

(** A member of a class, by its name. *)
Definition member_is (c : class) (k : string) (t : ty) : Prop :=
  forall r t', mkMember k r t' ∈ members c -> t' = t.
#[local] Ltac which :=
  intros ? ? Hin; cbn in Hin;
  repeat (apply elem_of_cons in Hin as [Hin|Hin];
          [first [discriminate Hin|unfold opt, req in Hin; injection Hin as -> ->; reflexivity]|]);
  by apply elem_of_nil in Hin.
Lemma list_typed n v c k c' :
  member_is c k (TArr (TRef c')) -> has n v (TRef c) ->
  Forall (fun x => exists m, has m x (TRef c')) (get_list k v).
Proof.
  intros Hk Hv. unfold get_list. destruct (member k v) as [x|] eqn:E; [|constructor].
  destruct (member_typed _ _ _ _ _ Hv E) as (r & t & m & Hin & Hx). apply Hk in Hin as ->.
  inversion Hx as [| | | | | |m' y ys t' Hall|]; subst. simpl. clear Hx E. revert Hall.
  generalize (y :: ys). intros l. induction 1 as [|? ? ? ? ? ? IH]; constructor; eauto.
Qed.
Lemma obj_plain n v c k c' :
  member_is c k (TRef c') -> has n v (TRef c) -> plain_names (get_obj k v).
Proof.
  intros Hk Hv. unfold get_obj. destruct (member k v) as [x|] eqn:E; [|done].
  destruct (member_typed _ _ _ _ _ Hv E) as (r & t & m & Hin & Hx). apply Hk in Hin as ->.
  by eapply typed_plain.
Qed.
Lemma fmap_scrub_ext {A} (f : jany -> A) (g : A -> A) (l : list jany) c :
  (forall n x, has n x (TRef c) -> f (scrub x) = g (f x)) ->
  Forall (fun x => exists m, has m x (TRef c)) l -> f <$> (scrub <$> l) = g <$> (f <$> l).
Proof.
  intros Hf. induction 1 as [|x l [m Hx] _ IH]; [done|]. rewrite !fmap_cons. f_equal; [|done]. by eapply Hf.
Qed.

Lemma read_host_scrub n v : has n v (TRef CNameserver) -> read_host (scrub v) = valid_host (read_host v).
Proof.
  intros Hv. pose proof (typed_plain _ _ _ Hv) as Hp.
  assert (Hi : plain_names (get_obj "ipAddresses" v)) by (refine (obj_plain _ _ CNameserver _ CIPAddrs _ Hv); which).
  unfold read_host, valid_host. cbn [ho_handle ho_name ho_v4 ho_v6].
  by rewrite get_obj_scrub, !get_str_scrub, !get_strs_scrub.
Qed.
Lemma read_event_scrub n v :
  has n v (TRef CEvent) -> read_event (scrub v) = (to_valid (read_event v).1, to_valid (read_event v).2).
Proof. intros Hp%typed_plain. unfold read_event. by rewrite !get_str_scrub. Qed.
Lemma read_entity_scrub n v :
  has n v (TRef CEntity) ->
  read_entity (scrub v) = (to_valid <$> (read_entity v).1, to_valid (read_entity v).2).
Proof. intros Hp%typed_plain. unfold read_entity. by rewrite get_str_scrub, get_strs_scrub. Qed.
Lemma read_domain_scrub n v : has n v (TRef CDomain) -> read_domain (scrub v) = valid_view (read_domain v).
Proof.
  intros Hv. pose proof (typed_plain _ _ _ Hv) as Hp.
  assert (Hs : plain_names (get_obj "secureDNS" v)) by (refine (obj_plain _ _ CDomain _ CSecureDNS _ Hv); which).
  unfold read_domain, valid_view.
  cbn [dv_handle dv_name dv_unicode dv_status dv_hosts dv_events dv_entities dv_zone_signed dv_delegation_signed].
  rewrite !get_str_scrub, get_strs_scrub, !get_list_scrub, get_obj_scrub, !get_bool_scrub by done.
  rewrite (fmap_scrub_ext read_host valid_host _ CNameserver);
    [|apply read_host_scrub|refine (list_typed _ _ CDomain _ _ _ Hv); which].
  rewrite (fmap_scrub_ext read_event (fun e => (to_valid e.1, to_valid e.2)) _ CEvent);
    [|apply read_event_scrub|refine (list_typed _ _ CDomain _ _ _ Hv); which].
  rewrite (fmap_scrub_ext read_entity (fun e : list string * string => (to_valid <$> e.1, to_valid e.2)) _ CEntity);
    [done|apply read_entity_scrub|refine (list_typed _ _ CDomain _ _ _ Hv); which].
Qed.

(** *** Reading what the service builds *)

Lemma field_nil k : field k [] = None.
Proof. done. Qed.
Lemma or_else_None {A} (a : option A) : or_else a None = a.
Proof. by destruct a. Qed.
Lemma default_Some {A} (d a : A) : default d (Some a) = a.
Proof. done. Qed.
Create Rewrite HintDb fields.
#[local] Hint Rewrite @field_app field_cons field_str @field_list field_bool @field_ptr field_nil : fields.
(** Look members up in the fields of a record. *)
#[local] Ltac look_up :=
  unfold get_str, get_strs, get_list, get_obj; rewrite ?member_field;
  unfold conformance_fields, common_fields, strs_field; autorewrite with fields;
  cbn [String.eqb Ascii.eqb Bool.eqb or_else fmap option_fmap option_map];
  rewrite ?or_else_None, ?default_Some, ?read_str_field, ?read_list_field.

Lemma read_event_json e : read_event (event_json e) = (rdap.EventAction e, rdap.EventDate e).
Proof. unfold read_event, event_json. by look_up. Qed.
Lemma read_ips n ips :
  rdap.IPAddresses n = Some ips -> get_obj "ipAddresses" (nameserver_json n) = ipaddrs_json ips.
Proof. intros E. unfold nameserver_json, nameserver_fields. rewrite E. by look_up. Qed.
Lemma read_nameserver_json n ips :
  rdap.IPAddresses n = Some ips ->
  read_host (nameserver_json n)
  = mkHost (rdap.Handle (rdap.ns_Common n)) (rdap.ns_LDHName n) (rdap.V4 ips) (rdap.V6 ips).
Proof.
  intros E. unfold read_host. rewrite (read_ips n ips E). unfold nameserver_json, nameserver_fields, ipaddrs_json.
  look_up. by rewrite !read_strings.
Qed.
Lemma read_entity_json e :
  read_entity (entity_json e) = (rdap.Roles e, rdap.Handle (rdap.ent_Common e)).
Proof.
  destruct e as [c vcard roles pids nets actor]. unfold read_entity, entity_rest. cbn [entity_json].
  unfold entity_rest. look_up. by rewrite read_strings.
Qed.
Lemma read_secureDNS s :
  get_bool "zoneSigned" (secureDNS_json s) = rdap.ZoneSigned s
  /\ get_bool "delegationSigned" (secureDNS_json s) = rdap.DelegationSigned s.
Proof. done. Qed.
Lemma registrant_handle d agg :
  rdap.Handle (rdap.ent_Common (service.registrantEntity d agg))
  = registrant_of (bool_decide (is_Some agg)) d.
Proof.
  unfold service.registrantEntity. destruct agg as [a|]; [|done].
  unfold registrant_of. by destruct (default [] _) as [|h l]; [|destruct (_ !! h)].
Qed.

(** The mapping and the encoder, then the reader, on a domain with its aggregate. *)
Lemma map_reads {A B C} (f : B -> C) (g : A -> B) (h : A -> C) l :
  (forall x, f (g x) = h x) -> f <$> List.map g l = h <$> l.
Proof. intros Hf. induction l as [|x l IH]; [done|]. simpl. rewrite Hf. f_equal. exact IH. Qed.
Lemma read_mapped d agg base url rurl mode opts ext :
  read_domain (domain_json (service.domainToRDAP d agg base url rurl mode opts ext))
  = view_of (bool_decide (is_Some agg)) mode d.
Proof.
  set (out := service.domainToRDAP _ _ _ _ _ _ _ _).
  assert (Hs : get_obj "secureDNS" (domain_json out) = secureDNS_json (service.domain_secureDNS d)).
  { unfold domain_json. by look_up. }
  unfold read_domain. rewrite Hs. destruct (read_secureDNS (service.domain_secureDNS d)) as [-> ->].
  unfold domain_json. look_up. unfold view_of. subst out. f_equal.
  - apply read_strings.
  - change (rdap.Nameservers _) with (service.embedded_nameserver base ext <$> domain.Nameservers d).
    rewrite (map_reads _ _ (read_host ∘ nameserver_json)) by done.
    rewrite <-list_fmap_compose. apply list_fmap_ext. intros i n _. 
    etransitivity; [by eapply (read_nameserver_json (service.embedded_nameserver base ext n))|done].
  - rewrite (map_reads _ _ (fun e => (rdap.EventAction e, rdap.EventDate e)) _ read_event_json).
    simpl. by destruct (String.eqb mode "registrar").
  - rewrite (map_reads _ _ _ _ read_entity_json). simpl.
    destruct (String.eqb mode "registrar"); [|done]. simpl.
    rewrite service.registrant_roles, registrant_handle. done.
  - unfold service.domain_secureDNS. by destruct (domain.d_SecureDNS d).
  - unfold service.domain_secureDNS. by destruct (domain.d_SecureDNS d).
Qed.

(** The date of an event is plain ASCII in the years 0 to 9999. *)
Definition dated (t : Time) : Prop := 0 <= c_year (civil_of_days (t_sec t / 86400)) < 10000.
Lemma to_valid_ascii s : all_ascii (bs s) = true -> to_valid s = s.
Proof. intros Hs. by apply to_valid_id, json.valid_utf8_ascii. Qed.
Lemma FormatTime_valid t : dated t -> to_valid (FormatTime t) = FormatTime t.
Proof.
  intros Hy. apply to_valid_ascii. unfold FormatTime. destruct (IsZero t); [done|].
  apply all_ascii_Forall. unfold format_rfc3339, dated in *. rewrite bs_sb.
  pose proof (civil_bounds (t_sec t / 86400)) as [Hm Hd].
  destruct (civil_of_days (t_sec t / 86400)) as [y m d]. cbn [c_year c_month c_day] in *.
  assert (Hs : 0 <= t_sec t mod 86400 < 86400) by (apply Z.mod_pos_bound; lia). revert Hs. generalize (t_sec t mod 86400). intros s Hs.
  unfold pad4. replace (y <? 0) with false by lia. replace (y <? 10000) with true by lia. unfold pad2.
  repeat first [apply Forall_app; split|apply Forall_cons; split|apply Forall_nil_2].
  all: first [rewrite byte_digit_char by (Z.div_mod_to_equations; lia); Z.div_mod_to_equations; lia|by vm_compute].
Qed.

(** An error that is sent, read. *)
Lemma error_sent st title desc (w : Response body) :
  st = 400 \/ st = 404 \/ st = 500 \/ st = 501 -> title <> "" -> to_valid title = title ->
  rs_status w = None -> rs_body w = [] ->
  sends_read (writeError st st title desc) w
    (fun status v => status = st /\ read_error v = mkErrorView st title [to_valid desc]).
Proof.
  intros Hst Ht Hv Hs Hb. eexists _, _, _. split; [by apply writeJSON_sent|].
  assert (Hn : st <> 0) by lia.
  pose proof (error_typed 7 st title desc Hn Ht) as He. split; [by eapply body_text_typed|]. split; [done|].
  pose proof (typed_plain _ _ _ He) as Hp. unfold read_error, get_int.
  rewrite get_str_scrub, get_strs_scrub, plain_member_scrub by done. f_equal.
  - by destruct Hst as [->|[->|[->| ->]]].
  - rewrite <-Hv at 2. f_equal. unfold error_json, int_field. cbn [rdap.ErrorCode rdap.err_Title].
    rewrite (proj2 (Z.eqb_neq _ _) Hn). by look_up.
  - unfold error_json, int_field. cbn [rdap.ErrorCode rdap.err_Description].
    rewrite (proj2 (Z.eqb_neq _ _) Hn). by look_up.
Qed.

#[local] Arguments to_valid : simpl never.
#[local] Arguments FormatTime : simpl never.
#[local] Arguments parse_rfc3339 : simpl never.
(** The instants in a view read back. *)
Definition instants (d : domain.Domain) : list (string * Time) :=
  [("registration", domain.CreatedAt (domain.d_Metadata d));
   ("last changed", domain.UpdatedAt (domain.d_Metadata d));
   ("expiration", domain.ExpiresAt d)].
Lemma valid_event_time resolved mode d action t :
  (action, t) ∈ instants d -> dated t -> IsZero t = false -> event_time action (valid_view (view_of resolved mode d)) = Some (t_sec t).
Proof.
  intros Hin Hy Hz. pose proof (FormatTime_valid t Hy) as Hv.
  assert (Hp : parse_rfc3339 (FormatTime t) = Some (t_sec t)).
  { unfold FormatTime. rewrite Hz. by apply parse_format_rfc3339. }
  unfold instants in Hin. rewrite !elem_of_cons, elem_of_nil in Hin. unfold event_time, valid_view, view_of.
  destruct Hin as [[= -> ->]|[[= -> ->]|[[= -> ->]|[]]]]; cbn; by rewrite Hv.
Qed.

(** *** Searches *)

Lemma read_mapping_search {A} co key (json : A -> jany) l ns ms :
  key ∈ ["domainSearchResults"; "entitySearchResults"; "nameserverSearchResults"] ->
  get_list "reverse_search_properties_mapping" (search_json co key json l ns ms) = List.map mapping_json ms.
Proof.
  rewrite !elem_of_cons, elem_of_nil. intros Hk. unfold search_json.
  destruct Hk as [->|[->|[->|[]]]]; look_up; by destruct ms.
Qed.
Lemma read_conformance_search {A} co key (json : A -> jany) l ns ms :
  key ∈ ["domainSearchResults"; "entitySearchResults"; "nameserverSearchResults"] ->
  get_strs "rdapConformance" (search_json co key json l ns ms) = rdap.conf_ids co.
Proof.
  rewrite !elem_of_cons, elem_of_nil. intros Hk. unfold search_json.
  destruct Hk as [->|[->|[->|[]]]]; look_up; by rewrite read_strings.
Qed.
Lemma read_mapping_scrub n v :
  has n v (TRef CMapping) ->
  read_mapping (scrub v) = (to_valid (read_mapping v).1, to_valid (read_mapping v).2).
Proof. intros Hp%typed_plain. unfold read_mapping. by rewrite !get_str_scrub. Qed.
Lemma read_results_search {A} c key (json : A -> jany) l ns ms :
  key ∈ ["domainSearchResults"; "entitySearchResults"; "nameserverSearchResults"] ->
  get_list key (search_json c key json l ns ms) = List.map json l.
Proof.
  rewrite !elem_of_cons, elem_of_nil. intros Hk. unfold search_json.
  destruct Hk as [->|[->|[->|[]]]]; look_up; by destruct l.
Qed.

Section searches.
Context `{UnicodeTables} `{Idna} (h : Handler).
Context {D R V : Type} (key : string) (k c : class) (mapped : bool) (json : R -> jany) (map_to : string -> D -> R).
Context (read : jany -> V) (g : V -> V) (view : D -> V).
Context (Hkey : key ∈ ["domainSearchResults"; "entitySearchResults"; "nameserverSearchResults"]).
Context (Hmembers : members k = search_members key c mapped).
Context (Htyped : forall url d, has 10 (json (map_to url d)) (TRef c)).
Context (Hscrub : forall n v, has n v (TRef c) -> read (scrub v) = g (read v)).
Context (Hread : forall url d, read (json (map_to url d)) = view d).

(** The results of one search, its conformance and its mapping. *)
Lemma results_sent respond url l co ms (w : Response body) :
  head (rdap.conf_ids co) = Some "rdap_level_0" -> (mapped = true -> ms <> []) ->
  (forall rs, body_json (respond url rs) = Some (search_json co key json rs (notices h url) ms)) ->
  rs_status w = None -> rs_body w = [] ->
  sends_read (writeJSON 200 (respond url (List.map (map_to url) l))) w
    (fun status v => status = 200 /\ read_results key read v = (g ∘ view) <$> l
       /\ read_results "reverse_search_properties_mapping" read_mapping v
          = (fun m => (to_valid (rdap.rsm_Property m), to_valid (rdap.PropertyPath m))) <$> ms
       /\ get_strs "rdapConformance" v = to_valid <$> rdap.conf_ids co).
Proof.
  intros Hco Hms Hbody Hs Hb. eexists _, _, _. split; [by apply writeJSON_sent|].
  assert (Ht : has max_depth (search_json co key json (List.map (map_to url) l) (notices h url) ms)
                 (TRef k)).
  { apply (search_typed 7 _ _ _ _ _ _ _ _ _ c mapped); [done..|]. apply Forall_fmap, Forall_forall. intros d _.
    apply Htyped. }
  split; [eapply body_text_typed; [apply Hbody|exact Ht]|]. split; [done|].
  pose proof (typed_plain _ _ _ Ht) as Hp. unfold read_results.
  rewrite !get_list_scrub, get_strs_scrub by done.
  rewrite read_results_search, read_mapping_search, read_conformance_search by done. split_and!; [| |done].
  - rewrite (fmap_scrub_ext read g _ c Hscrub).
    + rewrite (map_reads read json (read ∘ json)) by done.
      rewrite (map_reads (read ∘ json) (map_to url) view) by (intros d; apply Hread).
      by rewrite list_fmap_compose.
    + apply Forall_fmap, Forall_fmap, Forall_forall. intros d _. by exists 10%nat; apply Htyped.
  - rewrite (fmap_scrub_ext read_mapping (fun m => (to_valid m.1, to_valid m.2)) _ CMapping read_mapping_scrub).
    + rewrite (map_reads read_mapping mapping_json (fun m => (rdap.rsm_Property m, rdap.PropertyPath m))) by done.
      by rewrite <-list_fmap_compose.
    + apply Forall_fmap, Forall_forall. intros m _. exists 1%nat. apply mapping_typed.
Qed.

Lemma code_sent st title desc (w : Response body) :
  st = 400 \/ st = 404 \/ st = 500 \/ st = 501 -> title <> "" -> to_valid title = title ->
  rs_status w = None -> rs_body w = [] ->
  sends_read (writeError st st title desc) w (fun status v => status = st /\ ev_code (read_error v) = st).
Proof.
  intros Hst Ht Hv Hs Hb. destruct (error_sent st title desc w) as (s & b & v & E & Hp & -> & Hr); [done..|].
  exists st, b, v. by rewrite Hr.
Qed.
Lemma refused_sent title desc (w : Response body) :
  title <> "" -> to_valid title = title -> rs_status w = None -> rs_body w = [] ->
  sends_read (writeError 400 400 title desc) w (fun status v => status = 400 /\ ev_code (read_error v) = 400).
Proof. intros. apply code_sent; by auto.
Qed.
(** The answer to a search with two exclusive parameters. *)
Lemma exclusive_sent p1 p2 a m s1 s2 S1 S2 respond r (w : Response body) :
  (forall v limit url, S1 v limit url = (ds ← s1 v limit; Ok (List.map (map_to url) ds))) ->
  (forall v limit url, S2 v limit url = (ds ← s2 v limit; Ok (List.map (map_to url) ds))) ->
  (forall url rs, body_json (respond url rs)
     = Some (search_json NewConformance key json rs (notices h url) [])) ->
  mapped = false -> rs_status w = None -> rs_body w = [] ->
  let q := Url.parse_query (rq_rawquery r) in
  sends_read (exclusive_search h p1 p2 a m S1 S2 respond r) w
    (search_read (asked p1 p2 s1 s2 (search_limit h q) q) (read_results key read) (g ∘ view)).
Proof.
  intros E1 E2 Hbody Hmap Hs Hb q. unfold exclusive_search, asked. fold q.
  assert (Hrun : forall (s : string -> Z -> result (list D)) (S : string -> Z -> string -> result (list R)) v,
    (forall v limit url, S v limit url = (ds ← s v limit; Ok (List.map (map_to url) ds))) ->
    sends_read
      match S v (search_limit h q) (requestURL h r) with
      | Err err => writeError 500 500 "Search failed" (error_message err)
      | Ok results => writeJSON 200 (respond (requestURL h r) results)
      end w (search_read (Some (s v (search_limit h q))) (read_results key read) (g ∘ view))).
  { intros s S v ->. destruct (s v (search_limit h q)) as [l|e]; simpl; [|apply error_sent; by auto].
    destruct (results_sent respond (requestURL h r) l NewConformance [] w) as (st & b & x & E & Hp & Hst & Hr & _);
      [done|by rewrite Hmap|done..|]. by exists st, b, x. }
  destruct (Url.query_get q p1) as [|c1 v1] eqn:Q1, (Url.query_get q p2) as [|c2 v2] eqn:Q2; cbn;
    [by apply refused_sent|by apply Hrun..|by apply refused_sent].
Qed.
End searches.

(** ** Properties *)

Section properties.
Context `{UnicodeTables} `{Idna}.

(** C5: the whole path of a domain query, from the store to the bytes and back: a
    client that parses the answer to a name the store knows reads the handle, names,
    status values, nameservers with their addresses, entities, event dates and
    DNSSEC flags of exactly the stored domain (invalid UTF-8 replaced), and the
    dates of its events are the stored instants; for a name the store does not know
    it reads a 404, for a name that is not a domain name a 400, with their texts. *)
Theorem LookupDomain_bytes st `{!store.StoreSpec st} cfg port rate authCfg U r (w : Response body) :
  let h := New (service.New st cfg) cfg rate authCfg port in
  U "domainName" <> "" -> rs_status w = None -> rs_body w = [] ->
  sends_read (LookupDomain h U r) w (fun status v =>
    match NormalizeDomainName (U "domainName") with
    | Err e => status = 400
        /\ read_error v = mkErrorView 400 "Invalid domain name" [to_valid (error_message e)]
    | Ok (ldh, _) =>
        match store.LookupDomain st ldh with
        | Err _ => status = 404
            /\ read_error v = mkErrorView 404 "Domain not found"
                                [to_valid ("No domain found for: " +:+ U "domainName")]
        | Ok d => status = 200
            /\ read_domain v = valid_view (view_of true (config.Mode cfg) d)
            /\ (forall action t, (action, t) ∈ instants d -> dated t -> IsZero t = false ->
                 event_time action (read_domain v) = Some (t_sec t))
        end
    end).
Proof.
  intros h Hu Hs Hb. unfold LookupDomain. apply String.eqb_neq in Hu. rewrite Hu.
  destruct (NormalizeDomainName (U "domainName")) as [[ldh u]|e]; [|apply error_sent; by auto].
  destruct (store.LookupDomain st ldh) as [d|e] eqn:Hd.
  - destruct (service.LookupDomain_found st cfg ldh (requestURL h r) d Hd) as (agg & _ & _ & E).
    change (service.LookupDomain (h_svc h)) with (service.LookupDomain (service.New st cfg)). rewrite E.
    eexists _, _, _. split; [by apply writeJSON_sent|].
    assert (Ht : has max_depth (domain_json (service.to_rdap (service.New st cfg) d (Some agg) (requestURL h r)))
                   (TRef CDomain)) by apply (domain_typed 2).
    split; [by eapply body_text_typed|]. split; [done|].
    assert (Ev : forall v, v = scrub (domain_json (service.to_rdap (service.New st cfg) d (Some agg) (requestURL h r))) ->
              read_domain v = valid_view (view_of true (config.Mode cfg) d)).
    { intros v ->. rewrite (read_domain_scrub _ _ Ht). f_equal. apply read_mapped. }
    rewrite (Ev _ eq_refl). split; [done|]. intros action t. apply valid_event_time.
  - destruct (service.LookupDomain_missing st cfg ldh (requestURL h r) e Hd) as [e' E].
    change (service.LookupDomain (h_svc h)) with (service.LookupDomain (service.New st cfg)). rewrite E.
    apply error_sent; by auto.
Qed.

(** C6: the whole path of a search: a client that parses the answer to a search for
    domains, entities or nameservers reads exactly the objects the store returned for
    the one parameter given, in its order and under the effective limit: the domains
    with all their data (the registrant of each shown as the example, since no
    aggregate is read), the entities with roles and handle, the nameservers with
    their addresses; a store error reads as 500 with its text, and none or both of
    the parameters as 400. *)
Theorem searches_bytes st cfg port rate authCfg U r (w : Response body) :
  let h := New (service.New st cfg) cfg rate authCfg port in
  let q := Url.parse_query (rq_rawquery r) in
  let limit := search_limit h q in
  rs_status w = None -> rs_body w = [] ->
  sends_read (SearchDomains h U r) w
    (search_read (asked "name" "nsLdhName" (store.SearchDomainsByName st) (store.SearchDomainsByNS st) limit q)
       (read_results "domainSearchResults" read_domain) (valid_view ∘ view_of false (config.Mode cfg)))
  /\ sends_read (SearchEntities h U r) w
    (search_read (asked "fn" "handle" (store.SearchContactsByName st) (store.SearchContactsByHandle st) limit q)
       (read_results "entitySearchResults" read_entity) (valid_entity ∘ entity_of))
  /\ sends_read (SearchNameservers h U r) w
    (search_read (asked "name" "ip" (store.SearchNameserversByName st) (store.SearchNameserversByIP st) limit q)
       (read_results "nameserverSearchResults" read_host) (valid_host ∘ host_of)).
Proof.
  intros h q limit Hs Hb. split_and!.
  - apply (exclusive_sent h _ CDomains CDomain false domain_json (fun url d => service.DomainToRDAP (service.New st cfg) d url));
      [left|done|intros; apply (domain_typed 0)|apply read_domain_scrub|intros; apply read_mapped|done..].
  - apply (exclusive_sent h _ CEntities CEntity false entity_json (fun url c => service.EntityToRDAP (service.New st cfg) c url));
      [right; left|done|intros; apply (contact_typed 4)|apply read_entity_scrub|intros; apply read_entity_json|done..].
  - apply (exclusive_sent h _ CNameservers CNameserver false nameserver_json (fun url n => service.NameserverToRDAP (service.New st cfg) n url));
      [right; right; left|done|intros; by apply (nameserver_typed 4)|apply read_host_scrub| |done..].
    intros url n. etransitivity; [by eapply read_nameserver_json|done].
Qed.

(** C35: a reverse search whose extension is off reads as 501, one without exactly one
    non-empty property among handle, role, fn and email as 400; with one, a client
    reads exactly the domains the store returned for that property and pattern under
    the effective limit, in its order and with all their data, the mapping of that
    property to its JSONPath, and the reverse_search conformance; a store error
    reads as 500 with its text, or as 501 when the store has no reverse search. *)
Theorem ReverseSearchDomains_bytes st cfg port rate authCfg U r (w : Response body) :
  let h := New (service.New st cfg) cfg rate authCfg port in
  let q := Url.parse_query (rq_rawquery r) in
  let reads := sends_read (ReverseSearchDomains h U r) w in
  rs_status w = None -> rs_body w = [] ->
  (config.ExtensionsEnabled cfg "reverse_search" = false ->
     reads (fun status v => status = 501 /\ ev_code (read_error v) = 501))
  /\ (config.ExtensionsEnabled cfg "reverse_search" = true ->
     (forall property pattern, ~ sole_property q property pattern) ->
     reads (fun status v => status = 400 /\ ev_code (read_error v) = 400))
  /\ (config.ExtensionsEnabled cfg "reverse_search" = true ->
     forall property pattern, sole_property q property pattern ->
     reads (fun status v =>
       match store.ReverseSearchDomainsByEntity st property pattern (search_limit h q) with
       | Ok ds => status = 200
           /\ read_results "domainSearchResults" read_domain v
              = (valid_view ∘ view_of false (config.Mode cfg)) <$> ds
           /\ read_results "reverse_search_properties_mapping" read_mapping v
              = [(property, path_of property)]
           /\ get_strs "rdapConformance" v = ["rdap_level_0"; "reverse_search"]
       | Err e => if errors_Is e store.ErrReverseSearchUnsupported
           then status = 501 /\ ev_code (read_error v) = 501
           else status = 500 /\ read_error v
                  = mkErrorView 500 "Reverse search failed" [to_valid (error_message e)]
       end)).
Proof.
  intros h q reads Hs Hb. unfold reads, ReverseSearchDomains, enabled. fold q. simpl h_cfg.
  destruct (config.ExtensionsEnabled cfg "reverse_search") eqn:Ee; simpl negb; cbv iota; split_and!; try done.
  - intros _ Hno. destruct (predicates q) as [|[p v] [|]] eqn:Ep; try by apply code_sent; auto.
    destruct (Hno p v). by apply predicates_sole.
  - intros _ p v Hp. pose proof Hp as Ep%predicates_sole. rewrite Ep.
    unfold service.ReverseSearchDomainsByEntity.
    change (service.reverseSearch (service.svc_ext (h_svc h)))
      with (config.ExtensionsEnabled cfg "reverse_search"). rewrite Ee. cbn [negb].
    change (service.svc_store (h_svc h)) with st. change (h_svc h) with (service.New st cfg).
    destruct (store.ReverseSearchDomainsByEntity st p v _) as [ds|e]; cbn [mbind result_bind].
    + destruct (results_sent h "domainSearchResults" CReverse CDomain true domain_json
        (fun url d => service.DomainToRDAP (service.New st cfg) d url) read_domain valid_view
        (view_of false (config.Mode cfg)) ltac:(left) eq_refl ltac:(intros; apply (domain_typed 0))
        read_domain_scrub ltac:(intros; apply read_mapped)
        (fun url l => BDomains (rdap.mkDomainSearchResult
              (WithExtensions NewConformance ["reverse_search"]) l
              (notices h url) (service.ReverseSearchMapping [p])))
        (requestURL h r) ds (WithExtensions NewConformance ["reverse_search"])
        (service.ReverseSearchMapping [p]) w eq_refl ltac:(intros _; by eapply predicates_property)
        ltac:(done) Hs Hb) as (status & b & x & E & Hx & Hst & Hr & Hm & Hc).
      exists status, b, x. split; [exact E|]. split; [exact Hx|]. split; [done|]. split; [exact Hr|].
      split; [|rewrite Hc; vm_compute; reflexivity]. rewrite Hm. clear -Hp.
      destruct Hp as [Hp _]. rewrite !elem_of_cons, elem_of_nil in Hp.
      by destruct Hp as [->|[->|[->|[->|[]]]]]; vm_compute.
    + destruct (errors_Is e _); [by apply code_sent; auto|by apply error_sent; auto].
  - intros _. by apply code_sent; auto.
Qed.

End properties.

(** ** Witnesses: the seeded domain, by a name in capitals with a final dot and by a
    search *)

Section witnesses.
#[local] Existing Instances ascii_tables no_idna range_backward glob_engine service.demo_spec.

Lemma LookupDomain_bytes_witness :
  exists b v, rs_body seeded_answer = [b] /\ json.parse (body_text b) = Some v
    /\ dv_hosts (read_domain v)
       = [mkHost "NS1-NAME" "ns1.example.com" ["8.8.8.8"] ["2001:4860:4860::8888"];
          mkHost "NS2-NAME" "ns2.example.com" ["1.1.1.1"] ["2606:4700:4700::1111"]]
    /\ event_time "expiration" (read_domain v) = Some (t_sec (domain.ExpiresAt service.demo_domain)).
Proof.
  destruct (LookupDomain_bytes service.demo config.sample_rdap 8080 demo_rate demo_auth
              (param "domainName" "EXAMPLE.com.") (demo_request "/domain/EXAMPLE.com." "") empty_response)
    as (status & b & v & E & Hp & Hv); [discriminate|reflexivity|reflexivity|].
  replace (NormalizeDomainName (param "domainName" "EXAMPLE.com."  "domainName"))
    with (Ok ("example.com", "example.com")) in Hv by (vm_compute; reflexivity).
  cbv beta zeta iota in Hv.
  replace (store.LookupDomain service.demo "example.com") with (Ok service.demo_domain) in Hv
    by (vm_compute; reflexivity).
  destruct Hv as (_ & Hv & Ht). exists b, v. split; [|split; [exact Hp|split]].
  - unfold seeded_answer, demo_handler. rewrite E. reflexivity.
  - rewrite Hv. vm_compute. reflexivity.
  - apply Ht; [right; right; left|split; vm_compute; [discriminate|reflexivity]|vm_compute; reflexivity].
Defined.

Definition demo_search : Request := demo_request "/domains" "name=example.com&limit=5".
Definition demo_asked : option (result (list domain.Domain)) :=
  asked "name" "nsLdhName" (store.SearchDomainsByName service.demo) (store.SearchDomainsByNS service.demo)
    (search_limit (demo_handler config.sample_rdap) (Url.parse_query (rq_rawquery demo_search)))
    (Url.parse_query (rq_rawquery demo_search)).
Example demo_found : demo_asked = Some (Ok [service.demo_domain]).
Proof. vm_compute. reflexivity. Qed.
Lemma searches_bytes_witness :
  exists b v, rs_body (SearchDomains (demo_handler config.sample_rdap) (param "" "") demo_search empty_response) = [b]
    /\ json.parse (body_text b) = Some v
    /\ dv_name <$> read_results "domainSearchResults" read_domain v = ["example.com"].
Proof.
  destruct (searches_bytes service.demo config.sample_rdap 8080 demo_rate demo_auth
              (param "" "") demo_search empty_response eq_refl eq_refl)
    as ((status & b & v & E & Hp & Hv) & _).
  change (search_read demo_asked (read_results "domainSearchResults" read_domain)
            (valid_view ∘ view_of false (config.Mode config.sample_rdap)) status v) in Hv.
  rewrite demo_found in Hv. destruct Hv as [_ Hv]. exists b, v.
  split; [|split; [exact Hp|rewrite Hv; vm_compute; reflexivity]].
  unfold demo_handler. rewrite E. reflexivity.
Defined.

Definition reverse_rdap : config.RDAPConfig :=
  config.mkRDAPConfig ["com"] "registrar" "https://rdap.example.com" "https://rdap.example.org/rdap/"
    253 100 "" "" "1.2" true ["reverse_search"] None None None [].
Definition demo_reverse : Request := demo_request "/domains/reverse_search/entity" "fn=example%20reg*&limit=3".
Lemma demo_sole : sole_property (Url.parse_query (rq_rawquery demo_reverse)) "fn" "example reg*".
Proof. apply predicates_sole. vm_compute. reflexivity. Qed.
Lemma ReverseSearchDomains_bytes_witness :
  exists b v, rs_body (ReverseSearchDomains (demo_handler reverse_rdap) (param "" "") demo_reverse empty_response) = [b]
    /\ json.parse (body_text b) = Some v
    /\ dv_name <$> read_results "domainSearchResults" read_domain v = ["example.com"]
    /\ read_results "reverse_search_properties_mapping" read_mapping v
       = [("fn", "$.entities[*].vcardArray[1][?(@[0]=='fn')][3]")].
Proof.
  destruct (ReverseSearchDomains_bytes service.demo reverse_rdap 8080 demo_rate demo_auth
              (param "" "") demo_reverse empty_response eq_refl eq_refl) as (_ & _ & L).
  destruct (L eq_refl "fn" "example reg*" demo_sole) as (status & b & v & E & Hp & Hv).
  replace (store.ReverseSearchDomainsByEntity service.demo "fn" "example reg*" _)
    with (Ok [service.demo_domain]) in Hv by (vm_compute; reflexivity).
  destruct Hv as (_ & Hr & Hm & _). exists b, v.
  split; [unfold demo_handler; rewrite E; reflexivity|]. split; [exact Hp|]. split.
  - rewrite Hr. vm_compute. reflexivity.
  - exact Hm.
Defined.

End witnesses.
End client.
