(* ===== verification/ClientIP.v ===== *)
(** * Client address resolution (internal/middleware/clientip.go)

    The middleware that decides which address a request is attributed to, with
    the list of trusted proxies. *)

From stdpp Require Import base tactics option list gmap strings.
From Stdlib Require Import ZArith Lia Ascii.
From S2P Require Import Prelude GoStrings GoNet GoHttp.
#[local] Open Scope Z_scope.

Module clientip.

Definition peerIP (r : Request) : string :=
  match Net.SplitHostPort (rq_remote_addr r) with
  | Some (host, _) => host
  | None => rq_remote_addr r
  end.
Definition remotePort (r : Request) : string :=
  match Net.SplitHostPort (rq_remote_addr r) with
  | Some (_, port) => port
  | None => ""
  end.

Definition forwardedFor (r : Request) : string :=
  let xff := header_get (rq_header r) "X-Forwarded-For" in
  if String.eqb xff "" then ""
  else Strings.TrimSpace (default "" (head (Strings.Split xff ","))).

(** One entry of the list; blank and malformed entries give nothing. *)
Definition parse_entry (c : string) : option Net.IPNet :=
  let c := Strings.TrimSpace c in
  if String.eqb c "" then None
  else
    match Net.ParseIP c with
    | Some ip =>
        let bits := if bool_decide (Net.To4 ip = None) then 128 else 32 in
        Some (Net.mkIPNet ip (Net.CIDRMask bits bits))
    | None => snd <$> Net.ParseCIDR c
    end.
Definition parseCIDRs (cidrs : list string) : list Net.IPNet := omap parse_entry cidrs.

Definition ipAllowed (ip : string) (trusted : list Net.IPNet) : bool :=
  if (length trusted =? 0)%nat then false
  else match Net.ParseIP ip with
       | None => false
       | Some parsed => existsb (fun ipnet => Net.Contains ipnet parsed) trusted
       end.

(** [r.RemoteAddr = addr] *)
Definition with_remote_addr (addr : string) (r : Request) : Request :=
  mkRequest (rq_method r) (rq_host r) (rq_path r) (rq_rawquery r) (rq_tls r) (rq_header r) addr.

(** The resolved client address and the request handed to the next handler; the
    address is also the context value [clientIPKey]. *)
Definition TrustedProxyClientIP (trustedCIDRs : list string) (r : Request) : string * Request :=
  let clientIP := peerIP r in
  let clientIP :=
    if ipAllowed clientIP (parseCIDRs trustedCIDRs) then
      let xff := forwardedFor r in
      if negb (String.eqb xff "") then xff
      else
        let xrip := Strings.TrimSpace (header_get (rq_header r) "X-Real-IP") in
        if negb (String.eqb xrip "") then xrip else clientIP
    else clientIP in
  (clientIP, with_remote_addr (Net.JoinHostPort clientIP (remotePort r)) r).

(** The context value when there is one. *)
Definition GetClientIP (ctx : option string) (r : Request) : string :=
  match ctx with
  | Some ip => if String.eqb ip "" then peerIP r else ip
  | None => peerIP r
  end.

(** ** Specifications *)

(** An entry of the list written as an IPv4 address or prefix. *)
Inductive v4_entry (c : string) : list Z -> Z -> Prop :=
  | entry_host a : Netip.ParseAddr (Strings.TrimSpace c) = Some (Addr4 a) -> v4_entry c a 32
  | entry_cidr i a n :
      index_byte "/"%char (bs (Strings.TrimSpace c)) = Some i ->
      Netip.ParseAddr (sb (take i (bs (Strings.TrimSpace c)))) = Some (Addr4 a) ->
      Net.dtoi (drop (S i) (bs (Strings.TrimSpace c))) = Some n -> n <= 32 ->
      v4_entry c a n.

(** The text of a header's value before its first comma. *)
Definition first_forwarded (xff first : string) : Prop :=
  (","%char ∉ bs first)
  /\ (xff = first \/ exists rest, xff = first +:+ "," +:+ rest).

(** ** Lemmas *)

Lemma forwardedFor_first r first :
  first_forwarded (header_get (rq_header r) "X-Forwarded-For") first ->
  forwardedFor r = Strings.TrimSpace first.
Proof.
  unfold forwardedFor, Strings.Split. intros [Hc Hx].
  destruct (String.eqb_spec (header_get (rq_header r) "X-Forwarded-For") "") as [E|E].
  - rewrite E in Hx. destruct Hx as [<-|[rest Hr]]; [done|].
    apply (f_equal (fun s => length (bs s))) in Hr. rewrite !bs_app, !length_app in Hr.
    simpl in Hr. lia.
  - destruct Hx as [->|[rest ->]].
    + rewrite split_bytes_single by done. simpl. by rewrite sb_bs.
    + rewrite !bs_app. change (bs ",") with [","%char]. simpl app.
      rewrite split_bytes_app by done. simpl. by rewrite sb_bs.
Qed.

Lemma peer_rewritten ip r :
  unbracketed ip ->
  let r' := with_remote_addr (Net.JoinHostPort ip (remotePort r)) r in
  peerIP r' = ip /\ remotePort r' = remotePort r.
Proof.
  intros Hip r'. assert (Hp : unbracketed (remotePort r) /\ (":"%char ∉ bs (remotePort r))).
  { unfold remotePort. destruct (Net.SplitHostPort _) as [[h p]|] eqn:E.
    - by eapply SplitHostPort_port.
    - repeat split; by intros ?%elem_of_nil. }
  unfold peerIP, remotePort at 1. unfold r'. simpl.
  by rewrite SplitHostPort_JoinHostPort by tauto.
Qed.

Lemma ParseIP_v4 s a : Netip.ParseAddr s = Some (Addr4 a) -> Net.ParseIP s = Some (v4in6_prefix ++ a).
Proof. intros E. unfold Net.ParseIP. by rewrite E. Qed.
Lemma ParseAddr_nonempty s a : Netip.ParseAddr s = Some a -> String.eqb s "" = false.
Proof. destruct s; [by vm_compute|done]. Qed.
Lemma dtoi_nonneg l n : Net.dtoi l = Some n -> 0 <= n.
Proof.
  unfold Net.dtoi. destruct (digits l) as [m|] eqn:E; simpl; [|done].
  case_match; [|done]. intros [= ->]. by eapply digits_nonneg.
Qed.

(** The network an IPv4 entry stands for. *)
Lemma parse_entry_v4 c a n :
  v4_entry c a n ->
  octets 4 a /\ 0 <= n <= 32
  /\ exists ip, parse_entry c = Some (Net.mkIPNet ip (Net.CIDRMask n 32))
       /\ (Net.To4 ip = Some (Net.and_bytes a (Net.CIDRMask n 32)) \/ Net.To4 ip = Some a).
Proof.
  intros [b Ha|i b m Hi Ha Hn Hm]; pose proof (ParseAddr_octets _ _ Ha) as [La Fa];
    (split; [done|]).
  - split; [lia|]. exists (v4in6_prefix ++ b). unfold parse_entry.
    rewrite (ParseAddr_nonempty _ _ Ha), (ParseIP_v4 _ _ Ha), To4_mapped by done.
    split; [done|by right].
  - pose proof (dtoi_nonneg _ _ Hn) as Hn0. split; [lia|].
    assert (Lm : length (Net.CIDRMask m 32) = 4%nat) by apply mask_bytes_length.
    exists (Net.and_bytes b (Net.CIDRMask m 32)). split.
    + unfold parse_entry. pose proof (ParseAddr_slash _ _ _ Hi Ha) as Hs.
      unfold Net.ParseIP, Net.ParseCIDR. rewrite Hs, Hi. cbn [mbind option_bind].
      rewrite Ha. cbn [mbind option_bind Netip.Zone negb String.eqb Netip.BitLen Netip.As16].
      rewrite Hn. cbn [mbind option_bind].
      replace (32 <? m) with false by (symmetry; apply Z.ltb_ge; lia).
      cbn [fmap option_fmap option_map snd].
      rewrite Mask_mapped by done.
      destruct (String.eqb_spec (Strings.TrimSpace c) "") as [E|E]; [|done].
      by rewrite E in Hi.
    + left. apply To4_four. by rewrite and_bytes_length, Lm by congruence.
Qed.

Lemma ipAllowed_iff ip cidrs :
  ipAllowed ip (parseCIDRs cidrs) = true
  <-> exists parsed c net, Net.ParseIP ip = Some parsed /\ c ∈ cidrs
        /\ parse_entry c = Some net /\ Net.Contains net parsed = true.
Proof.
  unfold ipAllowed, parseCIDRs. destruct (Net.ParseIP ip) as [parsed|].
  2: { split; [by destruct (_ =? _)%nat|naive_solver]. }
  transitivity (existsb (fun n => Net.Contains n parsed) (omap parse_entry cidrs) = true).
  { by destruct (omap parse_entry cidrs). }
  rewrite existsb_exists. split.
  - intros (net & (c & Hc & He)%list_elem_of_In%list_elem_of_omap & Hn). eauto 10.
  - intros (p & c & net & [= ->] & Hc & He & Hn). exists net. split; [|done].
    apply list_elem_of_In, list_elem_of_omap. eauto.
Qed.

(** ** Properties *)

(** C13: when the network peer is not a trusted proxy the client address is the
    peer's own and no header has any influence, so it cannot be spoofed; when it
    is, the client address is the text of X-Forwarded-For before the first comma,
    trimmed, then (if that is blank) X-Real-IP, trimmed, then the peer's own.  The
    request handed on differs in its remote address only, and that address reads
    back as the client address with the peer's port (for an address without
    brackets, which would not be one). *)
Theorem TrustedProxyClientIP_spec cidrs r :
  let '(ip, r') := TrustedProxyClientIP cidrs r in
  (ipAllowed (peerIP r) (parseCIDRs cidrs) = false ->
     ip = peerIP r
     /\ forall h, fst (TrustedProxyClientIP cidrs
          (mkRequest (rq_method r) (rq_host r) (rq_path r) (rq_rawquery r) (rq_tls r) h
             (rq_remote_addr r))) = ip)
  /\ (ipAllowed (peerIP r) (parseCIDRs cidrs) = true ->
     forall first, first_forwarded (header_get (rq_header r) "X-Forwarded-For") first ->
     let real := Strings.TrimSpace (header_get (rq_header r) "X-Real-IP") in
     (Strings.TrimSpace first <> "" -> ip = Strings.TrimSpace first)
     /\ (Strings.TrimSpace first = "" -> real <> "" -> ip = real)
     /\ (Strings.TrimSpace first = "" -> real = "" -> ip = peerIP r))
  /\ (r' = with_remote_addr (rq_remote_addr r') r
     /\ (unbracketed ip -> peerIP r' = ip /\ remotePort r' = remotePort r))
  /\ (ip <> "" -> GetClientIP (Some ip) r' = ip).
Proof.
  destruct (TrustedProxyClientIP cidrs r) as [ip r'] eqn:E. unfold TrustedProxyClientIP in E.
  injection E as Eip Er. split_and!.
  - intros Ha. rewrite Ha in Eip. split; [done|]. intros h. unfold TrustedProxyClientIP.
    simpl. change (peerIP (mkRequest _ _ _ _ _ h (rq_remote_addr r))) with (peerIP r).
    by rewrite Ha.
  - intros Ha first Hf real. rewrite Ha, (forwardedFor_first _ _ Hf) in Eip. fold real in Eip.
    split_and!; intros H1; [|intros H2..]; subst ip.
    + by apply String.eqb_neq in H1 as ->.
    + rewrite H1. by apply String.eqb_neq in H2 as ->.
    + by rewrite H1, H2.
  - by subst r'.
  - rewrite Eip in Er. subst r'. apply peer_rewritten.
  - intros Hn%String.eqb_neq. simpl. by rewrite Hn.
Qed.

(** C14: with a trusted list of IPv4 addresses and prefixes, an IPv4 peer is
    trusted exactly when its leading bits agree with those of an entry. *)
Theorem ipAllowed_v4 cidrs peer x :
  Forall (fun c => exists a n, v4_entry c a n) cidrs ->
  Netip.ParseAddr peer = Some (Addr4 x) ->
  ipAllowed peer (parseCIDRs cidrs) = true
  <-> exists c a n, c ∈ cidrs /\ v4_entry c a n
        /\ ip_value a / 2 ^ (32 - n) = ip_value x / 2 ^ (32 - n).
Proof.
  intros Hc Hx. pose proof (ParseAddr_octets _ _ Hx) as Ox.
  rewrite ipAllowed_iff, (ParseIP_v4 _ _ Hx). rewrite Forall_forall in Hc. split.
  - intros (p & c & net & Ep & Hin & He & Hn). destruct (Hc c Hin) as (a & n & Ha).
    assert (p = v4in6_prefix ++ x) as -> by congruence.
    destruct (parse_entry_v4 c a n Ha) as (Oa & Bn & ip & Hp & Hip).
    exists c, a, n. split; [done|]. split; [done|]. rewrite Hp in He.
    assert (net = Net.mkIPNet ip (Net.CIDRMask n 32)) as -> by congruence.
    by apply (Contains_v4 _ _ _ _ Oa Ox Bn Hip) in Hn.
  - intros (c & a & n & Hin & Ha & Hv).
    destruct (parse_entry_v4 c a n Ha) as (Oa & Bn & ip & Hp & Hip).
    do 3 eexists. split; [done|]. split; [done|]. split; [done|].
    by apply (Contains_v4 _ _ _ _ Oa Ox Bn Hip).
Qed.

(** ** Witnesses *)

(** A trusted proxy that appended itself to the list it received. *)
Definition proxied_request : Request :=
  mkRequest "GET" "rdap.example" "/domain/example.com" "" false
    {[ "X-Forwarded-For" := [" 203.0.113.9 , 10.0.0.2"]; "X-Real-IP" := ["198.51.100.1"] ]}
    "10.0.0.1:4711".

Lemma TrustedProxyClientIP_spec_witness :
  let '(ip, r') := TrustedProxyClientIP ["10.0.0.0/8"] proxied_request in
  ip = "203.0.113.9" /\ peerIP r' = "203.0.113.9" /\ remotePort r' = "4711".
Proof.
  pose proof (TrustedProxyClientIP_spec ["10.0.0.0/8"] proxied_request) as H.
  destruct (TrustedProxyClientIP ["10.0.0.0/8"] proxied_request) as [ip r'].
  destruct H as (_ & Ht & (_ & Hr) & _).
  destruct (Ht ltac:(vm_compute; reflexivity) " 203.0.113.9 ") as (Hip & _).
  { split; [by apply (bool_decide_unpack _)|]. right. exists " 10.0.0.2". vm_compute. reflexivity. }
  assert (ip = "203.0.113.9") as ->.
  { rewrite Hip by (vm_compute; discriminate). vm_compute. reflexivity. }
  split; [reflexivity|]. destruct Hr as [H1 H2]; [split; by apply (bool_decide_unpack _)|].
  split; [exact H1|]. rewrite H2. vm_compute. reflexivity.
Defined.

Lemma ipAllowed_v4_witness : ipAllowed "10.1.2.3" (parseCIDRs ["10.0.0.0/8"; " 192.0.2.7 "]) = true.
Proof.
  apply (ipAllowed_v4 ["10.0.0.0/8"; " 192.0.2.7 "] "10.1.2.3" [10; 1; 2; 3]).
  - apply Forall_cons. split.
    { exists [10; 0; 0; 0], 8. by apply (entry_cidr _ 8). }
    apply Forall_cons. split; [|by apply Forall_nil].
    exists [192; 0; 2; 7], 32. by apply entry_host.
  - vm_compute. reflexivity.
  - exists "10.0.0.0/8", [10; 0; 0; 0], 8. split; [left|]. split; [by apply (entry_cidr _ 8)|].
    vm_compute. reflexivity.
Defined.

End clientip.
