(* ===== verification/Auth.v ===== *)
(** * Bearer-token validation (internal/auth/auth.go)

    The key cache as a state passed through [keyfunc] and [ValidateToken], the
    decoder of the key set and the JWK parser with its base64url decoder, and the
    checks on issuer and audience.  The JWT library and the key server are
    parameters. *)

From stdpp Require Import base tactics option list gmap strings pretty.
From Stdlib Require Import ZArith Lia Ascii.
From S2P Require Import Prelude GoStrings GoNet Config RdapModels GoJson.
#[local] Open Scope Z_scope.

Module auth.

Record Claims := mkClaims {
  cl_Subject : string; cl_Issuer : string; cl_Audience : list string;
  cl_Expiry : Z; cl_IssuedAt : Z; cl_Scope : string;
  cl_AllowedPurposes : list string; cl_DoNotTrackAllowed : bool
}.

(** The claims as parsed; the registered dates are pointers, in seconds. *)
Record jwtClaims := mkJwtClaims {
  jc_Subject : string; jc_Issuer : string; jc_Audience : list string; jc_Scope : string;
  jc_AllowedPurposes : list string; jc_DoNotTrackAllowed : bool;
  jc_ExpiresAt : option Z; jc_IssuedAt : option Z
}.

(** The public keys [parseJWK] builds. *)
Inductive curve := P256 | P384 | P521.
Inductive pubkey :=
  | RSAKey (n e : Z)
  | ECKey (c : curve) (x y : Z).

(** ** base64url without padding *)

(** [base64.RawURLEncoding.DecodeString]: line breaks are skipped, the bits left
    over in the last group are not checked. *)
Definition b64_value (c : ascii) : option Z :=
  let b := byte c in
  if in_range 65 90 b then Some (b - 65)
  else if in_range 97 122 b then Some (b - 71)
  else if in_range 48 57 b then Some (b + 4)
  else if b =? 45 then Some 62
  else if b =? 95 then Some 63
  else None.
Fixpoint b64_groups (l : list Z) : option (list Z) :=
  match l with
  | [] => Some []
  | [_] => None
  | [a; b] => Some [a * 4 + b / 16]
  | [a; b; c] => Some [a * 4 + b / 16; b mod 16 * 16 + c / 4]
  | a :: b :: c :: d :: l =>
      r ← b64_groups l;
      Some ([a * 4 + b / 16; b mod 16 * 16 + c / 4; c mod 4 * 64 + d] ++ r)
  end.
Definition RawURLDecode (s : string) : option (list Z) :=
  let l := List.filter (fun c => negb ((byte c =? 10) || (byte c =? 13))) (bs s) in
  ds ← mapM b64_value l; b64_groups ds.
Definition decodeBase64URL (s : string) : option (list Z) := RawURLDecode s.

(** ** JSON Web Keys *)

Definition jwk : Type := list (string * jany).
(** [s, _ := k[name].(string)] on a decoded object, whose last member of a name
    wins. *)
Definition jwk_string (k : jwk) (name : string) : string :=
  match List.find (fun p => String.eqb p.1 name) (reverse k) with
  | Some (_, JStr s) => s
  | _ => ""
  end.
(** [new(big.Int).SetBytes(b)] *)
Definition SetBytes (b : list Z) : Z := ip_value b.
Definition base64URLBigInt (k : jwk) (name : string) : option Z :=
  let s := jwk_string k name in
  if String.eqb s "" then None else SetBytes <$> RawURLDecode s.

Definition parseJWK (k : jwk) : option pubkey :=
  let kty := jwk_string k "kty" in
  if String.eqb kty "RSA" then
    n ← base64URLBigInt k "n";
    e ← base64URLBigInt k "e";
    if (n <=? 0) || (e <=? 0) || negb (e <? 2 ^ 63) then None else Some (RSAKey n e)
  else if String.eqb kty "EC" then
    let crv := jwk_string k "crv" in
    c ← (if String.eqb crv "P-256" then Some P256
         else if String.eqb crv "P-384" then Some P384
         else if String.eqb crv "P-521" then Some P521 else None);
    x ← base64URLBigInt k "x";
    y ← base64URLBigInt k "y";
    if (x <=? 0) || (y <=? 0) then None else Some (ECKey c x y)
  else None.

(** The JWKS response body. *)
Record jwksDocument := mkJwksDocument { jd_Keys : list jwk }.
Definition jwks_field (name : string) : json.decoder jwksDocument := fun v d =>
  if json.names_field name "keys"
  then let '(x, ok) := json.dec_slice [] json.dec_map v (jd_Keys d) in (mkJwksDocument x, ok)
  else (d, true).
Definition decode_jwks (body : string) : option jwksDocument :=
  json.Decode (json.dec_struct jwks_field) body (mkJwksDocument []).

(** ** The environment *)

(** The outcome of the HTTP request for the key set: the error of a URL no request
    can be built for, a transport error, or a status with the bytes of the body. *)
Inductive fetched :=
  | BuildFailed (e : error)
  | FetchFailed (e : error)
  | Fetched (status : Z) (body : string).

(** The JWT library: reading the header of a token (its algorithm and key
    identifier), and verifying signature and dates under a key at a time. *)
Class JwtLibrary := {
  jwt_header : string -> option (string * string);
  jwt_verify : string -> pubkey -> Z -> result jwtClaims
}.
(** Documented behaviour of the options the program passes: a token without an
    expiry, or past it, does not verify. *)
Class JwtSpec (J : JwtLibrary) : Prop := {
  jwt_expiry : forall token key now claims, jwt_verify token key now = Ok claims ->
    exists exp, jc_ExpiresAt claims = Some exp /\ now < exp
}.

(** ** The authenticator *)

Record JWTAuthenticator := mkJWTAuthenticator {
  ja_cfg : config.AuthConfig; jwksURL : string; keySet : gmap string pubkey
}.
Definition set_keySet (m : gmap string pubkey) (j : JWTAuthenticator) : JWTAuthenticator :=
  mkJWTAuthenticator (ja_cfg j) (jwksURL j) m.

Definition NewJWTAuthenticator (cfg : config.AuthConfig) : JWTAuthenticator :=
  let url := Strings.TrimSuffix (config.JWKSEndpoint cfg) "/" in
  let url := if String.eqb url ""
             then Strings.TrimSuffix (config.Issuer cfg) "/" +:+ "/.well-known/jwks.json"
             else url in
  mkJWTAuthenticator cfg url ∅.

(** The loop over the keys of a document. *)
Definition add_key (m : gmap string pubkey) (k : jwk) : gmap string pubkey :=
  match parseJWK k with
  | Some key => <[jwk_string k "kid" := key]> m
  | None => m
  end.
Definition parse_keys (doc : list jwk) : gmap string pubkey := foldl add_key ∅ doc.

(** [refreshKeys] up to the lock: the keys a response holds. *)
Definition response_keys (response : fetched) (j : JWTAuthenticator)
    : result (gmap string pubkey) :=
  match response with
  | BuildFailed e => Err (ErrWrap "build jwks request: " e)
  | FetchFailed e => Err (ErrWrap ("fetch jwks " +:+ jwksURL j +:+ ": ") e)
  | Fetched status body =>
      if negb (status =? 200)
      then Err (ErrText ("fetch jwks " +:+ jwksURL j +:+ ": HTTP " +:+ Strconv.Itoa status))
      else
        match decode_jwks body with
        | None => Err (ErrText "decode jwks")
        | Some doc =>
            if bool_decide (jd_Keys doc = []) then Err (ErrText "jwks contains no keys")
            else
              let m := parse_keys (jd_Keys doc) in
              if bool_decide (m = ∅)
              then Err (ErrText "jwks contained no supported public keys (rsa/ecdsa)")
              else Ok m
        end
  end.
Definition refreshKeys (response : fetched) (j : JWTAuthenticator)
    : result JWTAuthenticator :=
  match response_keys response j with
  | Err e => Err e
  | Ok m => Ok (set_keySet m j)
  end.

Section operations.
Context `{UnicodeTables} `{JwtLibrary}.
Context (fetch : string -> fetched).

Definition keyfunc (kid : string) (j : JWTAuthenticator) : result pubkey * JWTAuthenticator :=
  match keySet j !! kid with
  | Some key => (Ok key, j)
  | None =>
      match refreshKeys (fetch (jwksURL j)) j with
      | Err e => (Err (ErrWrap "refresh jwks: " e), j)
      | Ok j =>
          match keySet j !! kid with
          | Some key => (Ok key, j)
          | None => (Err (ErrText ("no public key for kid " +:+ Strconv.Quote kid)), j)
          end
      end
  end.

Definition all_algorithms : list string :=
  ["RS256"; "RS384"; "RS512"; "ES256"; "ES384"; "ES512"; "PS256"; "PS384"; "PS512"].
Definition supportedAlgorithms (j : JWTAuthenticator) : list string :=
  let algs := config.Algorithms (ja_cfg j) in
  if bool_decide (algs = []) then all_algorithms
  else
    let out := List.filter (fun a => existsb (String.eqb a) all_algorithms) algs in
    if bool_decide (out = []) then all_algorithms else out.

Definition audienceContains (aud : list string) (want : string) : bool :=
  existsb (fun a => String.eqb a want) aud.

(** [parser.ParseWithClaims]: the header, the allowed methods, the key, then the
    signature and the dates. *)
Definition ParseWithClaims (token : string) (now : Z) (j : JWTAuthenticator)
    : result jwtClaims * JWTAuthenticator :=
  match jwt_header token with
  | None => (Err (ErrText "token is malformed"), j)
  | Some (alg, kid) =>
      if negb (existsb (String.eqb alg) (supportedAlgorithms j))
      then (Err (ErrText "signing method is invalid"), j)
      else
        let '(key, j) := keyfunc kid j in
        match key with
        | Err e => (Err e, j)
        | Ok key => (jwt_verify token key now, j)
        end
  end.

(** What a call returns, unless it panics. *)
Inductive outcome (A : Type) :=
  | Returned (r : result A)
  | Panicked.
Arguments Returned {_} _.
Arguments Panicked {_}.

(** [ValidateToken] after the parser. *)
Definition check_claims (parsed : result jwtClaims) (j : JWTAuthenticator) : outcome Claims :=
  match parsed with
  | Err e => Returned (Err (ErrWrap "invalid token: " e))
  | Ok claims =>
      let cfg := ja_cfg j in
      if negb (String.eqb (config.Issuer cfg) "")
         && negb (String.eqb (jc_Issuer claims) (config.Issuer cfg))
      then Returned (Err (ErrText ("invalid issuer " +:+ Strconv.Quote (jc_Issuer claims)
             +:+ " (want " +:+ Strconv.Quote (config.Issuer cfg) +:+ ")")))
      else if negb (String.eqb (config.Audience cfg) "")
              && negb (audienceContains (jc_Audience claims) (config.Audience cfg))
      then Returned (Err (ErrText ("invalid audience " +:+ Strconv.Show_strings (jc_Audience claims)
             +:+ " (want " +:+ Strconv.Quote (config.Audience cfg) +:+ ")")))
      else
        match jc_ExpiresAt claims, jc_IssuedAt claims with
        | Some exp, Some iat =>
            Returned (Ok (mkClaims (jc_Subject claims) (jc_Issuer claims) (jc_Audience claims)
              exp iat (jc_Scope claims) (jc_AllowedPurposes claims) (jc_DoNotTrackAllowed claims)))
        | _, _ => Panicked
        end
  end.
Definition ValidateToken (token : string) (now : Z) (j : JWTAuthenticator)
    : outcome Claims * JWTAuthenticator :=
  let '(parsed, j) := ParseWithClaims token now j in
  (check_claims parsed j, j).

End operations.
Arguments Returned {_} _.
Arguments Panicked {_}.

(** The authenticator used without authentication has no state. *)
Definition NoopAuthenticator : Type := unit.
Definition NewNoopAuthenticator : NoopAuthenticator := tt.
(** [NoopAuthenticator.ValidateToken] *)
Definition NoopValidateToken (token : string) : result Claims :=
  Ok (mkClaims "anonymous" "rdap-server" [] 0 0 "read" [] false).

(** ** Specifications *)

(** A key [parseJWK] may build. *)
Definition valid_key (k : pubkey) : Prop :=
  match k with
  | RSAKey n e => 0 < n /\ 0 < e < 2 ^ 63
  | ECKey _ x y => 0 < x /\ 0 < y
  end.
(** A response that carries a key set. *)
Definition serves (response : fetched) (doc : list jwk) : Prop :=
  exists body, response = Fetched 200 body /\ decode_jwks body = Some (mkJwksDocument doc).
(** The state invariant: every cached key is valid. *)
Definition wf (j : JWTAuthenticator) : Prop := map_Forall (fun _ k => valid_key k) (keySet j).

(** The claims handed on are those of a verified token, field by field. *)
Definition passes_on (claims : jwtClaims) (c : Claims) : Prop :=
  cl_Subject c = jc_Subject claims /\ cl_Issuer c = jc_Issuer claims
  /\ cl_Audience c = jc_Audience claims /\ jc_ExpiresAt claims = Some (cl_Expiry c)
  /\ jc_IssuedAt claims = Some (cl_IssuedAt c) /\ cl_Scope c = jc_Scope claims
  /\ cl_AllowedPurposes c = jc_AllowedPurposes claims
  /\ cl_DoNotTrackAllowed c = jc_DoNotTrackAllowed claims.
(** What every accepted token satisfies, [key] being the key of its signature. *)
Definition accepted `{UnicodeTables} `{JwtLibrary} (j : JWTAuthenticator) (token alg : string)
    (key : pubkey) (now : Z) (c : Claims) : Prop :=
  alg ∈ supportedAlgorithms j /\ alg ∈ all_algorithms
  /\ (exists claims, jwt_verify token key now = Ok claims /\ passes_on claims c)
  /\ now < cl_Expiry c
  /\ (config.Issuer (ja_cfg j) <> "" -> cl_Issuer c = config.Issuer (ja_cfg j))
  /\ (config.Audience (ja_cfg j) <> "" -> config.Audience (ja_cfg j) ∈ cl_Audience c).

(** ** Lemmas *)

Lemma parseJWK_valid k key : parseJWK k = Some key -> valid_key key.
Proof.
  unfold parseJWK. destruct (String.eqb _ "RSA").
  - destruct (base64URLBigInt k "n") as [n|]; simpl; [|done].
    destruct (base64URLBigInt k "e") as [e|]; simpl; [|done].
    destruct (_ || _) eqn:E; [done|]. intros [= <-]. simpl. to_prop. lia.
  - destruct (String.eqb _ "EC"); [|done]. unfold mbind, option_bind.
    destruct (if String.eqb _ _ then _ else _) as [c|]; [|done].
    destruct (base64URLBigInt k "x") as [x|]; [|done].
    destruct (base64URLBigInt k "y") as [y|]; [|done].
    destruct (_ || _) eqn:E; [done|]. intros [= <-]. simpl. to_prop. lia.
Qed.
Lemma parse_keys_valid doc : map_Forall (fun _ k => valid_key k) (parse_keys doc).
Proof.
  unfold parse_keys. generalize (map_Forall_empty (fun (_ : string) k => valid_key k)).
  generalize (∅ : gmap string pubkey). induction doc as [|k doc IH]; intros m Hm; [done|].
  simpl. apply IH. unfold add_key. destruct (parseJWK k) eqn:E; [|done].
  apply map_Forall_insert_2; [by eapply parseJWK_valid|done].
Qed.
(** Every cached key is one of the document. *)
Lemma parse_keys_from doc kid key :
  parse_keys doc !! kid = Some key ->
  exists k, k ∈ doc /\ jwk_string k "kid" = kid /\ parseJWK k = Some key.
Proof.
  unfold parse_keys. induction doc as [|k l IH] using rev_ind; simpl; [by rewrite lookup_empty|].
  rewrite foldl_app. simpl. unfold add_key at 1. intros E.
  assert (E' : (jwk_string k "kid" = kid /\ parseJWK k = Some key) \/
               foldl add_key ∅ l !! kid = Some key).
  { destruct (parseJWK k); [|by right]. apply lookup_insert_Some in E as [[<- <-]|[_ E]]; auto. }
  destruct E' as [[? ?]|(k' & Hk & ?)%IH].
  - exists k. split; [|done]. apply elem_of_app. right. by apply list_elem_of_singleton.
  - exists k'. split; [|done]. apply elem_of_app. by left.
Qed.

Section lemmas.
Context `{UnicodeTables} `{JwtLibrary} (fetch : string -> fetched).

(** What [keyfunc] may do to the state. *)
Lemma response_keys_Ok response j m :
  response_keys response j = Ok m -> exists doc, serves response doc /\ m = parse_keys doc.
Proof.
  unfold response_keys. destruct response as [| |status body]; [done..|].
  destruct (status =? 200) eqn:Es; to_prop; simpl; [|done]. subst.
  destruct (decode_jwks body) as [[doc]|] eqn:Ed; [|done]. simpl.
  do 2 (case_bool_decide; [done|]). intros [= <-]. exists doc. split; [|done]. by exists body.
Qed.
Lemma keyfunc_state kid j :
  (keyfunc fetch kid j).2 = j
  \/ exists doc, serves (fetch (jwksURL j)) doc
       /\ (keyfunc fetch kid j).2 = set_keySet (parse_keys doc) j.
Proof.
  unfold keyfunc. destruct (keySet j !! kid); [by left|].
  unfold refreshKeys. destruct (response_keys _ j) as [m|] eqn:E; [|by left].
  apply response_keys_Ok in E as (doc & Hdoc & ->). right. exists doc. split; [done|].
  simpl. by destruct (parse_keys doc !! kid).
Qed.
Lemma ValidateToken_state token now j :
  exists j', (ValidateToken fetch token now j).2 = j'
    /\ (j' = j \/ exists doc, serves (fetch (jwksURL j)) doc /\ j' = set_keySet (parse_keys doc) j).
Proof.
  eexists. split; [done|]. unfold ValidateToken, ParseWithClaims.
  destruct (jwt_header token) as [[alg kid]|]; [|by left]. destruct (negb _); [by left|].
  pose proof (keyfunc_state kid j) as K. destruct (keyfunc fetch kid j) as [[key|e] j']; exact K.
Qed.

Lemma keyfunc_key kid j key j' :
  keyfunc fetch kid j = (Ok key, j') -> keySet j' !! kid = Some key.
Proof.
  unfold keyfunc. destruct (keySet j !! kid) eqn:E; [by intros [= <- <-]|].
  destruct (refreshKeys _ j) as [j1|]; [|done].
  destruct (keySet j1 !! kid) eqn:E1; [by intros [= <- <-]|done].
Qed.
Lemma supportedAlgorithms_sub j a : a ∈ supportedAlgorithms j -> a ∈ all_algorithms.
Proof.
  unfold supportedAlgorithms. repeat case_bool_decide; try done.
  rewrite !list_elem_of_In, List.filter_In. intros [_ Ha]. apply existsb_exists in Ha.
  destruct Ha as (b & Hb & ->%String.eqb_eq). done.
Qed.

(** The checks after the parser accept only what they should. *)
Lemma check_claims_accepts `{!JwtSpec _} j token alg key now c :
  existsb (String.eqb alg) (supportedAlgorithms j) = true ->
  check_claims (jwt_verify token key now) j = Returned (Ok c) ->
  accepted j token alg key now c.
Proof.
  intros (a & Ha%list_elem_of_In & ->%String.eqb_eq)%existsb_exists. unfold check_claims.
  destruct (jwt_verify token key now) as [claims|e] eqn:Ev; [|done].
  destruct (jwt_expiry _ _ _ _ Ev) as (exp & Hexp & Hnow). rewrite Hexp.
  destruct (negb _ && negb (String.eqb (jc_Issuer claims) _)) eqn:Ei; [done|].
  destruct (negb _ && negb (audienceContains _ _)) eqn:Ed; [done|].
  destruct (jc_IssuedAt claims) as [iat|] eqn:Eiat; [|done]. intros [= <-].
  split_and!; try done; simpl.
  - by eapply supportedAlgorithms_sub.
  - by exists claims.
  - intros Hi. to_prop. destruct Ei as [Ei|Ei]; to_prop; done.
  - intros Hd. to_prop. destruct Ed as [Ed|Ed]; to_prop; [done|].
    unfold audienceContains in Ed.
    apply existsb_exists in Ed as (b & Hb%list_elem_of_In & ->%String.eqb_eq). done.
Qed.

End lemmas.

(** ** Properties *)

Section properties.
Context `{UnicodeTables} `{JwtLibrary}.

(** C10: a token is accepted only if its algorithm is one of the allowed
    asymmetric ones, its signature verifies under the key the cache now holds
    for its key identifier, it has not expired, its issuer is the configured one
    and its audience contains the configured one (when configured); the claims
    returned are the verified ones. *)
Theorem ValidateToken_sound `{!JwtSpec _} fetch token now j c j' :
  ValidateToken fetch token now j = (Returned (Ok c), j') ->
  exists alg kid key,
    jwt_header token = Some (alg, kid) /\ keySet j' !! kid = Some key
    /\ accepted j token alg key now c.
Proof.
  unfold ValidateToken, ParseWithClaims.
  destruct (jwt_header token) as [[alg kid]|]; [|done].
  destruct (negb (existsb _ _)) eqn:Ea; [done|]. to_prop.
  assert (Hcfg : ja_cfg (keyfunc fetch kid j).2 = ja_cfg j).
  { by destruct (keyfunc_state fetch kid j) as [->|(doc & _ & ->)]. }
  destruct (keyfunc fetch kid j) as [[key|e] j1] eqn:Ek; [|done].
  simpl in Hcfg. intros [= Hc <-]. exists alg, kid, key. split; [done|].
  split; [by eapply keyfunc_key|].
  assert (Ha : accepted j1 token alg key now c).
  { apply check_claims_accepts; [|done]. unfold supportedAlgorithms in *. by rewrite Hcfg. }
  unfold accepted, supportedAlgorithms in *. by rewrite Hcfg in Ha.
Qed.

(** A verified token without an issue date makes the call panic: the library
    does not require the claim and the code reads it unconditionally. *)
Theorem ValidateToken_no_iat fetch token now j alg kid key claims :
  jwt_header token = Some (alg, kid) -> alg ∈ supportedAlgorithms j ->
  keySet j !! kid = Some key -> jwt_verify token key now = Ok claims ->
  config.Issuer (ja_cfg j) = "" -> config.Audience (ja_cfg j) = "" ->
  jc_IssuedAt claims = None ->
  ValidateToken fetch token now j = (Panicked, j).
Proof.
  intros Hh Ha Hk Hv Hi Hd Hn. unfold ValidateToken, ParseWithClaims, keyfunc.
  assert (E : existsb (String.eqb alg) (supportedAlgorithms j) = true).
  { apply existsb_exists. exists alg. by rewrite <-list_elem_of_In, String.eqb_refl. }
  rewrite Hh, E, Hk. simpl. rewrite Hv. unfold check_claims. rewrite Hi, Hd. simpl. rewrite Hn.
  by destruct (jc_ExpiresAt claims).
Qed.

End properties.

(** ** Witnesses *)

Section witnesses.
#[local] Existing Instance ascii_tables.

(** A library with one token. *)
Definition demo_claims : jwtClaims :=
  mkJwtClaims "alice" "https://op.example" ["rdap"] "read" [] false (Some 2000) (Some 1000).
#[local] Instance demo_library : JwtLibrary := {|
  jwt_header t := if String.eqb t "good" then Some ("RS256", "k1") else None;
  jwt_verify t key now :=
    if now <? 2000 then Ok demo_claims else Err (ErrText "token is expired")
|}.
#[local] Instance demo_library_spec : JwtSpec demo_library.
Proof.
  split. intros token key now claims. simpl. destruct (now <? 2000) eqn:E; [|done].
  intros [= <-]. to_prop. eexists. done.
Qed.
Definition demo_cfg : config.AuthConfig :=
  config.mkAuthConfig true "" "https://op.example" "rdap" [].
Definition demo_jwks : string :=
  quoted "{`keys`:[{`kty`:`oct`},{`kty`:`RSA`,`kid`:`k1`,`n`:`sXc`,`e`:`AQAB`}]}".
Definition demo_fetch (url : string) : fetched := Fetched 200 demo_jwks.

Lemma ValidateToken_sound_witness :
  exists c j', ValidateToken demo_fetch "good" 1500 (NewJWTAuthenticator demo_cfg)
                = (Returned (Ok c), j')
    /\ cl_Issuer c = "https://op.example".
Proof.
  destruct (ValidateToken demo_fetch "good" 1500 (NewJWTAuthenticator demo_cfg)) as [o j'] eqn:E.
  assert (Eo : o = Returned (Ok (mkClaims "alice" "https://op.example" ["rdap"] 2000 1000 "read"
                                   [] false))) by (vm_compute in E; congruence).
  subst o. do 2 eexists. split; [reflexivity|].
  destruct (ValidateToken_sound demo_fetch "good" 1500 (NewJWTAuthenticator demo_cfg) _ j' E)
    as (alg & kid & key & _ & _ & _ & _ & _ & _ & Hi & _).
  apply Hi. discriminate.
Defined.

End witnesses.
End auth.
