(* ===== verification/AuthShared.v ===== *)
(** * Concurrent token validation (internal/auth/auth.go)

    One [JWTAuthenticator] serves every request: validations run at the same
    time on one key cache, whose lock makes each read and each replacement of the
    map one step.  [advance] runs a call from one such step to the next;
    [exec] runs a schedule, any interleaving of the steps of any number of calls
    with any answers of the key server.  A call alone is [auth.ValidateToken]. *)

From stdpp Require Import base tactics option list gmap strings.
From Stdlib Require Import ZArith Lia.
From S2P Require Import Prelude GoStrings GoNet Config RdapModels GoJson Auth.
#[local] Open Scope Z_scope.

Module shared.
Import auth.

(** ** The machine *)

(** Where a call is. *)
Inductive pc :=
  | Parsing                                     (* before the header is read *)
  | Lookup (alg kid : string)                   (* before the first read of the cache *)
  | Fetching (alg kid : string)                 (* the key server is asked *)
  | Storing (alg kid : string) (m : gmap string pubkey)  (* before [mu.Lock] *)
  | Retry (alg kid : string)                    (* before the second read *)
  | Verifying (alg kid : string) (key : pubkey) (* signature, dates and claims *)
  | Done (o : outcome Claims).
Definition finished (p : pc) : bool := match p with Done _ => true | _ => false end.

(** What the world gives a step: an answer of the key server and the time. *)
Record env := mkEnv { e_response : fetched; e_now : Z }.

Section machine.
Context `{UnicodeTables} `{JwtLibrary}.

(** The call returns the error of the parser. *)
Definition failed (e : error) : pc := Done (Returned (Err (ErrWrap "invalid token: " e))).

(** One step of a call. *)
Definition advance (token : string) (e : env) (p : pc) (j : JWTAuthenticator)
    : pc * JWTAuthenticator :=
  match p with
  | Parsing =>
      match jwt_header token with
      | None => (failed (ErrText "token is malformed"), j)
      | Some (alg, kid) =>
          if negb (existsb (String.eqb alg) (supportedAlgorithms j))
          then (failed (ErrText "signing method is invalid"), j)
          else (Lookup alg kid, j)
      end
  | Lookup alg kid =>
      match keySet j !! kid with
      | Some key => (Verifying alg kid key, j)
      | None => (Fetching alg kid, j)
      end
  | Fetching alg kid =>
      match response_keys (e_response e) j with
      | Err err => (failed (ErrWrap "refresh jwks: " err), j)
      | Ok m => (Storing alg kid m, j)
      end
  | Storing alg kid m => (Retry alg kid, set_keySet m j)
  | Retry alg kid =>
      match keySet j !! kid with
      | Some key => (Verifying alg kid key, j)
      | None => (failed (ErrText ("no public key for kid " +:+ Strconv.Quote kid)), j)
      end
  | Verifying alg kid key => (Done (check_claims (jwt_verify token key (e_now e)) j), j)
  | Done o => (Done o, j)
  end.

(** The authenticator, the calls by identifier with their tokens, and every
    answer the key server has given so far. *)
Record state := mkState {
  sh_auth : JWTAuthenticator; sh_calls : gmap nat (string * pc); sh_answers : list fetched
}.
Definition start (cfg : config.AuthConfig) : state := mkState (NewJWTAuthenticator cfg) ∅ [].

Inductive event :=
  | Call (id : nat) (token : string)
  | Run (id : nat) (e : env).
Definition is_fetching (p : pc) : bool := match p with Fetching _ _ => true | _ => false end.
(** An event that does not apply changes nothing. *)
Definition step (ev : event) (s : state) : state :=
  match ev with
  | Call id token =>
      match sh_calls s !! id with
      | Some _ => s
      | None => mkState (sh_auth s) (<[id := (token, Parsing)]> (sh_calls s)) (sh_answers s)
      end
  | Run id e =>
      match sh_calls s !! id with
      | None => s
      | Some (token, p) =>
          let '(p', j') := advance token e p (sh_auth s) in
          mkState j' (<[id := (token, p')]> (sh_calls s))
            (if is_fetching p then sh_answers s ++ [e_response e] else sh_answers s)
      end
  end.
Definition exec (sched : list event) (s : state) : state := foldl (fun s ev => step ev s) s sched.

(** ** Specifications *)

(** A key that an answer of the key server published under an identifier. *)
Definition published (answers : list fetched) (kid : string) (key : pubkey) : Prop :=
  exists r doc k, r ∈ answers /\ serves r doc /\ k ∈ doc
    /\ jwk_string k "kid" = kid /\ parseJWK k = Some key.
Definition published_all (answers : list fetched) (m : gmap string pubkey) : Prop :=
  map_Forall (published answers) m.

(** What holds of a call that has reached a program counter. *)
Definition allowed (j : JWTAuthenticator) (token alg kid : string) : Prop :=
  jwt_header token = Some (alg, kid) /\ existsb (String.eqb alg) (supportedAlgorithms j) = true.
Definition pc_ok (j : JWTAuthenticator) (answers : list fetched) (token : string) (p : pc) : Prop :=
  match p with
  | Parsing | Done _ => True
  | Lookup alg kid | Fetching alg kid | Retry alg kid => allowed j token alg kid
  | Storing alg kid m => allowed j token alg kid /\ published_all answers m
  | Verifying alg kid key => allowed j token alg kid /\ published answers kid key
  end.
(** The invariant of the shared state. *)
Record inv (cfg : config.AuthConfig) (s : state) : Prop := {
  inv_cfg : ja_cfg (sh_auth s) = cfg;
  inv_url : jwksURL (sh_auth s) = jwksURL (NewJWTAuthenticator cfg);
  inv_keys : published_all (sh_answers s) (keySet (sh_auth s));
  inv_calls : map_Forall (fun _ c => pc_ok (sh_auth s) (sh_answers s) c.1 c.2) (sh_calls s)
}.

(** The run of a schedule: each event with the state it finds. *)
Fixpoint trace (sched : list event) (s : state) : list (state * event) :=
  match sched with
  | [] => []
  | ev :: sched => (s, ev) :: trace sched (step ev s)
  end.
(** A call that has been made and has not returned. *)
Definition in_flight (s : state) (id : nat) (token : string) : Prop :=
  exists p, sh_calls s !! id = Some (token, p) /\ finished p = false.
(** A state of the run in which the call was in flight. *)
Definition moment (run : list (state * event)) (id : nat) (token : string) (s : state) : Prop :=
  s ∈ run.*1 /\ in_flight s id token.
(** What a call returns is the outcome of [ValidateToken] on the cache of a moment
    of its flight, at the clock of the step that returns, and, unless no answer of
    the key server matters, with an answer it has given by then. *)
Definition explained (run : list (state * event)) (id : nat) (token : string)
    (o : outcome Claims) : Prop :=
  exists s1 e s0, (s1, Run id e) ∈ run /\ in_flight s1 id token
    /\ sh_calls (step (Run id e) s1) !! id = Some (token, Done o)
    /\ moment run id token s0
    /\ ((forall fetch, (ValidateToken fetch token (e_now e) (sh_auth s0)).1 = o)
        \/ exists r, r ∈ sh_answers (step (Run id e) s1)
             /\ (ValidateToken (fun _ => r) token (e_now e) (sh_auth s0)).1 = o).

(** The cache holds exactly the keys of one answer. *)
Definition loaded (answers : list fetched) (j : JWTAuthenticator) : Prop :=
  exists r, r ∈ answers /\ response_keys r j = Ok (keySet j).
(** A moment of the flight whose cache gives this for a key identifier. *)
Definition looked_up (run : list (state * event)) (id : nat) (token kid : string)
    (key : option pubkey) : Prop :=
  exists s, moment run id token s /\ keySet (sh_auth s) !! kid = key.
(** Why a call is where it is. *)
Definition pc_from (run : list (state * event)) (s : state) (id : nat) (token : string) (p : pc) : Prop :=
  match p with
  | Fetching _ kid => looked_up run id token kid None
  | Storing _ kid m => looked_up run id token kid None
      /\ exists r, r ∈ sh_answers s /\ response_keys r (sh_auth s) = Ok m
  | Retry _ kid => looked_up run id token kid None /\ loaded (sh_answers s) (sh_auth s)
  | Verifying _ kid key => looked_up run id token kid (Some key)
  | _ => True
  end.
Record traced (cfg : config.AuthConfig) (run : list (state * event)) (s : state) : Prop := {
  tr_inv : inv cfg s;
  tr_past : Forall (inv cfg) run.*1;
  tr_calls : map_Forall (fun id c => pc_from run s id c.1 c.2) (sh_calls s)
}.

(** The call an event is about. *)
Definition subject (ev : event) : nat := match ev with Call id _ | Run id _ => id end.
(** The steps a call has left at most. *)
Definition rank (p : pc) : nat :=
  match p with
  | Parsing => 6 | Lookup _ _ => 5 | Fetching _ _ => 4 | Storing _ _ _ => 3
  | Retry _ _ => 2 | Verifying _ _ _ => 1 | Done _ => 0
  end.
(** The steps a schedule gives to a call. *)
Definition runs (id : nat) (sched : list event) : nat :=
  length (List.filter (fun ev => match ev with Run i _ => Nat.eqb i id | Call _ _ => false end) sched).

(** ** Lemmas *)

Lemma exec_cons ev sched s : exec (ev :: sched) s = exec sched (step ev s).
Proof. done. Qed.
Lemma exec_snoc sched ev s : exec (sched ++ [ev]) s = step ev (exec sched s).
Proof. unfold exec. by rewrite foldl_app. Qed.

Lemma published_mono answers more kid key :
  published answers kid key -> published (answers ++ more) kid key.
Proof.
  intros (r & doc & k & Hr & Hk). exists r, doc, k. split; [|done]. apply elem_of_app. by left.
Qed.
Lemma published_all_mono answers more m :
  published_all answers m -> published_all (answers ++ more) m.
Proof. intros Hm kid key Hk. by apply published_mono, Hm. Qed.
Lemma published_valid answers kid key : published answers kid key -> valid_key key.
Proof. intros (r & doc & k & _ & _ & _ & _ & Hp). by eapply parseJWK_valid. Qed.

Lemma accepted_cfg j j' token alg key now c :
  ja_cfg j' = ja_cfg j -> accepted j token alg key now c -> accepted j' token alg key now c.
Proof. intros Hc Ha. unfold accepted, supportedAlgorithms in *. by rewrite Hc. Qed.
(** A call keeps what it has reached when others change the cache. *)
Lemma pc_ok_mono j j' answers more token p :
  ja_cfg j' = ja_cfg j -> pc_ok j answers token p -> pc_ok j' (answers ++ more) token p.
Proof.
  intros Hc. assert (Hs : supportedAlgorithms j' = supportedAlgorithms j).
  { unfold supportedAlgorithms. by rewrite Hc. }
  destruct p; simpl; unfold allowed; rewrite ?Hs; try done.
  - intros [? ?]. split; [done|by apply published_all_mono].
  - intros [? ?]. split; [done|by apply published_mono].
Qed.
Lemma response_published r j m answers :
  response_keys r j = Ok m -> published_all (answers ++ [r]) m.
Proof.
  intros (doc & Hdoc & ->)%response_keys_Ok kid key (k & Hk & Hkid & Hp)%parse_keys_from.
  exists r, doc, k. split_and!; try done. apply elem_of_app. right. by apply list_elem_of_singleton.
Qed.

(** One step keeps the invariant of the call and of the cache. *)
Lemma advance_ok token e p j answers p' j' :
  advance token e p j = (p', j') ->
  pc_ok j answers token p -> published_all answers (keySet j) ->
  let answers' := if is_fetching p then answers ++ [e_response e] else answers in
  pc_ok j' answers' token p' /\ published_all answers' (keySet j')
  /\ ja_cfg j' = ja_cfg j /\ jwksURL j' = jwksURL j.
Proof.
  intros Ha Hp Hk. destruct p as [|alg kid|alg kid|alg kid m|alg kid|alg kid key|o]; simpl in *.
  - destruct (jwt_header token) as [[alg kid]|] eqn:Eh; [|by simplify_eq].
    destruct (existsb _ _) eqn:Ea; simpl in Ha; simplify_eq; by repeat split.
  - destruct (keySet j !! kid) as [key|] eqn:Ek; simplify_eq; [|done].
    split; [split; [done|by apply Hk]|done].
  - destruct (response_keys _ j) as [m|] eqn:Er; simplify_eq; simpl.
    + split; [split; [done|by eapply response_published]|]. split; [by apply published_all_mono|done].
    + split; [done|]. split; [by apply published_all_mono|done].
  - simplify_eq. by destruct Hp.
  - destruct (keySet j !! kid) as [key|] eqn:Ek; simplify_eq; [|done].
    split; [split; [done|by apply Hk]|done].
  - by simplify_eq.
  - by simplify_eq.
Qed.
Lemma shared_inv_step cfg ev s : inv cfg s -> inv cfg (step ev s).
Proof.
  intros [Hc Hu Hk Hp]. destruct ev as [id token|id e]; simpl.
  { destruct (sh_calls s !! id); [done|]. split; simpl; try done. by apply map_Forall_insert_2. }
  destruct (sh_calls s !! id) as [[token p]|] eqn:Eid; [|done].
  destruct (advance token e p (sh_auth s)) as [p' j'] eqn:Ea.
  destruct (advance_ok token e p (sh_auth s) (sh_answers s) p' j' Ea (Hp _ _ Eid) Hk)
    as (Hp' & Hk' & Hc' & Hu').
  split; cbn [sh_auth sh_answers sh_calls]; [congruence|congruence|exact Hk'|].
  apply map_Forall_insert_2; [exact Hp'|].
  intros i [t q] Hi. apply Hp in Hi. simpl in *.
  destruct (is_fetching p); [by apply (pc_ok_mono (sh_auth s))|].
  rewrite <-(app_nil_r (sh_answers s)). by apply (pc_ok_mono (sh_auth s)).
Qed.
Lemma shared_inv_exec cfg sched : inv cfg (exec sched (start cfg)).
Proof.
  induction sched as [|ev sched IH] using rev_ind; [|rewrite exec_snoc; by apply shared_inv_step].
  split; [done..| |]; apply map_Forall_empty.
Qed.

Lemma rank_bound p : (rank p <= 6)%nat.
Proof. destruct p; simpl; lia. Qed.
Lemma advance_rank token e p j : finished p = false -> (rank (advance token e p j).1 < rank p)%nat.
Proof.
  destruct p as [|alg kid|alg kid|alg kid m|alg kid|alg kid key|o]; simpl; try done; intros _.
  - destruct (jwt_header token) as [[alg kid]|]; [destruct (negb _)|]; simpl; lia.
  - destruct (keySet j !! kid); simpl; lia.
  - destruct (response_keys _ j); simpl; lia.
  - lia.
  - destruct (keySet j !! kid); simpl; lia.
  - lia.
Qed.
(** Only the steps of a call move it. *)
Lemma step_call ev s id token p :
  sh_calls s !! id = Some (token, p) ->
  exists q, sh_calls (step ev s) !! id = Some (token, q)
    /\ (rank q <= rank p - runs id [ev])%nat.
Proof.
  intros Hid. unfold runs. destruct ev as [i t|i e]; simpl.
  - exists p. split; [|lia]. destruct (sh_calls s !! i) eqn:Ei; [done|]. simpl.
    rewrite lookup_insert_ne; [done|congruence].
  - destruct (Nat.eqb_spec i id) as [->|Hi]; simpl.
    + rewrite Hid. destruct (finished p) eqn:Ef.
      * destruct p; try done. simpl. eexists. rewrite lookup_insert_eq. split; [done|]. simpl. lia.
      * pose proof (advance_rank token e p (sh_auth s) Ef) as Hr.
        destruct (advance token e p (sh_auth s)) as [p' j']. exists p'. simpl in *.
        rewrite lookup_insert_eq. split; [done|lia].
    + exists p. split; [|lia]. destruct (sh_calls s !! i) as [[t q]|]; [|done].
      destruct (advance t e q (sh_auth s)). simpl. by rewrite lookup_insert_ne.
Qed.
Lemma exec_call sched s id token p :
  sh_calls s !! id = Some (token, p) ->
  exists q, sh_calls (exec sched s) !! id = Some (token, q)
    /\ (rank q <= rank p - runs id sched)%nat.
Proof.
  revert s p. induction sched as [|ev sched IH]; intros s p Hid.
  { exists p. split; [done|]. unfold runs. simpl. lia. }
  destruct (step_call ev s id token p Hid) as (q & Hq & Hr).
  destruct (IH (step ev s) q Hq) as (q' & Hq' & Hr'). exists q'. split; [done|].
  assert (runs id (ev :: sched) = (runs id [ev] + runs id sched)%nat) as ->; [|lia].
  unfold runs. simpl. destruct ev as [i t|i e]; [done|]. by destruct (Nat.eqb i id).
Qed.

(** The steps of one call leave the others, and add to the answers. *)
Lemma step_other ev s id : id <> subject ev -> sh_calls (step ev s) !! id = sh_calls s !! id.
Proof.
  destruct ev as [i t|i e]; simpl; intros Hi.
  - destruct (sh_calls s !! i); [done|]. by apply lookup_insert_ne.
  - destruct (sh_calls s !! i) as [[t p]|]; [|done]. destruct (advance t e p (sh_auth s)).
    by apply lookup_insert_ne.
Qed.
Lemma answers_grow ev s : exists more, sh_answers (step ev s) = sh_answers s ++ more.
Proof.
  destruct ev as [i t|i e]; simpl; (destruct (sh_calls s !! i) as [[t' p]|]; [|exists []; by rewrite app_nil_r]).
  - exists []. by rewrite app_nil_r.
  - destruct (advance t' e p (sh_auth s)). simpl. destruct (is_fetching p); eexists; [done|by rewrite app_nil_r].
Qed.

(** A call that has returned stays as it is. *)
Lemma done_stays sched s id token o :
  sh_calls s !! id = Some (token, Done o) ->
  sh_calls (exec sched s) !! id = Some (token, Done o).
Proof.
  revert s. induction sched as [|ev sched IH]; intros s Hid; [done|]. apply (IH (step ev s)).
  destruct ev as [i t|i e]; simpl; destruct (sh_calls s !! i) as [[t' q]|] eqn:Ei; try done; simpl.
  - rewrite lookup_insert_ne; [done|congruence].
  - destruct (decide (i = id)) as [->|Hi].
    + simplify_eq. simpl. by rewrite lookup_insert_eq.
    + destruct (advance t' e q (sh_auth s)). simpl. by rewrite lookup_insert_ne.
Qed.

(** The steps of one call in a row. *)
Definition alone (token : string) (e : env) (x : pc * JWTAuthenticator) : pc * JWTAuthenticator :=
  advance token e x.1 x.2.
Lemma exec_alone n id token e s p :
  sh_calls s !! id = Some (token, p) ->
  let x := Nat.iter n (alone token e) (p, sh_auth s) in
  sh_auth (exec (replicate n (Run id e)) s) = x.2
  /\ sh_calls (exec (replicate n (Run id e)) s) = <[id := (token, x.1)]> (sh_calls s).
Proof.
  revert s p. induction n as [|n IH]; intros s p Hid.
  { split; [done|]. simpl. symmetry. by apply insert_id. }
  cbn [replicate]. rewrite exec_cons, Nat.iter_succ_r.
  set (s' := step (Run id e) s).
  assert (Hs : sh_auth s' = (alone token e (p, sh_auth s)).2
               /\ sh_calls s' = <[id := (token, (alone token e (p, sh_auth s)).1)]> (sh_calls s)).
  { subst s'. unfold alone. cbn [step fst snd]. rewrite Hid.
    by destruct (advance token e p (sh_auth s)). }
  destruct Hs as [Ha Hc]. destruct (alone token e (p, sh_auth s)) as [p' j']. simpl in Ha, Hc.
  destruct (IH s' p') as [-> ->]; [rewrite Hc; apply lookup_insert_eq|].
  rewrite Ha, Hc. split; [done|]. apply insert_insert_eq.
Qed.
Lemma alone_pair token e p j : alone token e (p, j) = advance token e p j.
Proof. done. Qed.
Lemma alone_six fetch token now j :
  Nat.iter 6 (alone token (mkEnv (fetch (jwksURL j)) now)) (Parsing, j)
  = (Done (ValidateToken fetch token now j).1, (ValidateToken fetch token now j).2).
Proof.
  rewrite !Nat.iter_succ_r. unfold ValidateToken, ParseWithClaims, keyfunc, refreshKeys.
  rewrite alone_pair. cbn [advance].
  destruct (jwt_header token) as [[alg kid]|]; [|done]. destruct (negb _); [done|].
  rewrite alone_pair. cbn [advance]. destruct (keySet j !! kid) as [key|]; [done|].
  rewrite alone_pair. cbn [advance e_response].
  destruct (response_keys _ j) as [m|e]; [|done].
  rewrite !alone_pair. cbn [advance]. rewrite alone_pair. cbn [advance].
  by destruct (keySet (set_keySet m j) !! kid).
Qed.

(** *** Every outcome is one of the sequential function *)

Lemma response_keys_url r j j' : jwksURL j' = jwksURL j -> response_keys r j' = response_keys r j.
Proof. intros Hu. unfold response_keys. by rewrite Hu. Qed.
Lemma trace_snoc sched ev s : trace (sched ++ [ev]) s = trace sched s ++ [(exec sched s, ev)].
Proof. revert s. induction sched as [|ev' sched IH]; intros s; [done|]. simpl. by rewrite IH. Qed.
(** A member of the run is a state the schedule has led to. *)
Lemma trace_elem sched s0 s ev :
  (s, ev) ∈ trace sched s0 -> exists pre post, sched = pre ++ ev :: post /\ s = exec pre s0.
Proof.
  revert s0. induction sched as [|ev' sched IH]; intros s0; simpl; [by intros ?%elem_of_nil|].
  intros [[= -> ->]|Hin]%elem_of_cons; [by exists [], sched|].
  destruct (IH _ Hin) as (pre & post & -> & ->). by exists (ev' :: pre), post.
Qed.
Lemma moment_mono run more id token s : moment run id token s -> moment (run ++ more) id token s.
Proof. intros [Hs Hf]. split; [|done]. rewrite fmap_app. apply elem_of_app. by left. Qed.
Lemma moment_now run s ev id token p :
  sh_calls s !! id = Some (token, p) -> finished p = false -> moment (run ++ [(s, ev)]) id token s.
Proof. intros Hc Hf. split; [|by exists p]. rewrite fmap_app. apply elem_of_app. right. left. Qed.
Lemma looked_up_mono run more id token kid key :
  looked_up run id token kid key -> looked_up (run ++ more) id token kid key.
Proof. intros (s & Hm & E). exists s. split; [by apply moment_mono|done]. Qed.
Lemma loaded_mono answers more j j' :
  jwksURL j' = jwksURL j -> keySet j' = keySet j -> loaded answers j -> loaded (answers ++ more) j'.
Proof.
  intros Hu Hk (r & Hr & E). exists r. split; [apply elem_of_app; by left|].
  by rewrite (response_keys_url r j), Hk.
Qed.
(** The steps of other calls leave a call where it is, for the same reasons. *)
Lemma pc_from_mono run ev s s' more id token p :
  sh_answers s' = sh_answers s ++ more -> jwksURL (sh_auth s') = jwksURL (sh_auth s) ->
  keySet (sh_auth s') = keySet (sh_auth s) \/ loaded (sh_answers s') (sh_auth s') ->
  pc_from run s id token p -> pc_from (run ++ [ev]) s' id token p.
Proof.
  intros Ha Hu Hj. destruct p; try done; simpl; try apply looked_up_mono.
  - intros [Hl (r & Hr & E)]. split; [by apply looked_up_mono|]. exists r.
    rewrite Ha, (response_keys_url r (sh_auth s)) by done. split; [apply elem_of_app; by left|done].
  - intros [Hl Hr]. split; [by apply looked_up_mono|]. destruct Hj as [Hj|]; [|done].
    rewrite Ha. by eapply loaded_mono.
Qed.

(** One step of a call, and what it does to the cache. *)
Lemma advance_from run token e p s id :
  sh_calls s !! id = Some (token, p) -> pc_from run s id token p ->
  let s' := step (Run id e) s in
  let run' := run ++ [(s, Run id e)] in
  (keySet (sh_auth s') = keySet (sh_auth s) \/ loaded (sh_answers s') (sh_auth s'))
  /\ exists p', sh_calls s' !! id = Some (token, p') /\ pc_from run' s' id token p'.
Proof.
  intros Hid Hp s' run'.
  assert (Hnow : finished p = false -> moment run' id token s) by (intros; by eapply moment_now).
  subst s'. unfold step. rewrite Hid.
  destruct p as [|alg kid|alg kid|alg kid m|alg kid|alg kid key|o]; simpl in *.
  - destruct (jwt_header token) as [[alg kid]|]; [destruct (negb _)|]; simpl;
      (split; [by left|]); eexists; rewrite lookup_insert_eq; by split.
  - destruct (keySet (sh_auth s) !! kid) as [key|] eqn:Ek; simpl;
      (split; [by left|]); eexists; rewrite lookup_insert_eq; (split; [done|]); simpl;
      exists s; (split; [by apply Hnow|done]).
  - destruct (response_keys (e_response e) (sh_auth s)) as [m|err] eqn:E; simpl;
      (split; [by left|]); eexists; rewrite lookup_insert_eq; (split; [done|]); simpl; [|done].
    split; [by apply looked_up_mono|]. exists (e_response e).
    split; [apply elem_of_app; right; left|done].
  - destruct Hp as [Hl (r & Hr & E)].
    assert (loaded (sh_answers s) (set_keySet m (sh_auth s))) as Hload by by exists r.
    split; [by right|]. eexists. rewrite lookup_insert_eq. split; [done|].
    split; [by apply looked_up_mono|done].
  - destruct (keySet (sh_auth s) !! kid) as [key|] eqn:Ek; simpl;
      (split; [by left|]); eexists; rewrite lookup_insert_eq; (split; [done|]); simpl; [|done].
    exists s. split; [by apply Hnow|done].
  - split; [by left|]. eexists. rewrite lookup_insert_eq. by split.
  - split; [by left|]. eexists. rewrite lookup_insert_eq. by split.
Qed.
Lemma traced_step cfg run ev s :
  traced cfg run s -> traced cfg (run ++ [(s, ev)]) (step ev s).
Proof.
  intros [Hi Hpast Hp]. pose proof (shared_inv_step cfg ev s Hi) as Hi'.
  split; [done|rewrite fmap_app; apply Forall_app; split; [done|by apply Forall_singleton]|].
  destruct (answers_grow ev s) as [more Hmore].
  assert (Hu : jwksURL (sh_auth (step ev s)) = jwksURL (sh_auth s))
    by by rewrite (inv_url _ _ Hi'), (inv_url _ _ Hi).
  assert (Hself : (keySet (sh_auth (step ev s)) = keySet (sh_auth s)
                   \/ loaded (sh_answers (step ev s)) (sh_auth (step ev s)))
    /\ forall token p, sh_calls (step ev s) !! subject ev = Some (token, p) ->
         pc_from (run ++ [(s, ev)]) (step ev s) (subject ev) token p).
  { destruct ev as [id token|id e].
    - simpl. destruct (sh_calls s !! id) as [[t q]|] eqn:Eid; simpl; (split; [by left|]); intros token' p'.
      + intros E. rewrite Eid in E. injection E as -> ->. pose proof (Hp _ _ Eid) as H'.
        revert H'. apply (pc_from_mono _ _ _ _ []); [by rewrite app_nil_r|done|by left].
      + rewrite lookup_insert_eq. by intros [= <- <-].
    - destruct (sh_calls s !! id) as [[t q]|] eqn:Eid.
      + destruct (advance_from run t e q s id Eid (Hp _ _ Eid)) as [Hk (p' & Hc & Hf)].
        split; [done|]. cbn [subject]. rewrite Hc. by intros ? ? [= <- <-].
      + simpl. rewrite Eid. split; [by left|]. by rewrite Eid. }
  destruct Hself as [Hk Hself]. intros id [token p] Hc. destruct (decide (id = subject ev)) as [->|Hne].
  - by apply Hself.
  - rewrite step_other in Hc by done. pose proof (Hp _ _ Hc) as H'. revert H'. simpl.
    by apply (pc_from_mono _ _ _ _ more).
Qed.
Lemma traced_exec cfg sched :
  traced cfg (trace sched (start cfg)) (exec sched (start cfg)).
Proof.
  induction sched as [|ev sched IH] using rev_ind.
  - split; [apply (shared_inv_exec cfg [])|constructor|apply map_Forall_empty].
  - rewrite exec_snoc, trace_snoc. by apply traced_step.
Qed.

(** The step at which a call returned. *)
Lemma done_by sched s id token o :
  sh_calls (exec sched s) !! id = Some (token, Done o) ->
  sh_calls s !! id = None ->
  exists pre e post p, sched = pre ++ Run id e :: post
    /\ sh_calls (exec pre s) !! id = Some (token, p) /\ finished p = false
    /\ (advance token e p (sh_auth (exec pre s))).1 = Done o.
Proof.
  intros Hd Hn. revert Hd. induction sched as [|ev sched IH] using rev_ind; [simpl; congruence|].
  rewrite exec_snoc. intros Hd.
  assert (Hext : sh_calls (exec sched s) !! id = Some (token, Done o) ->
    exists pre e post p, sched ++ [ev] = pre ++ Run id e :: post
      /\ sh_calls (exec pre s) !! id = Some (token, p) /\ finished p = false
      /\ (advance token e p (sh_auth (exec pre s))).1 = Done o).
  { intros (pre & e & post & p & -> & Hr)%IH. exists pre, e, (post ++ [ev]), p. by rewrite <-app_assoc. }
  destruct (decide (id = subject ev)) as [->|Hne]; [|rewrite step_other in Hd; auto].
  destruct ev as [i t|i e]; simpl in *.
  - destruct (sh_calls (exec sched s) !! i) as [[t' q]|] eqn:Ei; [rewrite Ei in Hd; auto|].
    simpl in Hd. by rewrite lookup_insert_eq in Hd.
  - destruct (sh_calls (exec sched s) !! i) as [[t' q]|] eqn:Ei; [|by rewrite Ei in Hd].
    destruct (finished q) eqn:Ef.
    + destruct q; try done. simpl in Hd. rewrite lookup_insert_eq in Hd. auto.
    + destruct (advance t' e q (sh_auth (exec sched s))) as [p' j'] eqn:Ea. simpl in Hd.
      rewrite lookup_insert_eq in Hd. injection Hd as -> ->. exists sched, e, [], q. by rewrite Ea.
Qed.

(** [ValidateToken] along each way to a return. *)
Lemma ValidateToken_hit fetch token alg kid key now j :
  jwt_header token = Some (alg, kid) -> existsb (String.eqb alg) (supportedAlgorithms j) = true ->
  keySet j !! kid = Some key ->
  (ValidateToken fetch token now j).1 = check_claims (jwt_verify token key now) j.
Proof. intros Hh Ha Hk. unfold ValidateToken, ParseWithClaims, keyfunc. by rewrite Hh, Ha, Hk. Qed.
Lemma ValidateToken_miss r token alg kid now j :
  jwt_header token = Some (alg, kid) -> existsb (String.eqb alg) (supportedAlgorithms j) = true ->
  keySet j !! kid = None ->
  match response_keys r j with
  | Err e => Done (ValidateToken (fun _ => r) token now j).1 = failed (ErrWrap "refresh jwks: " e)
  | Ok m => m !! kid = None -> Done (ValidateToken (fun _ => r) token now j).1
      = failed (ErrText ("no public key for kid " +:+ Strconv.Quote kid))
  end.
Proof.
  intros Hh Ha Hk. unfold ValidateToken, ParseWithClaims, keyfunc, refreshKeys. rewrite Hh, Ha, Hk. simpl.
  destruct (response_keys r j) as [m|e]; [|done]. simpl. by intros ->.
Qed.
Lemma ValidateToken_header fetch token now j :
  match jwt_header token with
  | None => Done (ValidateToken fetch token now j).1 = failed (ErrText "token is malformed")
  | Some (alg, _) => existsb (String.eqb alg) (supportedAlgorithms j) = false ->
      Done (ValidateToken fetch token now j).1 = failed (ErrText "signing method is invalid")
  end.
Proof.
  unfold ValidateToken, ParseWithClaims. destruct (jwt_header token) as [[alg kid]|]; [|done]. by intros ->.
Qed.
Lemma supportedAlgorithms_cfg j j' : ja_cfg j' = ja_cfg j -> supportedAlgorithms j' = supportedAlgorithms j.
Proof. intros E. unfold supportedAlgorithms. by rewrite E. Qed.
Lemma check_claims_cfg x j j' : ja_cfg j' = ja_cfg j -> check_claims x j' = check_claims x j.
Proof. intros E. unfold check_claims. by rewrite E. Qed.

(** The step that returns, explained by the sequential function. *)
Lemma advance_explained cfg run s id token e p o :
  traced cfg run s -> sh_calls s !! id = Some (token, p) -> finished p = false ->
  (advance token e p (sh_auth s)).1 = Done o ->
  explained (run ++ [(s, Run id e)]) id token o.
Proof.
  intros [Hi Hpast Hp] Hid Hf Ho. pose proof (Hp _ _ Hid) as Hfrom. pose proof (inv_calls _ _ Hi _ _ Hid) as Hok.
  assert (Hnow : moment (run ++ [(s, Run id e)]) id token s) by by eapply moment_now.
  assert (Hstep : sh_calls (step (Run id e) s) !! id = Some (token, Done o)).
  { unfold step. rewrite Hid. destruct (advance token e p (sh_auth s)) as [q j]. simpl in *. subst q.
    apply lookup_insert_eq. }
  assert (Hsame : forall s0, moment run id token s0 ->
    ja_cfg (sh_auth s0) = ja_cfg (sh_auth s) /\ jwksURL (sh_auth s0) = jwksURL (sh_auth s)).
  { intros s0 [Hin _]. rewrite Forall_forall in Hpast. apply Hpast in Hin.
    by rewrite (inv_cfg _ _ Hin), (inv_url _ _ Hin), (inv_cfg _ _ Hi), (inv_url _ _ Hi). }
  assert (Hgoal : forall s0, moment (run ++ [(s, Run id e)]) id token s0 ->
    ((forall fetch, (ValidateToken fetch token (e_now e) (sh_auth s0)).1 = o)
     \/ exists r, r ∈ sh_answers (step (Run id e) s)
          /\ (ValidateToken (fun _ => r) token (e_now e) (sh_auth s0)).1 = o) ->
    explained (run ++ [(s, Run id e)]) id token o).
  { intros s0 Hm Hv. exists s, e, s0. split_and!; try done; [apply elem_of_app; right; left|by exists p]. }
  destruct p as [|alg kid|alg kid|alg kid m|alg kid|alg kid key|o']; simpl in *; try done.
  - apply (Hgoal s Hnow). left. intros fetch. pose proof (ValidateToken_header fetch token (e_now e) (sh_auth s)) as Hv.
    destruct (jwt_header token) as [[alg kid]|]; [destruct (existsb _ _); [done|]; specialize (Hv eq_refl)|];
      simpl in Ho; rewrite Ho in Hv; by injection Hv.
  - by destruct (keySet (sh_auth s) !! kid).
  - destruct Hfrom as (s0 & Hm & Hk). destruct (Hsame s0 Hm) as [Hc Hu]. destruct Hok as [Hh Ha].
    pose proof (ValidateToken_miss (e_response e) token alg kid (e_now e) (sh_auth s0) Hh) as Hv.
    rewrite (supportedAlgorithms_cfg (sh_auth s)), (response_keys_url _ (sh_auth s)) in Hv by done.
    specialize (Hv Ha Hk). apply (Hgoal s0); [by apply moment_mono|]. right. exists (e_response e).
    destruct (response_keys _ _) as [m|err]; simpl in Ho; [done|]. rewrite Ho in Hv.
    split; [|by injection Hv]. unfold step. rewrite Hid. simpl.
    destruct (response_keys _ _); simpl; apply elem_of_app; right; left.
  - destruct Hfrom as [(s0 & Hm & Hk) (r & Hr & E)]. destruct (Hsame s0 Hm) as [Hc Hu]. destruct Hok as [Hh Ha].
    pose proof (ValidateToken_miss r token alg kid (e_now e) (sh_auth s0) Hh) as Hv.
    rewrite (supportedAlgorithms_cfg (sh_auth s)), (response_keys_url _ (sh_auth s)), E in Hv by done.
    specialize (Hv Ha Hk). apply (Hgoal s0); [by apply moment_mono|]. right. exists r.
    destruct (keySet (sh_auth s) !! kid); simpl in Ho; [done|]. rewrite Ho in Hv.
    split; [|by injection (Hv eq_refl)]. unfold step. rewrite Hid. simpl.
    by destruct (keySet (sh_auth s) !! kid).
  - destruct Hfrom as (s0 & Hm & Hk). destruct (Hsame s0 Hm) as [Hc Hu]. destruct Hok as [[Hh Ha] _].
    injection Ho as <-. apply (Hgoal s0); [by apply moment_mono|]. left. intros fetch.
    rewrite (ValidateToken_hit fetch token alg kid key _ (sh_auth s0) Hh) by
      (done || by rewrite (supportedAlgorithms_cfg (sh_auth s))).
    by apply check_claims_cfg.
Qed.
Lemma explained_mono run more id token o : explained run id token o -> explained (run ++ more) id token o.
Proof.
  intros (s1 & e & s0 & Hin & Hf & Hd & Hm & Hv). exists s1, e, s0.
  split_and!; try done; [apply elem_of_app; by left|by apply moment_mono].
Qed.
Lemma trace_app a b s : trace (a ++ b) s = trace a s ++ trace b (exec a s).
Proof. revert s. induction a as [|ev a IH]; intros s; [done|]. simpl. by rewrite IH. Qed.
Lemma done_explained cfg sched id token o :
  sh_calls (exec sched (start cfg)) !! id = Some (token, Done o) ->
  explained (trace sched (start cfg)) id token o.
Proof.
  intros Hd. destruct (done_by sched (start cfg) id token o Hd) as (pre & e & post & p & -> & Hc & Hf & Ho);
    [done|].
  rewrite trace_app. cbn [trace].
  change ((?x, ?y) :: ?l) with ([(x, y)] ++ l). rewrite app_assoc. apply explained_mono.
  by eapply advance_explained; [apply traced_exec|..].
Qed.

End machine.

(** ** Properties *)

Section properties.
Context `{UnicodeTables} `{JwtLibrary}.

(** C11: however the steps of any number of concurrent validations interleave and
    whatever the key server answers, the shared cache maps a key identifier only
    to a well-formed key that an answer with status 200 published under it; and a
    call returns claims only from a step at which it verified its token under such a
    key, published by then: with an allowed algorithm, at the clock of that step
    before the expiry, for the configured issuer and audience, the claims being
    those of the token: no race makes a key count that no answer published. *)
Theorem concurrent_sound `{!JwtSpec _} cfg sched s :
  s = exec sched (start cfg) ->
  (forall kid key, keySet (sh_auth s) !! kid = Some key ->
     valid_key key /\ published (sh_answers s) kid key)
  /\ (forall id token c, sh_calls s !! id = Some (token, Done (Returned (Ok c))) ->
       exists pre e post alg kid key,
         sched = pre ++ Run id e :: post
         /\ sh_calls (exec pre (start cfg)) !! id = Some (token, Verifying alg kid key)
         /\ jwt_header token = Some (alg, kid)
         /\ published (sh_answers (exec pre (start cfg))) kid key
         /\ accepted (NewJWTAuthenticator cfg) token alg key (e_now e) c).
Proof.
  intros ->. split.
  - intros kid key Hkey%(inv_keys _ _ (shared_inv_exec cfg sched)). split; [by eapply published_valid|done].
  - intros id token c Hid.
    destruct (done_by sched (start cfg) id token _ Hid) as (pre & e & post & p & -> & Hc & Hf & Ho); [done|].
    pose proof (shared_inv_exec cfg pre) as Hi. pose proof (inv_calls _ _ Hi _ _ Hc) as Hok.
    destruct p as [|alg kid|alg kid|alg kid m|alg kid|alg kid key|o]; simpl in Ho, Hok; try done.
    1-4: repeat case_match; done.
    injection Ho as Ho. destruct Hok as [[Hh Ha] Hp]. exists pre, e, post, alg, kid, key.
    split_and!; try done. eapply accepted_cfg; [symmetry; apply (inv_cfg _ _ Hi)|].
    by apply check_claims_accepts.
Qed.

(** C12: a validation ends: the refresh is tried once, so in any schedule, whatever
    other calls do to the cache in between and whatever the key server answers, a
    call that is given six steps has returned, and no later step changes what it
    returned. *)
Theorem validation_terminates sched s id token p :
  sh_calls s !! id = Some (token, p) -> (6 <= runs id sched)%nat ->
  exists o, sh_calls (exec sched s) !! id = Some (token, Done o)
    /\ forall more, sh_calls (exec (sched ++ more) s) !! id = Some (token, Done o).
Proof.
  intros Hid Hn. destruct (exec_call sched s id token p Hid) as (q & Hq & Hr).
  pose proof (rank_bound p) as Hb.
  destruct q as [| | | | | |o]; simpl in Hr; try lia. exists o. split; [done|].
  intros more. unfold exec. rewrite foldl_app. by apply done_stays.
Qed.

(** A call that runs alone is the sequential function: with one answer of the
    key server at hand, six steps give the outcome and the authenticator of
    [ValidateToken], and leave every other call where it was. *)
Theorem alone_ValidateToken fetch now s id token :
  sh_calls s !! id = Some (token, Parsing) ->
  let e := mkEnv (fetch (jwksURL (sh_auth s))) now in
  let s' := exec (replicate 6 (Run id e)) s in
  let r := ValidateToken fetch token now (sh_auth s) in
  sh_auth s' = r.2 /\ sh_calls s' = <[id := (token, Done r.1)]> (sh_calls s).
Proof.
  intros Hid e s' r. subst s' r.
  destruct (exec_alone 6 id token e s Parsing Hid) as [-> ->]. subst e. by rewrite alone_six.
Qed.

End properties.

(** ** Witnesses *)

Section witnesses.
#[local] Existing Instances ascii_tables demo_library demo_library_spec.

(** Two calls with the same token, and a key server that rotates its keys between
    the two answers. *)
Definition rotated : fetched :=
  Fetched 200 (quoted "{`keys`:[{`kty`:`RSA`,`kid`:`k2`,`n`:`sXc`,`e`:`AQAB`}]}").
Definition now_env (r : fetched) : env := mkEnv r 1500.
Definition first : env := now_env (demo_fetch "").
Definition second : env := now_env rotated.
Definition calls : list event := [Call 0 "good"; Call 1 "good"].
(** The first call stores and returns while the second is waiting for its answer. *)
Definition overlap : list event :=
  calls ++ [Run 0 first; Run 1 first; Run 0 first; Run 1 first; Run 0 first; Run 0 first;
            Run 0 first; Run 0 first; Run 1 first; Run 1 first; Run 1 first; Run 1 first].
Definition alice : Claims := mkClaims "alice" "https://op.example" ["rdap"] 2000 1000 "read" [] false.

(** The second call replaces the map between the first one's refresh and its
    second read: the first is refused although its key was there. *)
Definition race : list event :=
  calls ++ [Run 0 first; Run 1 first; Run 0 first; Run 1 first; Run 0 first; Run 1 second;
            Run 0 first; Run 1 second; Run 0 first].
Example race_refuses :
  sh_calls (exec race (start demo_cfg)) !! 0%nat
  = Some ("good", failed (ErrText ("no public key for kid " +:+ Strconv.Quote "k1"))).
Proof. vm_compute. reflexivity. Qed.

Lemma concurrent_sound_witness :
  exists c, sh_calls (exec overlap (start demo_cfg)) !! 1%nat = Some ("good", Done (Returned (Ok c)))
    /\ exists pre e post key, overlap = pre ++ Run 1 e :: post
         /\ published (sh_answers (exec pre (start demo_cfg))) "k1" key
         /\ e_now e < cl_Expiry c.
Proof.
  assert (E : sh_calls (exec overlap (start demo_cfg)) !! 1%nat
              = Some ("good", Done (Returned (Ok alice)))) by (vm_compute; reflexivity).
  exists alice. split; [exact E|].
  destruct (concurrent_sound demo_cfg overlap _ eq_refl) as [_ Hc].
  destruct (Hc _ _ _ E) as (pre & e & post & alg & kid & key & Hs & _ & Hh & Hp & _ & _ & _ & Hx & _).
  exists pre, e, post, key.
  change (Some ("RS256", "k1") = Some (alg, kid)) in Hh. injection Hh as _ <-.
  split; [exact Hs|]. split; [exact Hp|exact Hx].
Defined.

Lemma validation_terminates_witness :
  exists o, sh_calls (exec overlap (exec calls (start demo_cfg))) !! 1%nat = Some ("good", Done o).
Proof.
  destruct (validation_terminates overlap (exec calls (start demo_cfg)) 1 "good" Parsing)
    as (o & Ho & _); [vm_compute; reflexivity|vm_compute; lia|]. by exists o.
Defined.

Lemma alone_ValidateToken_witness :
  sh_auth (exec (replicate 6 (Run 0 first)) (exec calls (start demo_cfg)))
  = (ValidateToken demo_fetch "good" 1500 (NewJWTAuthenticator demo_cfg)).2.
Proof.
  apply (alone_ValidateToken demo_fetch 1500 (exec calls (start demo_cfg)) 0 "good").
  vm_compute. reflexivity.
Defined.

End witnesses.
End shared.
