(* ===== verification/Middleware.v ===== *)
(** * The program's own middleware (internal/middleware)

    An HTTP handler takes the request, its context, the state of the server (the
    authenticator and the log) and the response written so far; it gives the
    response, unless it panics, and the new state.  Each middleware wraps a
    handler. *)

From stdpp Require Import base tactics option list gmap strings.
From Stdlib Require Import ZArith Lia Ascii.
From S2P Require Import Prelude GoStrings GoNet GoHttp Config Handlers Auth ClientIP.
#[local] Open Scope Z_scope.

Module middleware.

(** The context values the middleware sets. *)
Record context := mkContext {
  ctx_client_ip : option string; ctx_claims : option auth.Claims; ctx_request_id : option string
}.
Definition background : context := mkContext None None None.
(** [auth.GetClaims] and [GetRequestID] *)
Definition GetClaims (ctx : context) : option auth.Claims := ctx_claims ctx.
Definition GetRequestID (ctx : context) : string := default "" (ctx_request_id ctx).

(** A line of the request log (the duration is a reading of the clock). *)
Record log_entry := mkLogEntry {
  le_method : string; le_path : string; le_status : Z; le_remote : string; le_user_agent : string
}.
Record state := mkState { st_auth : auth.JWTAuthenticator; st_log : list log_entry }.
(** The middleware object, and the state the server starts in. *)
Record AuthMiddleware := mkAuthMiddleware { am_auth : auth.JWTAuthenticator }.
Definition NewAuthMiddleware (cfg : config.AuthConfig) : AuthMiddleware :=
  mkAuthMiddleware (auth.NewJWTAuthenticator cfg).
Definition initial_state (cfg : config.AuthConfig) : state :=
  mkState (am_auth (NewAuthMiddleware cfg)) [].

(** The answer of a handler; [None] when it panicked. *)
Definition answer : Type := option (Response handlers.body) * state.
Definition http : Type := Request -> context -> state -> Response handlers.body -> answer.

(** A handler that does not use the context or the authenticator. *)
Definition plain_handler (f : Request -> handlers.writer) : http :=
  fun r _ s w => (Some (f r w), s).

Definition newline : string := sb [Ascii.ascii_of_nat 10].
(** [http.Error] *)
Definition http_Error (msg : string) (code : Z) : handlers.writer := fun w =>
  write_body (handlers.BText (msg +:+ newline))
    (write_header code
       (set_header "X-Content-Type-Options" "nosniff"
          (set_header "Content-Type" "text/plain; charset=utf-8" w))).

(** The recording writer of [Logger] and [Metrics]: the last code given to it.
    After a handler that sends one status, that is the status sent, or 200 when it
    sends none of its own. *)
Record responseWriter := mkResponseWriter {
  rw_inner : Response handlers.body; statusCode : Z
}.
Definition WriteHeader (code : Z) (rw : responseWriter) : responseWriter :=
  mkResponseWriter (write_header code (rw_inner rw)) code.
Definition recorded (w : Response handlers.body) : responseWriter :=
  mkResponseWriter w (default 200 (rs_status w)).

(** [Logger]: one line per request that does not panic. *)
Definition Logger (next : http) : http := fun r ctx s w =>
  let '(o, s) := next r ctx s w in
  match o with
  | Some w =>
      let ww := recorded w in
      (Some (rw_inner ww),
       mkState (st_auth s)
         (st_log s ++ [mkLogEntry (rq_method r) (rq_path r) (statusCode ww) (rq_remote_addr r)
                         (header_get (rq_header r) "User-Agent")]))
  | None => (None, s)
  end.
(** [Metrics] records the status and does not use it. *)
Definition Metrics (next : http) : http := fun r ctx s w =>
  let '(o, s) := next r ctx s w in (rw_inner ∘ recorded <$> o, s).

Definition RDAPContentType (next : http) : http := fun r ctx s w =>
  next r ctx s (set_header "Content-Type" "application/rdap+json" w).

Definition security_headers : list (string * string) :=
  [("Access-Control-Allow-Origin", "*");
   ("Access-Control-Allow-Methods", "GET, HEAD, OPTIONS");
   ("Access-Control-Allow-Headers", "Accept, Content-Type, Authorization");
   ("Access-Control-Max-Age", "86400");
   ("X-Content-Type-Options", "nosniff");
   ("X-Frame-Options", "DENY");
   ("X-XSS-Protection", "1; mode=block");
   ("Referrer-Policy", "no-referrer");
   ("Strict-Transport-Security", "max-age=31536000; includeSubDomains")].
Definition set_headers (hs : list (string * string)) (w : Response handlers.body)
    : Response handlers.body :=
  foldl (fun w kv => set_header kv.1 kv.2 w) w hs.
Definition SecurityHeaders (next : http) : http := fun r ctx s w =>
  next r ctx s (set_headers security_headers w).

Definition TrustedProxyClientIP (trustedCIDRs : list string) (next : http) : http :=
  fun r ctx s w =>
    let '(ip, r) := clientip.TrustedProxyClientIP trustedCIDRs r in
    next r (mkContext (Some ip) (ctx_claims ctx) (ctx_request_id ctx)) s w.

(** ** Authentication *)

Definition unauthorized (challenge body : string) : handlers.writer := fun w =>
  http_Error (quoted body) 401 (set_header "WWW-Authenticate" (quoted challenge) w).
Definition no_header : handlers.writer :=
  unauthorized
    "Bearer realm=`rdap`, error=`invalid_request`, error_description=`Authorization header required`"
    "{`errorCode`:401,`title`:`Unauthorized`,`description`:[`Authorization header required`]}".
Definition no_bearer : handlers.writer :=
  unauthorized
    "Bearer realm=`rdap`, error=`invalid_token`, error_description=`Bearer token required`"
    "{`errorCode`:401,`title`:`Unauthorized`,`description`:[`Bearer token required`]}".
Definition bad_token : handlers.writer :=
  unauthorized
    "Bearer realm=`rdap`, error=`invalid_token`, error_description=`Invalid or expired token`"
    "{`errorCode`:401,`title`:`Unauthorized`,`description`:[`Invalid or expired token`]}".

(** The bearer token of a request, or the refusal. *)
Definition bearer (r : Request) : string + handlers.writer :=
  let authHeader := header_get (rq_header r) "Authorization" in
  if String.eqb authHeader "" then inr no_header
  else
    let token := Strings.TrimPrefix authHeader "Bearer " in
    if String.eqb token authHeader || String.eqb token "" then inr no_bearer
    else inl token.

(** What follows the validation of the token: a refusal, or the next handler with
    the claims in the context. *)
Definition concluded (next : http) (o : auth.outcome auth.Claims) : http := fun r ctx s w =>
  match o with
  | auth.Panicked => (None, s)
  | auth.Returned (Err _) => (Some (bad_token w), s)
  | auth.Returned (Ok claims) =>
      next r (mkContext (ctx_client_ip ctx) (Some claims) (ctx_request_id ctx)) s w
  end.

Section authenticate.
Context `{UnicodeTables} `{auth.JwtLibrary}.
Context (fetch : string -> auth.fetched) (now : Z).

Definition Authenticate (next : http) : http := fun r ctx s w =>
  match bearer r with
  | inr refuse => (Some (refuse w), s)
  | inl token =>
      let '(o, j) := auth.ValidateToken fetch token now (st_auth s) in
      concluded next o r ctx (mkState j (st_log s)) w
  end.

End authenticate.

(** ** Lemmas *)

(** [Logger] adds one line per answered request, with the status of the answer,
    and changes nothing else. *)
Lemma Logger_logs (next : http) r ctx s w :
  (Logger next r ctx s w).1 = (next r ctx s w).1
  /\ match (next r ctx s w).1 with
     | Some w' => st_log (Logger next r ctx s w).2
         = st_log (next r ctx s w).2
           ++ [mkLogEntry (rq_method r) (rq_path r) (default 200 (rs_status w')) (rq_remote_addr r)
                 (header_get (rq_header r) "User-Agent")]
     | None => (Logger next r ctx s w).2 = (next r ctx s w).2
     end.
Proof. unfold Logger. by destruct (next r ctx s w) as [[w'|] s']. Qed.
Lemma Metrics_transparent (next : http) r ctx s w : Metrics next r ctx s w = next r ctx s w.
Proof. unfold Metrics. by destruct (next r ctx s w) as [[w'|] s']. Qed.

(** The refusals: status 401, a bearer challenge and one body, whatever was in
    the header map. *)
Definition refused (w w' : Response handlers.body) : Prop :=
  rs_status w' = Some 401
  /\ is_Some (rs_header w' !! "WWW-Authenticate")
  /\ rs_header w' !! "Content-Type" = Some ["text/plain; charset=utf-8"]
  /\ rs_header w' !! "X-Content-Type-Options" = Some ["nosniff"]
  /\ length (rs_body w') = 1%nat
  /\ forall k, k ∉ ["WWW-Authenticate"; "Content-Type"; "X-Content-Type-Options"] ->
       rs_header w' !! k = rs_header w !! k.

Lemma unauthorized_refused challenge body w :
  rs_status w = None -> rs_body w = [] -> refused w (unauthorized challenge body w).
Proof.
  intros Hs Hb. unfold refused, unauthorized, http_Error, write_body, write_header, set_header,
    header_set. simpl. rewrite Hs, Hb. simpl. split_and!; simplify_map_eq; [done|by eexists|done..|].
  intros k Hk. rewrite !elem_of_cons, elem_of_nil in Hk. rewrite !lookup_insert_ne by naive_solver.
  done.
Qed.

Lemma set_headers_status hs w :
  rs_status (set_headers hs w) = rs_status w /\ rs_body (set_headers hs w) = rs_body w.
Proof. unfold set_headers. revert w. induction hs as [|kv hs IH]; intros w; [done|]. simpl.
  destruct (IH (set_header kv.1 kv.2 w)) as [-> ->]. done.
Qed.
Lemma security_headers_lookup w k v :
  (k, v) ∈ security_headers -> rs_header (set_headers security_headers w) !! k = Some [v].
Proof.
  intros Hk. unfold security_headers in Hk. rewrite !elem_of_cons, elem_of_nil in Hk.
  unfold set_headers, set_header, header_set. simpl.
  repeat (destruct Hk as [[= -> ->]|Hk]; [by simplify_map_eq|]). done.
Qed.

Lemma security_header_names k v :
  (k, v) ∈ security_headers -> k <> "WWW-Authenticate" /\ k <> "Content-Type".
Proof.
  assert (F : Forall (fun kv : string * string => kv.1 <> "WWW-Authenticate" /\ kv.1 <> "Content-Type")
                security_headers) by (apply (bool_decide_unpack _); vm_compute; exact I).
  rewrite Forall_forall in F. apply F.
Qed.

(** The refusals of a header without a token. *)
Lemma bearer_refused r refuse w :
  bearer r = inr refuse -> rs_status w = None -> rs_body w = [] -> refused w (refuse w).
Proof. unfold bearer. intros E Hs Hb. repeat case_match; simplify_eq; by apply unauthorized_refused. Qed.

(** Without accepted credentials the next handler plays no part. *)
Lemma Authenticate_refuses `{UnicodeTables} `{auth.JwtLibrary} fetch now next r ctx s w :
  rs_status w = None -> rs_body w = [] ->
  (forall token c j', bearer r = inl token ->
     auth.ValidateToken fetch token now (st_auth s) <> (auth.Returned (Ok c), j')) ->
  match (Authenticate fetch now next r ctx s w).1 with
  | Some w' => refused w w'
  | None => exists token, bearer r = inl token
      /\ (auth.ValidateToken fetch token now (st_auth s)).1 = auth.Panicked
  end.
Proof.
  intros Hs Hb Hv. unfold Authenticate. destruct (bearer r) as [token|refuse] eqn:E.
  - destruct (auth.ValidateToken fetch token now (st_auth s)) as [[[c|e]|] j'] eqn:Ev; simpl.
    + by destruct (Hv token c j').
    + by apply unauthorized_refused.
    + exists token. by rewrite Ev.
  - by apply (bearer_refused r).
Qed.

End middleware.
