(* ===== verification/Server.v ===== *)
(** * The server (internal/server/server.go)

    The assembly of the program's middleware, the routes and the health check.
    The router and the third-party middleware are parameters. *)

From stdpp Require Import base tactics option list gmap strings.
From Stdlib Require Import ZArith Lia Ascii.
From S2P Require Import Prelude GoStrings GoTime GoNet GoHttp Config Domain RdapModels Rdap GoRegexp Store MemoryStore Service Handlers Auth ClientIP Middleware.
#[local] Open Scope Z_scope.

Module server.
Import middleware.

(** Third-party components: the wrappers of go-chi and httprate, the matching of
    a request against the route table with its path parameters, and the handler
    of a request that matches nothing. *)
Record cors_options := mkCorsOptions {
  AllowedOrigins : list string; AllowedMethods : list string; AllowedHeaders : list string;
  ExposedHeaders : list string; MaxAge : Z
}.
Record library := mkLibrary {
  RequestID : http -> http; Compress : Z -> http -> http; Recoverer : http -> http;
  Timeout : Z -> http -> http; Cors : cors_options -> http -> http;
  LimitByIP : Z -> Z -> http -> http;
  route_match : list handlers.route -> Request -> option (handlers.route * (string -> string));
  NotFound : http
}.

Section server.
Context `{UnicodeTables} `{Idna} `{auth.JwtLibrary}.
Context (lib : library) (fetch : string -> auth.fetched) (now : Z).

Definition healthz (cfg : config.Config) : handlers.handler := fun _ _ w =>
  write_body
    (handlers.BText (quoted "{`status`:`ok`,`version`:`" +:+ config.Version (config.RDAP cfg)
                     +:+ quoted "`}"))
    (write_header 200 (set_header "Content-Type" "application/health+json" w)).

Definition routes (cfg : config.Config) (st : store.Interface) : list handlers.route :=
  let svc := service.New st (config.RDAP cfg) in
  let handler := handlers.New svc (config.RDAP cfg) (config.Rate cfg) (config.Auth cfg)
                   (config.Server_Port (config.Server cfg)) in
  handlers.RegisterRoutes handler ++ [handlers.mkRoute "GET" "/healthz" (healthz cfg)].

(** The router: the matched route's handler with its path parameters. *)
Definition dispatch (rs : list handlers.route) : http := fun r ctx s w =>
  match route_match lib rs r with
  | Some (rt, URLParam) => plain_handler (handlers.rt_handler rt URLParam) r ctx s w
  | None => NotFound lib r ctx s w
  end.

(** What follows the rate limiter. *)
Definition inner (cfg : config.Config) (rs : list handlers.route) : http :=
  let authenticated (next : http) : http :=
    if config.Auth_Enabled (config.Auth cfg) then Authenticate fetch now next else next in
  RDAPContentType (SecurityHeaders (authenticated (Metrics (dispatch rs)))).

(** What comes before. *)
Definition outer (cfg : config.Config) (next : http) : http :=
  let rate := config.Rate cfg in
  let limited (next : http) : http :=
    if config.Rate_Enabled rate
    then LimitByIP lib (config.Requests rate) (config.Window rate) next else next in
  let cors := mkCorsOptions ["*"] ["GET"; "HEAD"; "OPTIONS"]
    ["Accept"; "Content-Type"; "Authorization"]
    ["Link"; "X-RateLimit-Limit"; "X-RateLimit-Remaining"; "X-RateLimit-Reset"] 86400 in
  RequestID lib (Compress lib 5 (TrustedProxyClientIP (config.TrustedIPs rate)
    (Logger (Recoverer lib (Timeout lib (30 * second) (Cors lib cors (limited next))))))).
Definition handler (cfg : config.Config) (st : store.Interface) : http :=
  outer cfg (inner cfg (routes cfg st)).

(** The [http.Server] of the result. *)
Record Server := mkServer {
  srv_Addr : string; srv_Handler : http; srv_ReadTimeout : Z; srv_WriteTimeout : Z;
  srv_IdleTimeout : Z; srv_MaxHeaderBytes : Z
}.
Definition New (cfg : config.Config) (st : store.Interface) : Server :=
  let s := config.Server cfg in
  mkServer (config.Addr cfg) (handler cfg st) (config.ReadTimeout s) (config.WriteTimeout s)
    (config.IdleTimeout s) (config.MaxHeaderBytes s).

(** ** Properties *)

(** C8: with authentication enabled, a request without accepted credentials
    never reaches a route: it is answered 401 with a bearer challenge (or the
    token check panics), the security headers set, whatever routes and store
    there are; the refusal is sent as text/plain. *)
Theorem inner_authenticated cfg rs rs' r ctx s (w : Response handlers.body) :
  config.Auth_Enabled (config.Auth cfg) = true ->
  rs_status w = None -> rs_body w = [] ->
  (forall token c j', bearer r = inl token ->
     auth.ValidateToken fetch token now (st_auth s) <> (auth.Returned (Ok c), j')) ->
  inner cfg rs r ctx s w = inner cfg rs' r ctx s w
  /\ match (inner cfg rs r ctx s w).1 with
     | Some w' => rs_status w' = Some 401
         /\ is_Some (rs_header w' !! "WWW-Authenticate")
         /\ rs_header w' !! "Content-Type" = Some ["text/plain; charset=utf-8"]
         /\ (forall k v, (k, v) ∈ security_headers -> rs_header w' !! k = Some [v])
     | None => exists token, bearer r = inl token
         /\ (auth.ValidateToken fetch token now (st_auth s)).1 = auth.Panicked
     end.
Proof.
  intros Ha Hs Hb Hv. unfold inner. rewrite Ha. unfold RDAPContentType, SecurityHeaders.
  set (w1 := set_headers security_headers _).
  assert (Hs1 : rs_status w1 = None) by by (unfold w1; rewrite (proj1 (set_headers_status _ _))).
  assert (Hb1 : rs_body w1 = []) by by (unfold w1; rewrite (proj2 (set_headers_status _ _))).
  split.
  - unfold Authenticate. destruct (bearer r) as [token|] eqn:E; [|done].
    destruct (auth.ValidateToken fetch token now (st_auth s)) as [[[c|e]|] j'] eqn:Ev; try done.
    by destruct (Hv token c j').
  - pose proof (Authenticate_refuses fetch now (Metrics (dispatch rs)) r ctx s w1 Hs1 Hb1 Hv) as R.
    destruct ((Authenticate _ _ _ _ _ _ _).1) as [w'|]; [|exact R].
    destruct R as (R1 & R2 & R3 & R5 & _ & R4). split_and!; try done. intros k v Hk.
    destruct (decide (k = "X-Content-Type-Options")) as [->|Hx].
    + rewrite R5. unfold security_headers in Hk. rewrite !elem_of_cons, elem_of_nil in Hk.
      by repeat destruct Hk as [[= ->]|Hk].
    + rewrite R4; [by apply security_headers_lookup|].
      pose proof (security_header_names k v Hk).
      rewrite !elem_of_cons, elem_of_nil. naive_solver.
Qed.

End server.

(** ** Witness: authentication on, no credentials *)

Section witnesses.
#[local] Existing Instances ascii_tables no_idna auth.demo_library.

Definition demo_library : library :=
  mkLibrary id (fun _ => id) id (fun _ => id) (fun _ => id) (fun _ _ => id) (fun _ _ => None)
    (plain_handler (fun _ => http_Error "404 page not found" 404)).
Definition demo_config : config.Config :=
  config.mkConfig (config.Server config.sample) (config.Storage config.sample)
    (config.RDAP config.sample) auth.demo_cfg (config.Metrics config.sample)
    (config.Rate config.sample) (config.Whois config.sample).

Lemma inner_authenticated_witness :
  match (inner demo_library auth.demo_fetch 1500 demo_config []
           (handlers.demo_request "/help" "") background
           (initial_state auth.demo_cfg) empty_response).1 with
  | Some w => rs_status w = Some 401
  | None => False
  end.
Proof.
  destruct (inner_authenticated demo_library auth.demo_fetch 1500 demo_config [] []
              (handlers.demo_request "/help" "") background
              (initial_state auth.demo_cfg) empty_response)
    as [_ R]; [reflexivity|reflexivity|reflexivity|discriminate|].
  destruct ((inner _ _ _ _ _ _ _ _ _).1); [exact (proj1 R)|].
  destruct R as (token & E & _). discriminate E.
Defined.

End witnesses.
End server.
