(* ===== verification/ServerShared.v ===== *)
(** * Concurrent requests (internal/server, internal/middleware, internal/auth)

    The server answers every request in a goroutine of its own; what they share is
    the key cache of the authenticator.  [step] lets a request arrive at the
    program's handlers, or runs the validation of its token to the next access to
    the cache (AuthShared); a validation that returns is answered by
    [Authenticate]'s last lines.  [exec] runs any interleaving.  Every answer is
    one that the sequential [server.inner] gives to that request. *)

From stdpp Require Import base tactics option list gmap strings.
From Stdlib Require Import ZArith Lia.
From S2P Require Import Prelude GoStrings GoTime GoNet GoHttp Config Domain RdapModels Rdap GoRegexp Store MemoryStore Service Handlers Auth AuthShared ClientIP Middleware Server.
#[local] Open Scope Z_scope.

Module concurrent.
Import server.

(** ** The machine *)

(** A request at the program's handlers, with the context and the response the
    outer middleware hand over; the answer once there is one ([Some None] when the
    handler panicked). *)
Record exchange := mkExchange {
  x_request : Request; x_context : middleware.context; x_writer : Response handlers.body;
  x_answer : option (option (Response handlers.body))
}.
Definition answered (a : option (option (Response handlers.body))) (x : exchange) : exchange :=
  mkExchange (x_request x) (x_context x) (x_writer x) a.
Record state := mkState { cs_auth : shared.state; cs_exchanges : gmap nat exchange }.

Section machine.
Context `{UnicodeTables} `{Idna} `{auth.JwtLibrary}.
Context (lib : library) (cfg : config.Config) (rs : list handlers.route).

Definition start : state := mkState (shared.start (config.Auth cfg)) ∅.

(** What follows the authentication, and what an exchange is answered when that is
    the handler that answers it. *)
Definition route : middleware.http := middleware.Metrics (dispatch lib rs).
Definition answer_by (next : middleware.http) (s : shared.state) (x : exchange)
    : option (Response handlers.body) :=
  (middleware.RDAPContentType (middleware.SecurityHeaders next) (x_request x) (x_context x)
     (middleware.mkState (shared.sh_auth s) []) (x_writer x)).1.

Inductive event :=
  | Arrive (id : nat) (r : Request) (ctx : middleware.context) (w : Response handlers.body)
  | Run (id : nat) (e : shared.env).
(** The answer to an exchange whose validation stands at [c]. *)
Definition conclude (c : option (string * shared.pc)) (s : shared.state) (x : exchange)
    : option (option (Response handlers.body)) :=
  match c with
  | Some (_, shared.Done o) => Some (answer_by (middleware.concluded route o) s x)
  | _ => None
  end.
(** An event that does not apply changes nothing. *)
Definition step (ev : event) (s : state) : state :=
  let a := cs_auth s in
  let xs := cs_exchanges s in
  match ev with
  | Arrive id r ctx w =>
      let x := mkExchange r ctx w None in
      let by_now next := mkState a (<[id := answered (Some (answer_by next a x)) x]> xs) in
      match xs !! id with
      | Some _ => s
      | None =>
          if negb (config.Auth_Enabled (config.Auth cfg)) then by_now route
          else
            match middleware.bearer r with
            | inr refuse => by_now (middleware.plain_handler (fun _ => refuse))
            | inl token => mkState (shared.step (shared.Call id token) a) (<[id := x]> xs)
            end
      end
  | Run id e =>
      match xs !! id with
      | Some x =>
          match x_answer x with
          | Some _ => s
          | None =>
              let a := shared.step (shared.Run id e) a in
              mkState a (<[id := answered (conclude (shared.sh_calls a !! id) a x) x]> xs)
          end
      | None => s
      end
  end.
Definition exec (sched : list event) (s : state) : state := foldl (fun s ev => step ev s) s sched.
(** The steps a schedule gives to a request. *)
Definition runs (id : nat) (sched : list event) : nat :=
  length (List.filter (fun ev => match ev with Run i _ => Nat.eqb i id | Arrive _ _ _ _ => false end) sched).

(** ** Specifications *)

(** The run of a schedule: each event with the state it finds. *)
Fixpoint trace (sched : list event) (s : state) : list (state * event) :=
  match sched with
  | [] => []
  | ev :: sched => (s, ev) :: trace sched (step ev s)
  end.
(** What the sequential server answers to a request. *)
Definition alone (fetch : string -> auth.fetched) (now : Z) (x : exchange) (s : middleware.state)
    : option (Response handlers.body) :=
  (inner lib fetch now cfg rs (x_request x) (x_context x) s (x_writer x)).1.
(** An answer is sequential when it is the one the sequential server gives to this
    request in every state; or on the key cache as it was at a moment of the run
    when the request was in flight, at the clock of the step of this request that
    answered it and, unless no answer of the key server matters, with one it had
    given by then. *)
Definition sequential (sched : list event) (id : nat) (x : exchange)
    (a : option (Response handlers.body)) : Prop :=
  (forall fetch now s, alone fetch now x s = a)
  \/ exists s1 e s0, (s1, Run id e) ∈ trace sched start
      /\ cs_exchanges s1 !! id = Some (answered None x)
      /\ cs_exchanges (step (Run id e) s1) !! id = Some (answered (Some a) x)
      /\ s0 ∈ (trace sched start).*1 /\ cs_exchanges s0 !! id = Some (answered None x)
      /\ let at_moment fetch := alone fetch (shared.e_now e) x (middleware.mkState (shared.sh_auth (cs_auth s0)) []) in
         (forall fetch, at_moment fetch = a)
         \/ exists r, r ∈ shared.sh_answers (cs_auth (step (Run id e) s1)) /\ at_moment (fun _ => r) = a.

(** What an event does to the validations (AuthShared). *)
Definition emits (s : state) (ev : event) : option shared.event :=
  match ev with
  | Arrive id r _ _ =>
      match cs_exchanges s !! id, config.Auth_Enabled (config.Auth cfg), middleware.bearer r with
      | None, true, inl token => Some (shared.Call id token)
      | _, _, _ => None
      end
  | Run id e =>
      match cs_exchanges s !! id with
      | Some x => match x_answer x with None => Some (shared.Run id e) | Some _ => None end
      | None => None
      end
  end.
Fixpoint project (sched : list event) (s : state) : list shared.event :=
  match sched with
  | [] => []
  | ev :: sched => option_list (emits s ev) ++ project sched (step ev s)
  end.

(** An exchange that waits has a validation under way. *)
Definition waiting (s : shared.state) (id : nat) (x : exchange) : Prop :=
  config.Auth_Enabled (config.Auth cfg) = true
  /\ exists token p, middleware.bearer (x_request x) = inl token
       /\ shared.sh_calls s !! id = Some (token, p) /\ shared.finished p = false.
Definition exchange_ok (s : shared.state) (id : nat) (x : exchange) : Prop :=
  match x_answer x with
  | Some a => (shared.sh_calls s !! id = None /\ forall fetch now s, alone fetch now x s = a)
      \/ config.Auth_Enabled (config.Auth cfg) = true
         /\ exists token o s', middleware.bearer (x_request x) = inl token
              /\ shared.sh_calls s !! id = Some (token, shared.Done o)
              /\ a = answer_by (middleware.concluded route o) s' x
  | None => waiting s id x
  end.
Record inv (s : state) : Prop := {
  inv_calls : forall id, cs_exchanges s !! id = None -> shared.sh_calls (cs_auth s) !! id = None;
  inv_exchanges : map_Forall (exchange_ok (cs_auth s)) (cs_exchanges s)
}.

(** ** Lemmas *)

Lemma exec_first ev sched s : exec (ev :: sched) s = exec sched (step ev s).
Proof. done. Qed.
Lemma exec_app a b s : exec (a ++ b) s = exec b (exec a s).
Proof. unfold exec. by rewrite foldl_app. Qed.
Lemma runs_cons id ev sched : runs id (ev :: sched) = (runs id [ev] + runs id sched)%nat.
Proof. unfold runs. simpl. destruct ev as [i r ctx w|i e]; [done|]. by destruct (Nat.eqb i id). Qed.

Lemma trace_member sched s0 s ev :
  (s, ev) ∈ trace sched s0 -> exists pre post, sched = pre ++ ev :: post /\ s = exec pre s0.
Proof.
  revert s0. induction sched as [|ev' sched IH]; intros s0; simpl; [by intros ?%elem_of_nil|].
  intros [[= -> ->]|Hin]%elem_of_cons; [by exists [], sched|].
  destruct (IH _ Hin) as (pre & post & -> & ->). by exists (ev' :: pre), post.
Qed.

(** A step of one request leaves the others as they are. *)
Lemma inv_insert s id x a :
  inv s -> (forall i, i <> id -> shared.sh_calls a !! i = shared.sh_calls (cs_auth s) !! i) ->
  exchange_ok a id x -> inv (mkState a (<[id := x]> (cs_exchanges s))).
Proof.
  intros [Hf Hx] Hc Hok. split; cbn [cs_auth cs_exchanges].
  - intros i [Hi Hn]%lookup_insert_None. rewrite Hc by done. by apply Hf.
  - intros i y [[<- <-]|[Hi Hy]]%lookup_insert_Some; [done|]. apply Hx in Hy. revert Hy.
    unfold exchange_ok, waiting. by rewrite Hc.
Qed.

#[local] Arguments shared.step : simpl never.

(** *** The run of the validations *)

Lemma step_auth ev s :
  cs_auth (step ev s) = match emits s ev with Some sev => shared.step sev (cs_auth s) | None => cs_auth s end.
Proof.
  destruct ev as [id r ctx w|id e]; simpl.
  - destruct (cs_exchanges s !! id); [done|].
    destruct (config.Auth_Enabled (config.Auth cfg)); simpl; [|done]. by destruct (middleware.bearer r).
  - destruct (cs_exchanges s !! id) as [x|]; [|done]. by destruct (x_answer x).
Qed.
Lemma project_exec sched s : cs_auth (exec sched s) = shared.exec (project sched s) (cs_auth s).
Proof.
  revert s. induction sched as [|ev sched IH]; intros s; [done|].
  rewrite exec_first, IH, step_auth. cbn [project]. by destruct (emits s ev).
Qed.
Lemma project_trace sched s a sev :
  (a, sev) ∈ shared.trace (project sched s) (cs_auth s) ->
  exists s' ev, (s', ev) ∈ trace sched s /\ cs_auth s' = a /\ emits s' ev = Some sev.
Proof.
  revert s. induction sched as [|ev sched IH]; intros s; cbn [project trace]; [by intros ?%elem_of_nil|].
  specialize (IH (step ev s)). rewrite step_auth in IH.
  assert (Hlater : (exists s' ev', (s', ev') ∈ trace sched (step ev s) /\ cs_auth s' = a /\ emits s' ev' = Some sev) ->
    exists s' ev', (s', ev') ∈ (s, ev) :: trace sched (step ev s) /\ cs_auth s' = a /\ emits s' ev' = Some sev).
  { intros (s' & ev' & Hin & Hr). exists s', ev'. split; [by right|done]. }
  destruct (emits s ev) as [sev'|] eqn:Ee; simpl; [|auto].
  intros [[= -> ->]|Hin]%elem_of_cons; [|auto]. exists s, ev. split; [left|done].
Qed.

(** The answer of a handler that follows the authentication does not depend on the
    key cache. *)
Section stateless.
Context (Hnf : exists f, NotFound lib = middleware.plain_handler f).

Lemma route_stateless r ctx s s' w : (route r ctx s w).1 = (route r ctx s' w).1.
Proof.
  unfold route. rewrite !middleware.Metrics_transparent. unfold dispatch.
  destruct (route_match lib rs r) as [[rt U]|]; [done|]. by destruct Hnf as [f ->].
Qed.
Lemma concluded_stateless o r ctx s s' w :
  (middleware.concluded route o r ctx s w).1 = (middleware.concluded route o r ctx s' w).1.
Proof. destruct o as [[c|e]|]; try done. apply route_stateless. Qed.

Lemma alone_concluded fetch now x token s :
  config.Auth_Enabled (config.Auth cfg) = true -> middleware.bearer (x_request x) = inl token ->
  forall a, alone fetch now x s
    = answer_by (middleware.concluded route (auth.ValidateToken fetch token now (middleware.st_auth s)).1) a x.
Proof.
  intros He Hb a. unfold alone, inner, answer_by. rewrite He.
  unfold middleware.RDAPContentType, middleware.SecurityHeaders, middleware.Authenticate. rewrite Hb.
  destruct (auth.ValidateToken _ _ _ _) as [o j]. apply concluded_stateless.
Qed.

Lemma inv_arrive id r ctx w s : inv s -> inv (step (Arrive id r ctx w) s).
Proof.
  intros Hi. simpl. destruct (cs_exchanges s !! id) as [y|] eqn:Eid; [done|].
  pose proof (inv_calls _ Hi _ Eid) as Hc.
  destruct (config.Auth_Enabled (config.Auth cfg)) eqn:Ee; simpl; [destruct (middleware.bearer r) as [token|refuse] eqn:Eb|];
    (apply inv_insert; [done| |]).
  - intros i Hne. by apply (shared.step_other (shared.Call id token)).
  - split; [done|]. exists token, shared.Parsing. split_and!; [done| |done].
    unfold shared.step. rewrite Hc. apply lookup_insert_eq.
  - done.
  - left. split; [done|]. intros fetch now s'. unfold alone, inner. rewrite Ee. simpl.
    unfold answer_by, middleware.RDAPContentType, middleware.SecurityHeaders, middleware.Authenticate. simpl.
    by rewrite Eb.
  - done.
  - left. split; [done|]. intros fetch now s'. unfold alone, inner. rewrite Ee. apply route_stateless.
Qed.
Lemma inv_run id e s : inv s -> inv (step (Run id e) s).
Proof.
  intros Hi. simpl. destruct (cs_exchanges s !! id) as [x|] eqn:Eid; [|done].
  destruct (x_answer x) eqn:Ea; [done|]. apply inv_insert; [done| |].
  { intros i Hne. by apply (shared.step_other (shared.Run id e)). }
  pose proof (inv_exchanges _ Hi _ _ Eid) as Hw. unfold exchange_ok in Hw. rewrite Ea in Hw.
  destruct Hw as (He & token & p & Hb & Hc & _).
  destruct (shared.step_call (shared.Run id e) _ _ _ _ Hc) as (q & Hq & _).
  unfold exchange_ok, conclude. rewrite Hq. destruct q as [| | | | | |o]; cbn [x_answer answered].
  1-6: split; [done|]; eexists token, _; split_and!; done.
  right. split; [done|]. eexists token, o, _. by split_and!.
Qed.
Lemma inv_exec sched : inv (exec sched start).
Proof.
  induction sched as [|ev sched IH] using rev_ind; [split; [done|apply map_Forall_empty]|].
  rewrite exec_app. destruct ev; [by apply inv_arrive|by apply inv_run].
Qed.

(** The steps a request has left at most; each step of its own uses one up. *)
Definition left (s : state) (id : nat) (x : exchange) : nat :=
  match x_answer x, shared.sh_calls (cs_auth s) !! id with
  | None, Some (_, p) => shared.rank p
  | _, _ => 0
  end.
Lemma left_answered s id x : inv s -> cs_exchanges s !! id = Some x -> left s id x = 0%nat -> is_Some (x_answer x).
Proof.
  intros Hi Hx Hl. apply (inv_exchanges _ Hi) in Hx. unfold exchange_ok in Hx. unfold left in Hl.
  destruct (x_answer x); [by eexists|]. destruct Hx as (_ & token & p & _ & Hc & Hf).
  rewrite Hc in Hl. by destruct p.
Qed.
Lemma step_exchange ev s id x :
  inv s -> cs_exchanges s !! id = Some x ->
  exists a, cs_exchanges (step ev s) !! id = Some (answered a x)
    /\ (is_Some (x_answer x) -> a = x_answer x)
    /\ (left (step ev s) id (answered a x) <= left s id x - runs id [ev])%nat.
Proof.
  intros Hi Hx. assert (Hsame : answered (x_answer x) x = x) by by destruct x.
  assert (Hstay : forall s', cs_exchanges s' !! id = Some x -> left s' id x = left s id x -> runs id [ev] = 0%nat ->
    exists a, cs_exchanges s' !! id = Some (answered a x) /\ (is_Some (x_answer x) -> a = x_answer x)
      /\ (left s' id (answered a x) <= left s id x - runs id [ev])%nat).
  { intros s' Hs' Hl Hr. exists (x_answer x). rewrite Hsame, Hl, Hr. split_and!; [done|done|lia]. }
  assert (Hother : forall i y ev', i <> id -> i = shared.subject ev' ->
    cs_exchanges (mkState (shared.step ev' (cs_auth s)) (<[i := y]> (cs_exchanges s))) !! id = Some x
    /\ left (mkState (shared.step ev' (cs_auth s)) (<[i := y]> (cs_exchanges s))) id x = left s id x).
  { intros i y ev' Hne ->. unfold left. cbn [cs_exchanges cs_auth].
    rewrite lookup_insert_ne, shared.step_other by done. done. }
  destruct ev as [i r ctx w|i e]; simpl.
  - destruct (cs_exchanges s !! i) as [y|] eqn:Ei; [by apply Hstay|].
    assert (i <> id) as Hne by (intros ->; by rewrite Ei in Hx).
    destruct (negb _); [|destruct (middleware.bearer r) as [token|refuse]]; (apply Hstay; [..|done]).
    3-4: by apply (Hother i _ (shared.Call i token)).
    all: first [done|cbn [cs_exchanges]; by rewrite lookup_insert_ne].
  - destruct (decide (i = id)) as [->|Hne].
    + rewrite Hx. destruct (x_answer x) as [a|] eqn:Ea.
      { exists (Some a). rewrite Hsame. unfold left. rewrite Ea. split_and!; [done|done|lia]. }
      simpl. rewrite lookup_insert_eq. eexists. split; [done|]. split; [by intros [? ?]|].
      pose proof (inv_exchanges _ Hi _ _ Hx) as Hw. unfold exchange_ok in Hw. rewrite Ea in Hw.
      destruct Hw as (_ & token & p & _ & Hc & _).
      destruct (shared.step_call (shared.Run id e) _ _ _ _ Hc) as (q & Hq & Hr).
      unfold left. rewrite Ea, Hc. cbn [cs_auth x_answer answered]. rewrite Hq.
      unfold runs, shared.runs in *. simpl in *. rewrite Nat.eqb_refl in *. simpl in *.
      by destruct q.
    + assert (runs id [Run i e] = 0%nat) as Hr by (unfold runs; simpl; by apply Nat.eqb_neq in Hne as ->).
      destruct (cs_exchanges s !! i) as [y|] eqn:Ei; [destruct (x_answer y) eqn:Ea|]; [by apply Hstay| |by apply Hstay].
      apply Hstay; [..|done]; by apply (Hother i _ (shared.Run i e)).
Qed.
Lemma exec_exchange sched s id x :
  inv s -> cs_exchanges s !! id = Some x ->
  exists a, inv (exec sched s) /\ cs_exchanges (exec sched s) !! id = Some (answered a x)
    /\ (is_Some (x_answer x) -> a = x_answer x)
    /\ (left (exec sched s) id (answered a x) <= left s id x - runs id sched)%nat.
Proof.
  revert s x. induction sched as [|ev sched IH]; intros s x Hi Hx.
  { exists (x_answer x). replace (answered _ x) with x by by destruct x.
    change (runs id []) with 0%nat. change (exec [] s) with s. split_and!; [done..|lia]. }
  destruct (step_exchange ev s id x Hi Hx) as (a & Ha & Hs & Hl).
  assert (Hi' : inv (step ev s)) by (destruct ev; [by apply inv_arrive|by apply inv_run]).
  destruct (IH (step ev s) (answered a x) Hi' Ha) as (b & Hb & Hy & Ht & Hm). exists b.
  rewrite exec_first, runs_cons. split_and!; [done|exact Hy| |].
  - intros Hx'. rewrite Ht; [by apply Hs|]. simpl. by rewrite Hs.
  - change (answered b (answered a x)) with (answered b x) in Hm. lia.
Qed.

(** *** The answers *)

(** At a state of the run where an exchange is open, it is the final one without its
    answer. *)
Lemma member_open sched s ev id x b y :
  (s, ev) ∈ trace sched start -> cs_exchanges s !! id = Some y -> x_answer y = None ->
  cs_exchanges (exec sched start) !! id = Some (answered b x) ->
  y = answered None x /\ exists post, exec sched start = exec post (step ev s).
Proof.
  intros (pre & post & -> & ->)%trace_member Hy Hn. rewrite exec_app. intros Hx.
  destruct (exec_exchange (ev :: post) _ id y (inv_exec pre) Hy) as (c & _ & Hc & _).
  rewrite Hx in Hc. injection Hc as Ec. split; [|by exists post].
  destruct x, y. unfold answered in *. simpl in *. by simplify_eq.
Qed.
Lemma in_flight_open s id token :
  inv s -> shared.in_flight (cs_auth s) id token ->
  exists y, cs_exchanges s !! id = Some y /\ x_answer y = None.
Proof.
  intros Hi (p & Hc & Hf). destruct (cs_exchanges s !! id) as [y|] eqn:Ey;
    [|by rewrite (inv_calls _ Hi _ Ey) in Hc].
  exists y. split; [done|]. pose proof (inv_exchanges _ Hi _ _ Ey) as Ho. unfold exchange_ok in Ho.
  destruct (x_answer y); [|done].
  destruct Ho as [[Hn _]|(_ & t' & o' & s' & _ & Hd & _)]; [congruence|]. rewrite Hc in Hd. by simplify_eq.
Qed.
Lemma answer_sequential sched id x a :
  cs_exchanges (exec sched start) !! id = Some (answered (Some a) x) -> sequential sched id x a.
Proof.
  intros Hx. pose proof (inv_exchanges _ (inv_exec sched) _ _ Hx) as Hok.
  destruct Hok as [[_ Hn]|(He & token & o & s' & Hb & Hc & ->)]; [by left|right]. cbn [x_request answered] in Hb.
  assert (Hrun : forall a' sev, (a', sev) ∈ shared.trace (project sched start) (shared.start (config.Auth cfg)) ->
    exists s ev, (s, ev) ∈ trace sched start /\ cs_auth s = a' /\ emits s ev = Some sev)
    by by intros a' sev; apply project_trace.
  rewrite project_exec in Hc.
  destruct (shared.done_explained _ _ _ _ _ Hc) as (a1 & e & a0 & Hin & Hf1 & Hd & [Hm Hf0] & Hv).
  apply Hrun in Hin as (s1 & ev & Hin & <- & Hev). apply list_elem_of_fmap in Hm as ([a0' sev0] & -> & Hm).
  apply Hrun in Hm as (s0 & ev0 & Hm & <- & _). cbn [fst] in *.
  assert (Hpre : forall s ev, (s, ev) ∈ trace sched start -> inv s)
    by (intros s ev'' (pre & post & _ & ->)%trace_member; apply inv_exec).
  destruct (in_flight_open s1 id token (Hpre _ _ Hin) Hf1) as (y1 & Hy1 & Hn1).
  destruct (in_flight_open s0 id token (Hpre _ _ Hm) Hf0) as (y0 & Hy0 & Hn0).
  destruct (member_open _ _ _ _ _ _ _ Hin Hy1 Hn1 Hx) as [-> [post Hpost]].
  destruct (member_open _ _ _ _ _ _ _ Hm Hy0 Hn0 Hx) as [-> _].
  assert (ev = Run id e) as ->.
  { destruct ev as [i r ctx w|i e']; simpl in Hev; repeat case_match; by simplify_eq. }
  assert (Hstep : cs_exchanges (step (Run id e) s1) !! id
    = Some (answered (Some (answer_by (middleware.concluded route o) s' x)) x)).
  { assert (Hs : exists s'', cs_exchanges (step (Run id e) s1) !! id
      = Some (answered (Some (answer_by (middleware.concluded route o) s'' x)) x)).
    { simpl. rewrite Hy1. simpl. rewrite Hd. rewrite lookup_insert_eq. simpl. by eexists. }
    destruct Hs as [s'' Hs]. rewrite Hs. do 3 f_equal. apply concluded_stateless. }
  assert (Hauth : cs_auth (step (Run id e) s1) = shared.step (shared.Run id e) (cs_auth s1)).
  { by rewrite step_auth, Hev. }
  exists s1, e, s0. split_and!; try done; [apply list_elem_of_fmap; by exists (s0, ev0)|].
  rewrite Hauth. destruct Hv as [Hv|(r & Hr & Hv)]; [left; intros fetch|right; exists r; split; [done|]];
    rewrite (alone_concluded _ _ _ _ _ He Hb s'); cbn [middleware.st_auth]; by rewrite Hv.
Qed.

(** ** Properties *)

(** C9: requests in flight together: whatever requests arrive, however the steps of
    their validations interleave and whatever the key server answers, a request
    that is given six steps is answered and its answer never changes; and it is the
    answer the sequential server gives to this request alone on the state of a
    moment when the request was in flight: on the key cache as it was then, at the
    clock of the step that answered and, where the cache misses, with an answer the
    key server had given by then. *)
Theorem requests_served sched more id x :
  let s := exec sched start in
  cs_exchanges s !! id = Some x -> (6 <= runs id more)%nat ->
  exists a, sequential (sched ++ more) id x a
    /\ (is_Some (x_answer x) -> x_answer x = Some a)
    /\ cs_exchanges (exec more s) !! id = Some (answered (Some a) x)
    /\ forall later, cs_exchanges (exec later (exec more s)) !! id = Some (answered (Some a) x).
Proof.
  intros s Hx Hr. destruct (exec_exchange more s id x (inv_exec sched) Hx) as (a & Hi & Ha & Hs & Hl).
  assert (left s id x <= 6)%nat.
  { unfold left. destruct (x_answer x); [lia|]. destruct (shared.sh_calls _ !! id) as [[t p]|]; [|lia].
    apply shared.rank_bound. }
  destruct (left_answered _ _ _ Hi Ha ltac:(lia)) as [b Hb]. cbn [x_answer answered] in Hb. subst a.
  exists b. split_and!; [|intros Hx'; by rewrite Hs|done|].
  - apply answer_sequential. by rewrite exec_app.
  - intros later. destruct (exec_exchange later _ id _ Hi Ha) as (c & _ & Hc & Ht & _). rewrite Hc.
    change (answered c (answered (Some b) x)) with (answered c x). by rewrite Ht.
Qed.

End stateless.
End machine.

(** ** Witness: two requests with one token, interleaved *)

Section witnesses.
#[local] Existing Instances ascii_tables no_idna auth.demo_library auth.demo_library_spec
  range_backward glob_engine.

(** A router that compares the path with the patterns. *)
Definition exact_library : library :=
  mkLibrary id (fun _ => id) id (fun _ => id) (fun _ => id) (fun _ _ => id)
    (fun rs r => (fun rt => (rt, fun _ => ""))
                   <$> List.find (fun rt => String.eqb (handlers.rt_pattern rt) (rq_path r)) rs)
    (middleware.plain_handler (fun _ => middleware.http_Error "404 page not found" 404)).
Definition bearing (token : string) : Request :=
  mkRequest "GET" "localhost" "/help" "" false
    {["Authorization" := ["Bearer " +:+ token]]} "192.0.2.1:4711".
Definition arrivals : list event :=
  [Arrive 0 (bearing "good") middleware.background empty_response;
   Arrive 1 (bearing "good") middleware.background empty_response].
Definition demo_routes : list handlers.route := routes demo_config service.demo.
#[local] Abbreviation demo_exec sched :=
  (exec exact_library demo_config demo_routes sched
     (exec exact_library demo_config demo_routes arrivals (start demo_config))).
(** The schedules of AuthShared. *)
Definition lift (sched : list shared.event) : list event :=
  omap (fun ev => match ev with shared.Run id e => Some (Run id e) | _ => None end) sched.
Definition status_of (s : state) (id : nat) : option Z :=
  match cs_exchanges s !! id with
  | Some x => match x_answer x with Some (Some w) => rs_status w | _ => None end
  | None => None
  end.
Lemma status_answered s id x a :
  cs_exchanges s !! id = Some (answered (Some a) x) -> status_of s id = a ≫= rs_status.
Proof. intros E. unfold status_of. rewrite E. by destruct a. Qed.
Example overlap_answers :
  status_of (demo_exec (lift shared.overlap)) 1 = Some 200.
Proof. vm_compute. reflexivity. Qed.
Example race_answers :
  status_of (demo_exec (lift shared.race)) 0 = Some 401.
Proof. vm_compute. reflexivity. Qed.

Definition second_request : exchange :=
  mkExchange (bearing "good") middleware.background empty_response None.
Example second_arrived : cs_exchanges (exec exact_library demo_config demo_routes arrivals (start demo_config)) !! 1%nat
  = Some second_request.
Proof. vm_compute. reflexivity. Qed.
Example second_runs : (6 <= runs 1 (lift shared.overlap))%nat.
Proof. vm_compute. lia. Qed.
Example not_found : exists f, NotFound exact_library = middleware.plain_handler f.
Proof. by eexists. Qed.

Lemma requests_served_witness :
  exists a, cs_exchanges (demo_exec (lift shared.overlap)) !! 1%nat
            = Some (answered (Some a) second_request)
    /\ sequential exact_library demo_config demo_routes (arrivals ++ lift shared.overlap) 1 second_request a
    /\ a ≫= rs_status = Some 200.
Proof.
  destruct (requests_served exact_library demo_config demo_routes not_found
              arrivals (lift shared.overlap) 1 second_request second_arrived second_runs)
    as (a & Hs & _ & Ha & _). exists a. split; [exact Ha|]. split; [exact Hs|].
  exact (eq_trans (eq_sym (status_answered _ _ _ _ Ha)) overlap_answers).
Defined.

End witnesses.
End concurrent.
