(* ===== verification/Whois.v ===== *)
(** * The WHOIS gateway (internal/whois)

    Query parsing, the adaptation of a domain aggregate, the text rendering and
    the answer to a connection's input.  WhoisServer.v models the listener and the
    accept loop. *)

From stdpp Require Import base tactics option list gmap strings.
From Stdlib Require Import ZArith Lia Ascii.
From S2P Require Import Prelude GoStrings GoTime Domain GoRegexp Store MemoryStore.
#[local] Open Scope Z_scope.

Module whois.

Record WhoisContact := mkWhoisContact {
  wc_Role : string; wc_Name : string; wc_Org : string; wc_Email : string;
  wc_Phone : string; wc_Address : string; wc_Redacted : bool
}.
Record WhoisNameserver := mkWhoisNameserver {
  wn_Name : string; wn_IPV4 : list string; wn_IPV6 : list string
}.
Record WhoisDomain := mkWhoisDomain {
  w_LDHName : string; w_UnicodeName : string; w_Status : list string;
  w_Registrar : string; w_RegistrarID : string; w_Registrant : string;
  w_Contacts : list WhoisContact; w_Nameservers : list WhoisNameserver;
  w_CreatedAt : Time; w_UpdatedAt : Time; w_ExpiresAt : Time; w_DNSSEC : bool
}.

Definition ErrNotFound : string := "object not found".
Definition ErrNotImplemented : string := "query type not supported".
Definition LookupFunc : Type := string -> result WhoisDomain.

(** ** From the store *)

Definition statusStrings (status : list domain.Status) : list string :=
  List.filter (fun v => negb (String.eqb v "")) (domain.status_Value <$> status).

Definition contactDisplayName (c : domain.Contact) : string :=
  match domain.ct_VCard c with
  | Some v => if negb (String.eqb (domain.FullName v) "") then domain.FullName v
              else if negb (String.eqb (domain.Organization v) "") then domain.Organization v
              else domain.ct_Handle c
  | None => domain.ct_Handle c
  end.

Definition address_text (a : domain.VCardAddress) : string :=
  Strings.Join (List.filter (fun p => negb (String.eqb p ""))
    [domain.Street a; domain.Locality a; domain.Region a; domain.PostalCode a;
     domain.CountryName a]) ", ".

Definition contactToWhois (role : domain.ContactRole) (c : domain.Contact) : WhoisContact :=
  let redacted := negb (String.eqb (domain.Privacy c) "")
                  && negb (String.eqb (domain.Privacy c) domain.PrivacyPublic) in
  let named name := if String.eqb name "" then domain.ct_Handle c else name in
  match domain.ct_VCard c with
  | Some v =>
      mkWhoisContact role (named (domain.FullName v)) (domain.Organization v)
        (if String.eqb (domain.Email v) "" then domain.ContactURI v else domain.Email v)
        (domain.VoiceTel v) (from_option address_text "" (domain.Address v)) redacted
  | None => mkWhoisContact role (named "") "" "" "" "" redacted
  end.

Section adapt.
Context `{UnicodeTables} `{MapRange}.

(** The contacts of one role, and of all roles in the order of the map. *)
Definition role_contacts (contacts : gmap string domain.Contact)
    (p : domain.ContactRole * list string) : list WhoisContact :=
  omap (fun h => c ← contacts !! h; Some (contactToWhois p.1 c)) p.2.

Definition is_registrant (c : WhoisContact) : bool :=
  Strings.EqualFold (wc_Role c) "registrant" && negb (String.eqb (wc_Name c) "").

Definition domainToWhois (agg : domain.DomainAggregate) : WhoisDomain :=
  let d := domain.agg_Domain agg in
  let m := domain.d_Metadata d in
  let contacts := concat (role_contacts (domain.agg_Contacts agg) <$> map_range (domain.Contacts d)) in
  mkWhoisDomain (domain.LDHName d) (domain.UnicodeName d) (statusStrings (domain.d_Status d))
    (from_option contactDisplayName "" (domain.agg_Registrar agg))
    (match domain.agg_Registrar agg with
     | Some r => from_option domain.pid_Identifier "" (head (domain.PublicIDs r))
     | None => ""
     end)
    (from_option wc_Name "" (List.find is_registrant contacts))
    contacts
    ((fun ns => mkWhoisNameserver (domain.ns_LDHName ns) (domain.IPV4 ns) (domain.IPV6 ns))
       <$> domain.Nameservers d)
    (domain.CreatedAt m) (domain.UpdatedAt m) (domain.ExpiresAt d)
    (match domain.d_SecureDNS d with Some s => domain.DelegationSigned s | None => false end).

Definition StoreLookup (st : store.Interface) : LookupFunc := fun name =>
  match store.GetDomainAggregate st (Strings.ToLower (Strings.TrimSuffix name ".")) with
  | Ok agg => Ok (domainToWhois agg)
  | Err _ => Err (ErrSentinel ErrNotFound)
  end.

End adapt.

(** ** Rendering *)

Definition line (s : string) : string := s +:+ crlf.
(** [write(k, v)]: nothing for an empty value. *)
Definition write (k v : string) : string :=
  if String.eqb v "" then "" else line (k +:+ ": " +:+ v).
Definition cat (l : list string) : string := String.concat "" l.

Definition dnssecString (signed : bool) : string :=
  if signed then "signedDelegation" else "unsignedDelegation".
Definition iso (t : Time) : string := if IsZero t then "" else format_rfc3339 t.

Section render.
Context `{UnicodeTables}.

Definition roleLabel (role : string) : string :=
  let r := Strings.ToLower role in
  if String.eqb r "registrant" then "Registrant:"
  else if String.eqb r "administrative" || String.eqb r "admin" then "Administrative Contact:"
  else if String.eqb r "technical" || String.eqb r "tech" then "Technical Contact:"
  else if String.eqb r "billing" then "Billing Contact:"
  else if String.eqb r "abuse" then "Abuse Contact:"
  else "".

Definition render_contact (c : WhoisContact) : string :=
  let label := roleLabel (wc_Role c) in
  if String.eqb label "" then ""
  else
    crlf +:+ line label +:+
    (if wc_Redacted c then line "   Name: Redacted"
     else
       write "   Name" (wc_Name c) +:+ write "   Organization" (wc_Org c) +:+
       (if String.eqb (wc_Address c) "" then ""
        else cat ((fun l => write "   Address" (Strings.TrimSpace l))
                    <$> Strings.Split (wc_Address c) (Ascii.ascii_of_nat 10))) +:+
       write "   Email" (wc_Email c) +:+ write "   Phone" (wc_Phone c)).

Definition render_nameserver (ns : WhoisNameserver) : string :=
  line ("   " +:+ wn_Name ns) +:+ cat ((fun ip => line ("      " +:+ ip)) <$> wn_IPV4 ns).

Definition RenderDomain (d : WhoisDomain) : string :=
  line ("Domain Name: " +:+ w_LDHName d) +:+
  (if negb (String.eqb (w_UnicodeName d) "") && negb (String.eqb (w_UnicodeName d) (w_LDHName d))
   then write "Internationalized Domain Name" (w_UnicodeName d) else "") +:+
  write "Registrar" (w_Registrar d) +:+
  (if String.eqb (w_RegistrarID d) "" then "" else write "Registrar IANA ID" (w_RegistrarID d)) +:+
  write "Registrant Organization" (w_Registrant d) +:+
  cat (render_contact <$> w_Contacts d) +:+
  (if bool_decide (w_Nameservers d = []) then ""
   else crlf +:+ line "Name Server:" +:+ cat (render_nameserver <$> w_Nameservers d)) +:+
  write "DNSSEC" (dnssecString (w_DNSSEC d)) +:+
  write "Creation Date" (iso (w_CreatedAt d)) +:+
  write "Updated Date" (iso (w_UpdatedAt d)) +:+
  write "Expiration Date" (iso (w_ExpiresAt d)) +:+
  write "Status" (Strings.Join (w_Status d) " ") +:+
  crlf.

(** ** Queries *)

Definition isNumeric (s : string) : bool :=
  negb (String.eqb s "") && forallb (fun r => in_range 48 57 r) (Utf8.runes (bs s)).

Definition keyword_kind (w : string) : option string :=
  if String.eqb w "domain" || String.eqb w "dom" then Some "domain"
  else if String.eqb w "nameserver" || String.eqb w "ns" then Some "nameserver"
  else if String.eqb w "entity" || String.eqb w "contact" then Some "entity"
  else if String.eqb w "ip" || String.eqb w "ipnetwork" || String.eqb w "network" then Some "ip"
  else if String.eqb w "asn" || String.eqb w "autnum" then Some "autnum"
  else None.
(** The kind of a single token. *)
Definition detect (t : string) : string :=
  let lower := Strings.ToLower t in
  if Strings.HasPrefix lower "as" && isNumeric (sb (drop 2 (bs lower))) then "autnum"
  else if Strings.Contains t "/" then "ip"
  else if Strings.HasPrefix lower "ns" && Strings.Contains t "." then "nameserver"
  else if Strings.Contains t "." then "domain"
  else "entity".

(** [None] is the panic of indexing an empty field list. *)
Definition parseQuery (ln : string) : option (string * string) :=
  let ln := Strings.TrimSpace ln in
  if String.eqb ln "" then Some ("", "")
  else
    match Strings.Fields ln with
    | [] => None
    | t :: rest =>
        match rest, keyword_kind (Strings.ToLower t) with
        | target :: _, Some kind => Some (target, kind)
        | _, _ => Some (t, detect t)
        end
    end.

Definition answer (lookup : LookupFunc) (ln : string) : option string :=
  '(query, kind) ← parseQuery ln;
  Some (if String.eqb kind "domain" then
    match lookup query with
    | Err err =>
        if errors_Is err ErrNotFound
        then line "NOT FOUND" +:+ crlf +:+ line "% No entries found for the selected source(s)."
        else line ("% ERROR: " +:+ error_message err)
    | Ok d => RenderDomain d
    end
  else if existsb (String.eqb kind) ["nameserver"; "entity"; "ip"; "autnum"] then
    line "% This WHOIS gateway serves domain name lookups." +:+
    line ("% Query type " +:+ Strconv.Quote kind
          +:+ " is not supported here; use the RDAP service at /rdap instead.") +:+
    line ("% e.g. GET /rdap/domain/" +:+ query)
  else line "INVALID QUERY" +:+ crlf +:+ line "% Unrecognized query.").

(** [handle]: what is written for the bytes received; nothing without a line
    feed. *)
Definition handle (lookup : LookupFunc) (input : string) : option string :=
  i ← index_byte (Ascii.ascii_of_nat 10) (bs input);
  let ln := Strings.TrimSpace (sb (take (S i) (bs input))) in
  if String.eqb ln "" then Some (line "No query received.") else answer lookup ln.

End render.

Example whois_ex :
  @answer ascii_tables (fun _ => Err (ErrSentinel ErrNotFound)) "nope.invalid"
  = Some (line "NOT FOUND" +:+ crlf +:+ line "% No entries found for the selected source(s).").
Proof. vm_compute. reflexivity. Qed.
Example parse_ex :
  @parseQuery ascii_tables <$> ["example.com"; " DOMAIN  example.com "; "8.8.8.0/24"; "AS15169";
                                "REG1-NAME"; "nsa.example"]
  = [Some ("example.com", "domain"); Some ("example.com", "domain"); Some ("8.8.8.0/24", "ip");
     Some ("AS15169", "autnum"); Some ("REG1-NAME", "entity"); Some ("nsa.example", "nameserver")].
Proof. vm_compute. reflexivity. Qed.

(** ** Specifications *)

Definition kinds : list string := ["domain"; "nameserver"; "entity"; "ip"; "autnum"].

(** A contact whose data is withheld. *)
Definition private (c : domain.Contact) : Prop :=
  domain.Privacy c <> "" /\ domain.Privacy c <> domain.PrivacyPublic.
(** Two aggregates that differ in the data of private contacts only. *)
Record same_public (a b : domain.DomainAggregate) : Prop := {
  same_domain : domain.agg_Domain a = domain.agg_Domain b;
  same_registrar : domain.agg_Registrar a = domain.agg_Registrar b;
  same_contacts : forall h, match domain.agg_Contacts a !! h, domain.agg_Contacts b !! h with
    | Some x, Some y => x = y \/ private x /\ private y
    | None, None => True
    | _, _ => False
    end
}.

(** The first value that is set. *)
Definition first_set (l : list string) : string :=
  default "" (head (List.filter (fun v => negb (String.eqb v "")) l)).
(** A field of the card of a contact. *)
Definition card (f : domain.VCard -> string) (c : domain.Contact) : string :=
  from_option f "" (domain.ct_VCard c).
(** What the gateway shows of a contact under a role, and of a domain of a store. *)
Record contact_shown (role : string) (c : domain.Contact) (w : WhoisContact) : Prop := {
  shown_role : wc_Role w = role;
  shown_redacted : wc_Redacted w = true <-> private c;
  shown_name : wc_Name w = first_set [card domain.FullName c; domain.ct_Handle c];
  shown_org : wc_Org w = card domain.Organization c;
  shown_email : wc_Email w = first_set [card domain.Email c; card domain.ContactURI c];
  shown_phone : wc_Phone w = card domain.VoiceTel c;
  shown_address : forall v a, domain.ct_VCard c = Some v -> domain.Address v = Some a ->
    wc_Address w = Strings.Join (List.filter (fun p => negb (String.eqb p ""))
      [domain.Street a; domain.Locality a; domain.Region a; domain.PostalCode a;
       domain.CountryName a]) ", "
}.
Record domain_shown `{UnicodeTables} (st : store.Interface) (d : domain.Domain) (w : WhoisDomain) : Prop := {
  shown_names : w_LDHName w = domain.LDHName d /\ w_UnicodeName w = domain.UnicodeName d;
  shown_status : w_Status w
    = List.filter (fun v => negb (String.eqb v "")) (domain.status_Value <$> domain.d_Status d);
  shown_dates : w_CreatedAt w = domain.CreatedAt (domain.d_Metadata d)
    /\ w_UpdatedAt w = domain.UpdatedAt (domain.d_Metadata d)
    /\ w_ExpiresAt w = domain.ExpiresAt d;
  shown_dnssec : w_DNSSEC w = true
    <-> exists s, domain.d_SecureDNS d = Some s /\ domain.DelegationSigned s = true;
  shown_registrar : match store.LookupContact st (domain.Registrar d) with
    | Ok c => w_Registrar w = first_set [card domain.FullName c; card domain.Organization c; domain.ct_Handle c]
        /\ w_RegistrarID w = from_option domain.pid_Identifier "" (head (domain.PublicIDs c))
    | Err _ => w_Registrar w = "" /\ w_RegistrarID w = ""
    end;
  shown_contact : forall wc, wc ∈ w_Contacts w -> exists role hs h c,
    domain.Contacts d !! role = Some hs /\ h ∈ hs /\ store.LookupContact st h = Ok c
    /\ contact_shown role c wc;
  shown_contacts : forall role hs h c, domain.Contacts d !! role = Some hs -> h ∈ hs ->
    store.LookupContact st h = Ok c -> exists wc, wc ∈ w_Contacts w /\ contact_shown role c wc;
  shown_registrant : match List.find (fun wc => Strings.EqualFold (wc_Role wc) "registrant"
                                            && negb (String.eqb (wc_Name wc) "")) (w_Contacts w) with
    | Some wc => w_Registrant w = wc_Name wc
    | None => w_Registrant w = ""
    end;
  shown_hosts : (fun n => (wn_Name n, wn_IPV4 n, wn_IPV6 n)) <$> w_Nameservers w
    = (fun n => (domain.ns_LDHName n, domain.IPV4 n, domain.IPV6 n)) <$> domain.Nameservers d
}.

(** The lines a text must have for a domain to be shown. *)
Definition labelled (k v : string) (ls : list string) : Prop := v <> "" -> (k +:+ ": " +:+ v) ∈ ls.
Record lines_shown `{UnicodeTables} (w : WhoisDomain) (ls : list string) : Prop := {
  lines_name : ("Domain Name: " +:+ w_LDHName w) ∈ ls;
  lines_unicode : w_UnicodeName w <> w_LDHName w ->
    labelled "Internationalized Domain Name" (w_UnicodeName w) ls;
  lines_registrar : labelled "Registrar" (w_Registrar w) ls
    /\ labelled "Registrar IANA ID" (w_RegistrarID w) ls;
  lines_registrant : labelled "Registrant Organization" (w_Registrant w) ls;
  lines_contact : forall c, c ∈ w_Contacts w -> roleLabel (wc_Role c) <> "" ->
    roleLabel (wc_Role c) ∈ ls
    /\ if wc_Redacted c then "   Name: Redacted" ∈ ls
       else labelled "   Name" (wc_Name c) ls /\ labelled "   Organization" (wc_Org c) ls
         /\ labelled "   Email" (wc_Email c) ls /\ labelled "   Phone" (wc_Phone c) ls;
  lines_host : forall n, n ∈ w_Nameservers w -> ("   " +:+ wn_Name n) ∈ ls
    /\ forall ip, ip ∈ wn_IPV4 n -> ("      " +:+ ip) ∈ ls;
  lines_dnssec : ("DNSSEC: " +:+ (if w_DNSSEC w then "signedDelegation" else "unsignedDelegation")) ∈ ls;
  lines_dates : (IsZero (w_CreatedAt w) = false -> ("Creation Date: " +:+ format_rfc3339 (w_CreatedAt w)) ∈ ls)
    /\ (IsZero (w_UpdatedAt w) = false -> ("Updated Date: " +:+ format_rfc3339 (w_UpdatedAt w)) ∈ ls)
    /\ (IsZero (w_ExpiresAt w) = false -> ("Expiration Date: " +:+ format_rfc3339 (w_ExpiresAt w)) ∈ ls);
  lines_status : labelled "Status" (Strings.Join (w_Status w) " ") ls
}.

(** ** Lemmas *)

Lemma ends_crlf s t : (exists p, t = p +:+ crlf) -> exists p, s +:+ t = p +:+ crlf.
Proof. intros [p ->]. exists (s +:+ p). apply (inj bs). by rewrite !bs_app, app_assoc. Qed.
Lemma RenderDomain_crlf `{UnicodeTables} d : exists p, RenderDomain d = p +:+ crlf.
Proof. unfold RenderDomain. do 12 apply ends_crlf. by exists "". Qed.

(** *** A text as its lines *)

Definition text (ls : list string) : string := cat (line <$> ls).
Lemma cat_cons s l : cat (s :: l) = s +:+ cat l.
Proof. unfold cat. destruct l; simpl; [|done]. apply (inj bs). by rewrite bs_app, app_nil_r. Qed.
Lemma cat_app l k : cat (l ++ k) = cat l +:+ cat k.
Proof.
  induction l as [|s l IH]; [done|]. simpl app. rewrite !cat_cons, IH. apply (inj bs).
  by rewrite !bs_app, app_assoc.
Qed.
Lemma text_app l k : text (l ++ k) = text l +:+ text k.
Proof. unfold text. by rewrite fmap_app, cat_app. Qed.
Lemma text_cons s l : text (s :: l) = line s +:+ text l.
Proof. unfold text. by rewrite fmap_cons, cat_cons. Qed.
Lemma text_one s : text [s] = line s.
Proof. done. Qed.
Lemma text_concat {A} (f : A -> string) (g : A -> list string) l :
  (forall x, f x = text (g x)) -> cat (f <$> l) = text (concat (g <$> l)).
Proof.
  intros Hf. induction l as [|x l IH]; [done|]. rewrite fmap_cons, cat_cons, IH, Hf.
  by rewrite fmap_cons, <-text_app.
Qed.
Definition write_lines (k v : string) : list string :=
  if String.eqb v "" then [] else [k +:+ ": " +:+ v].
Lemma write_text k v : write k v = text (write_lines k v).
Proof. unfold write, write_lines. by destruct (String.eqb v ""). Qed.
Definition contact_lines `{UnicodeTables} (c : WhoisContact) : list string :=
  if String.eqb (roleLabel (wc_Role c)) "" then []
  else [""; roleLabel (wc_Role c)] ++
    if wc_Redacted c then ["   Name: Redacted"]
    else write_lines "   Name" (wc_Name c) ++ write_lines "   Organization" (wc_Org c)
      ++ (if String.eqb (wc_Address c) "" then []
          else concat ((fun l => write_lines "   Address" (Strings.TrimSpace l))
                         <$> Strings.Split (wc_Address c) (Ascii.ascii_of_nat 10)))
      ++ write_lines "   Email" (wc_Email c) ++ write_lines "   Phone" (wc_Phone c).
Lemma contact_text `{UnicodeTables} c : render_contact c = text (contact_lines c).
Proof.
  unfold render_contact, contact_lines. destruct (String.eqb (roleLabel _) ""); [done|].
  rewrite text_app, text_cons, text_one. apply (inj bs). rewrite !bs_app, <-!app_assoc.
  change (bs (line "")) with (bs crlf). f_equal. f_equal. f_equal.
  destruct (wc_Redacted c); [done|]. rewrite !text_app, !write_text. do 4 f_equal.
  destruct (String.eqb (wc_Address c) ""); [done|].
  apply text_concat. intros l. apply write_text.
Qed.
Definition host_lines (n : WhoisNameserver) : list string :=
  ("   " +:+ wn_Name n) :: ((fun ip => "      " +:+ ip) <$> wn_IPV4 n).
Lemma host_text n : render_nameserver n = text (host_lines n).
Proof.
  unfold render_nameserver, host_lines. rewrite text_cons. f_equal. unfold text.
  by rewrite <-list_fmap_compose.
Qed.
Definition lines_before (d : WhoisDomain) : list string :=
  ["Domain Name: " +:+ w_LDHName d] ++
  (if negb (String.eqb (w_UnicodeName d) "") && negb (String.eqb (w_UnicodeName d) (w_LDHName d))
   then write_lines "Internationalized Domain Name" (w_UnicodeName d) else []) ++
  write_lines "Registrar" (w_Registrar d) ++ write_lines "Registrar IANA ID" (w_RegistrarID d).
Definition lines_after `{UnicodeTables} (d : WhoisDomain) : list string :=
  concat (contact_lines <$> w_Contacts d) ++
  (if bool_decide (w_Nameservers d = []) then []
   else [""; "Name Server:"] ++ concat (host_lines <$> w_Nameservers d)) ++
  write_lines "DNSSEC" (dnssecString (w_DNSSEC d)) ++
  write_lines "Creation Date" (iso (w_CreatedAt d)) ++
  write_lines "Updated Date" (iso (w_UpdatedAt d)) ++
  write_lines "Expiration Date" (iso (w_ExpiresAt d)) ++
  write_lines "Status" (Strings.Join (w_Status d) " ") ++ [""].
Definition domain_lines `{UnicodeTables} (d : WhoisDomain) : list string :=
  lines_before d ++ write_lines "Registrant Organization" (w_Registrant d) ++ lines_after d.
Lemma RenderDomain_text `{UnicodeTables} d : RenderDomain d = text (domain_lines d).
Proof.
  unfold RenderDomain, domain_lines, lines_before, lines_after. rewrite <-!app_assoc, !text_app, !write_text.
  rewrite (text_concat _ contact_lines) by apply contact_text.
  rewrite (text_concat _ host_lines) by apply host_text.
  assert (Eu : forall (b : bool) ls, (if b then text ls else "") = text (if b then ls else []))
    by by intros [].
  assert (En : forall (b : bool) ls, (if b then "" else text ls) = text (if b then [] else ls))
    by by intros [].
  assert (Ei : forall v ls, write_lines "Registrar IANA ID" v = ls ->
    (if String.eqb v "" then "" else text ls) = text ls)
    by (unfold write_lines; intros v ls <-; by destruct (String.eqb v "")).
  change (crlf +:+ line "Name Server:" +:+ text (concat (host_lines <$> w_Nameservers d)))
    with (line "" +:+ line "Name Server:" +:+ text (concat (host_lines <$> w_Nameservers d))).
  rewrite <-!text_cons, Eu, (Ei _ _ eq_refl), En. done.
Qed.
Lemma write_lines_labelled k v : labelled k v (write_lines k v).
Proof. intros Hv%String.eqb_neq. unfold write_lines. rewrite Hv. left. Qed.
Lemma labelled_app_l k v l1 l2 : labelled k v l1 -> labelled k v (l1 ++ l2).
Proof. intros Hl Hv. apply elem_of_app. left. by apply Hl. Qed.
Lemma labelled_app_r k v l1 l2 : labelled k v l2 -> labelled k v (l1 ++ l2).
Proof. intros Hl Hv. apply elem_of_app. right. by apply Hl. Qed.
Lemma concat_elem {A} (f : A -> list string) l x s : x ∈ l -> s ∈ f x -> s ∈ concat (f <$> l).
Proof.
  intros Hx Hs. apply list_elem_of_In, in_concat. exists (f x).
  split; apply list_elem_of_In; [by apply list_elem_of_fmap_2|done].
Qed.

Lemma format_nonempty t : format_rfc3339 t <> "".
Proof.
  unfold format_rfc3339. destruct (civil_of_days _). intros E. apply (f_equal (fun s => length (bs s))) in E.
  rewrite bs_sb, !length_app in E. simpl in E. lia.
Qed.
Lemma flat_lines `{UnicodeTables} w :
  domain_lines w = ["Domain Name: " +:+ w_LDHName w] ++
  (if negb (String.eqb (w_UnicodeName w) "") && negb (String.eqb (w_UnicodeName w) (w_LDHName w))
   then write_lines "Internationalized Domain Name" (w_UnicodeName w) else []) ++
  write_lines "Registrar" (w_Registrar w) ++ write_lines "Registrar IANA ID" (w_RegistrarID w) ++
  write_lines "Registrant Organization" (w_Registrant w) ++ lines_after w.
Proof. unfold domain_lines, lines_before. by rewrite <-!app_assoc. Qed.
Lemma domain_lines_shown `{UnicodeTables} w : lines_shown w (domain_lines w).
Proof.
  pose proof (flat_lines w) as Hflat. split; rewrite ?Hflat.
  - left.
  - intros Hu. apply labelled_app_r, labelled_app_l. intros Hn. pose proof Hn as Hn'.
    apply String.eqb_neq in Hu, Hn. rewrite Hu, Hn. by apply write_lines_labelled.
  - split.
    + do 2 apply labelled_app_r. apply labelled_app_l, write_lines_labelled.
    + do 3 apply labelled_app_r. apply labelled_app_l, write_lines_labelled.
  - do 4 apply labelled_app_r. apply labelled_app_l, write_lines_labelled.
  - intros c Hc Hl. assert (Hin : forall s, s ∈ contact_lines c -> s ∈ concat (contact_lines <$> w_Contacts w))
      by (intros s; by apply concat_elem).
    assert (Hall : forall s, s ∈ contact_lines c -> s ∈ domain_lines w).
    { intros s Hs%Hin. unfold domain_lines, lines_after. rewrite !elem_of_app. tauto. }
    unfold contact_lines in Hall. apply String.eqb_neq in Hl. rewrite Hl in Hall.
    rewrite <-Hflat. split; [apply Hall; right; left|].
    destruct (wc_Redacted c); [apply Hall; do 2 right; left|].
    unfold labelled. split_and!; intros Hv; apply Hall; apply elem_of_app; right;
      rewrite !elem_of_app; pose proof (write_lines_labelled) as W; unfold labelled in W; auto 10.
  - intros n Hn. assert (Hin : forall s, s ∈ host_lines n -> s ∈ domain_lines w).
    { intros s Hs. unfold domain_lines, lines_after. rewrite !elem_of_app. do 3 right. left.
      rewrite bool_decide_false by (intros E; rewrite E in Hn; by apply elem_of_nil in Hn).
      apply elem_of_app. right. by eapply concat_elem. }
    rewrite <-Hflat. split; [apply Hin; left|]. intros ip Hip. apply Hin. right.
    by apply list_elem_of_fmap_2.
  - unfold lines_after. rewrite !elem_of_app. do 7 right. left. unfold dnssecString, write_lines.
    destruct (w_DNSSEC w); left.
  - unfold lines_after. split_and!; intros Ht; rewrite !elem_of_app;
      [do 8 right; left; set (k := "Creation Date")|do 9 right; left; set (k := "Updated Date")
      |do 10 right; left; set (k := "Expiration Date")]; unfold iso; rewrite Ht;
      exact (write_lines_labelled k _ (format_nonempty _)).
  - unfold lines_after. do 11 apply labelled_app_r. apply labelled_app_l, write_lines_labelled.
Qed.

(** *** What the gateway shows of an aggregate *)

Lemma contactToWhois_shown role c : contact_shown role c (contactToWhois role c).
Proof.
  assert (Hp : negb (String.eqb (domain.Privacy c) "")
      && negb (String.eqb (domain.Privacy c) domain.PrivacyPublic) = true <-> private c).
  { unfold private. rewrite andb_true_iff, !negb_true_iff, !String.eqb_neq. done. }
  unfold contactToWhois.
  destruct (domain.ct_VCard c) as [v|] eqn:Ev; (split; simpl; unfold first_set, card; rewrite ?Ev; simpl; try done).
  - by destruct (String.eqb (domain.FullName v) ""), (String.eqb_spec (domain.ct_Handle c) "") as [->|].
  - by destruct (String.eqb (domain.Email v) ""), (String.eqb_spec (domain.ContactURI v) "") as [->|].
  - by intros ? a [= <-] ->.
  - by destruct (String.eqb_spec (domain.ct_Handle c) "") as [->|].
Qed.
Lemma contactDisplayName_first c :
  contactDisplayName c
  = first_set [card domain.FullName c; card domain.Organization c; domain.ct_Handle c].
Proof.
  unfold contactDisplayName, first_set, card. destruct (domain.ct_VCard c) as [v|]; simpl.
  - by destruct (String.eqb (domain.FullName v) ""), (String.eqb (domain.Organization v) ""),
      (String.eqb_spec (domain.ct_Handle c) "") as [->|].
  - by destruct (String.eqb_spec (domain.ct_Handle c) "") as [->|].
Qed.
Lemma whois_contacts `{UnicodeTables} `{MapRange} agg wc :
  wc ∈ w_Contacts (domainToWhois agg)
  <-> exists role hs h c, domain.Contacts (domain.agg_Domain agg) !! role = Some hs /\ h ∈ hs
        /\ domain.agg_Contacts agg !! h = Some c /\ wc = contactToWhois role c.
Proof.
  simpl. rewrite list_elem_of_In, in_concat. setoid_rewrite <-list_elem_of_In.
  setoid_rewrite list_elem_of_fmap. split.
  - intros (l & ([role hs] & -> & Hr%map_range_elem) & Hw).
    unfold role_contacts in Hw. apply list_elem_of_omap in Hw as (h & Hh & Hc). simpl in *.
    destruct (domain.agg_Contacts agg !! h) as [c|] eqn:Ec; [|done]. injection Hc as <-. eauto 10.
  - intros (role & hs & h & c & Hr & Hh & Hc & ->). exists (role_contacts (domain.agg_Contacts agg) (role, hs)).
    split; [exists (role, hs); split; [done|by apply map_range_elem]|].
    apply list_elem_of_omap. exists h. simpl. by rewrite Hc.
Qed.
Lemma domainToWhois_shown `{UnicodeTables} `{MapRange} st name agg :
  store.coherent st name agg -> domain_shown st (domain.agg_Domain agg) (domainToWhois agg).
Proof.
  intros Hc. split; simpl; try done.
  - destruct (domain.d_SecureDNS _) as [s|]; [|by split; [|intros (? & ? & _)]].
    split; [by exists s|]. by intros (? & [= <-] & ?).
  - pose proof (store.coherent_registrar _ _ _ Hc) as Hr.
    destruct (store.LookupContact st _) as [c|e] eqn:El.
    + rewrite (proj2 (Hr c) eq_refl). simpl. split; [apply contactDisplayName_first|done].
    + destruct (domain.agg_Registrar agg) as [c|]; [|done]. by specialize (proj1 (Hr c) eq_refl).
  - intros wc (role & hs & h & c & Hr & Hh & Ha & ->)%whois_contacts. exists role, hs, h, c.
    split_and!; [done|done|by eapply store.coherent_contacts|apply contactToWhois_shown].
  - intros role hs h c Hr Hh Hl. exists (contactToWhois role c). split; [|apply contactToWhois_shown].
    apply whois_contacts. exists role, hs, h, c. split_and!; [done|done| |done].
    by eapply store.coherent_roles.
  - unfold is_registrant. by destruct (List.find _ _).
  - by rewrite <-list_fmap_compose.
Qed.

(** *** Private contacts *)

Lemma render_redacted `{UnicodeTables} role x y :
  private x -> private y -> contact_lines (contactToWhois role x) = contact_lines (contactToWhois role y).
Proof.
  intros Hx Hy. destruct (contactToWhois_shown role x) as [Rx Px _ _ _ _ _],
    (contactToWhois_shown role y) as [Ry Py _ _ _ _ _].
  unfold contact_lines. by rewrite Rx, Ry, (proj2 Px Hx), (proj2 Py Hy).
Qed.
Lemma same_public_contacts `{UnicodeTables} `{MapRange} a b :
  same_public a b ->
  contact_lines <$> w_Contacts (domainToWhois a) = contact_lines <$> w_Contacts (domainToWhois b).
Proof.
  intros [Hd _ Hc]. simpl. rewrite Hd. generalize (map_range (domain.Contacts (domain.agg_Domain b))).
  intros l. induction l as [|[role hs] l IHl]; [done|].
  rewrite !fmap_cons. simpl concat. rewrite !fmap_app, IHl. f_equal. unfold role_contacts. simpl.
  induction hs as [|h hs IH]; [done|]. simpl. specialize (Hc h).
  destruct (domain.agg_Contacts a !! h) as [x|], (domain.agg_Contacts b !! h) as [y|]; try done.
  simpl. f_equal; [|exact IH]. destruct Hc as [->|[Hx Hy]]; [done|]. by apply render_redacted.
Qed.
(** The top-level registrant field is not redacted. *)
Lemma registrant_named `{UnicodeTables} `{MapRange} agg h c :
  map_range (domain.Contacts (domain.agg_Domain agg)) = [("registrant", [h])] ->
  domain.agg_Contacts agg !! h = Some c -> card domain.FullName c <> "" ->
  w_Registrant (domainToWhois agg) = card domain.FullName c.
Proof.
  intros Hr Hc Hn. destruct (contactToWhois_shown "registrant" c) as [Ro _ Na _ _ _ _].
  assert (En : wc_Name (contactToWhois "registrant" c) = card domain.FullName c).
  { rewrite Na. unfold first_set. simpl. apply String.eqb_neq in Hn. by rewrite Hn. }
  assert (Er : is_registrant (contactToWhois "registrant" c) = true).
  { unfold is_registrant. rewrite En, Ro. apply String.eqb_neq in Hn. rewrite Hn, andb_true_r.
    by rewrite EqualFold_ascii. }
  assert (E : role_contacts (domain.agg_Contacts agg) ("registrant", [h])
              = [contactToWhois "registrant" c]) by (unfold role_contacts; simpl; by rewrite Hc).
  unfold domainToWhois. cbn [w_Registrant]. rewrite Hr, list_fmap_singleton, E. cbn [concat].
  rewrite app_nil_r. cbn [List.find]. by rewrite Er.
Qed.

(** A token with a dot is not the letters [as] and a number. *)
Lemma numeric_no_dot `{UnicodeTables} t :
  all_ascii (bs t) = true -> Strings.Contains t "." = true ->
  (Strings.HasPrefix (Strings.ToLower t) "as"
   && isNumeric (sb (drop 2 (bs (Strings.ToLower t))))) = false.
Proof.
  intros Ha Hd. apply bool_decide_eq_true in Hd. rewrite ToLower_ascii, bs_sb by done.
  unfold Strings.HasPrefix. rewrite bs_sb.
  assert (Hd' : "."%char ∈ lower_byte <$> bs t) by (apply list_elem_of_fmap; by exists "."%char).
  apply all_ascii_lower in Ha. revert Ha Hd'. generalize (lower_byte <$> bs t). intros l Ha Hd'.
  destruct (has_prefix _ l) eqn:Hp; [|done]. simpl.
  destruct l as [|a [|b l]]; [done|simpl in Hp; by rewrite andb_false_r in Hp|].
  simpl in Hp. rewrite !andb_true_iff, !bool_decide_eq_true in Hp.
  destruct Hp as (<- & <- & _). simpl.
  rewrite !elem_of_cons in Hd'. destruct Hd' as [?|[?|Hd']]; [done|done|].
  unfold isNumeric. rewrite bs_sb. apply andb_false_iff. right.
  assert (Al : all_ascii l = true).
  { apply all_ascii_Forall. apply all_ascii_Forall in Ha.
    apply Forall_cons in Ha as [_ Ha]. by apply Forall_cons in Ha as [_ Ha]. }
  rewrite runes_ascii by done. apply not_true_iff_false. rewrite forallb_forall.
  intros Hf. specialize (Hf 46). apply not_true_iff_false in Hf; [done|done|].
  apply list_elem_of_In, list_elem_of_fmap. by exists "."%char.
Qed.
Lemma all_ascii_infix l a b c : all_ascii l = true -> l = a ++ b ++ c -> all_ascii b = true.
Proof.
  intros Hl ->. apply all_ascii_Forall in Hl. apply all_ascii_Forall.
  apply Forall_app in Hl as [_ Hl]. by apply Forall_app in Hl as [Hl _].
Qed.

Section properties.
Context `{UnicodeTables}.

(** C38: query parsing never indexes an empty list: every ASCII line that is not
    blank gives one of the five kinds and a target that is a field of the line,
    and a single token with a dot and no slash is a domain query exactly when it
    does not begin with the letters ns. *)
Theorem parseQuery_spec ln :
  all_ascii (bs ln) = true -> Strings.TrimSpace ln <> "" ->
  exists target kind, parseQuery ln = Some (target, kind) /\ kind ∈ kinds
    /\ field_of (bs (Strings.TrimSpace ln)) (bs target)
    /\ (Strings.Fields (Strings.TrimSpace ln) = [target] ->
         Strings.Contains target "." = true -> Strings.Contains target "/" = false ->
         kind = if Strings.HasPrefix (Strings.ToLower target) "ns" then "nameserver" else "domain").
Proof.
  intros Ha Hn. destruct (Fields_TrimSpace ln Ha Hn) as [At Hf].
  unfold parseQuery. apply String.eqb_neq in Hn. rewrite Hn.
  destruct (Strings.Fields (Strings.TrimSpace ln)) as [|t rest] eqn:Ef; [done|].
  assert (Hfield : forall w, w ∈ t :: rest -> field_of (bs (Strings.TrimSpace ln)) (bs w)).
  { intros w Hw. apply Fields_ascii; [done|]. by rewrite Ef. }
  assert (Hdetect : exists target kind, Some (t, detect t) = Some (target, kind) /\ kind ∈ kinds
    /\ field_of (bs (Strings.TrimSpace ln)) (bs target)
    /\ (t :: rest = [target] ->
         Strings.Contains target "." = true -> Strings.Contains target "/" = false ->
         kind = if Strings.HasPrefix (Strings.ToLower target) "ns" then "nameserver" else "domain")).
  { exists t, (detect t). split; [done|]. split_and!.
    - unfold detect, kinds. repeat case_match; rewrite !elem_of_cons; tauto.
    - apply Hfield. left.
    - intros _ Hd Hs. destruct (field_infix _ _ (Hfield t ltac:(left))) as (x & y & Hxy).
      unfold detect. rewrite Hd, Hs, numeric_no_dot by (try done; by eapply all_ascii_infix).
      by rewrite andb_true_r. }
  destruct rest as [|target rest]; [exact Hdetect|].
  destruct (keyword_kind (Strings.ToLower t)) as [kind|] eqn:Ek; [|exact Hdetect].
  exists target, kind. split; [done|]. split_and!.
  - revert Ek. unfold keyword_kind, kinds. repeat case_match; intros [= <-];
      rewrite !elem_of_cons; tauto.
  - apply Hfield. right. left.
  - done.
Qed.


(** C39: over any store that meets the storage contract, a domain query is
    answered with the stored domain when the store knows the name (lower-cased,
    without a final dot) and with NOT FOUND otherwise.  The answer is lines; those of
    a known domain include its names, status values, dates, DNSSEC flag, nameservers
    with their IPv4 addresses, the registrar record's name and IANA number, and, for
    every contact the store holds and every labelled role it has in the domain (the
    registrar has none), the role, with its name, organisation, e-mail and
    telephone, or with the word Redacted. *)
Theorem answer_spec `{MapRange} st `{!store.StoreSpec st} ln :
  match parseQuery ln with
  | Some (query, kind) =>
      exists ls, answer (StoreLookup st) ln = Some (text ls)
        /\ (kind = "domain" ->
            match store.LookupDomain st (Strings.ToLower (Strings.TrimSuffix query ".")) with
            | Ok d => exists w, domain_shown st d w /\ lines_shown w ls
            | Err _ => ls = ["NOT FOUND"; ""; "% No entries found for the selected source(s)."]
            end)
  | None => answer (StoreLookup st) ln = None
  end.
Proof.
  unfold answer. destruct (parseQuery ln) as [[query kind]|]; [|done]. simpl.
  destruct (String.eqb_spec kind "domain") as [->|Hk].
  - unfold StoreLookup. set (name := Strings.ToLower _).
    destruct (store.GetDomainAggregate st name) as [agg|e] eqn:Ea.
    + pose proof (store.spec_coherent _ _ Ea) as Hc. exists (domain_lines (domainToWhois agg)).
      split; [by rewrite RenderDomain_text|]. intros _. rewrite (store.coherent_domain _ _ _ Hc).
      exists (domainToWhois agg). split; [by eapply domainToWhois_shown|apply domain_lines_shown].
    + exists ["NOT FOUND"; ""; "% No entries found for the selected source(s)."]. split; [done|].
      intros _. destruct (store.LookupDomain st name) as [d|] eqn:Ed; [|done].
      destruct (store.spec_found _ _ Ed) as [agg Eg]. congruence.
  - case_match.
    + exists ["% This WHOIS gateway serves domain name lookups.";
        "% Query type " +:+ Strconv.Quote kind
          +:+ " is not supported here; use the RDAP service at /rdap instead.";
        "% e.g. GET /rdap/domain/" +:+ query]. done.
    + by exists ["INVALID QUERY"; ""; "% Unrecognized query."].
Qed.

End properties.

(** ** Witnesses *)

Section witnesses.
#[local] Existing Instances ascii_tables range_backward glob_engine.

Definition demo : store.Interface := memory.interface memory.demo.
#[local] Instance whois_demo_spec : store.StoreSpec demo.
Proof. apply memory.interface_spec. Qed.

Lemma parseQuery_spec_witness :
  exists kind, parseQuery " domain example.com " = Some ("example.com", kind) /\ kind ∈ kinds.
Proof.
  destruct (parseQuery_spec " domain example.com ") as (target & kind & E & Hk & _);
    [reflexivity|discriminate|].
  assert (Et : target = "example.com") by (vm_compute in E; congruence). subst target.
  exists kind. split; [exact E|exact Hk].
Defined.

(** Two aggregates of a domain whose registrant is private. *)
Definition demo_aggregate (email : string) : domain.DomainAggregate :=
  domain.mkDomainAggregate
    (domain.mkDomain "EX1-NAME" "example.com" "" "com" [] zero_time
       (<["registrant" := ["R"]]> ∅) [] None "" memory.no_metadata)
    None
    (<["R" := domain.mkContact "R" ["registrant"] []
       (Some (domain.mkVCard "4.0" "Alice" "" "Org" None "" "" email "")) [] domain.PrivacyRedacted
       "" "" [] memory.no_metadata]> ∅) ∅.

Lemma answer_spec_witness :
  exists ls w, answer (StoreLookup demo) "example.com" = Some (text ls)
    /\ domain_shown demo (memory.seed_domain zero_time) w /\ lines_shown w ls
    /\ w_Registrar w = "Example Registrar Inc." /\ w_RegistrarID w = "2".
Proof.
  pose proof (answer_spec demo "example.com") as L.
  replace (parseQuery "example.com") with (Some ("example.com", "domain")) in L
    by (vm_compute; reflexivity).
  destruct L as (ls & E & L). specialize (L eq_refl).
  replace (store.LookupDomain demo (Strings.ToLower (Strings.TrimSuffix "example.com" ".")))
    with (Ok (memory.seed_domain zero_time)) in L by (vm_compute; reflexivity).
  destruct L as (w & Hd & Hl). exists ls, w. split; [exact E|]. split; [exact Hd|]. split; [exact Hl|].
  exact (shown_registrar _ _ _ Hd).
Defined.

End witnesses.
End whois.
