(* ===== verification/WhoisServer.v ===== *)
(** * The WHOIS listener (internal/whois/whois.go)

    [Listen], [Addr], [Serve] with its accept loop and its closing goroutine,
    [Shutdown] and the connection handlers, as a machine whose steps are the
    atomic actions of the goroutines and of the network.  The interleaving is the
    sequence of steps; a section under the mutex is one step. *)

From stdpp Require Import base tactics option list gmap strings.
From Stdlib Require Import ZArith Lia.
From S2P Require Import Prelude GoStrings Domain Store MemoryStore GoRegexp Whois.
#[local] Open Scope Z_scope.

Module gateway.

(** ** State *)

(** A connection: its number and the bytes its client sends before it stops or
    the read deadline passes. *)
Record conn := mkConn { c_id : nat; c_input : string }.
(** A listener of the operating system: not yet accepted connections wait in
    the backlog; closing it resets them. *)
Record listener := mkListener { l_addr : string; l_open : bool; l_backlog : list conn }.

(** Where [Serve] is: not called, at [ln.Accept()], after a failed accept, or
    returned with its error. *)
Inductive serve_pc : Type :=
  | NotServing
  | Accepting (ln : nat)
  | AcceptFailed (ln : nat) (e : error)
  | Returned (r : result unit).

(** [Server] ([sv_ln] its field [ln], an index into the listeners) with what its
    goroutines hold. *)
Record Server := mkServer {
  sv_addr : string;
  sv_ln : option nat;
  sv_listeners : list listener;
  sv_serve : serve_pc;
  sv_closer : option nat;
  sv_cancelled : bool;
  sv_handlers : list conn;
  sv_closed : list (conn * option string);
  sv_warnings : nat
}.

Definition New (addr : string) : Server :=
  mkServer addr None [] NotServing None false [] [] 0.

Definition set_ln (l : option nat) (s : Server) : Server :=
  mkServer (sv_addr s) l (sv_listeners s) (sv_serve s) (sv_closer s) (sv_cancelled s)
    (sv_handlers s) (sv_closed s) (sv_warnings s).
Definition set_listeners (ls : list listener) (s : Server) : Server :=
  mkServer (sv_addr s) (sv_ln s) ls (sv_serve s) (sv_closer s) (sv_cancelled s)
    (sv_handlers s) (sv_closed s) (sv_warnings s).
Definition set_serve (pc : serve_pc) (s : Server) : Server :=
  mkServer (sv_addr s) (sv_ln s) (sv_listeners s) pc (sv_closer s) (sv_cancelled s)
    (sv_handlers s) (sv_closed s) (sv_warnings s).
Definition set_closer (c : option nat) (s : Server) : Server :=
  mkServer (sv_addr s) (sv_ln s) (sv_listeners s) (sv_serve s) c (sv_cancelled s)
    (sv_handlers s) (sv_closed s) (sv_warnings s).
Definition cancel (s : Server) : Server :=
  mkServer (sv_addr s) (sv_ln s) (sv_listeners s) (sv_serve s) (sv_closer s) true
    (sv_handlers s) (sv_closed s) (sv_warnings s).
Definition set_handlers (hs : list conn) (s : Server) : Server :=
  mkServer (sv_addr s) (sv_ln s) (sv_listeners s) (sv_serve s) (sv_closer s) (sv_cancelled s)
    hs (sv_closed s) (sv_warnings s).
Definition close_conn (c : conn) (out : option string) (s : Server) : Server :=
  mkServer (sv_addr s) (sv_ln s) (sv_listeners s) (sv_serve s) (sv_closer s) (sv_cancelled s)
    (sv_handlers s) (sv_closed s ++ [(c, out)]) (sv_warnings s).
Definition warn (s : Server) : Server :=
  mkServer (sv_addr s) (sv_ln s) (sv_listeners s) (sv_serve s) (sv_closer s) (sv_cancelled s)
    (sv_handlers s) (sv_closed s) (S (sv_warnings s)).

Definition errClosed : error := ErrSentinel "use of closed network connection".
(** [ln.Close()]: an error when it is closed already. *)
Definition Close (i : nat) (s : Server) : Server * result unit :=
  match sv_listeners s !! i with
  | Some l =>
      (set_listeners (<[i := mkListener (l_addr l) false []]> (sv_listeners s)) s,
       if l_open l then Ok tt else Err errClosed)
  | None => (s, Err errClosed)
  end.

(** ** Operations *)

(** [net.Listen] is the environment's: the bound address or an error. *)
Definition Listen (bind : result string) (s : Server) : Server * result unit :=
  match bind with
  | Err err => (s, Err (ErrWrap ("whois listen " +:+ sv_addr s +:+ ": ") err))
  | Ok a =>
      (set_ln (Some (length (sv_listeners s)))
         (set_listeners (sv_listeners s ++ [mkListener a true []]) s), Ok tt)
  end.

Definition Addr (s : Server) : option string :=
  i ← sv_ln s; l_addr <$> sv_listeners s !! i.

(** [Serve] up to the loop: it starts the goroutine that waits for the context. *)
Definition errNotListening : error :=
  ErrText "whois serve: listener not started; call Listen first".
Definition Serve (s : Server) : Server :=
  match sv_ln s with
  | None => set_serve (Returned (Err errNotListening)) s
  | Some ln => set_serve (Accepting ln) (set_closer (Some ln) s)
  end.

(** [conn, err := ln.Accept()] with a connection: [go s.handle(conn)]. *)
Definition accept (ln : nat) (s : Server) : option Server :=
  l ← sv_listeners s !! ln;
  match l_open l, l_backlog l with
  | true, c :: rest =>
      Some (set_handlers (sv_handlers s ++ [c])
              (set_listeners (<[ln := mkListener (l_addr l) true rest]> (sv_listeners s)) s))
  | _, _ => None
  end.
(** The same with an error: certain once the listener is closed; an open one may
    fail for reasons of its own. *)
Definition accept_error (ln : nat) (transient : error) (s : Server) : option Server :=
  l ← sv_listeners s !! ln;
  Some (set_serve (AcceptFailed ln (if l_open l then transient else errClosed)) s).
(** [select]: return when the context is done, else warn and try again. *)
Definition after_error (ln : nat) (s : Server) : Server :=
  if sv_cancelled s then set_serve (Returned (Ok tt)) s
  else set_serve (Accepting ln) (warn s).

Definition Shutdown (s : Server) : Server * result unit :=
  match sv_ln s with
  | Some ln => let '(s, err) := Close ln s in (set_ln None s, err)
  | None => (s, Ok tt)
  end.

(** ** Steps *)

Inductive event : Type :=
  | EListen (bind : result string)   (* Listen returns *)
  | EServe                           (* Serve is called *)
  | EConnect (ln : nat) (c : conn)   (* a client connects *)
  | EAccept                          (* the loop: Accept returns a connection *)
  | EAcceptError (e : error)         (* the loop: Accept fails *)
  | ESelect                          (* the loop: the select after a failure *)
  | ECloser                          (* the goroutine of Serve closes the listener *)
  | EHandle (i : nat)                (* a handler answers and closes *)
  | ECancel                          (* the context is cancelled *)
  | EShutdown.                       (* Shutdown is called *)

Section steps.
Context `{UnicodeTables} (lookup : whois.LookupFunc).

Definition step (ev : event) (s : Server) : option Server :=
  match ev with
  | EListen bind => Some (Listen bind s).1
  | EServe => match sv_serve s with NotServing => Some (Serve s) | _ => None end
  | EConnect i c =>
      l ← sv_listeners s !! i;
      if l_open l then
        Some (set_listeners (<[i := mkListener (l_addr l) true (l_backlog l ++ [c])]>
                               (sv_listeners s)) s)
      else None
  | EAccept => match sv_serve s with Accepting ln => accept ln s | _ => None end
  | EAcceptError e => match sv_serve s with Accepting ln => accept_error ln e s | _ => None end
  | ESelect => match sv_serve s with AcceptFailed ln _ => Some (after_error ln s) | _ => None end
  | ECloser =>
      match sv_closer s with
      | Some ln => if sv_cancelled s then Some (set_closer None (Close ln s).1) else None
      | None => None
      end
  | EHandle i =>
      c ← sv_handlers s !! i;
      Some (close_conn c (whois.handle lookup (c_input c))
              (set_handlers (list_delete i (sv_handlers s)) s))
  | ECancel => Some (cancel s)
  | EShutdown => Some (Shutdown s).1
  end.

(** The connections the server knows: waiting, in a handler, closed.  Every new
    connection gets a number of its own. *)
Definition backlogs (ls : list listener) : list conn := concat (l_backlog <$> ls).
Definition known (s : Server) : list conn :=
  backlogs (sv_listeners s) ++ sv_handlers s ++ (sv_closed s).*1.
Definition fresh_event (ev : event) (s : Server) : Prop :=
  match ev with EConnect _ c => c_id c ∉ c_id <$> known s | _ => True end.

Inductive reachable (addr : string) : Server -> Prop :=
  | reach_New : reachable addr (New addr)
  | reach_step s ev s' :
      reachable addr s -> fresh_event ev s -> step ev s = Some s' -> reachable addr s'.

Fixpoint steps (evs : list event) (s : Server) : option Server :=
  match evs with
  | [] => Some s
  | ev :: evs => s' ← step ev s; steps evs s'
  end.

(** ** Specifications *)

(** The listener [ln] exists and is closed. *)
Definition closed (ln : nat) (s : Server) : Prop :=
  exists l, sv_listeners s !! ln = Some l /\ l_open l = false.
(** The loop runs on listener [ln]. *)
Definition serving (ln : nat) (s : Server) : Prop :=
  match sv_serve s with Accepting i | AcceptFailed i _ => i = ln | _ => False end.

(** Where a connection can be: in the backlog of an open listener, in a handler,
    closed; or dropped, with the backlog it was waiting in, by the step that
    closed its listener. *)
Definition waiting (i : nat) (c : conn) (s : Server) : Prop :=
  exists l, sv_listeners s !! i = Some l /\ l_open l = true /\ c ∈ l_backlog l.
Definition held (c : conn) (s : Server) : Prop := c ∈ sv_handlers s \/ c ∈ (sv_closed s).*1.
Definition dropped (addr : string) (evs : list event) (i : nat) (c : conn) : Prop :=
  exists pre ev post t t', evs = pre ++ ev :: post /\ steps pre (New addr) = Some t
    /\ step ev t = Some t' /\ waiting i c t /\ closed i t'.

(** The address bound last, unless [Shutdown] came after. *)
Definition rebind (bound : option string) (ev : event) : option string :=
  match ev with EListen (Ok a) => Some a | EShutdown => None | _ => bound end.
Definition bound (evs : list event) : option string := foldl rebind None evs.
(** The loop runs on a listener with address [a], or has returned nil after the
    cancellation. *)
Definition serves (a : string) (s : Server) : Prop :=
  (exists ln l, serving ln s /\ sv_listeners s !! ln = Some l /\ l_addr l = a)
  \/ sv_serve s = Returned (Ok tt) /\ sv_cancelled s = true.

Record inv (s : Server) : Prop := {
  inv_ln : forall i, sv_ln s = Some i -> (i < length (sv_listeners s))%nat;
  inv_closer : forall i, sv_closer s = Some i -> (i < length (sv_listeners s))%nat;
  (** the loop's listener will be closed by the waiting goroutine, or is closed *)
  inv_serving : forall i, serving i s -> sv_closer s = Some i \/ closed i s;
  inv_returned : forall r, sv_serve s = Returned r ->
    match r with Ok _ => sv_cancelled s = true | Err e => e = errNotListening end;
  inv_known : NoDup (c_id <$> known s);
  inv_answers : Forall (fun p => p.2 = whois.handle lookup (c_input p.1)) (sv_closed s)
}.

(** ** Lemmas *)

Lemma backlogs_split ls i l :
  ls !! i = Some l -> exists rest, backlogs ls ≡ₚ l_backlog l ++ rest
    /\ forall l', backlogs (<[i := l']> ls) ≡ₚ l_backlog l' ++ rest.
Proof.
  intros Hi. exists (backlogs (take i ls) ++ backlogs (drop (S i) ls)). unfold backlogs.
  split; [rewrite <-(take_drop_middle ls i l Hi) at 1|intros l'; rewrite insert_take_drop
    by (by eapply lookup_lt_Some)]; rewrite fmap_app, fmap_cons, concat_app; simpl; solve_Permutation.
Qed.

Definition arrived (ev : event) : list conn := match ev with EConnect _ c => [c] | _ => [] end.

(** A step loses connections by closing a listener only, and invents none. *)
Lemma Close_known i s : exists dropped, known s ≡ₚ known (Close i s).1 ++ dropped.
Proof.
  unfold Close. destruct (sv_listeners s !! i) as [l|] eqn:E; [|exists []; by rewrite app_nil_r].
  destruct (backlogs_split _ _ _ E) as (rest & H1 & H2).
  exists (l_backlog l). unfold known. simpl. rewrite H1, H2. simpl. solve_Permutation.
Qed.
Lemma step_known ev s s' :
  step ev s = Some s' -> exists dropped, arrived ev ++ known s ≡ₚ known s' ++ dropped.
Proof.
  assert (Hid : forall s', known s' = known s ->
            exists dropped, [] ++ known s ≡ₚ known s' ++ dropped)
    by (intros ? ->; exists []; by rewrite app_nil_r).
  destruct ev as [bind| |i c| |e| | |i| |]; simpl.
  - intros [= <-]. apply Hid. destruct bind; [|done]. unfold known, backlogs. simpl.
    by rewrite fmap_app, concat_app, app_nil_r.
  - destruct (sv_serve s); [|done..]. intros [= <-]. apply Hid. unfold Serve. by destruct (sv_ln s).
  - destruct (sv_listeners s !! i) as [l|] eqn:E; simpl; [|done].
    destruct (l_open l); [|done]. intros [= <-]. exists [].
    destruct (backlogs_split _ _ _ E) as (rest & H1 & H2).
    unfold known. simpl. rewrite H1, H2. simpl. solve_Permutation.
  - destruct (sv_serve s) as [|ln| |]; [done| |done..]. unfold accept.
    destruct (sv_listeners s !! ln) as [l|] eqn:E; simpl; [|done].
    destruct (l_open l), (l_backlog l) as [|c rest] eqn:Eb; try done. intros [= <-]. exists [].
    destruct (backlogs_split _ _ _ E) as (rest' & H1 & H2).
    unfold known. simpl. rewrite H1, H2, Eb. simpl. solve_Permutation.
  - destruct (sv_serve s) as [|ln| |]; [done| |done..]. unfold accept_error.
    destruct (sv_listeners s !! ln); [|done]. intros [= <-]. by apply Hid.
  - destruct (sv_serve s); [done..| |done]. intros [= <-]. apply Hid. unfold after_error.
    by destruct (sv_cancelled s).
  - destruct (sv_closer s); [|done]. destruct (sv_cancelled s); [|done]. intros [= <-].
    apply (Close_known n s).
  - destruct (sv_handlers s !! i) as [c|] eqn:E; [|done]. intros [= <-]. exists [].
    pose proof (delete_Permutation _ _ _ E) as P. unfold known. simpl. rewrite fmap_app. simpl.
    rewrite P at 1. solve_Permutation.
  - intros [= <-]. by apply Hid.
  - intros [= <-]. unfold Shutdown. destruct (sv_ln s) as [ln|]; [|by apply Hid].
    destruct (Close_known ln s) as [d Hd]. exists d. by destruct (Close ln s).
Qed.

(** *** How the fields change *)

(** Case analysis of a step. *)
#[local] Ltac step_cases Hs :=
  unfold step, Listen, Serve, accept, accept_error, after_error, Shutdown, Close in Hs;
  simplify_option_eq; repeat (case_match; simplify_option_eq); simplify_eq/=.

#[local] Ltac step_done :=
  first [done|congruence|by eauto|left; congruence|right; congruence|exfalso; congruence].

Lemma step_cancelled ev s s' :
  step ev s = Some s' -> sv_cancelled s = true -> sv_cancelled s' = true.
Proof. intros Hs Hc. destruct ev; step_cases Hs; step_done. Qed.
Lemma step_not_cancelled ev s s' :
  step ev s = Some s' -> ev <> ECancel -> sv_cancelled s = false -> sv_cancelled s' = false.
Proof. intros Hs He Hc. destruct ev; step_cases Hs; done. Qed.

(** Listeners stay, and a closed one stays closed. *)
Lemma step_listeners ev s s' :
  step ev s = Some s' -> (length (sv_listeners s) <= length (sv_listeners s'))%nat.
Proof. intros Hs. destruct ev; step_cases Hs; rewrite ?length_app, ?length_insert; lia. Qed.
Lemma closed_insert (i j : nat) l b (ls : list listener) :
  (exists l, ls !! i = Some l /\ l_open l = false) -> ls !! j = Some l ->
  (l_open l = false -> l_open b = false) ->
  exists l', <[j := b]> ls !! i = Some l' /\ l_open l' = false.
Proof.
  intros (k & Hk & Ho) Hj Hb. destruct (decide (i = j)) as [->|Hij].
  - exists b. rewrite list_lookup_insert_eq by (by eapply lookup_lt_Some).
    split; [done|]. apply Hb. congruence.
  - exists k. by rewrite list_lookup_insert_ne.
Qed.
Lemma step_closed i ev s s' : step ev s = Some s' -> closed i s -> closed i s'.
Proof.
  intros Hs Hc. unfold closed in *. destruct ev; step_cases Hs; try done.
  all: try (eapply closed_insert; [exact Hc|eassumption|simpl; congruence]).
  destruct Hc as (k & Hk & Ho). exists k. split; [|done]. by apply lookup_app_l_Some.
Qed.
Lemma Close_closed i s : (i < length (sv_listeners s))%nat -> closed i (Close i s).1.
Proof.
  intros [l Hl]%lookup_lt_is_Some_2. unfold closed, Close. rewrite Hl. simpl.
  exists (mkListener (l_addr l) false []). split; [|done].
  apply list_lookup_insert_eq. by eapply lookup_lt_Some.
Qed.

(** The loop stays on its listener until it returns. *)
Lemma step_serving i ev s s' :
  step ev s = Some s' -> serving i s -> serving i s' \/ sv_serve s' = Returned (Ok tt).
Proof. intros Hs Hc. unfold serving in *. destruct ev; step_cases Hs; step_done. Qed.
Lemma step_serving_from i ev s s' :
  step ev s = Some s' -> serving i s' -> serving i s \/ sv_closer s' = Some i.
Proof. intros Hs Hc. unfold serving in *. destruct ev; step_cases Hs; step_done. Qed.
Lemma step_returned r ev s s' :
  step ev s = Some s' -> sv_serve s = Returned r -> sv_serve s' = Returned r.
Proof. intros Hs Hc. destruct ev; step_cases Hs; step_done. Qed.
Lemma step_closer i ev s s' :
  step ev s = Some s' -> sv_closer s = Some i -> (i < length (sv_listeners s))%nat ->
  sv_serve s <> NotServing ->
  sv_closer s' = Some i \/ (ev = ECloser /\ closed i s').
Proof.
  intros Hs Hc Hi Hn. destruct ev; try (left; step_cases Hs; done).
  right. split; [done|]. simpl in Hs. rewrite Hc in Hs. destruct (sv_cancelled s); [|done].
  injection Hs as <-. apply (Close_closed i s Hi).
Qed.

(** *** Where the connections are *)

Lemma step_held c ev s s' : step ev s = Some s' -> held c s -> held c s'.
Proof.
  unfold held. intros Hs [Hh|Hc]; destruct ev; step_cases Hs; rewrite ?fmap_app, ?elem_of_app; auto.
  match goal with E : sv_handlers s !! _ = Some _ |- _ => rewrite (delete_Permutation _ _ _ E) in Hh end.
  apply elem_of_cons in Hh as [->|Hh]; [|by left]. right. right. left.
Qed.
Lemma step_waiting i c ev s s' :
  step ev s = Some s' -> waiting i c s -> waiting i c s' \/ held c s' \/ closed i s'.
Proof.
  intros Hs (l & Hl & Ho & Hc). unfold waiting, held, closed.
  assert (Hlt : (i < length (sv_listeners s))%nat) by by eapply lookup_lt_Some.
  assert (Hins : forall j b, sv_listeners s' = <[j := b]> (sv_listeners s) ->
    j <> i \/ (l_open b = true /\ c ∈ l_backlog b) ->
    exists l, sv_listeners s' !! i = Some l /\ l_open l = true /\ c ∈ l_backlog l).
  { intros j b -> Hb. destruct (decide (j = i)) as [->|Hj].
    - exists b. rewrite list_lookup_insert_eq by done. split; [done|]. by destruct Hb.
    - exists l. by rewrite list_lookup_insert_ne by congruence. }
  assert (Hcl : forall j a, sv_listeners s' = <[j := mkListener a false []]> (sv_listeners s) -> 
    (exists l, sv_listeners s' !! i = Some l /\ l_open l = true /\ c ∈ l_backlog l)
    \/ exists l, sv_listeners s' !! i = Some l /\ l_open l = false).
  { intros j a Hs'. destruct (decide (j = i)) as [->|Hj]; [right|left; by eauto].
    rewrite Hs', list_lookup_insert_eq by done. eauto. }
  destruct ev; step_cases Hs; try (left; by eauto); try (destruct (Hcl _ _ eq_refl); tauto).
  - left. exists l. by rewrite lookup_app_l.
  - left. eapply Hins; [done|]. destruct (decide (ln = i)) as [->|]; [right|by left].
    simplify_eq. split; [done|]. apply elem_of_app. by left.
  - destruct (decide (ln = i)) as [->|]; [|left; eapply Hins; [done|by left]]. simplify_eq.
    match goal with E : l_backlog _ = _ :: _ |- _ => rewrite E in Hc end.
    apply elem_of_cons in Hc as [->|Hc]; [right; left; left; apply elem_of_app; right; left|].
    left. eapply Hins; [done|by right].
Qed.
Lemma step_connect i c s s' : step (EConnect i c) s = Some s' -> waiting i c s'.
Proof.
  intros Hs. unfold waiting. step_cases Hs. eexists. rewrite list_lookup_insert_eq
    by (by eapply lookup_lt_Some). split; [done|]. split; [done|]. apply elem_of_app. right. left.
Qed.
Lemma inv_New addr : inv (New addr).
Proof. split; try done; constructor. Qed.
Lemma step_ln_bound ev s s' i :
  (forall i, sv_ln s = Some i -> (i < length (sv_listeners s))%nat) ->
  step ev s = Some s' -> sv_ln s' = Some i -> (i < length (sv_listeners s'))%nat.
Proof.
  intros I Hs Hi. destruct ev; step_cases Hs;
    rewrite ?length_app, ?length_insert; simpl; try lia; eauto.
Qed.
Lemma step_closer_bound ev s s' i :
  (forall i, sv_ln s = Some i -> (i < length (sv_listeners s))%nat) ->
  (forall i, sv_closer s = Some i -> (i < length (sv_listeners s))%nat) ->
  step ev s = Some s' -> sv_closer s' = Some i -> (i < length (sv_listeners s'))%nat.
Proof.
  intros I1 I2 Hs Hi. pose proof (step_listeners _ _ _ Hs) as Hl.
  apply Nat.lt_le_trans with (length (sv_listeners s)); [|exact Hl]. clear Hl.
  destruct ev; step_cases Hs; eauto.
Qed.
Lemma step_returned_from ev s s' r :
  step ev s = Some s' -> sv_serve s' = Returned r ->
  sv_serve s = Returned r \/ match r with Ok _ => sv_cancelled s = true | Err e => e = errNotListening end.
Proof. intros Hs Hr. destruct ev; step_cases Hs; step_done. Qed.
(** *** The addresses and [Serve] *)

Lemma step_addr i ev s s' l :
  step ev s = Some s' -> sv_listeners s !! i = Some l ->
  exists l', sv_listeners s' !! i = Some l' /\ l_addr l' = l_addr l.
Proof.
  intros Hs Hl. assert (Hlt : (i < length (sv_listeners s))%nat) by by eapply lookup_lt_Some.
  assert (Hins : forall j b k, sv_listeners s !! j = Some k -> l_addr b = l_addr k ->
    exists l', <[j := b]> (sv_listeners s) !! i = Some l' /\ l_addr l' = l_addr l).
  { intros j b k Hk Hb. destruct (decide (j = i)) as [->|Hj].
    - rewrite list_lookup_insert_eq by done. exists b. split; congruence.
    - rewrite list_lookup_insert_ne by congruence. eauto. }
  destruct ev; step_cases Hs; eauto. exists l. by rewrite lookup_app_l.
Qed.
Lemma step_bound ev s s' :
  step ev s = Some s' -> (forall i, sv_ln s = Some i -> (i < length (sv_listeners s))%nat) ->
  Addr s' = rebind (Addr s) ev.
Proof.
  intros Hs I. assert (Hk : sv_ln s' = sv_ln s -> Addr s' = Addr s).
  { unfold Addr. intros ->. destruct (sv_ln s) as [i|]; [|done]. simpl.
    destruct (lookup_lt_is_Some_2 _ _ (I i eq_refl)) as [l Hl].
    destruct (step_addr i _ _ _ l Hs Hl) as (l' & -> & E). rewrite Hl. simpl. by rewrite E. }
  destruct ev; try (apply Hk; by step_cases Hs).
  - destruct bind as [a|e]; [|apply Hk; by injection Hs as <-]. injection Hs as <-.
    unfold Addr. simpl. by rewrite lookup_app_r, Nat.sub_diag by lia.
  - injection Hs as <-. unfold Addr, Shutdown. destruct (sv_ln s) as [i|] eqn:E; simpl; [|by rewrite E].
    by destruct (Close i s).
Qed.
Lemma step_serves a ev s s' : step ev s = Some s' -> serves a s -> serves a s'.
Proof.
  intros Hs [(ln & l & Hl & Hs' & Ha)|[Hr Hc]].
  - destruct (step_serving _ _ _ _ Hs Hl) as [?|Hr].
    + left. destruct (step_addr _ _ _ _ _ Hs Hs') as (l' & Hl' & E). exists ln, l'. split_and!; congruence.
    + right. split; [done|]. destruct (step_returned_from _ _ _ _ Hs Hr) as [Hr'|Hr'].
      * unfold serving in Hl. by rewrite Hr' in Hl.
      * by eapply step_cancelled.
  - right. split; [by eapply step_returned|by eapply step_cancelled].
Qed.
Lemma step_not_serving ev s s' :
  step ev s = Some s' -> ev <> EServe -> sv_serve s = NotServing -> sv_serve s' = NotServing.
Proof. intros Hs He Hn. destruct ev; step_cases Hs; done. Qed.
Lemma Serve_serves s s' :
  step EServe s = Some s' -> (forall i, sv_ln s = Some i -> (i < length (sv_listeners s))%nat) ->
  match Addr s with Some a => serves a s' | None => sv_serve s' = Returned (Err errNotListening) end.
Proof.
  simpl. destruct (sv_serve s); try done. intros [= <-] I. unfold Addr, Serve.
  destruct (sv_ln s) as [i|]; [|done]. simpl.
  destruct (lookup_lt_is_Some_2 _ _ (I i eq_refl)) as [l Hl]. rewrite Hl. simpl.
  left. exists i, l. by split_and!.
Qed.

Lemma step_answers ev s s' :
  Forall (fun p => p.2 = whois.handle lookup (c_input p.1)) (sv_closed s) ->
  step ev s = Some s' ->
  Forall (fun p => p.2 = whois.handle lookup (c_input p.1)) (sv_closed s').
Proof.
  intros I Hs. destruct ev; step_cases Hs; try done. apply Forall_app. split; [done|].
  by apply Forall_singleton.
Qed.
Lemma step_fresh ev s s' :
  NoDup (c_id <$> known s) -> fresh_event ev s -> step ev s = Some s' -> NoDup (c_id <$> known s').
Proof.
  intros I Hf (d & Hd)%step_known.
  assert (N : NoDup (c_id <$> arrived ev ++ known s)).
  { destruct ev; try done. simpl. by constructor. }
  rewrite Hd, fmap_app in N. by apply NoDup_app in N as [N _].
Qed.
Lemma inv_step ev s s' : inv s -> fresh_event ev s -> step ev s = Some s' -> inv s'.
Proof.
  intros [I1 I2 I3 I4 I5 I6] Hf Hs. split.
  - intros i. by eapply step_ln_bound.
  - intros i. by eapply step_closer_bound.
  - intros i Hi. destruct (step_serving_from _ _ _ _ Hs Hi) as [Hi'|]; [|by left].
    destruct (I3 i Hi') as [Hc|Hc]; [|right; by eapply step_closed].
    destruct (step_closer i _ _ _ Hs Hc) as [?|[_ ?]]; [by apply I2| |by left|by right].
    intros E. unfold serving in Hi'. by rewrite E in Hi'.
  - intros r Hr. destruct (step_returned_from _ _ _ _ Hs Hr) as [Hr'|Hr'].
    + specialize (I4 r Hr'). destruct r; [by eapply step_cancelled|done].
    + destruct r; [by eapply step_cancelled|done].
  - by eapply step_fresh.
  - by eapply step_answers.
Qed.
Lemma reachable_inv addr s : reachable addr s -> inv s.
Proof. induction 1; [apply inv_New|by eapply inv_step]. Qed.

(** *** Fair executions *)

(** An execution: the states and the steps between them. *)
Record execution (st : nat -> Server) (ev : nat -> event) : Prop := {
  exec_step : forall n, step (ev n) (st n) = Some (st (S n));
  exec_fresh : forall n, fresh_event (ev n) (st n)
}.

(** A condition that lasts until a step of kind [E], and enables [E] in a fair
    execution, leads to such a step. *)
Definition fair_for (ready : Server -> Prop) (E : event -> Prop)
    (st : nat -> Server) (ev : nat -> event) : Prop :=
  forall n, ready (st n) -> exists m, (n <= m)%nat /\ (E (ev m) \/ ~ ready (st m)).
Lemma leads_to (ready P : Server -> Prop) (E : event -> Prop) `{!forall e, Decision (E e)} st ev n :
  execution st ev -> fair_for ready E st ev -> (forall s, P s -> ready s) ->
  (forall k, P (st k) -> ~ E (ev k) -> P (st (S k))) -> P (st n) ->
  exists k, (n <= k)%nat /\ P (st k) /\ E (ev k).
Proof.
  intros He Hfair Hready Hstable HP. destruct (Hfair n (Hready _ HP)) as (m & Hnm & Hm).
  assert (Hk : forall d, (exists k, (n <= k)%nat /\ P (st k) /\ E (ev k)) \/ P (st (n + d)%nat)).
  { induction d as [|d [IH|IH]]; [right; by rewrite Nat.add_0_r|by left|].
    destruct (decide (E (ev (n + d)%nat))) as [HE|HE].
    - left. exists (n + d)%nat. split_and!; [lia|done|done].
    - right. rewrite Nat.add_succ_r. by apply Hstable. }
  destruct (Hk (m - n)%nat) as [?|HPm]; [done|]. replace (n + (m - n))%nat with m in HPm by lia.
  destruct Hm as [Hm|Hm]; [by exists m|]. destruct Hm. by apply Hready.
Qed.

Definition loop_event (e : event) : Prop :=
  match e with EAccept | EAcceptError _ | ESelect => True | _ => False end.
#[export] Instance loop_event_dec e : Decision (loop_event e).
Proof. destruct e; simpl; solve [left; exact I|right; intros []]. Defined.
Definition closer_event (e : event) : Prop := match e with ECloser => True | _ => False end.
#[export] Instance closer_event_dec e : Decision (closer_event e).
Proof. destruct e; simpl; solve [left; exact I|right; intros []]. Defined.

(** The loop can move: a failed accept, a closed listener or a waiting
    connection. *)
Definition loop_ready (s : Server) : Prop :=
  match sv_serve s with
  | AcceptFailed _ _ => True
  | Accepting ln => exists l, sv_listeners s !! ln = Some l /\ (l_open l = false \/ l_backlog l <> [])
  | _ => False
  end.
Definition closer_ready (s : Server) : Prop := is_Some (sv_closer s) /\ sv_cancelled s = true.
(** The scheduler runs a goroutine that can move. *)
Record fair (st : nat -> Server) (ev : nat -> event) : Prop := {
  fair_loop : fair_for loop_ready loop_event st ev;
  fair_closer : fair_for closer_ready closer_event st ev
}.

Lemma step_serve_other ev s s' :
  step ev s = Some s' -> ~ loop_event ev -> sv_serve s <> NotServing -> sv_serve s' = sv_serve s.
Proof. intros Hs He Hn. destruct ev; try (by destruct He); step_cases Hs; step_done. Qed.
Lemma step_started ev s s' :
  step ev s = Some s' -> sv_serve s <> NotServing -> sv_serve s' <> NotServing.
Proof. intros Hs Hn. destruct ev; step_cases Hs; step_done. Qed.
Lemma serving_started ln s : serving ln s -> sv_serve s <> NotServing.
Proof. unfold serving. intros Hs E. by rewrite E in Hs. Qed.
Lemma step_accept_closed ln ev s s' :
  step ev s = Some s' -> loop_event ev -> sv_serve s = Accepting ln -> closed ln s ->
  exists e, sv_serve s' = AcceptFailed ln e.
Proof.
  intros Hs He Hp (l & Hl & Ho). destruct ev; try done; simpl in Hs; rewrite Hp in Hs; try done.
  - unfold accept in Hs. rewrite Hl in Hs. simpl in Hs. by rewrite Ho in Hs.
  - unfold accept_error in Hs. rewrite Hl in Hs. injection Hs as <-. by eexists.
Qed.
Lemma step_select_cancelled ln e ev s s' :
  step ev s = Some s' -> loop_event ev -> sv_serve s = AcceptFailed ln e ->
  sv_cancelled s = true -> sv_serve s' = Returned (Ok tt).
Proof.
  intros Hs He Hp Hc. destruct ev; try done; simpl in Hs; rewrite Hp in Hs; try done.
  injection Hs as <-. unfold after_error. by rewrite Hc.
Qed.

Section executions.
Context (st : nat -> Server) (ev : nat -> event).
Hypothesis He : execution st ev.

Lemma exec_from (P : Server -> Prop) n m :
  (forall e s s', step e s = Some s' -> P s -> P s') -> P (st n) -> (n <= m)%nat -> P (st m).
Proof.
  intros Hp Hn Hm. replace m with (n + (m - n))%nat by lia. generalize (m - n)%nat as d.
  induction d as [|d IH]; [by rewrite Nat.add_0_r|]. rewrite Nat.add_succ_r.
  eapply Hp; [apply He|done].
Qed.
Lemma exec_inv n : inv (st 0%nat) -> inv (st n).
Proof. intros H0. induction n as [|n IH]; [done|]. by eapply inv_step; [| |apply He]; [|apply He]. Qed.

Hypothesis Hf : fair st ev.

(** The listener of a cancelled server is closed in the end. *)
Lemma leads_to_closed n ln :
  inv (st n) -> sv_cancelled (st n) = true -> serving ln (st n) ->
  exists m, (n <= m)%nat /\ closed ln (st m).
Proof.
  intros I Hc Hs. destruct (inv_serving _ I ln Hs) as [Hcl|]; [|by exists n].
  assert (Hln : (ln < length (sv_listeners (st n)))%nat) by by apply (inv_closer _ I).
  destruct (leads_to closer_ready (fun s => sv_closer s = Some ln /\ sv_cancelled s = true
    /\ (ln < length (sv_listeners s))%nat /\ sv_serve s <> NotServing) closer_event st ev n He)
    as (k & Hk & (K1 & K2 & K3 & K4) & HE).
  - apply Hf.
  - intros s (H1 & H2 & _). split; [by eexists|done].
  - intros k (K1 & K2 & K3 & K4) HE. pose proof (exec_step _ _ He k) as Hst.
    destruct (step_closer _ _ _ _ Hst K1 K3 K4) as [?|[E _]]; [|by rewrite E in HE].
    split_and!; [done|by eapply step_cancelled| |by eapply step_started].
    pose proof (step_listeners _ _ _ Hst). lia.
  - split_and!; [done..|by eapply serving_started].
  - exists (S k). split; [lia|]. pose proof (exec_step _ _ He k) as Hst.
    destruct (ev k); try done. simpl in Hst. rewrite K1, K2 in Hst. injection Hst as <-.
    by apply (Close_closed ln (st k)).
Qed.
(** A loop on a closed listener fails to accept, and returns once cancelled. *)
Lemma leads_to_failed n ln :
  sv_serve (st n) = Accepting ln -> closed ln (st n) ->
  exists m e, (n <= m)%nat /\ sv_serve (st m) = AcceptFailed ln e.
Proof.
  intros Hs Hc.
  destruct (leads_to loop_ready (fun s => sv_serve s = Accepting ln /\ closed ln s)
    loop_event st ev n He) as (k & Hk & (K1 & K2) & HE).
  - apply Hf.
  - intros s (H1 & l & Hl & Ho). unfold loop_ready. rewrite H1. exists l. auto.
  - intros k (K1 & K2) HE. pose proof (exec_step _ _ He k) as Hst. split; [|by eapply step_closed].
    rewrite <-K1. eapply step_serve_other; [done|done|]. by rewrite K1.
  - done.
  - destruct (step_accept_closed ln _ _ _ (exec_step _ _ He k) HE K1 K2) as [e E].
    exists (S k), e. split; [lia|done].
Qed.
Lemma leads_to_returned n ln e :
  sv_serve (st n) = AcceptFailed ln e -> sv_cancelled (st n) = true ->
  exists m, (n <= m)%nat /\ sv_serve (st m) = Returned (Ok tt).
Proof.
  intros Hs Hc.
  destruct (leads_to loop_ready (fun s => sv_serve s = AcceptFailed ln e /\ sv_cancelled s = true)
    loop_event st ev n He) as (k & Hk & (K1 & K2) & HE).
  - apply Hf.
  - intros s (H1 & _). unfold loop_ready. by rewrite H1.
  - intros k (K1 & K2) HE. pose proof (exec_step _ _ He k) as Hst. split; [|by eapply step_cancelled].
    rewrite <-K1. eapply step_serve_other; [done|done|]. by rewrite K1.
  - done.
  - exists (S k). split; [lia|]. by eapply step_select_cancelled; [apply He| | |].
Qed.
Lemma serving_from n m ln :
  serving ln (st n) -> (n <= m)%nat -> serving ln (st m) \/ sv_serve (st m) = Returned (Ok tt).
Proof.
  intros Hs Hm. apply (exec_from (fun s => serving ln s \/ sv_serve s = Returned (Ok tt)) n m); auto.
  intros e s s' Hst [?|?]; [by eapply step_serving|right; by eapply step_returned].
Qed.
End executions.

(** A sequence of steps whose connections are new. *)
Fixpoint fresh_run (evs : list event) (s : Server) : Prop :=
  match evs with
  | [] => True
  | ev :: evs => fresh_event ev s /\ match step ev s with Some s' => fresh_run evs s' | None => False end
  end.
Lemma reachable_steps addr evs s s' :
  reachable addr s -> fresh_run evs s -> steps evs s = Some s' -> reachable addr s'.
Proof.
  revert s. induction evs as [|ev evs IH]; intros s Hr Hf Hs; [by injection Hs as <-|].
  destruct Hf as [Hf Hf']. simpl in Hs. destruct (step ev s) as [t|] eqn:E; [|done].
  apply (IH t); [by eapply reach_step|done|done].
Qed.

Lemma steps_app evs1 evs2 s s' :
  steps (evs1 ++ evs2) s = Some s' <-> exists t, steps evs1 s = Some t /\ steps evs2 t = Some s'.
Proof.
  revert s. induction evs1 as [|ev evs1 IH]; intros s; simpl.
  - naive_solver.
  - destruct (step ev s) as [t|]; simpl; [apply IH|naive_solver].
Qed.
Lemma steps_cancelled evs s s' :
  steps evs s = Some s' -> sv_cancelled s = true \/ ECancel ∈ evs -> sv_cancelled s' = true.
Proof.
  revert s. induction evs as [|ev evs IH]; intros s Hs Hc.
  - injection Hs as <-. destruct Hc as [?|[]%not_elem_of_nil]; done.
  - simpl in Hs. destruct (step ev s) as [t|] eqn:E; [|done]. apply (IH t Hs).
    destruct Hc as [Hc|[<-|?]%elem_of_cons]; [left; by eapply step_cancelled| |by right].
    left. by injection E as <-.
Qed.

(** Until the context is cancelled or the server shut down, every listener is
    open. *)
Definition all_open (s : Server) : Prop :=
  sv_cancelled s = false /\ Forall (fun l => l_open l = true) (sv_listeners s).
Lemma step_open ev s s' :
  step ev s = Some s' -> ev <> ECancel -> ev <> EShutdown -> all_open s -> all_open s'.
Proof.
  intros Hs H1 H2 [Hc Ho]. split; [by eapply step_not_cancelled|].
  destruct ev; step_cases Hs; try done; try congruence.
  - apply Forall_app. split; [done|]. by apply Forall_singleton.
  - by apply Forall_insert.
  - by apply Forall_insert.
Qed.
Lemma steps_open evs s s' :
  steps evs s = Some s' -> ECancel ∉ evs -> EShutdown ∉ evs -> all_open s -> all_open s'.
Proof.
  revert s. induction evs as [|ev evs IH]; intros s Hs H1 H2 Ho; [by injection Hs as <-|].
  simpl in Hs. apply not_elem_of_cons in H1 as [E1 H1]. apply not_elem_of_cons in H2 as [E2 H2].
  destruct (step ev s) as [t|] eqn:E; [|done]. apply (IH t); [done..|]. by eapply step_open.
Qed.

(** *** Runs *)

Lemma fresh_run_app evs1 evs2 s t :
  fresh_run (evs1 ++ evs2) s -> steps evs1 s = Some t -> fresh_run evs1 s /\ fresh_run evs2 t.
Proof.
  revert s. induction evs1 as [|ev evs1 IH]; intros s; simpl; [by intros ? [= <-]|].
  destruct (step ev s) as [u|]; [|done]. intros [H1 H2] Hs.
  destruct (IH _ H2 Hs) as [H3 H4]. done.
Qed.
Lemma steps_snoc evs ev s s' :
  steps (evs ++ [ev]) s = Some s' -> exists t, steps evs s = Some t /\ step ev t = Some s'.
Proof.
  intros (t & H1 & H2)%steps_app. exists t. split; [done|]. simpl in H2.
  by destruct (step ev t).
Qed.
Lemma steps_ln addr evs s :
  steps evs (New addr) = Some s ->
  forall i, sv_ln s = Some i -> (i < length (sv_listeners s))%nat.
Proof.
  revert s. induction evs as [|ev evs IH] using rev_ind; intros s Hs; [by injection Hs as <-|].
  apply steps_snoc in Hs as (t & Ht & Hs). intros i. eapply step_ln_bound; [by apply IH|done].
Qed.
Lemma dropped_app addr evs evs' i c : dropped addr evs i c -> dropped addr (evs ++ evs') i c.
Proof.
  intros (pre & ev & post & t & t' & -> & Hd). exists pre, ev, (post ++ evs'), t, t'.
  split; [by rewrite <-app_assoc|done].
Qed.
Lemma steps_place addr evs s i c :
  steps evs (New addr) = Some s -> EConnect i c ∈ evs ->
  waiting i c s \/ held c s \/ dropped addr evs i c.
Proof.
  revert s. induction evs as [|ev evs IH] using rev_ind; [by intros s _ ?%elem_of_nil|].
  intros s (t & Ht & Hs)%steps_snoc [Hin|Hin%list_elem_of_singleton]%elem_of_app.
  2: { left. subst ev. by eapply step_connect. }
  destruct (IH t Ht Hin) as [Hw|[Hh|Hd]].
  - destruct (step_waiting _ _ _ _ _ Hs Hw) as [?|[?|?]]; [by left|by right; left|].
    right. right. by exists evs, ev, [], t, s.
  - right. left. by eapply step_held.
  - right. right. by apply dropped_app.
Qed.
Lemma steps_bound addr evs s : steps evs (New addr) = Some s -> Addr s = bound evs.
Proof.
  revert s. induction evs as [|ev evs IH] using rev_ind; intros s Hs; [by injection Hs as <-|].
  apply steps_snoc in Hs as (t & Ht & Hs). unfold bound. rewrite foldl_app. simpl.
  change (foldl rebind None evs) with (bound evs). rewrite <-(IH t Ht).
  eapply step_bound; [done|by eapply steps_ln].
Qed.
Lemma steps_preserve (P : Server -> Prop) evs s s' :
  (forall ev s s', step ev s = Some s' -> ev ∈ evs -> P s -> P s') ->
  steps evs s = Some s' -> P s -> P s'.
Proof.
  revert s. induction evs as [|ev evs IH]; intros s HP Hs Hp; [by injection Hs as <-|].
  simpl in Hs. destruct (step ev s) as [t|] eqn:E; [|done]. apply (IH t); [|done|].
  - intros e u u' Hu He. eapply HP; [exact Hu|by right].
  - eapply HP; [done|left|done].
Qed.
Lemma steps_not_serving addr evs s :
  steps evs (New addr) = Some s -> EServe ∉ evs -> sv_serve s = NotServing.
Proof.
  intros Hs Hn. eapply (steps_preserve (fun s => sv_serve s = NotServing)); [|done|done].
  intros ev t t' Ht Hin. eapply step_not_serving; [done|congruence].
Qed.
Lemma steps_serves addr pre post s :
  steps (pre ++ EServe :: post) (New addr) = Some s ->
  match bound pre with
  | Some a => serves a s
  | None => sv_serve s = Returned (Err errNotListening)
  end.
Proof.
  intros (t & Ht & Hs)%steps_app. simpl in Hs. destruct (sv_serve t) eqn:Es; [|done..]. simpl in Hs.
  assert (Hu : step EServe t = Some (Serve t)) by (simpl; by rewrite Es).
  pose proof (Serve_serves _ _ Hu (steps_ln _ _ _ Ht)) as HS. rewrite (steps_bound _ _ _ Ht) in HS.
  destruct (bound pre) as [a|].
  - eapply (steps_preserve (serves a)); [|done|done]. intros ev u u' H' _. by eapply step_serves.
  - eapply (steps_preserve (fun s => sv_serve s = Returned _)); [|done|done].
    intros ev u u' H' _. by eapply step_returned.
Qed.

(** ** Properties *)

(** C18: after any sequence of steps of the goroutines and of the network, each
    connection that arrived is waiting in the backlog of its open listener, in a
    handler or closed, and in exactly one of these, unless its listener was closed
    while it was still waiting there; every closed connection got exactly the answer
    to what it sent.  [Addr] is the address bound last, none after [Shutdown].
    [Serve] called when an address is bound runs its loop on that listener until it
    returns nil, which it does only once the context is cancelled, and called when
    none is bound it returns the not-listening error; a loop that runs has a
    goroutine that will close its listener, or the listener is closed. *)
Theorem reachable_spec addr evs s :
  fresh_run evs (New addr) -> steps evs (New addr) = Some s ->
  NoDup (c_id <$> known s)
  /\ (forall i c, EConnect i c ∈ evs -> waiting i c s \/ held c s \/ dropped addr evs i c)
  /\ (forall c out, (c, out) ∈ sv_closed s -> out = whois.handle lookup (c_input c))
  /\ Addr s = bound evs
  /\ (forall pre post, evs = pre ++ EServe :: post ->
       match bound pre with
       | Some a => serves a s
       | None => sv_serve s = Returned (Err errNotListening)
       end)
  /\ (EServe ∉ evs -> sv_serve s = NotServing)
  /\ (forall ln, serving ln s -> sv_closer s = Some ln \/ closed ln s).
Proof.
  intros Hf Hs. pose proof (reachable_steps addr evs _ s (reach_New addr) Hf Hs) as Hr.
  apply reachable_inv in Hr. split_and!.
  - apply Hr.
  - intros i c. by apply steps_place.
  - intros c out Hin. pose proof (inv_answers _ Hr) as I. rewrite Forall_forall in I. apply (I _ Hin).
  - by eapply steps_bound.
  - intros pre post ->. by eapply steps_serves.
  - by eapply steps_not_serving.
  - apply Hr.
Qed.

(** C17: once the context is cancelled, [Serve] returns nil and its listener is
    closed for good, whatever connections arrive and however the goroutines
    interleave, as long as the scheduler runs those that can move. *)
Theorem Serve_returns addr st ev n ln :
  reachable addr (st 0%nat) -> execution st ev -> fair st ev ->
  sv_cancelled (st n) = true -> serving ln (st n) ->
  exists m, (n <= m)%nat /\ forall k, (m <= k)%nat ->
    sv_serve (st k) = Returned (Ok tt) /\ closed ln (st k).
Proof.
  intros H0 He Hf Hc Hs. apply reachable_inv in H0.
  destruct (leads_to_closed st ev He Hf n ln) as (m & Hm & Hcl); [by eapply exec_inv|done|done|].
  assert (Hcm : sv_cancelled (st m) = true)
    by by apply (exec_from st ev He (fun s => sv_cancelled s = true) n m step_cancelled).
  assert (Hret : exists k, (m <= k)%nat /\ sv_serve (st k) = Returned (Ok tt)).
  { destruct (serving_from st ev He n m ln Hs Hm) as [Hsm|?]; [|by exists m].
    unfold serving in Hsm. destruct (sv_serve (st m)) as [|i|i e|] eqn:E; try done; subst i.
    - destruct (leads_to_failed st ev He Hf m ln E Hcl) as (k & e & Hk & Ek).
      assert (Hck : sv_cancelled (st k) = true)
        by by apply (exec_from st ev He (fun s => sv_cancelled s = true) m k step_cancelled).
      destruct (leads_to_returned st ev He Hf k ln e Ek Hck) as (j & Hj & Ej). exists j. split; [lia|done].
    - by apply (leads_to_returned st ev He Hf m ln e). }
  destruct Hret as (j & Hj & Ej). exists j. split; [lia|]. intros k Hk. split.
  - by apply (exec_from st ev He _ j k (step_returned (Ok tt))).
  - apply (exec_from st ev He _ m k (step_closed ln)); [done|lia].
Qed.

(** Without a cancelled context [Serve] does not return, although [Shutdown]
    closed its listener: each failed accept logs a warning and tries again. *)
Theorem Serve_spins ln s k :
  sv_serve s = Accepting ln -> closed ln s -> sv_cancelled s = false ->
  exists s', steps (concat (replicate k [EAcceptError errClosed; ESelect])) s = Some s'
    /\ sv_serve s' = Accepting ln /\ sv_warnings s' = (sv_warnings s + k)%nat.
Proof.
  revert s. induction k as [|k IH]; intros s Hs Hcl Hc; [exists s; simpl; auto|].
  destruct Hcl as (l & Hl & Ho). simpl. rewrite Hs. unfold accept_error. rewrite Hl. simpl.
  unfold after_error. simpl. rewrite Hc.
  destruct (IH (set_serve (Accepting ln) (warn (set_serve (AcceptFailed ln
    (if l_open l then errClosed else errClosed)) s)))) as (s' & Hr & H1 & H2); [done|by exists l|done|].
  exists s'. split; [exact Hr|]. split; [done|]. rewrite H2. simpl. lia.
Qed.
End steps.

(** ** Witnesses *)

Section witnesses.
#[local] Existing Instances ascii_tables.

Definition no_domains : whois.LookupFunc := fun _ => Err (ErrSentinel whois.ErrNotFound).
(** A client asks for a domain while the server runs. *)
Definition query : conn := mkConn 1 ("example.invalid" +:+ crlf).
Definition served : list event :=
  [EListen (Ok "0.0.0.0:43"); EServe; EConnect 0 query; EAccept; EHandle 0].
Definition after_query : Server :=
  Eval vm_compute in default (New "") (steps no_domains served (New ":43")).
Lemma reachable_spec_witness :
  exists text, steps no_domains served (New ":43") = Some after_query
    /\ sv_closed after_query = [(query, Some text)]
    /\ Some text = whois.handle no_domains (c_input query).
Proof.
  assert (E : steps no_domains served (New ":43") = Some after_query) by (vm_compute; reflexivity).
  destruct (reachable_spec no_domains ":43" served after_query) as (_ & _ & Ha & _).
  - repeat split. simpl. apply not_elem_of_nil.
  - exact E.
  - eexists. split; [exact E|]. split; [reflexivity|]. apply (Ha query). left.
Defined.

(** A cancelled server whose goroutines then run, one after the other. *)
Definition stopping : Server :=
  default (New ":43") (steps no_domains [EListen (Ok "0.0.0.0:43"); EServe; ECancel] (New ":43")).
Definition demo_ev (n : nat) : event :=
  match n with 0%nat => ECloser | 1%nat => EAcceptError errClosed | 2%nat => ESelect | _ => ECancel end.
Fixpoint demo_st (n : nat) : Server :=
  match n with
  | O => stopping
  | S n => default stopping (step no_domains (demo_ev n) (demo_st n))
  end.
Lemma demo_st_end n : demo_st (3 + n) = demo_st 3.
Proof.
  induction n as [|n IH]; [reflexivity|]. change (3 + S n)%nat with (S (3 + n)).
  change (default stopping (step no_domains (demo_ev (3 + n)) (demo_st (3 + n))) = demo_st 3).
  rewrite IH. reflexivity.
Qed.
Lemma demo_execution : execution no_domains demo_st demo_ev.
Proof.
  split.
  - intros [|[|[|n]]]; [reflexivity..|]. rewrite (demo_st_end n : demo_st (S (S (S n))) = _).
    change (S (S (S (S n)))) with (3 + S n)%nat. rewrite demo_st_end. reflexivity.
  - intros [|[|[|n]]]; exact I.
Qed.
Lemma demo_fair : fair demo_st demo_ev.
Proof.
  split; intros n _; exists (3 + n)%nat; rewrite demo_st_end; (split; [lia|right]).
  - intros [].
  - intros [[i E] _]. discriminate E.
Qed.
Lemma Serve_returns_witness :
  exists m, forall k, (m <= k)%nat -> sv_serve (demo_st k) = Returned (Ok tt) /\ closed 0 (demo_st k).
Proof.
  destruct (Serve_returns no_domains ":43" demo_st demo_ev 0 0) as (m & _ & Hm).
  - apply (reachable_steps no_domains ":43" [EListen (Ok "0.0.0.0:43"); EServe; ECancel] (New ":43"));
      [constructor|repeat split|reflexivity].
  - exact demo_execution.
  - exact demo_fair.
  - reflexivity.
  - reflexivity.
  - exists m. exact Hm.
Defined.

End witnesses.
End gateway.
