(* ===== verification/Metrics.v ===== *)
(** * The metrics server (internal/metrics/metrics.go)

    The collectors and their registration, and the server that exposes them.
    The Prometheus library is a parameter. *)

From stdpp Require Import base tactics option list gmap strings.
From Stdlib Require Import ZArith Lia Ascii.
From S2P Require Import Prelude GoStrings GoHttp Config Handlers Middleware.
#[local] Open Scope Z_scope.

Module metrics.

(** ** Collectors *)

Inductive metric_kind := CounterVec | HistogramVec | Gauge | Counter.
(** A collector as it is declared; the histogram has the default buckets. *)
Record collector := mkCollector {
  co_kind : metric_kind; co_Name : string; co_Help : string; co_labels : list string
}.
Definition HTTPRequestsTotal : collector :=
  mkCollector CounterVec "rdap_http_requests_total" "Total number of HTTP requests"
    ["method"; "path"; "status"].
Definition HTTPRequestDuration : collector :=
  mkCollector HistogramVec "rdap_http_request_duration_seconds"
    "HTTP request duration in seconds" ["method"; "path"].
Definition ActiveConnections : collector :=
  mkCollector Gauge "rdap_active_connections" "Current number of active connections" [].
Definition RateLimitHits : collector :=
  mkCollector Counter "rdap_rate_limit_hits_total" "Total number of rate limit hits" [].
Definition DomainLookups : collector :=
  mkCollector CounterVec "rdap_domain_lookups_total" "Total number of domain lookups"
    ["tld"; "found"].
Definition EntityLookups : collector :=
  mkCollector Counter "rdap_entity_lookups_total" "Total number of entity lookups" [].
Definition SearchQueries : collector :=
  mkCollector CounterVec "rdap_search_queries_total" "Total number of search queries" ["type"].
Definition StorageErrors : collector :=
  mkCollector CounterVec "rdap_storage_errors_total" "Total number of storage errors"
    ["operation"].
Definition Up : collector :=
  mkCollector Gauge "rdap_up" "1 if the RDAP server is up, 0 otherwise" [].

(** The default registry: [None] is the panic of [MustRegister]. *)
Class Registry := {
  registry : Type;
  reg_empty : registry;
  MustRegister : collector -> registry -> option registry;
  gauge_Set : collector -> Z -> registry -> registry;
  registered : registry -> list string;
  gauge_value : registry -> string -> option Z;
  (** the exposition handler [promhttp.Handler()] *)
  promhttp_Handler : registry -> Request -> handlers.writer
}.

(** The names and labels Prometheus accepts. *)
Definition name_start (c : ascii) : bool :=
  is_upper c || is_lower c || bool_decide (c = "_"%char).
Definition name_rest (c : ascii) : bool := name_start c || is_digit c.
Definition valid_name (s : string) : bool :=
  match bs s with c :: l => name_start c && forallb name_rest l | [] => false end.
Definition valid_collector (c : collector) : bool :=
  valid_name (co_Name c)
  && forallb (fun l => valid_name l && negb (Strings.HasPrefix l "__")) (co_labels c)
  && bool_decide (NoDup (co_labels c)).

(** Documented behaviour: a collector with valid names registers unless its name
    is taken, and a gauge has the value last set. *)
Class RegistrySpec `(Registry) : Prop := {
  reg_empty_names : registered reg_empty = [];
  MustRegister_new : forall c r, valid_collector c = true -> co_Name c ∉ registered r ->
    exists r', MustRegister c r = Some r' /\ registered r' = co_Name c :: registered r;
  gauge_Set_names : forall c v r, registered (gauge_Set c v r) = registered r;
  gauge_Set_value : forall c v r, co_Name c ∈ registered r -> co_kind c = Gauge ->
    gauge_value (gauge_Set c v r) (co_Name c) = Some v
}.

Definition collectors : list collector :=
  [HTTPRequestsTotal; HTTPRequestDuration; ActiveConnections; RateLimitHits; DomainLookups;
   EntityLookups; SearchQueries; StorageErrors; Up].

Section server.
Context `{Registry}.

Definition register_all (cs : list collector) (r : registry) : option registry :=
  foldl (fun acc c => r ← acc; MustRegister c r) (Some r) cs.
Definition init : option registry :=
  r ← register_all collectors reg_empty; Some (gauge_Set Up 1 r).

(** ** The server *)

(** [path.Clean] of a rooted path, and [cleanPath] of the multiplexer, which
    keeps a final slash. *)
Definition clean_segment (acc : list string) (seg : string) : list string :=
  if String.eqb seg "" || String.eqb seg "." then acc
  else if String.eqb seg ".." then take (length acc - 1) acc
  else acc ++ [seg].
Definition clean_path (p : string) : string :=
  let p := if Strings.HasPrefix p "/" then p else "/" +:+ p in
  let np := "/" +:+ Strings.Join (foldl clean_segment [] (Strings.Split p "/"%char)) "/" in
  if Strings.HasSuffix p "/" && negb (String.eqb np "/") then np +:+ "/" else np.

(** [http.Redirect] *)
Definition http_Redirect (url : string) (code : Z) (r : Request) : handlers.writer := fun w =>
  let w := set_header "Location" url w in
  if String.eqb (rq_method r) "GET" then
    write_body (handlers.BText (quoted ("<a href=`" +:+ url +:+ "`>Moved Permanently</a>.")
                                +:+ middleware.newline +:+ middleware.newline))
      (write_header code (set_header "Content-Type" "text/html; charset=utf-8" w))
  else write_header code w.

(** [http.ServeMux] over exact patterns: an unclean path is redirected. *)
Definition serve_mux (patterns : list (string * (Request -> handlers.writer))) (r : Request)
    : handlers.writer :=
  let path := clean_path (rq_path r) in
  if negb (String.eqb path (rq_path r))
  then http_Redirect (Url.escape Url.should_escape_path path
                      +:+ (if String.eqb (rq_rawquery r) "" then "" else "?" +:+ rq_rawquery r)) 301 r
  else match List.find (fun p => String.eqb p.1 path) patterns with
       | Some (_, handler) => handler r
       | None => middleware.http_Error "404 page not found" 404
       end.

Definition healthz (r : Request) : handlers.writer := fun w =>
  write_body (handlers.BText (quoted "{`status`:`ok`}"))
    (write_header 200 (set_header "Content-Type" "application/health+json" w)).

(** The fields of the [http.Server] it returns. *)
Record Server := mkServer { srv_Addr : string; srv_Handler : Request -> handlers.writer }.
Definition NewServer (reg : registry) (cfg : config.MetricsConfig) : option Server :=
  if negb (config.Metrics_Enabled cfg) then None
  else Some (mkServer (config.MetricsAddr cfg)
               (serve_mux [("/metrics", promhttp_Handler reg); ("/healthz", healthz)])).

(** ** Properties *)

Lemma register_all_spec `{!RegistrySpec _} cs r :
  forallb valid_collector cs = true -> NoDup (co_Name <$> cs) ->
  (forall n, n ∈ co_Name <$> cs -> n ∉ registered r) ->
  exists r', register_all cs r = Some r' /\ forall n, n ∈ registered r' <-> n ∈ registered r \/ n ∈ co_Name <$> cs.
Proof.
  revert r. induction cs as [|c cs IH]; intros r Hv Hn Hr.
  - exists r. split; [done|]. intros n. rewrite elem_of_nil. tauto.
  - simpl in Hv. to_prop. rewrite fmap_cons in Hn, Hr. apply NoDup_cons in Hn as [Hc Hn].
    destruct (MustRegister_new c r) as (r' & E & Er); [done|apply Hr; left|].
    destruct (IH r') as (r'' & E' & Hin); [done|done| |].
    + intros n Hn' Hin. rewrite Er, elem_of_cons in Hin. destruct Hin as [->|Hin]; [done|].
      apply (Hr n); [by right|done].
    + exists r''. split; [unfold register_all; simpl; by rewrite E|]. intros n.
      rewrite Hin, Er, fmap_cons, !elem_of_cons. tauto.
Qed.

(** The registration of the collectors does not panic: their names are valid and
    distinct; afterwards all nine are exposed and the server reports itself up. *)
Theorem init_registers `{!RegistrySpec _} :
  exists r, init = Some r /\ (forall c, c ∈ collectors -> co_Name c ∈ registered r)
    /\ gauge_value r (co_Name Up) = Some 1.
Proof.
  destruct (register_all_spec collectors reg_empty) as (r & E & Hin).
  - vm_compute. reflexivity.
  - apply (bool_decide_unpack _). vm_compute. exact I.
  - intros n _. rewrite reg_empty_names. apply not_elem_of_nil.
  - assert (Ha : forall c, c ∈ collectors -> co_Name c ∈ registered r).
    { intros c Hc. apply Hin. right. apply list_elem_of_fmap. by exists c. }
    exists (gauge_Set Up 1 r). unfold init. rewrite E. split; [done|]. split.
    + intros c Hc. rewrite gauge_Set_names. by apply Ha.
    + apply gauge_Set_value; [|done]. apply Ha. unfold collectors. rewrite !elem_of_cons. tauto.
Qed.

(** A multiplexer answers a path it was not given 404 or redirects it. *)
Lemma serve_mux_exact patterns r path handler :
  rq_path r = path -> clean_path path = path ->
  List.find (fun p => String.eqb p.1 path) patterns = Some (path, handler) ->
  serve_mux patterns r = handler r.
Proof. intros Hp Hc Hf. unfold serve_mux. by rewrite Hp, Hc, String.eqb_refl, Hf. Qed.

(** The metrics server exists exactly when it is enabled; it answers the health
    check 200, exposes the registry under /metrics, and nothing else. *)
Theorem NewServer_spec reg cfg :
  match NewServer reg cfg with
  | None => config.Metrics_Enabled cfg = false
  | Some s => config.Metrics_Enabled cfg = true /\ srv_Addr s = config.MetricsAddr cfg
      /\ (forall r, rq_path r = "/metrics" -> srv_Handler s r = promhttp_Handler reg r)
      /\ (forall r w, rq_path r = "/healthz" -> rs_status w = None ->
            rs_status (srv_Handler s r w) = Some 200)
      /\ (forall r w, rq_path r ∉ ["/metrics"; "/healthz"] -> rs_status w = None ->
            rs_status (srv_Handler s r w) ∈ [Some 301; Some 404])
  end.
Proof.
  unfold NewServer. destruct (config.Metrics_Enabled cfg); [|done]. simpl. split_and!; try done.
  - intros r Hr. by apply (serve_mux_exact _ _ "/metrics").
  - intros r w Hr Hw. rewrite (serve_mux_exact _ _ "/healthz" healthz) by done. simpl. by rewrite Hw.
  - intros r w Hr Hw. unfold serve_mux.
    destruct (String.eqb_spec (clean_path (rq_path r)) (rq_path r)) as [E|E]; cbn [negb].
    + rewrite !not_elem_of_cons in Hr. rewrite E. cbn [List.find fst].
      destruct (String.eqb_spec "/metrics" (rq_path r)); [naive_solver|].
      destruct (String.eqb_spec "/healthz" (rq_path r)); [naive_solver|].
      simpl. rewrite Hw. right. left.
    + assert (R : rs_status (http_Redirect (Url.escape Url.should_escape_path (clean_path (rq_path r))
        +:+ (if String.eqb (rq_rawquery r) "" then "" else "?" +:+ rq_rawquery r)) 301 r w) = Some 301)
        by (unfold http_Redirect; destruct (String.eqb (rq_method r) "GET"); simpl; by rewrite Hw).
      rewrite R. left.
Qed.

End server.

Example clean_path_ex :
  clean_path <$> ["/metrics"; "//metrics"; "/a/../metrics/"; ""; "/.."]
  = ["/metrics"; "/metrics"; "/metrics/"; "/"; "/"].
Proof. vm_compute. reflexivity. Qed.

(** A registry that keeps the names and the gauge values. *)
Definition name_registry : Registry := {|
  registry := list string * gmap string Z;
  reg_empty := ([], ∅);
  MustRegister c r :=
    if valid_collector c && negb (bool_decide (co_Name c ∈ r.1)) then Some (co_Name c :: r.1, r.2)
    else None;
  gauge_Set c v r := (r.1, <[co_Name c := v]> r.2);
  registered := fst;
  gauge_value r n := r.2 !! n;
  promhttp_Handler r _ := write_body (handlers.BText (Strings.Join r.1 " "))
|}.
Lemma name_registry_spec : RegistrySpec name_registry.
Proof.
  split; simpl; [done| |done|].
  - intros c r -> Hn. rewrite bool_decide_eq_false_2 by done. by eexists.
  - intros c v r _ _. by apply lookup_insert_eq.
Qed.
Lemma name_registry_init :
  exists r, @init name_registry = Some r /\ @gauge_value name_registry r (co_Name Up) = Some 1.
Proof.
  destruct (@init_registers name_registry name_registry_spec) as (r & E & _ & Hv).
  exists r. split; [exact E|exact Hv].
Defined.

End metrics.
