(* ===== verification/Rdapd.v ===== *)
(** * The process (cmd/rdapd/main.go)

    [main] reads the command line and calls [run], which is modelled as the
    sequence of its effects: it loads the configuration, opens the
    store, starts the servers, waits for a signal and shuts down.  What the
    environment decides (the files, the sockets, the outcome of a shutdown) is a
    parameter; the servers it starts are the ones the other files define. *)

From stdpp Require Import base tactics option list gmap strings.
From Stdlib Require Import ZArith Lia.
From S2P Require Import Prelude GoStrings GoTime GoNet GoHttp Config Domain RdapModels Rdap GoRegexp Store MemoryStore Sql SqlStore Postgres Mysql Auth Middleware Server Whois WhoisServer Metrics.
#[local] Open Scope Z_scope.

Module rdapd.

(** ** Effects *)

Inductive effect : Type :=
  | LoadConfig (path : string)
  | OpenStore (cfg : config.StorageConfig)
  | CloseStore
  | GoMetrics (srv : metrics.Server)
  | WhoisListen (addr : string)
  | GoWhois (lookup : whois.LookupFunc)
  | GoServer (srv : server.Server) (tls : option (string * string))
  | AwaitQuit
  | CancelContext
  | ShutdownServer
  | ShutdownMetrics
  | ShutdownWhois.

(** A computation that performs effects and may fail. *)
Definition P (A : Type) : Type := list effect * result A.
Definition ret {A} (a : A) : P A := ([], Ok a).
Definition call {A} (e : effect) (r : result A) : P A := ([e], r).
Definition emit (e : effect) : P unit := call e (Ok tt).
Definition bind {A B} (m : P A) (f : A -> P B) : P B :=
  match m with
  | (tr, Ok a) => let '(tr', r) := f a in (tr ++ tr', r)
  | (tr, Err e) => (tr, Err e)
  end.
(** [defer e()]: whatever the outcome. *)
Definition defer {A} (e : effect) (m : P A) : P A := (m.1 ++ [e], m.2).
Notation "x <- m ;; k" := (bind m (fun x => k)) (at level 100, m at next level, right associativity).
Definition emit_if {A} (o : option A) (e : A -> effect) : P unit :=
  match o with Some a => emit (e a) | None => ret tt end.

(** ** The store *)

(** [store.New] with the constructors of the three adapters. *)
Record databases := mkDatabases {
  pool_conn : Type;
  pgx_ParseConfig : string -> result (postgres.pool_config pool_conn);
  pgx_NewWithConfig : postgres.pool_config pool_conn -> result (sql.world postgres.ip_network_row);
  my_url_Parse : string -> result mysql.url_parts;
  my_NewConfig : mysql.driver_config;
  my_FormatDSN : mysql.driver_config -> string;
  my_ParseDSN : string -> result mysql.driver_config;
  my_Open : string -> result (mysql.db_settings -> sql.world mysql.ip_network_row);
  pgx_dialect : sql.Dialect; pgx_driver : sql.Driver;
  my_dialect : sql.Dialect; my_driver : sql.Driver
}.

(** ** The command line *)

(** [flag.Parse] with the one flag [-config]: its value, or the exit with the
    usage ([-h]) or with an error.  Parsing stops at the first argument that is
    not a flag. *)
Inductive flags :=
  | Flags (configPath : string)
  | FlagHelp
  | FlagError.
(** The text of an argument up to the first equals sign, and after it. *)
Fixpoint cut_equals (l : list Ascii.ascii) : list Ascii.ascii * option (list Ascii.ascii) :=
  match l with
  | [] => ([], None)
  | c :: l =>
      if byte c =? 61 then ([], Some l)
      else let '(name, value) := cut_equals l in (c :: name, value)
  end.
(** The name of a flag after one or two dashes; [None] for an argument that ends
    the flags. *)
Definition flag_text (arg : string) : option (list Ascii.ascii) :=
  match bs arg with
  | a :: b :: l =>
      if negb (byte a =? 45) then None
      else if byte b =? 45 then match l with [] => None | _ => Some l end
      else Some (b :: l)
  | _ => None
  end.
Fixpoint parse_flags (args : list string) (configPath : string) : flags :=
  match args with
  | [] => Flags configPath
  | arg :: args =>
      match flag_text arg with
      | None => Flags configPath
      | Some text =>
          match text with
          | c :: rest =>
              if (byte c =? 45) || (byte c =? 61) then FlagError
              else
                let '(name, value) := cut_equals rest in
                let name := sb (c :: name) in
                if String.eqb name "config" then
                  match value, args with
                  | Some v, _ => parse_flags args (sb v)
                  | None, v :: args => parse_flags args v
                  | None, [] => FlagError
                  end
                else if String.eqb name "help" || String.eqb name "h" then FlagHelp
                else FlagError
          | [] => FlagError
          end
      end
  end.
Example parse_flags_default : parse_flags [] "config.yaml" = Flags "config.yaml".
Proof. reflexivity. Qed.
Example parse_flags_forms :
  parse_flags ["-config"; "a"; "--config=b=c"; "serve"; "-x"] "config.yaml" = Flags "b=c".
Proof. reflexivity. Qed.
Example parse_flags_bad :
  parse_flags ["-config"] "" = FlagError /\ parse_flags ["---config=a"] "" = FlagError
  /\ parse_flags ["-h"] "" = FlagHelp /\ parse_flags ["--"; "-x"] "a" = Flags "a".
Proof. done. Qed.

(** *** Tests of the code as decisions *)

Lemma decide_ltb {A} (n : Z) (x y : A) :
  (if decide (0 < n) then x else y) = if 0 <? n then x else y.
Proof. case_decide; case (Z.ltb_spec 0 n); (lia || done). Qed.
Lemma decide_eqb {A} (s : string) (x y : A) :
  (if decide (s = "") then x else y) = if String.eqb s "" then x else y.
Proof. case_decide; case (String.eqb_spec s ""); (congruence || done). Qed.

Section run.
Context `{UnicodeTables} `{Idna} `{MapRange} `{RegexpEngine}.
Context `{auth.JwtLibrary} `{metrics.Registry}.
Context (dbs : databases) (prefix_error : string -> error).
Context (ParseDuration : string -> result Z) (now : Time).

Definition store_New (cfg : config.StorageConfig) : result store.Interface :=
  store.New
    (fun cfg => Ok (memory.interface (memory.NewMemoryStore ParseDuration now cfg)))
    (postgres.NewPostgresStore (H := pgx_dialect dbs) (H0 := pgx_driver dbs) (pgx_ParseConfig dbs) (pgx_NewWithConfig dbs))
    (mysql.NewMySQLStore (H0 := my_dialect dbs) (H1 := my_driver dbs) prefix_error (my_url_Parse dbs) (my_NewConfig dbs)
       (my_FormatDSN dbs) (my_ParseDSN dbs) (my_Open dbs))
    cfg.

(** ** The run *)

(** The files, the sockets and the shutdowns. *)
Context (ReadFile : string -> result string) (yaml_Unmarshal : string -> result config.Config).
Context (net_Listen : string -> result string) (shutdown_server : result unit).
Context (lib : server.library) (fetch : string -> auth.fetched) (unix_now : Z).
Context (reg : metrics.registry).

Definition whois_start (cfg : config.Config) (st : store.Interface) : P bool :=
  if config.Whois_Enabled (config.Whois cfg) then
    let addr := config.WhoisAddr cfg in
    _ <- call (WhoisListen addr) (gateway.Listen (net_Listen addr) (gateway.New addr)).2;;
    _ <- emit (GoWhois (whois.StoreLookup st));;
    ret true
  else ret false.
Definition tls_files (s : config.ServerConfig) : option (string * string) :=
  if negb (String.eqb (config.TLSCertFile s) "") && negb (String.eqb (config.TLSKeyFile s) "")
  then Some (config.TLSCertFile s, config.TLSKeyFile s) else None.

Definition run (configPath : string) : P unit :=
  defer CancelContext (
    cfg <- call (LoadConfig configPath)
             (sql.wrap "failed to load config: " (config.Load ReadFile yaml_Unmarshal configPath));;
    st <- call (OpenStore (config.Storage cfg))
            (sql.wrap "failed to init store: " (store_New (config.Storage cfg)));;
    defer CloseStore (
      let metricsSrv := metrics.NewServer reg (config.Metrics cfg) in
      _ <- emit_if metricsSrv GoMetrics;;
      whoisSrv <- whois_start cfg st;;
      let srv := server.New lib fetch unix_now cfg st in
      _ <- emit (GoServer srv (tls_files (config.Server cfg)));;
      _ <- emit AwaitQuit;;
      _ <- emit CancelContext;;
      _ <- call ShutdownServer (sql.wrap "server forced to shutdown: " shutdown_server);;
      _ <- emit_if metricsSrv (fun _ => ShutdownMetrics);;
      _ <- (if whoisSrv : bool then emit ShutdownWhois else ret tt);;
      ret tt)).

(** [main]: the effects and the exit status.  A run that fails is logged with
    [Fatal], which exits with status 1. *)
Definition main (args : list string) : list effect * Z :=
  match parse_flags args "config.yaml" with
  | Flags configPath =>
      let '(tr, r) := run configPath in (tr, match r with Ok _ => 0 | Err _ => 1 end)
  | FlagHelp => ([], 0)
  | FlagError => ([], 2)
  end.

(** What [run] itself does to the WHOIS gateway; the goroutine it starts calls
    [Serve] whenever it is scheduled. *)
Definition gateway_event (e : effect) : option gateway.event :=
  match e with
  | WhoisListen addr => Some (gateway.EListen (net_Listen addr))
  | CancelContext => Some gateway.ECancel
  | ShutdownWhois => Some gateway.EShutdown
  | _ => None
  end.

(** ** Specifications *)

(** The effects that start a server, and the one that stops it. *)
Definition stops (e : effect) : option effect :=
  match e with
  | GoMetrics _ => Some ShutdownMetrics
  | GoWhois _ => Some ShutdownWhois
  | GoServer _ _ => Some ShutdownServer
  | _ => None
  end.
(** Every server started in a trace is stopped in it, after the signal. *)
Definition all_stopped (tr : list effect) : Prop :=
  exists before after, tr = before ++ AwaitQuit :: after
  /\ ~ AwaitQuit ∈ before
  /\ (forall e s, e ∈ before -> stops e = Some s -> s ∈ after)
  /\ (forall e, e ∈ after -> stops e = None).
(** The store is opened, closed once, and closed last but for the context. *)
Definition store_released (tr : list effect) : Prop :=
  exists path cfg body, tr = LoadConfig path :: OpenStore cfg :: body ++ [CloseStore; CancelContext]
  /\ ~ CloseStore ∈ body /\ (forall cfg, ~ OpenStore cfg ∈ body).

(** ** Lemmas *)

Definition option_effects {A} (o : option A) (e : A -> effect) : list effect :=
  match o with Some a => [e a] | None => [] end.

(** The four ways a run can go. *)
Inductive outcome (path : string) : list effect -> result unit -> Prop :=
  | no_config e :
      config.Load ReadFile yaml_Unmarshal path = Err e ->
      outcome path [LoadConfig path; CancelContext] (Err (ErrWrap "failed to load config: " e))
  | no_store cfg e :
      config.Load ReadFile yaml_Unmarshal path = Ok cfg -> store_New (config.Storage cfg) = Err e ->
      outcome path [LoadConfig path; OpenStore (config.Storage cfg); CancelContext]
        (Err (ErrWrap "failed to init store: " e))
  | no_whois cfg st e :
      config.Load ReadFile yaml_Unmarshal path = Ok cfg -> store_New (config.Storage cfg) = Ok st ->
      config.Whois_Enabled (config.Whois cfg) = true -> net_Listen (config.WhoisAddr cfg) = Err e ->
      outcome path
        (LoadConfig path :: OpenStore (config.Storage cfg) ::
           (option_effects (metrics.NewServer reg (config.Metrics cfg)) GoMetrics
              ++ [WhoisListen (config.WhoisAddr cfg)])
           ++ [CloseStore; CancelContext])
        (Err (ErrWrap ("whois listen " +:+ config.WhoisAddr cfg +:+ ": ") e))
  | served cfg st ms ws :
      config.Load ReadFile yaml_Unmarshal path = Ok cfg -> store_New (config.Storage cfg) = Ok st ->
      ms = metrics.NewServer reg (config.Metrics cfg) ->
      ws = (if config.Whois_Enabled (config.Whois cfg) then Some (config.WhoisAddr cfg) else None) ->
      outcome path
        (LoadConfig path :: OpenStore (config.Storage cfg) ::
           ((option_effects ms GoMetrics ++ option_effects ws WhoisListen
               ++ option_effects ws (fun _ => GoWhois (whois.StoreLookup st))
               ++ [GoServer (server.New lib fetch unix_now cfg st) (tls_files (config.Server cfg))])
            ++ AwaitQuit :: CancelContext :: ShutdownServer ::
               (if is_ok shutdown_server
                then option_effects ms (fun _ => ShutdownMetrics)
                       ++ option_effects ws (fun _ => ShutdownWhois)
                else []))
           ++ [CloseStore; CancelContext])
        (sql.wrap "server forced to shutdown: " shutdown_server).

Lemma run_outcome path : outcome path (run path).1 (run path).2.
Proof.
  unfold run.
  destruct (config.Load ReadFile yaml_Unmarshal path) as [cfg|e] eqn:El; [|by apply no_config].
  simpl.
  destruct (store_New (config.Storage cfg)) as [st|e] eqn:Es; [|by apply no_store].
  pose proof (no_whois path cfg st) as Hn. pose proof (served path cfg st _ _ El Es eq_refl eq_refl) as Hs.
  unfold whois_start. simpl. destruct (metrics.NewServer reg (config.Metrics cfg)) as [m|];
    destruct (config.Whois_Enabled (config.Whois cfg)); simpl;
    try (destruct (net_Listen (config.WhoisAddr cfg)) as [a|e]; simpl; [|by apply Hn]);
    destruct shutdown_server as [[]|]; exact Hs.
Qed.

(** *** The gateway under the process *)

Definition gateway_events (tr : list effect) : list gateway.event := omap gateway_event tr.
(** The process cancels the context before it shuts the gateway down. *)
Definition cancels_first (evs : list gateway.event) : Prop :=
  forall l1 l2, evs = l1 ++ gateway.EShutdown :: l2 -> gateway.ECancel ∈ l1.
Lemma cancels_first_prefix l1 l2 :
  cancels_first (l1 ++ l2) -> gateway.ECancel ∉ l1 -> gateway.EShutdown ∉ l1.
Proof.
  intros Hc Hn (a & b & ->)%list_elem_of_split. apply Hn.
  assert (Ha : gateway.ECancel ∈ a) by (apply (Hc a (b ++ l2)); by rewrite <-app_assoc).
  apply elem_of_app. by left.
Qed.
Lemma cancels_first_app pre post :
  gateway.EShutdown ∉ pre -> cancels_first (pre ++ gateway.ECancel :: post).
Proof.
  intros Hn l1 l2 Hl. apply app_eq_inv in Hl as [(k & -> & Hk)|(k & -> & Hk)].
  - destruct k as [|x k]; simpl in Hk; [discriminate Hk|]. injection Hk as <- Hk.
    destruct Hn. apply elem_of_app. right. left.
  - destruct k as [|x k]; simpl in Hk; [discriminate Hk|]. injection Hk as <- Hk.
    apply elem_of_app. right. left.
Qed.
Lemma run_cancels_first path :
  cancels_first (gateway_events (run path).1) /\ gateway.ECancel ∈ gateway_events (run path).1.
Proof.
  assert (Hms : forall ms : option metrics.Server,
    gateway_events (option_effects ms GoMetrics) = [] /\
    gateway_events (option_effects ms (fun _ => ShutdownMetrics)) = []) by by intros [].
  assert (Hpre : exists pre post, gateway_events (run path).1 = pre ++ gateway.ECancel :: post
    /\ gateway.EShutdown ∉ pre).
  { destruct (run_outcome path) as [| |cfg st e|cfg st ms ws _ _ _ _].
    - exists [], []. split; [done|set_solver].
    - exists [], []. split; [done|set_solver].
    - exists [gateway.EListen (net_Listen (config.WhoisAddr cfg))], []. split; [|set_solver].
      simpl. rewrite <-app_assoc. unfold gateway_events. rewrite !omap_app.
      fold (gateway_events (option_effects (metrics.NewServer reg (config.Metrics cfg)) GoMetrics)).
      by rewrite (proj1 (Hms _)).
    - exists (gateway_events (option_effects ws WhoisListen
        ++ option_effects ws (fun _ => GoWhois (whois.StoreLookup st)))). eexists. split.
      + simpl. rewrite <-!app_assoc. unfold gateway_events. rewrite !omap_app.
        fold (gateway_events (option_effects ms GoMetrics)). rewrite (proj1 (Hms _)).
        rewrite <-!app_assoc. reflexivity.
      + destruct ws; set_solver. }
  destruct Hpre as (pre & post & -> & Hn). split; [by apply cancels_first_app|set_solver].
Qed.

(** *** Resources *)

Lemma last_close (l : list effect) : last (l ++ [CloseStore; CancelContext]) = Some CancelContext.
Proof. change [CloseStore; CancelContext] with ([CloseStore] ++ [CancelContext]).
  by rewrite app_assoc, last_snoc. Qed.
Lemma elem_option_effects {A} (o : option A) e x :
  x ∈ option_effects o e <-> exists a, o = Some a /\ x = e a.
Proof. destruct o; simpl; rewrite ?list_elem_of_singleton, ?elem_of_nil; naive_solver. Qed.
Lemma released_intro path cfg body :
  CloseStore ∉ body -> (forall cfg, OpenStore cfg ∉ body) ->
  store_released (LoadConfig path :: OpenStore cfg :: body ++ [CloseStore; CancelContext]).
Proof. intros Hc Ho. by exists path, cfg, body. Qed.

(** The servers of a run, started before the signal and stopped after it. *)
Lemma served_stopped path cfg st (ms : option metrics.Server) ws srv tls :
  all_stopped
    (LoadConfig path :: OpenStore cfg ::
       ((option_effects ms GoMetrics ++ option_effects ws WhoisListen
           ++ option_effects ws (fun _ => GoWhois (whois.StoreLookup st)) ++ [GoServer srv tls])
        ++ AwaitQuit :: CancelContext :: ShutdownServer ::
           option_effects ms (fun _ => ShutdownMetrics) ++ option_effects ws (fun _ => ShutdownWhois))
       ++ [CloseStore; CancelContext]).
Proof.
  exists (LoadConfig path :: OpenStore cfg :: option_effects ms GoMetrics
    ++ option_effects ws WhoisListen ++ option_effects ws (fun _ => GoWhois (whois.StoreLookup st))
    ++ [GoServer srv tls]),
    (CancelContext :: ShutdownServer :: (option_effects ms (fun _ => ShutdownMetrics)
       ++ option_effects ws (fun _ => ShutdownWhois)) ++ [CloseStore; CancelContext]).
  split; [by rewrite <-(app_assoc _ (AwaitQuit :: _))|].
  split; [|split].
  - rewrite !elem_of_cons, !elem_of_app, !elem_option_effects, list_elem_of_singleton. naive_solver.
  - intros e s. rewrite !elem_of_cons, !elem_of_app, !elem_option_effects, list_elem_of_singleton. intros He Hs.
    destruct He as [->|[->|[(a & -> & ->)|[(a & -> & ->)|[(a & -> & ->)| -> ]]]]];
      simpl in Hs; try discriminate Hs; injection Hs as <-; naive_solver.
  - intros e. rewrite !elem_of_cons, !elem_of_app, !elem_option_effects, !elem_of_cons, elem_of_nil.
    naive_solver.
Qed.

(** ** Properties *)

Definition process_event (ev : gateway.event) : bool :=
  match ev with
  | gateway.EListen _ | gateway.ECancel | gateway.EShutdown => true
  | _ => false
  end.

(** C19: whatever the outcome, the store is closed exactly once if it was opened,
    after everything else, and the context is cancelled last; when the run
    succeeds every server it started was stopped, after the signal; and it does
    succeed when the configuration loads, the store opens, the WHOIS port binds
    and the server stops. *)
Theorem run_releases path :
  (forall cfg st, config.Load ReadFile yaml_Unmarshal path = Ok cfg ->
     store_New (config.Storage cfg) = Ok st -> store_released (run path).1)
  /\ last (run path).1 = Some CancelContext
  /\ ((run path).2 = Ok tt -> all_stopped (run path).1)
  /\ (forall cfg st, config.Load ReadFile yaml_Unmarshal path = Ok cfg ->
        store_New (config.Storage cfg) = Ok st -> shutdown_server = Ok tt ->
        (config.Whois_Enabled (config.Whois cfg) = true ->
           is_ok (net_Listen (config.WhoisAddr cfg)) = true) ->
        (run path).2 = Ok tt).
Proof.
  destruct (run_outcome path) as [e El|cfg e El Es|cfg st e El Es Hw Hl|cfg st ms ws El Es Ems Ews].
  - split_and!; [congruence|done|done|congruence].
  - split_and!; [congruence|done|done|congruence].
  - split_and!.
    + intros _ _ _ _. apply released_intro; [|intros c];
        rewrite elem_of_app, elem_option_effects, list_elem_of_singleton; naive_solver.
    + by rewrite !app_comm_cons, last_close.
    + done.
    + intros cfg' st' El' _ _ Hl'. assert (cfg' = cfg) as -> by congruence.
      specialize (Hl' Hw). by rewrite Hl in Hl'.
  - split_and!.
    + intros _ _ _ _. apply released_intro; [|intros c];
        destruct ms, ws, shutdown_server; simpl; set_solver.
    + by rewrite !app_comm_cons, last_close.
    + intros Hr. destruct shutdown_server as [u|]; [|done]. simpl. apply served_stopped.
    + intros _ _ _ _ -> _. done.
Qed.

Lemma filter_elem ev evs :
  process_event ev = true -> (ev ∈ List.filter process_event evs <-> ev ∈ evs).
Proof. intros Hp. rewrite !list_elem_of_In, List.filter_In. tauto. Qed.

(** C20: however the steps of the network and of the gateway's goroutines (the one
    that calls [Serve] included) fall between those of the process, the gateway's context is cancelled when the run
    ends, and at no moment before does the accept loop run on a closed listener:
    the endless retry on a closed listener ([Serve_spins]) is not reached. *)
Theorem run_gateway lookup addr path evs s :
  List.filter process_event evs = gateway_events (run path).1 ->
  gateway.steps lookup evs (gateway.New addr) = Some s ->
  gateway.sv_cancelled s = true
  /\ forall evs1 evs2 s1 ln, evs = evs1 ++ evs2 ->
       gateway.steps lookup evs1 (gateway.New addr) = Some s1 ->
       gateway.serving ln s1 -> gateway.closed ln s1 -> gateway.sv_cancelled s1 = true.
Proof.
  intros Hevs Hs. destruct (run_cancels_first path) as [Hfirst Hin]. rewrite <-Hevs in Hfirst, Hin. split.
  - eapply gateway.steps_cancelled; [exact Hs|]. right. by apply (filter_elem gateway.ECancel evs eq_refl).
  - intros evs1 evs2 s1 ln -> Hs1 _ (l & Hl & Ho). rewrite List.filter_app in Hfirst.
    destruct (gateway.sv_cancelled s1) eqn:Ec; [done|exfalso].
    assert (Hnc : gateway.ECancel ∉ evs1).
    { intros Hc. assert (gateway.sv_cancelled s1 = true); [|congruence].
      eapply gateway.steps_cancelled; [exact Hs1|by right]. }
    assert (Hns : gateway.EShutdown ∉ evs1).
    { rewrite <-(filter_elem gateway.EShutdown) by done.
      apply cancels_first_prefix with (1 := Hfirst). by rewrite filter_elem. }
    destruct (gateway.steps_open lookup evs1 _ _ Hs1 Hnc Hns) as [_ Hall];
      [split; [done|constructor]|].
    rewrite Forall_lookup in Hall. by rewrite (Hall _ _ Hl) in Ho.
Qed.

(** The database the configured driver opens is at rest. *)
Definition at_rest {N} (D : sql.Dialect) (w : sql.world N) : Prop :=
  sql.quiet w /\ exists db, (forall t, sql.w_tables w t = db) /\ sqlstore.keyed db.
(** The DSN the MySQL driver is given: the configured one, or the one a mysql://
    URL stands for. *)
Definition mysql_dsn (dsn formatted : string) : Prop :=
  if Strings.HasPrefix dsn mysql.scheme then
    exists u user pw, my_url_Parse dbs (mysql.strip_tcp dsn) = Ok u
      /\ (user, pw) = match mysql.u_User u with
                      | Some up => up
                      | None => (mysql.mc_User (my_NewConfig dbs), mysql.mc_Passwd (my_NewConfig dbs))
                      end
      /\ formatted = my_FormatDSN dbs (foldl mysql.set_param
           (mysql.mkDriverConfig "tcp" user pw (mysql.u_Host u)
              (Strings.TrimPrefix (mysql.u_Path u) "/") ∅
              (mysql.mc_ParseTime (my_NewConfig dbs)) (mysql.mc_Collation (my_NewConfig dbs)))
           (map_range (mysql.u_Query u)))
  else formatted = dsn.

(** The store a configuration opens: the driver's own, over the database the
    driver connects to, which has answered a ping. *)
Inductive opened (cfg : config.StorageConfig) : store.Interface -> Prop :=
  | opened_memory :
      config.Driver cfg = "memory" ->
      opened cfg (memory.interface (memory.NewMemoryStore ParseDuration now cfg))
  | opened_postgres pc w :
      config.Driver cfg = "postgres" -> pgx_ParseConfig dbs (config.DSN cfg) = Ok pc ->
      pgx_NewWithConfig dbs (postgres.mkPoolConfig
        (if decide (0 < config.MaxOpen cfg) then postgres.int32 (config.MaxOpen cfg) else postgres.MaxConns pc)
        (if decide (0 < config.MaxIdle cfg) then postgres.int32 (config.MaxIdle cfg) else postgres.MinConns pc)
        (postgres.ConnConfig pc)) = Ok w ->
      sql.run 0 (sql.PingDB (H := pgx_driver dbs) w) = Ok tt ->
      opened cfg (postgres.interface (H := pgx_dialect dbs) (H0 := pgx_driver dbs) w 1)
  | opened_mysql dsn mc db settings :
      config.Driver cfg = "mysql" -> mysql_dsn (config.DSN cfg) dsn ->
      my_ParseDSN dbs dsn = Ok mc ->
      my_Open dbs (my_FormatDSN dbs (mysql.mkDriverConfig (mysql.mc_Net mc) (mysql.mc_User mc)
        (mysql.mc_Passwd mc) (mysql.mc_Addr mc) (mysql.mc_DBName mc) (mysql.mc_Params mc) true
        (if decide (mysql.mc_Collation mc = "") then "utf8mb4_general_ci"
         else mysql.mc_Collation mc))) = Ok db ->
      settings = mysql.mkDbSettings
        (if decide (0 < config.MaxOpen cfg) then config.MaxOpen cfg else 0)
        (if decide (0 < config.MaxIdle cfg) then config.MaxIdle cfg else 2) (3600 * second) ->
      sql.run 0 (sql.PingDB (H := my_driver dbs) (db settings)) = Ok tt ->
      opened cfg (mysql.interface (H0 := my_dialect dbs) (H1 := my_driver dbs) prefix_error (db settings) 1).

Lemma normalizeMySQLDSN_iff dsn formatted :
  mysql.normalizeMySQLDSN (my_url_Parse dbs) (my_NewConfig dbs) (my_FormatDSN dbs) dsn = Ok formatted
  <-> mysql_dsn dsn formatted.
Proof.
  unfold mysql.normalizeMySQLDSN, mysql_dsn. destruct (Strings.HasPrefix _ _); simpl.
  2: { split; [by intros [= <-]|by intros ->]. }
  destruct (my_url_Parse _ _) as [u|e]; [|by split; [|intros (? & ? & ? & ? & _)]].
  destruct (mysql.u_User u) as [[user pw]|] eqn:Eu; simpl; (split; [intros [= <-]|]).
  1, 3: exists u; do 2 eexists; by rewrite Eu.
  all: intros (? & ? & ? & [= <-] & Hu & ->); rewrite Eu in Hu; by injection Hu as -> ->.
Qed.
Lemma postgres_opened cfg st :
  config.Driver cfg = "postgres" ->
  postgres.NewPostgresStore (H := pgx_dialect dbs) (H0 := pgx_driver dbs) (pgx_ParseConfig dbs)
    (pgx_NewWithConfig dbs) cfg = Ok st <-> opened cfg st.
Proof.
  intros Ed. unfold postgres.NewPostgresStore. split.
  - destruct (pgx_ParseConfig _ _) as [pc|] eqn:Ec; [|done]. simpl.
    destruct (pgx_NewWithConfig _ _) as [w|] eqn:Ew; [|done]. simpl.
    destruct (sql.run _ _) as [[]|] eqn:Ep; [|done]. intros [= <-].
    eapply opened_postgres; [done|done| |exact Ep]. rewrite !decide_ltb, <-Ew.
    by destruct (0 <? config.MaxOpen cfg), (0 <? config.MaxIdle cfg), pc.
  - intros Ho. destruct Ho as [Em|pc w _ Ec Ew Ep|dsn mc db settings Em]; [congruence| |congruence].
    rewrite Ec. simpl. rewrite !decide_ltb in Ew.
    assert (Hw : forall pool, pool = postgres.mkPoolConfig
      (if 0 <? config.MaxOpen cfg then postgres.int32 (config.MaxOpen cfg) else postgres.MaxConns pc)
      (if 0 <? config.MaxIdle cfg then postgres.int32 (config.MaxIdle cfg) else postgres.MinConns pc)
      (postgres.ConnConfig pc) -> pgx_NewWithConfig dbs pool = Ok w) by by intros ? ->.
    rewrite Hw by by destruct (0 <? config.MaxOpen cfg), (0 <? config.MaxIdle cfg), pc.
    simpl. unfold postgres.Ping. by rewrite Ep.
Qed.
Lemma mysql_opened cfg st :
  config.Driver cfg = "mysql" ->
  mysql.NewMySQLStore (H0 := my_dialect dbs) (H1 := my_driver dbs) prefix_error (my_url_Parse dbs)
    (my_NewConfig dbs) (my_FormatDSN dbs) (my_ParseDSN dbs) (my_Open dbs) cfg = Ok st
  <-> opened cfg st.
Proof.
  intros Ed. unfold mysql.NewMySQLStore. split.
  - destruct (mysql.normalizeMySQLDSN _ _ _ _) as [dsn|] eqn:En; [|done]. simpl.
    apply normalizeMySQLDSN_iff in En.
    destruct (my_ParseDSN _ _) as [mc|] eqn:Ec; [|done]. simpl.
    destruct (my_Open _ _) as [db|] eqn:Eo; [|done]. simpl.
    destruct (sql.run _ _) as [[]|] eqn:Ep; [|done]. intros [= <-].
    eapply opened_mysql; [done|exact En|exact Ec| | |exact Ep].
    + by rewrite decide_eqb.
    + by rewrite !decide_ltb.
  - intros Ho. destruct Ho as [Em|pc w Em|dsn mc db settings _ En Ec Eo -> Ep]; [congruence..|].
    apply normalizeMySQLDSN_iff in En. rewrite En. simpl. rewrite Ec. simpl.
    rewrite decide_eqb in Eo. rewrite Eo. simpl. rewrite !decide_ltb in Ep |- *.
    unfold mysql.Ping. simpl. by rewrite Ep.
Qed.

(** C16: a configuration opens a store exactly when its driver is known and every
    step of that driver's constructor succeeds (the DSN parses, the database
    opens with the pool sizes of the configuration, the ping is answered); the
    store is then the driver's own over that database, and whichever driver it is
    it meets the contract of the storage boundary, provided an SQL database is at
    rest.  An unknown driver is an error that names it. *)
Theorem store_New_spec cfg :
  (forall pool w, pgx_NewWithConfig dbs pool = Ok w -> at_rest (pgx_dialect dbs) w) ->
  (forall dsn db settings, my_Open dbs dsn = Ok db -> at_rest (my_dialect dbs) (db settings)) ->
  (forall st, store_New cfg = Ok st <-> opened cfg st)
  /\ (forall st, store_New cfg = Ok st -> store.StoreSpec st)
  /\ (config.Driver cfg ∉ ["memory"; "postgres"; "mysql"] ->
       store_New cfg = Err (ErrText ("unsupported storage driver: " +:+ config.Driver cfg))).
Proof.
  intros Hpg Hmy. assert (Ho : forall st, store_New cfg = Ok st <-> opened cfg st).
  { intros st. unfold store_New, store.New.
    destruct (String.eqb_spec (config.Driver cfg) "memory") as [Em|Em].
    { split; [intros [= <-]; by apply opened_memory|]. intros []; [done|congruence..]. }
    destruct (String.eqb_spec (config.Driver cfg) "postgres") as [Ep|Ep]; [by apply postgres_opened|].
    destruct (String.eqb_spec (config.Driver cfg) "mysql") as [Ey|Ey]; [by apply mysql_opened|].
    split; [done|]. by intros []. }
  split_and!; [done| |].
  - intros st [Em|pc w _ _ Ew _|dsn mc db settings _ _ _ Eo _ _]%Ho.
    + apply memory.interface_spec.
    + destruct (Hpg _ _ Ew) as (Hq & db & Hdb & Hk). eapply sqlstore.reads_tables_spec; [exact Hk|].
      by apply (@postgres.pg_tables_read (pgx_dialect dbs) (pgx_driver dbs)).
    + destruct (Hmy _ _ settings Eo) as (Hq & tables & Hdb & Hk).
      by eapply (@mysql.mysql_interface_spec _ (my_dialect dbs) (my_driver dbs)).
  - intros Hn. unfold store_New, store.New.
    rewrite !not_elem_of_cons in Hn. destruct Hn as (Hm & Hp & Hy & _).
    apply String.eqb_neq in Hm, Hp, Hy. by rewrite Hm, Hp, Hy.
Qed.
End run.

(** ** Witnesses *)

Section witnesses.
#[local] Existing Instances ascii_tables no_idna range_backward glob_engine auth.demo_library
  metrics.name_registry.

(** A process whose databases hold the sample tables. *)
Definition pg_tables : sql.tables postgres.ip_network_row :=
  sqlstore.sample_db (sqlstore.sample_domain "REG-A" (Some zero_time)) ["REG-A"; "888"].
Definition my_tables : sql.tables mysql.ip_network_row :=
  sqlstore.sample_db (sqlstore.sample_domain "REG-A" (Some zero_time)) ["REG-A"; "888"].
Definition demo_dbs : databases :=
  mkDatabases unit (fun _ => Ok (postgres.mkPoolConfig 4 0 tt))
    (fun _ => Ok (sqlstore.sample_world (fun _ => pg_tables)))
    (fun _ => Err (ErrText "not a URL"))
    (mysql.mkDriverConfig "" "" "" "" "" ∅ false "") (fun _ => "rdap@/rdap")
    (fun _ => Ok (mysql.mkDriverConfig "tcp" "rdap" "" "" "rdap" ∅ false ""))
    (fun _ => Ok (fun _ => sqlstore.sample_world (fun _ => my_tables)))
    sqlstore.bytes_dialect postgres.pgx sqlstore.bytes_dialect mysql.go_sql.
Definition bad_duration (s : string) : result Z := Err (ErrText "invalid duration").

Lemma store_New_spec_witness :
  exists st, store_New demo_dbs mysql.no_prefix bad_duration zero_time
      (config.mkStorageConfig "postgres" "postgres://rdap" 10 2 "") = Ok st
    /\ store.StoreSpec st.
Proof.
  destruct (store_New_spec demo_dbs mysql.no_prefix bad_duration zero_time
    (config.mkStorageConfig "postgres" "postgres://rdap" 10 2 "")) as (Ho & Hs & _).
  - intros pool w [= <-]. split; [done|]. exists pg_tables. split; [done|]. by apply sqlstore.sample_db_keyed.
  - intros dsn db settings [= <-]. split; [done|]. exists my_tables. split; [done|].
    by apply sqlstore.sample_db_keyed.
  - eexists. split; [|apply Hs]; apply Ho;
      (eapply opened_postgres; [reflexivity|reflexivity|reflexivity|vm_compute; reflexivity]).
Defined.

(** The seeded store, the WHOIS gateway on. *)
Definition demo_config : config.Config :=
  config.mkConfig (config.Server config.sample) (config.Storage config.sample)
    (config.RDAP config.sample) (config.Auth config.sample) (config.Metrics config.sample)
    (config.Rate config.sample) (config.mkWhoisConfig true 43).
Definition demo_run : P unit :=
  run demo_dbs mysql.no_prefix bad_duration zero_time (fun _ => Ok "") (fun _ => Ok demo_config)
    (fun addr => Ok addr) (Ok tt) server.demo_library auth.demo_fetch 1500 metrics.reg_empty "config.yaml".

Lemma run_releases_witness : demo_run.2 = Ok tt /\ all_stopped demo_run.1.
Proof.
  assert (E : demo_run.2 = Ok tt) by (vm_compute; reflexivity). split; [exact E|].
  destruct (run_releases demo_dbs mysql.no_prefix bad_duration zero_time (fun _ => Ok "")
    (fun _ => Ok demo_config) (fun addr => Ok addr) (Ok tt) server.demo_library auth.demo_fetch 1500
    metrics.reg_empty "config.yaml")
    as (_ & _ & L & _).
  exact (L E).
Defined.

(** The goroutine closes the listener between the cancellation and the shutdown. *)
Definition demo_steps : list gateway.event :=
  [gateway.EListen (Ok ":43"); gateway.EServe; gateway.ECancel; gateway.ECloser; gateway.EShutdown;
   gateway.EAcceptError gateway.errClosed; gateway.ESelect; gateway.ECancel].
Lemma run_gateway_witness :
  exists s, gateway.steps gateway.no_domains demo_steps (gateway.New ":43") = Some s
    /\ gateway.sv_cancelled s = true.
Proof.
  destruct (gateway.steps gateway.no_domains demo_steps (gateway.New ":43")) as [s|] eqn:E;
    [|vm_compute in E; discriminate E].
  exists s. split; [reflexivity|].
  destruct (run_gateway demo_dbs mysql.no_prefix bad_duration zero_time (fun _ => Ok "")
    (fun _ => Ok demo_config) (fun addr => Ok addr) (Ok tt) server.demo_library auth.demo_fetch 1500
    metrics.reg_empty gateway.no_domains ":43" "config.yaml" demo_steps s) as [L _];
    [vm_compute; reflexivity|exact E|exact L].
Defined.

End witnesses.
End rdapd.
