(* ===== verification/System.v ===== *)
(** * The system (cmd/rdapd down to the bytes of an answer)

    The parts put together: the process loads a configuration, opens a store and
    starts a server; a request passes the program's middleware, is routed to a
    handler, and the answer is encoded.  The theorem follows it through all of
    them, with the router, the database and the other libraries as parameters. *)

From stdpp Require Import base tactics option list gmap strings.
From Stdlib Require Import ZArith Lia.
From S2P Require Import Prelude GoStrings GoTime GoNet GoHttp Config Domain RdapModels GoJson GoJsonEncode RdapJson Rdap GoRegexp Store MemoryStore Service RdapTypes Sql SqlStore Postgres Mysql Handlers Wire Auth Middleware Server Metrics Rdapd.
#[local] Open Scope Z_scope.

Module system.
Import encoder middleware server rdapd wire rdaptypes.

(** ** Specifications *)

(** A router picks a route of the table. *)
Class RouterSpec (lib : library) :=
  route_match_in rs r rt U : route_match lib rs r = Some (rt, U) -> rt ∈ rs.

(** The program's headers around a handler of the server. *)
Definition headed (w : Response handlers.body) : Response handlers.body :=
  set_headers security_headers (set_header "Content-Type" "application/rdap+json" w).
Definition secured (w : Response handlers.body) : Prop :=
  forall k v, (k, v) ∈ security_headers -> rs_header w !! k = Some [v].
(** A typed RDAP document, of the class the route promises. *)
Definition typed_answer (rt : handlers.route) (w : Response handlers.body) : Prop :=
  exists status b v, rs_status w = Some status /\ rs_body w = [b]
    /\ rs_header w !! "Content-Type" = Some ["application/rdap+json"]
    /\ json.parse (body_text b) = Some v
    /\ has max_depth v (TRef (answer_class (handlers.rt_pattern rt) status)).
Definition healthy (version : string) (w : Response handlers.body) : Prop :=
  rs_status w = Some 200
  /\ rs_header w !! "Content-Type" = Some ["application/health+json"]
  /\ body_text <$> rs_body w = [quoted "{`status`:`ok`,`version`:`" +:+ version +:+ quoted "`}"].

Section system.
Context `{UnicodeTables} `{Idna} `{auth.JwtLibrary}.

(** The request may reach a route: no authentication is asked for, or its token is
    accepted. *)
Definition admitted (fetch : string -> auth.fetched) (now : Z) (cfg : config.Config)
    (r : Request) (s : state) : Prop :=
  config.Auth_Enabled (config.Auth cfg) = false
  \/ exists token c j, bearer r = inl token
       /\ auth.ValidateToken fetch token now (st_auth s) = (auth.Returned (Ok c), j).

(** ** Lemmas *)

Lemma headed_fresh w :
  rs_status w = None -> rs_body w = [] -> rs_status (headed w) = None /\ rs_body (headed w) = [].
Proof. intros Hs Hb. unfold headed. by rewrite !(proj1 (set_headers_status _ _)), !(proj2 (set_headers_status _ _)). Qed.
Lemma secured_headed w : secured (headed w).
Proof. intros k v. apply security_headers_lookup. Qed.
Lemma secured_content_type w w' t :
  secured w -> rs_header w' = <["Content-Type" := t]> (rs_header w) -> secured w'.
Proof.
  intros Hw E k v Hk. rewrite E. pose proof (security_header_names k v Hk) as [_ Hn].
  rewrite lookup_insert_ne by done. by apply Hw.
Qed.

Lemma not_health (h : handlers.Handler) rt :
  rt ∈ handlers.RegisterRoutes h -> String.eqb (handlers.rt_pattern rt) "/healthz" = false.
Proof.
  unfold handlers.RegisterRoutes, handlers.get_head.
  destruct (config.SearchEnabled (handlers.h_cfg h)); simpl;
    rewrite !elem_of_cons, elem_of_nil; intros Hrt; by repeat destruct Hrt as [->|Hrt].
Qed.
Lemma route_typed (h : handlers.Handler) rt U r w :
  rt ∈ handlers.RegisterRoutes h -> rs_status w = None -> rs_body w = [] -> secured w ->
  secured (handlers.rt_handler rt U r w) /\ typed_answer rt (handlers.rt_handler rt U r w).
Proof.
  intros Hrt Hs Hb Hw. destruct (route_types h rt U r Hrt) as (st & b & v & -> & Ev & Hv).
  rewrite writeJSON_sent by done. split; [by apply (secured_content_type w _ ["application/rdap+json"])|].
  exists st, b, (scrub v). split_and!; [done|done|apply lookup_insert_eq|..]; unfold answer_class;
    destruct (st =? 200); try eapply body_text_typed; try done; by apply has_scrub.
Qed.
Lemma healthz_healthy cfg U r w :
  rs_status w = None -> rs_body w = [] -> secured w ->
  secured (healthz cfg U r w) /\ healthy (config.Version (config.RDAP cfg)) (healthz cfg U r w).
Proof.
  intros Hs Hb Hw. unfold healthz, write_body, write_header, set_header. rewrite Hs. simpl. split.
  - by apply (secured_content_type w _ ["application/health+json"]).
  - split; [done|]. simpl. rewrite Hb. split; [apply lookup_insert_eq|done].
Qed.

(** What an admitted request gets is the answer of the route. *)
Lemma inner_admitted lib fetch now cfg rs r ctx s w rt U :
  admitted fetch now cfg r s -> route_match lib rs r = Some (rt, U) ->
  (inner lib fetch now cfg rs r ctx s w).1 = Some (handlers.rt_handler rt U r (headed w)).
Proof.
  intros Ha Hm. unfold inner, RDAPContentType, SecurityHeaders. fold (headed w).
  assert (E : forall ctx s, (Metrics (dispatch lib rs) r ctx s (headed w)).1
              = Some (handlers.rt_handler rt U r (headed w))).
  { intros ctx' s'. rewrite Metrics_transparent. unfold dispatch. by rewrite Hm. }
  destruct (config.Auth_Enabled (config.Auth cfg)) eqn:Ee; [|apply E].
  destruct Ha as [Ha|(token & c & j & Hb & Hv)]; [congruence|].
  unfold Authenticate. rewrite Hb, Hv. apply E.
Qed.
Lemma inner_refused lib fetch now cfg rs r ctx s w :
  rs_status w = None -> rs_body w = [] -> ~ admitted fetch now cfg r s ->
  match (inner lib fetch now cfg rs r ctx s w).1 with
  | Some w' => refused (headed w) w'
  | None => exists token, bearer r = inl token
      /\ (auth.ValidateToken fetch token now (st_auth s)).1 = auth.Panicked
  end.
Proof.
  intros Hs Hb Ha. unfold inner, RDAPContentType, SecurityHeaders. fold (headed w).
  destruct (config.Auth_Enabled (config.Auth cfg)) eqn:Ee; [|by destruct Ha; left].
  destruct (headed_fresh w Hs Hb) as [Hs' Hb'].
  apply Authenticate_refuses; [done|done|]. intros token c j Hr Hv. apply Ha. right. by exists token, c, j.
Qed.

(** The servers a run starts. *)
Context `{MapRange} `{RegexpEngine} `{metrics.Registry}.
Context (dbs : databases) (prefix_error : string -> error).
Context (ParseDuration : string -> result Z) (now : Time).
Context (ReadFile : string -> result string) (yaml_Unmarshal : string -> result config.Config).
Context (net_Listen : string -> result string) (shutdown_server : result unit).
Context (lib : library) (fetch : string -> auth.fetched) (unix_now : Z).
Context (reg : metrics.registry).

Definition process (path : string) : P unit :=
  run dbs prefix_error ParseDuration now ReadFile yaml_Unmarshal net_Listen shutdown_server
    lib fetch unix_now reg path.
#[local] Ltac mem :=
  repeat first [rewrite elem_of_cons|rewrite elem_of_app|rewrite elem_option_effects|rewrite elem_of_nil].
Lemma process_starts path srv tls :
  GoServer srv tls ∈ (process path).1 ->
  exists cfg st, config.Load ReadFile yaml_Unmarshal path = Ok cfg
    /\ store_New dbs prefix_error ParseDuration now (config.Storage cfg) = Ok st
    /\ srv = New lib fetch unix_now cfg st.
Proof.
  unfold process. intros Hin.
  destruct (run_outcome dbs prefix_error ParseDuration now ReadFile yaml_Unmarshal net_Listen
              shutdown_server lib fetch unix_now reg path) as [| |cfg st e|cfg st ms ws El Es _ _];
    revert Hin; mem.
  1-3: naive_solver.
  intros Hin. exists cfg, st. split_and!; [done..|]. revert Hin.
  destruct (is_ok shutdown_server); mem; naive_solver.
Qed.

Lemma process_serves path cfg st :
  config.Load ReadFile yaml_Unmarshal path = Ok cfg ->
  store_New dbs prefix_error ParseDuration now (config.Storage cfg) = Ok st ->
  is_ok (net_Listen (config.WhoisAddr cfg)) = true ->
  GoServer (New lib fetch unix_now cfg st) (tls_files (config.Server cfg)) ∈ (process path).1.
Proof.
  intros El Est Hl. unfold process, run. rewrite El. simpl. rewrite Est. simpl. unfold whois_start.
  destruct (metrics.NewServer reg (config.Metrics cfg)), (config.Whois_Enabled (config.Whois cfg)); simpl;
    destruct (net_Listen (config.WhoisAddr cfg)); simpl in *; try discriminate Hl;
    destruct shutdown_server; simpl; mem; tauto.
Qed.

(** ** Properties *)

(** C7: the whole program: whatever the configuration file, the database and the
    requests hold, a server the process starts serves, inside the third-party
    wrappers, a handler that answers every request that is admitted and matches a
    route: the health check with its fixed document, any other route with one JSON
    document, sent as application/rdap+json and typed by the class the route
    promises (or the error class, when the status is not 200), the security headers
    on both.  A request that is not admitted gets a 401 with a bearer challenge, or
    its handler panicked in the token check. *)
Theorem process_answers `{!RouterSpec lib} path srv tls r ctx s (w : Response handlers.body) :
  GoServer srv tls ∈ (process path).1 -> rs_status w = None -> rs_body w = [] ->
  exists cfg st, config.Load ReadFile yaml_Unmarshal path = Ok cfg
  /\ store_New dbs prefix_error ParseDuration now (config.Storage cfg) = Ok st
  /\ srv_Handler srv = outer lib cfg (inner lib fetch unix_now cfg (routes cfg st))
  /\ let answer := (inner lib fetch unix_now cfg (routes cfg st) r ctx s w).1 in
     (admitted fetch unix_now cfg r s ->
        match route_match lib (routes cfg st) r with
        | Some (rt, _) => exists w', answer = Some w' /\ secured w'
            /\ if String.eqb (handlers.rt_pattern rt) "/healthz"
               then healthy (config.Version (config.RDAP cfg)) w' else typed_answer rt w'
        | None => True
        end)
     /\ (~ admitted fetch unix_now cfg r s ->
        match answer with
        | Some w' => refused (headed w) w'
        | None => exists token, bearer r = inl token
            /\ (auth.ValidateToken fetch token unix_now (st_auth s)).1 = auth.Panicked
        end).
Proof.
  intros Hg Hs Hb. destruct (process_starts path srv tls Hg) as (cfg & st & El & Est & ->).
  exists cfg, st. do 3 (split; [done|]). split; [|by apply inner_refused].
  intros Ha. destruct (route_match lib _ r) as [[rt U]|] eqn:Em; [|done].
  destruct (headed_fresh w Hs Hb) as [Hs' Hb']. pose proof (secured_headed w) as Hw.
  eexists. split; [by apply inner_admitted|].
  pose proof (route_match_in _ _ _ _ Em) as Hin. unfold routes in Hin.
  apply elem_of_app in Hin as [Hin| ->%list_elem_of_singleton]; [|by apply healthz_healthy].
  destruct (route_typed _ rt U r (headed w) Hin Hs' Hb' Hw) as [Hsec Ht]. split; [done|].
  by rewrite (not_health _ rt Hin).
Qed.

End system.

(** ** Witness: a process with the seeded store, asked for the seeded domain *)

Section witnesses.
#[local] Existing Instances ascii_tables no_idna range_backward glob_engine auth.demo_library
  metrics.name_registry.

(** A router for paths of one parameter and exact ones. *)
Definition domain_param (path : string) : option string :=
  if String.prefix "/domain/" path then Some (Strings.TrimPrefix path "/domain/") else None.
Definition path_match (rs : list handlers.route) (r : Request)
    : option (handlers.route * (string -> string)) :=
  let find p := List.find (fun rt => String.eqb (handlers.rt_pattern rt) p) rs in
  match domain_param (rq_path r) with
  | Some name => (fun rt => (rt, handlers.param "domainName" name)) <$> find "/domain/{domainName}"
  | None => (fun rt => (rt, fun _ => "")) <$> find (rq_path r)
  end.
Definition path_library : library :=
  mkLibrary id (fun _ => id) id (fun _ => id) (fun _ => id) (fun _ _ => id) path_match
    (plain_handler (fun _ => http_Error "404 page not found" 404)).
#[local] Instance path_router : RouterSpec path_library.
Proof.
  intros rs r rt U. cbn. unfold path_match.
  destruct (domain_param (rq_path r)); intros (rt' & E & [= -> ->])%fmap_Some;
    apply find_some in E as [E _]; by apply list_elem_of_In.
Qed.

#[local] Abbreviation demo_process :=
  (process demo_dbs mysql.no_prefix bad_duration zero_time (fun _ => Ok "") (fun _ => Ok demo_config)
     (fun addr => Ok addr) (Ok tt) path_library auth.demo_fetch 1500 metrics.reg_empty "config.yaml").
(** The configuration with its defaults, the store it opens and what a request gets. *)
Definition loaded : config.Config :=
  match config.Load (fun _ => Ok "") (fun _ => Ok demo_config) "config.yaml" with
  | Ok cfg => cfg
  | Err _ => demo_config
  end.
Example demo_load : config.Load (fun _ => Ok "") (fun _ => Ok demo_config) "config.yaml" = Ok loaded.
Proof. vm_compute. reflexivity. Qed.
Definition seeded : store.Interface :=
  memory.interface (memory.NewMemoryStore bad_duration zero_time (config.Storage loaded)).
Example demo_opened : store_New demo_dbs mysql.no_prefix bad_duration zero_time (config.Storage loaded) = Ok seeded.
Proof. reflexivity. Qed.
Definition demo_request : Request := handlers.demo_request "/domain/EXAMPLE.com." "".
Definition demo_answer : option (Response handlers.body) :=
  (inner path_library auth.demo_fetch 1500 loaded (routes loaded seeded) demo_request background
     (initial_state (config.Auth loaded)) empty_response).1.
Definition demo_route : option string :=
  (fun m => handlers.rt_pattern m.1) <$> path_match (routes loaded seeded) demo_request.
Example demo_status : demo_answer ≫= rs_status = Some 200.
Proof. vm_compute. reflexivity. Qed.
Example demo_routed : demo_route = Some "/domain/{domainName}".
Proof. vm_compute. reflexivity. Qed.
Example demo_started : exists srv, GoServer srv None ∈ demo_process.1.
Proof.
  eexists. apply (process_serves _ _ _ _ _ _ _ _ _ _ _ _ _ loaded seeded); [exact demo_load|exact demo_opened|].
  reflexivity.
Qed.

Lemma process_answers_witness :
  exists rt w, handlers.rt_pattern rt = "/domain/{domainName}"
    /\ demo_answer = Some w /\ rs_status w = Some 200 /\ typed_answer rt w.
Proof.
  destruct demo_started as [srv Hsrv].
  destruct (process_answers demo_dbs mysql.no_prefix bad_duration zero_time (fun _ => Ok "")
    (fun _ => Ok demo_config) (fun addr => Ok addr) (Ok tt) path_library auth.demo_fetch 1500
    metrics.reg_empty "config.yaml" srv None demo_request background
    (initial_state (config.Auth loaded)) empty_response Hsrv eq_refl eq_refl)
    as (cfg & st & El & Est & _ & Ha & _).
  rewrite demo_load in El. injection El as <-. rewrite demo_opened in Est. injection Est as <-.
  specialize (Ha (or_introl eq_refl)). pose proof demo_routed as Er. pose proof demo_status as Es.
  unfold demo_route in Er. change (route_match path_library) with path_match in Ha.
  destruct (path_match (routes loaded seeded) demo_request) as [[rt U]|]; [|discriminate Er].
  simpl in Er. injection Er as Er. destruct Ha as (w & Hw & _ & Ht). fold demo_answer in Hw.
  rewrite Er in Ht. rewrite Hw in Es. exists rt, w. split; [exact Er|]. split; [exact Hw|].
  split; [exact Es|]. exact Ht.
Defined.

End witnesses.
End system.
